(** * Verification of the LWL / fault-data decoders

    Shallow embedding of the two decoders of the repository,

    - [modules/fault/logfmt.py] (section framing, fault record, circular
      LWL buffer), embedded in [Module Logfmt];
    - [modules/lwl/lwl.py] (the stand-alone LWL dump decoder), embedded in
      [Module Lwl];

    followed by the theorems about them.  Python integers are [Z]; a
    [bytearray] is a [list byte]; a [dict] keyed by integers is a
    [gmap Z _]; a [str] is a [string].  Exceptions are values of [exn];
    [print] appends to a log of structured lines that is kept when an
    exception unwinds. *)

From Stdlib Require Import ZArith List String Ascii Bool Lia DecimalString.
From Stdlib.Strings Require Import Byte.
From stdpp Require Import base gmap list.

Local Open Scope Z_scope.

(** ** Python run-time behaviour shared by the two programs *)

Module Py.

(** The exceptions the two programs can raise. *)
Inductive exn : Type :=
| EOFError
| IndexError
| TypeError
| ValueError
| UnboundLocalError
| OverflowError.

(** Outcome of running a piece of code: a value, an exception, or [Fuel]
    when a [while] loop was cut after the number of iterations granted to
    it (theorems show which loops never need more, and which loop never
    ends). *)
Inductive outcome (A : Type) : Type :=
| Ok (a : A)
| Raise (e : exn)
| Fuel.
Arguments Ok {A} a.
Arguments Raise {A} e.
Arguments Fuel {A}.

Definition bind {A B} (m : outcome A) (f : A -> outcome B) : outcome B :=
  match m with
  | Ok a => f a
  | Raise e => Raise e
  | Fuel => Fuel
  end.

(** Result of a built-in of the language: a value or an exception. *)
Definition call {A} (r : A + exn) : outcome A :=
  match r with
  | inl a => Ok a
  | inr e => Raise e
  end.

(** Element of a [bytearray] as a Python int. *)
Definition byte_val (b : byte) : Z := Z.of_N (Byte.to_N b).

(** [data[i]] on a bytearray: a negative index counts from the end, an
    index out of range raises [IndexError]. *)
Definition getitem (data : list byte) (i : Z) : outcome Z :=
  let n := Z.of_nat (length data) in
  let j := if i <? 0 then i + n else i in
  if (j <? 0) || (n <=? j) then Raise IndexError
  else match nth_error data (Z.to_nat j) with
       | Some b => Ok (byte_val b)
       | None => Raise IndexError
       end.

(** Code that prints: its outcome together with the lines it printed, in
    order.  The lines stay when the outcome is an exception. *)
Definition io (L A : Type) : Type := (outcome A * list L)%type.

Definition io_ret {L A} (a : A) : io L A := (Ok a, []).

Definition io_bind {L A B} (m : io L A) (f : A -> io L B) : io L B :=
  match m with
  | (Ok a, out) => let '(r, out') := f a in (r, out ++ out')
  | (Raise e, out) => (Raise e, out)
  | (Fuel, out) => (Fuel, out)
  end.

(** [print(...)]. *)
Definition print {L} (l : L) : io L unit := (Ok tt, [l]).

(** Code that prints nothing. *)
Definition lift {L A} (m : outcome A) : io L A := (m, []).

(** [range(n)] as the list of its values. *)
Definition range (n : Z) : list Z := map Z.of_nat (seq 0 (Z.to_nat n)).

(** [int(c)] for a one-character string: a decimal digit, else
    [ValueError]. *)
Definition int_of_char (c : ascii) : outcome Z :=
  let n := Z.of_nat (nat_of_ascii c) in
  if (48 <=? n) && (n <=? 57) then Ok (n - 48) else Raise ValueError.

End Py.
Import Py.

Declare Scope py_scope.
Delimit Scope py_scope with py.
Notation "'let*' x ':=' m 'in' k" := (Py.bind m (fun x => k))
  (at level 10, x name, m at level 100, k at level 200) : py_scope.
Notation "'let*' ' p ':=' m 'in' k" :=
  (Py.bind m (fun x => match x with p => k end))
  (at level 10, p pattern, m at level 100, k at level 200) : py_scope.
Notation "'letp' x ':=' m 'in' k" := (Py.io_bind m (fun x => k))
  (at level 10, x name, m at level 100, k at level 200) : py_scope.
Notation "m ';;' k" := (Py.io_bind m (fun _ => k))
  (at level 100, k at level 200, right associativity) : py_scope.
Local Open Scope py_scope.

(** ** modules/fault/logfmt.py *)

Module Logfmt.

(** *** class Data *)

(** [Data.data_array]; [read_data_file] ends with
    [self.data_len = len(self.data_array)], so [data_len] is read off the
    array. *)
Record Data : Type := { data_array : list byte }.

Definition data_len (d : Data) : Z := Z.of_nat (length (data_array d)).

Definition MOD_MAGIC_FAULT : Z := 0xdead0001.
Definition MOD_MAGIC_LWL : Z := 0xf00d0001.
Definition MOD_MAGIC_TRAILER : Z := 0xc0da0001.

Inductive section_type : Type :=
| SECTION_TYPE_FAULT
| SECTION_TYPE_LWL
| SECTION_TYPE_TRAILER.

(** The class attribute [magic_to_fault_type]; [None] is [magic not in
    self.magic_to_fault_type]. *)
Definition magic_to_fault_type (magic : Z) : option section_type :=
  if magic =? MOD_MAGIC_FAULT then Some SECTION_TYPE_FAULT
  else if magic =? MOD_MAGIC_LWL then Some SECTION_TYPE_LWL
  else if magic =? MOD_MAGIC_TRAILER then Some SECTION_TYPE_TRAILER
  else None.

(** Body of the [for] loop of [Data.get_data], [n] iterations left.
    [g_swab] is the module global the method reads. *)
Fixpoint get_data_loop (g_swab : bool) (d : Data) (n : nat)
    (idx value shift : Z) : outcome Z :=
  match n with
  | O => Ok value
  | S n' =>
      if data_len d <=? idx then Raise EOFError
      else
        let* b := getitem (data_array d) idx in
        if g_swab
        then get_data_loop g_swab d n' (idx + 1) (Z.shiftl value 8 + b) shift
        else get_data_loop g_swab d n' (idx + 1) (value + Z.shiftl b shift)
                           (shift + 8)
  end.

(** [Data.get_data(idx, num_bytes)]. *)
Definition get_data (g_swab : bool) (d : Data) (idx num_bytes : Z)
    : outcome Z :=
  get_data_loop g_swab d (Z.to_nat num_bytes) idx 0 0.

(** Index advance shared by the circular readers:
    [idx = idx + 1; if idx >= buf_len: idx = 0]. *)
Definition circ_next (buf_len idx : Z) : Z :=
  if buf_len <=? idx + 1 then 0 else idx + 1.

(** Body of the [for] loop of [Data.get_data_circ]. *)
Fixpoint get_data_circ_loop (d : Data) (n : nat)
    (idx value buf_start_idx buf_len put_idx : Z) (first_get : bool)
    : outcome (Z * Z) :=
  match n with
  | O => Ok (value, idx)
  | S n' =>
      if (idx =? put_idx) && negb first_get then Raise EOFError
      else
        let* b := getitem (data_array d) (buf_start_idx + idx) in
        get_data_circ_loop d n' (circ_next buf_len idx)
          (Z.shiftl value 8 + b) buf_start_idx buf_len put_idx first_get
  end.

(** [Data.get_data_circ(idx, num_bytes, buf_start_idx, buf_len, put_idx,
    first_get)], returning [(value, idx)].  The method does not read
    [g_swab]. *)
Definition get_data_circ (d : Data)
    (idx num_bytes buf_start_idx buf_len put_idx : Z) (first_get : bool)
    : outcome (Z * Z) :=
  if buf_len <=? idx then Raise IndexError
  else if buf_len <=? put_idx then Raise IndexError
  else get_data_circ_loop d (Z.to_nat num_bytes) idx 0 buf_start_idx buf_len
         put_idx first_get.

(** Body of the [for] loop of [Data.get_bytes_left_circ]; [break] returns
    the current [(bytes_left, idx)]. *)
Fixpoint get_bytes_left_circ_loop (n : nat)
    (idx bytes_left buf_len put_idx : Z) (first_get : bool) : Z * Z :=
  match n with
  | O => (bytes_left, idx)
  | S n' =>
      if (idx =? put_idx) && negb first_get then (bytes_left, idx)
      else get_bytes_left_circ_loop n' (circ_next buf_len idx)
             (bytes_left + 1) buf_len put_idx first_get
  end.

(** [Data.get_bytes_left_circ(idx, num_to_check_for, buf_start_idx,
    buf_len, put_idx, first_get)], returning [(bytes_left, idx)]. *)
Definition get_bytes_left_circ
    (idx num_to_check_for buf_start_idx buf_len put_idx : Z)
    (first_get : bool) : outcome (Z * Z) :=
  if buf_len <=? idx then Raise IndexError
  else if buf_len <=? put_idx then Raise IndexError
  else Ok (get_bytes_left_circ_loop (Z.to_nat num_to_check_for) idx 0 buf_len
             put_idx first_get).

(** *** Printed lines

    One constructor per [print] statement of the program, carrying the
    values substituted into its text. *)
Inductive printed : Type :=
| PRule                                   (* print('=' * 80) *)
| PText (s : string)                      (* a literal line *)
| PErrHeader (idx data_len : Z)
    (* 'ERROR: Insufficient bytes for a section header idx=%d data_len=%d' *)
| PErrMagic (idx : Z)
    (* 'ERROR: Can not determine section type at idx %d' *)
| PErrSection (idx section_len data_len : Z)
    (* 'ERROR: Insufficient bytes for a section header idx=%d
        section_len=%d data_len=%d' *)
| PFaultField (width : Z) (name : string) (value : Z)
    (* '%*s: 0x%08x (%d)' *)
| PErrLwlSize (section_len : Z)
    (* 'ERROR: Insufficient LWL buffer size - %d bytes' *)
| PErrLwlBufLen (buf_len : Z)
    (* 'ERROR: Invalid LWL buf_len: %d bytes' *)
| PErrLwlPutIdx
    (* 'ERROR: Invalid lwl put_idx: %d', printed as it stands *)
| PSkipped (skipped_data : list Z)
    (* 'Skipped data (hex): %s' *)
| PMsg (line : string)
    (* the value of msg_meta.fmt % tuple(arg_values) *)
| PUnused (unused_data : list Z)
    (* 'Unused data (hex): %s' *)
| PDuplicate (file_path : string) (line_num id : Z) (lwl_statement : string)
    (prev_file_path : string) (prev_line_num : Z)
    (prev_lwl_statement : string)
    (* '%s:%d Duplicate LWL ID %d: %s, previously at %s:%d: %s' *)
| PErrArgBytes (file_path : string) (line_num check declared : Z)
    (lwl_statement : string)
    (* 'ERROR: %s:%d Inconsistent num arg bytes (%d vs %d) in %s' *)
| PErrNoBaseId (file_path : string) (line_num : Z).
    (* 'ERROR: %s:%d No #define LWL_BASE_ID present' *)

Abbreviation io := (Py.io printed).

(** *** class FaultField, class FaultData *)

Record FaultField : Type := {
  name : string;
  offset : Z;
  num_bytes : Z
}.

Record FaultData : Type := {
  fields : list FaultField;
  max_name_len : Z
}.

(** [FaultData.add_fault_field(name, offset, num_bytes)]. *)
Definition add_fault_field (self : FaultData) (name : string)
    (offset num_bytes : Z) : FaultData :=
  let len_name := Z.of_nat (String.length name) in
  {| fields := fields self ++ [Build_FaultField name offset num_bytes];
     max_name_len := if max_name_len self <? len_name then len_name
                     else max_name_len self |}.

(** *** class LwlMsg, class LwlMsgSet *)

Record LwlMsg : Type := {
  id : Z;
  fmt : string;
  arg_bytes : string;
  file_path : string;
  line_num : Z;
  lwl_statement : string;
  num_arg_bytes : Z
}.

(** [for d in s: acc += int(d)]. *)
Fixpoint sum_int_chars (s : string) (acc : Z) : outcome Z :=
  match s with
  | EmptyString => Ok acc
  | String d s' => let* v := int_of_char d in sum_int_chars s' (acc + v)
  end.

(** [LwlMsg.__init__]. *)
Definition LwlMsg_init (id : Z) (fmt arg_bytes file_path : string)
    (line_num : Z) (lwl_statement : string) : outcome LwlMsg :=
  let* n := sum_int_chars arg_bytes 0 in
  Ok {| id := id; fmt := fmt; arg_bytes := arg_bytes;
        file_path := file_path; line_num := line_num;
        lwl_statement := lwl_statement; num_arg_bytes := n |}.

Record LwlMsgSet : Type := {
  lwl_msgs : gmap Z LwlMsg;
  max_msg_len : Z
}.

(** [LwlMsgSet.__init__]. *)
Definition LwlMsgSet_init : LwlMsgSet :=
  {| lwl_msgs := ∅; max_msg_len := 0 |}.

(** [LwlMsgSet.add_lwl_msg(id, fmt, arg_bytes, lwl_statement, file_path,
    line_num)]: the returned flag and the set afterwards. *)
Definition add_lwl_msg (self : LwlMsgSet) (id : Z) (fmt arg_bytes : string)
    (lwl_statement file_path : string) (line_num : Z)
    : io (bool * LwlMsgSet) :=
  match lwl_msgs self !! id with
  | Some prev =>
      print (PDuplicate file_path line_num id lwl_statement
               (Logfmt.file_path prev) (Logfmt.line_num prev)
               (Logfmt.lwl_statement prev)) ;;
      io_ret (false, self)
  | None =>
      letp msg := lift (LwlMsg_init id fmt arg_bytes file_path line_num
                          lwl_statement) in
      letp msg_len := lift (sum_int_chars arg_bytes 1) in
      io_ret (true,
              {| lwl_msgs := <[id := msg]> (lwl_msgs self);
                 max_msg_len := if max_msg_len self <? msg_len then msg_len
                                else max_msg_len self |})
  end.

(** [LwlMsgSet.get_metadata(id)]; [None] is Python's [None]. *)
Definition get_metadata (self : LwlMsgSet) (id : Z) : option LwlMsg :=
  lwl_msgs self !! id.

(** *** Module globals

    [g_swab] is assigned once, at module level, to [False]; [g_data],
    [g_fault_data] and [g_lwl_msg_set] are the three module-level
    objects. *)
Record Globals : Type := {
  g_swab : bool;
  g_data : Data;
  g_fault_data : FaultData;
  g_lwl_msg_set : LwlMsgSet
}.

Section Decoder.

(** The [%] operator applied to a format string and a tuple of ints, a
    built-in of the language: the text, or the exception it raises (a slot
    count that differs from the tuple's length raises [TypeError]). *)
Variable format_percent : string -> list Z -> string + exn.

(** The module globals the decoder reads. *)
Variable G : Globals.

(** *** FaultData.pretty_print *)

(** The [for field in self.fields] loop. *)
Fixpoint FaultData_print_fields (fs : list FaultField) (section_offset : Z)
    : io unit :=
  match fs with
  | [] => io_ret tt
  | field :: fs' =>
      if String.prefix "pad" (name field)
         || String.eqb (name field) "magic"
         || String.eqb (name field) "num_section_bytes"
      then FaultData_print_fields fs' section_offset
      else
        letp value := lift (get_data (g_swab G) (g_data G)
                              (section_offset + offset field)
                              (num_bytes field)) in
        print (PFaultField (max_name_len (g_fault_data G)) (name field)
                 value) ;;
        FaultData_print_fields fs' section_offset
  end.

(** [FaultData.pretty_print(section_offset, section_len)] on
    [g_fault_data]. *)
Definition FaultData_pretty_print (section_offset section_len : Z)
    : io unit :=
  print PRule ;; print (PText "Fault data") ;; print PRule ;;
  FaultData_print_fields (fields (g_fault_data G)) section_offset.

(** *** LwlPrinter.get_optimal_start_idx *)

(** The counters of one trial when its [while] loop is left. *)
Record trial : Type := {
  invalid_id_ctr : Z;
  valid_id_ctr : Z;
  bytes_left : Z
}.

(** The [while (True)] loop of one trial.  [EOFError] from the id read and
    too few argument bytes both [break]. *)
Fixpoint trial_loop (fuel : nat) (buf_start_idx buf_len put_idx : Z)
    (idx : Z) (first_get : bool) (t : trial) : outcome trial :=
  match fuel with
  | O => Fuel
  | S fuel' =>
      match get_data_circ (g_data G) idx 1 buf_start_idx buf_len put_idx
              first_get with
      | Raise EOFError => Ok t
      | Raise e => Raise e
      | Fuel => Fuel
      | Ok (id, idx) =>
          let first_get := false in
          match get_metadata (g_lwl_msg_set G) id with
          | None =>
              trial_loop fuel' buf_start_idx buf_len put_idx idx first_get
                {| invalid_id_ctr := invalid_id_ctr t + 1;
                   valid_id_ctr := valid_id_ctr t;
                   bytes_left := bytes_left t |}
          | Some msg_meta =>
              let* '(bytes_left, idx) :=
                get_bytes_left_circ idx (num_arg_bytes msg_meta)
                  buf_start_idx buf_len put_idx first_get in
              if bytes_left <? num_arg_bytes msg_meta
              then Ok {| invalid_id_ctr := invalid_id_ctr t;
                         valid_id_ctr := valid_id_ctr t;
                         bytes_left := bytes_left + 1 |}
              else
                trial_loop fuel' buf_start_idx buf_len put_idx idx first_get
                  {| invalid_id_ctr := invalid_id_ctr t;
                     valid_id_ctr := valid_id_ctr t + 1;
                     bytes_left := bytes_left |}
          end
      end
  end.

(** [start_idx] of the trial at [offset]. *)
Definition trial_start_idx (buf_len put_idx offset : Z) : Z :=
  let start_idx := put_idx + offset in
  if buf_len <=? start_idx then start_idx - buf_len else start_idx.

(** The trial at [offset]: the body of the [for offset] loop up to the
    end of its [while] loop. *)
Definition run_trial (fuel : nat) (buf_start_idx buf_len put_idx offset : Z)
    : outcome trial :=
  trial_loop fuel buf_start_idx buf_len put_idx
    (trial_start_idx buf_len put_idx offset) (offset =? 0)
    {| invalid_id_ctr := 0; valid_id_ctr := 0; bytes_left := 0 |}.

(** The [for offset in range(...)] loop, with the running
    [optimal_invalid_ids] and [optimal_start_idx]. *)
Fixpoint offsets_loop (fuel : nat) (buf_start_idx buf_len put_idx : Z)
    (offsets : list Z) (optimal_invalid_ids : Z)
    (optimal_start_idx : option Z) : outcome (option Z) :=
  match offsets with
  | [] => Ok optimal_start_idx
  | offset :: offsets' =>
      let* t := run_trial fuel buf_start_idx buf_len put_idx offset in
      if invalid_id_ctr t <? optimal_invalid_ids
      then offsets_loop fuel buf_start_idx buf_len put_idx offsets'
             (invalid_id_ctr t)
             (Some (trial_start_idx buf_len put_idx offset))
      else offsets_loop fuel buf_start_idx buf_len put_idx offsets'
             optimal_invalid_ids optimal_start_idx
  end.

(** [LwlPrinter.get_optimal_start_idx(buf_start_idx, buf_len, put_idx)];
    [None] is the initial [optimal_start_idx = None] returned unchanged. *)
Definition get_optimal_start_idx (fuel : nat)
    (buf_start_idx buf_len put_idx : Z) : outcome (option Z) :=
  offsets_loop fuel buf_start_idx buf_len put_idx
    (range (max_msg_len (g_lwl_msg_set G) + 1)) buf_len None.

(** *** LwlPrinter.pretty_print *)

(** The names [id], [id_idx] and [first_get] at the moment [EOFError]
    leaves the [try] block. *)
Record at_eof : Type := {
  eof_id : option Z;
  eof_id_idx : option Z;
  eof_first_get : bool
}.

(** How the inner [while True] loop (the search for a message id) ends:
    with [break] on a known id, or with [EOFError]. *)
Inductive id_search : Type :=
| IdFound (id id_idx : Z) (msg_meta : LwlMsg) (idx : Z)
    (skipped_data : list Z)
| IdEof (st : at_eof).

(** The inner [while True] loop.  [id] is [None] on entry and the last
    byte read afterwards; [id_idx = idx] is assigned before each read. *)
Fixpoint find_id (fuel : nat) (buf_start_idx buf_len put_idx : Z)
    (idx : Z) (first_get : bool) (id : option Z) (skipped_data : list Z)
    : outcome id_search :=
  match fuel with
  | O => Fuel
  | S fuel' =>
      let id_idx := idx in
      match get_data_circ (g_data G) idx 1 buf_start_idx buf_len put_idx
              first_get with
      | Raise EOFError =>
          Ok (IdEof {| eof_id := id; eof_id_idx := Some id_idx;
                       eof_first_get := first_get |})
      | Raise e => Raise e
      | Fuel => Fuel
      | Ok (id, idx) =>
          let first_get := false in
          match get_metadata (g_lwl_msg_set G) id with
          | None =>
              find_id fuel' buf_start_idx buf_len put_idx idx first_get
                (Some id) (skipped_data ++ [id])
          | Some msg_meta => Ok (IdFound id id_idx msg_meta idx skipped_data)
          end
      end
  end.

(** The [for arg_bytes in msg_meta.arg_bytes] loop: [(arg_values, idx)]. *)
Fixpoint read_args (buf_start_idx buf_len put_idx : Z) (widths : string)
    (idx : Z) (first_get : bool) (arg_values : list Z)
    : outcome (list Z * Z) :=
  match widths with
  | EmptyString => Ok (arg_values, idx)
  | String c widths' =>
      let* arg_bytes := int_of_char c in
      let* '(arg_value, idx) :=
        get_data_circ (g_data G) idx arg_bytes buf_start_idx buf_len put_idx
          first_get in
      read_args buf_start_idx buf_len put_idx widths' idx first_get
        (arg_values ++ [arg_value])
  end.

(** The outer [while True] loop inside [try]; it is only left by an
    exception, and [except EOFError: pass] turns [EOFError] into the
    state of the names at that moment. *)
Fixpoint stream_loop (fuel : nat) (buf_start_idx buf_len put_idx : Z)
    (idx : Z) (first_get : bool) : io at_eof :=
  match fuel with
  | O => lift Fuel
  | S fuel' =>
      letp found := lift (find_id fuel buf_start_idx buf_len put_idx idx
                            first_get None []) in
      match found with
      | IdEof st => io_ret st
      | IdFound id id_idx msg_meta idx skipped_data =>
          let first_get := false in
          (match skipped_data with
           | [] => io_ret tt
           | _ :: _ => print (PSkipped skipped_data)
           end) ;;
          match read_args buf_start_idx buf_len put_idx
                  (arg_bytes msg_meta) idx first_get [] with
          | Raise EOFError =>
              io_ret {| eof_id := Some id; eof_id_idx := Some id_idx;
                        eof_first_get := first_get |}
          | Raise e => lift (Raise e)
          | Fuel => lift Fuel
          | Ok (arg_values, idx) =>
              letp line := lift (call (format_percent (fmt msg_meta)
                                          arg_values)) in
              print (PMsg line) ;;
              stream_loop fuel' buf_start_idx buf_len put_idx idx first_get
          end
      end
  end.

(** The [while True] loop that collects [unused_data] until [EOFError]. *)
Fixpoint unused_loop (fuel : nat) (buf_start_idx buf_len put_idx : Z)
    (idx : Z) (first_get : bool) (unused_data : list Z)
    : outcome (list Z) :=
  match fuel with
  | O => Fuel
  | S fuel' =>
      match get_data_circ (g_data G) idx 1 buf_start_idx buf_len put_idx
              first_get with
      | Raise EOFError => Ok unused_data
      | Raise e => Raise e
      | Fuel => Fuel
      | Ok (value, idx) =>
          unused_loop fuel' buf_start_idx buf_len put_idx idx first_get
            (unused_data ++ [value])
      end
  end.

(** The statements after the [try] block: [if id is not None: ...]. *)
Definition print_unused (fuel : nat) (buf_start_idx buf_len put_idx : Z)
    (st : at_eof) : io unit :=
  match eof_id st with
  | None => io_ret tt
  | Some _ =>
      match eof_id_idx st with
      | None => lift (Raise TypeError)   (* None >= buf_len *)
      | Some idx =>
          letp unused_data :=
            lift (unused_loop fuel buf_start_idx buf_len put_idx idx
                    (eof_first_get st) []) in
          print (PUnused unused_data)
      end
  end.

(** From [idx = self.get_optimal_start_idx(...)] to the end of
    [pretty_print].  A start index [None] makes the first comparison
    [idx >= buf_len] of [get_data_circ] raise [TypeError]. *)
Definition decode_buffer (fuel : nat) (buf_start_idx buf_len put_idx : Z)
    : io unit :=
  letp start := lift (get_optimal_start_idx fuel buf_start_idx buf_len
                        put_idx) in
  match start with
  | None => lift (Raise TypeError)
  | Some idx =>
      letp st := stream_loop fuel buf_start_idx buf_len put_idx idx true in
      print_unused fuel buf_start_idx buf_len put_idx st
  end.

(** [LwlPrinter.pretty_print(section_offset, section_len)]. *)
Definition LwlPrinter_pretty_print (fuel : nat)
    (section_offset section_len : Z) : io unit :=
  print PRule ;; print (PText "LWL") ;; print PRule ;;
  if section_len <? 20 then print (PErrLwlSize section_len)
  else
    letp buf_len := lift (get_data (g_swab G) (g_data G)
                            (section_offset + 8) 4) in
    letp put_idx := lift (get_data (g_swab G) (g_data G)
                            (section_offset + 12) 4) in
    let buf_start_idx := section_offset + 16 in
    if negb (buf_len + 16 =? section_len) then print (PErrLwlBufLen buf_len)
    else if buf_len <=? put_idx then print PErrLwlPutIdx
    else decode_buffer fuel buf_start_idx buf_len put_idx.

(** *** Data.process_data *)

(** The magic check of the loop body, from [magic = self.get_data(idx, 4)]
    to [section_type = self.magic_to_fault_type[magic]]: the section type
    and the local [g_swab], or [None] after the error line that precedes
    [return False].

    [process_data] assigns [g_swab] and has no [global g_swab]
    declaration, so inside [process_data] the name is a local variable of
    the function; nothing binds it before [g_swab = not g_swab] reads it.
    [local_g_swab] is that local ([None]: unbound, reading it raises
    [UnboundLocalError]).  [get_data] reads the module global
    [g_swab G], which the assignment does not change. *)
Definition check_magic (idx : Z) (local_g_swab : option bool)
    : io (option (section_type * option bool)) :=
  let self := g_data G in
  letp magic := lift (get_data (g_swab G) self idx 4) in
  match magic_to_fault_type magic with
  | Some section_type => io_ret (Some (section_type, local_g_swab))
  | None =>
      match local_g_swab with
      | None => lift (Raise UnboundLocalError)
      | Some b =>
          let local_g_swab := Some (negb b) in
          letp magic := lift (get_data (g_swab G) self idx 4) in
          match magic_to_fault_type magic with
          | Some section_type => io_ret (Some (section_type, local_g_swab))
          | None => print (PErrMagic idx) ;; io_ret None
          end
      end
  end.

(** What one pass through the body of the [while] loop does next. *)
Inductive next_step : Type :=
| Return (b : bool)
| Continue (idx : Z) (local_g_swab : option bool).

(** The rest of the loop body, from [section_len = self.get_data(idx + 4,
    4)] to [idx += section_len]. *)
Definition dispatch_section (fuel : nat) (idx : Z)
    (section_type : section_type) (local_g_swab : option bool)
    : io next_step :=
  let self := g_data G in
  letp section_len := lift (get_data (g_swab G) self (idx + 4) 4) in
  if data_len self <? idx + section_len
  then print (PErrSection idx section_len (data_len self)) ;;
       io_ret (Return false)
  else
    match section_type with
    | SECTION_TYPE_FAULT => FaultData_pretty_print idx section_len
    | SECTION_TYPE_LWL => LwlPrinter_pretty_print fuel idx section_len
    | SECTION_TYPE_TRAILER =>
        print PRule ;; print (PText "End of fault data") ;; print PRule
    end ;;
    io_ret (Continue (idx + section_len) local_g_swab).

(** The body of [while idx < self.data_len]. *)
Definition process_section (fuel : nat) (idx : Z)
    (local_g_swab : option bool) : io next_step :=
  let self := g_data G in
  if data_len self <? idx + 8
  then print (PErrHeader idx (data_len self)) ;; io_ret (Return false)
  else
    letp checked := check_magic idx local_g_swab in
    match checked with
    | None => io_ret (Return false)
    | Some (section_type, local_g_swab) =>
        dispatch_section fuel idx section_type local_g_swab
    end.

(** The [while idx < self.data_len] loop and the final [return True]. *)
Fixpoint process_loop (fuel : nat) (idx : Z) (local_g_swab : option bool)
    : io bool :=
  if idx <? data_len (g_data G) then
    match fuel with
    | O => lift Fuel
    | S fuel' =>
        letp step := process_section fuel idx local_g_swab in
        match step with
        | Return b => io_ret b
        | Continue idx local_g_swab => process_loop fuel' idx local_g_swab
        end
    end
  else io_ret true.

(** [Data.process_data()] on [g_data]. *)
Definition process_data (fuel : nat) : io bool := process_loop fuel 0 None.

End Decoder.

(** *** class SourceParser *)

(** The two states of [get_num_fmt_params]. *)
Inductive fmt_state : Type := idle | got_percent.

(** The [for c in fmt] loop of [SourceParser.get_num_fmt_params]. *)
Fixpoint get_num_fmt_params_loop (fmt : string) (state : fmt_state)
    (num_params : Z) : Z :=
  match fmt with
  | EmptyString => num_params
  | String c fmt' =>
      match state with
      | idle =>
          if Ascii.eqb c "%" then get_num_fmt_params_loop fmt' got_percent
                                    num_params
          else get_num_fmt_params_loop fmt' idle num_params
      | got_percent =>
          if Ascii.eqb c "%" then get_num_fmt_params_loop fmt' idle num_params
          else get_num_fmt_params_loop fmt' idle (num_params + 1)
      end
  end.

(** [SourceParser.get_num_fmt_params(fmt)]; no statement of logfmt.py
    calls it. *)
Definition get_num_fmt_params (fmt : string) : Z :=
  get_num_fmt_params_loop fmt idle 0.

(** The names of [parse_source_file] that are live once a complete
    statement has been split by the regular expressions: the format, the
    declared byte count, the digits of the [LWL_n(] arguments and their
    sum. *)
Record statement : Type := {
  st_file_path : string;
  st_line_num : Z;
  st_lwl_line_num : Z;
  st_lwl_statement : string;
  st_lwl_base_id : option Z;
  st_lwl_id_offset : Z;
  st_lwl_fmt : string;
  st_lwl_num_arg_bytes : Z;
  st_lwl_arg_lengths : string;
  st_num_arg_bytes_check : Z
}.

(** [parse_source_file] from [if num_arg_bytes_check != lwl_num_arg_bytes]
    to the [continue] that ends the loop body: the new [error_count] and
    message set. *)
Definition parse_source_file_statement (s : statement) (error_count : Z)
    (msg_set : LwlMsgSet) : io (Z * LwlMsgSet) :=
  (if negb (st_num_arg_bytes_check s =? st_lwl_num_arg_bytes s)
   then print (PErrArgBytes (st_file_path s) (st_line_num s)
                 (st_num_arg_bytes_check s) (st_lwl_num_arg_bytes s)
                 (st_lwl_statement s))
   else io_ret tt) ;;
  match st_lwl_base_id s with
  | None =>
      print (PErrNoBaseId (st_file_path s) (st_line_num s)) ;;
      io_ret (error_count + 1, msg_set)
  | Some lwl_base_id =>
      letp added := add_lwl_msg msg_set (lwl_base_id + st_lwl_id_offset s)
                      (st_lwl_fmt s) (st_lwl_arg_lengths s)
                      (st_lwl_statement s) (st_file_path s)
                      (st_lwl_line_num s) in
      let '(ok, msg_set) := added in
      if ok then io_ret (error_count, msg_set)
      else io_ret (error_count + 1, msg_set)
  end.

End Logfmt.

(** ** modules/lwl/lwl.py *)

Module Lwl.

(** *** Printed lines *)
Inductive printed : Type :=
| PMsg (line : string)
    (* the value of msg_meta.fmt % tuple(arg_values) *)
| PUnused (unused_data : list Z)
    (* 'Unused data (hex): %s' *)
| PDuplicate (file_path : string) (line_num id : Z) (lwl_statement : string)
    (prev_file_path : string) (prev_line_num : Z)
    (prev_lwl_statement : string)
    (* '%s:%d Duplicate ID %d: %s, previously at %s:%d: %s' *)
| PErrFmtArgs (file_path : string) (line_num : Z) (lwl_fmt : string)
    (lwl_arg_bytes : string)
    (* 'ERROR: %s:%d Inconsistent fmt and arg length strings: "%s" vs "%s"' *)
| PErrNoBaseId (file_path : string) (line_num : Z).
    (* 'ERROR: %s:%d No #define LWL_BASE_ID present' *)

Abbreviation io := (Py.io printed).

(** *** class LwlMsg, class LwlMsgSet *)

Record LwlMsg : Type := {
  id : Z;
  fmt : string;
  arg_bytes : string;
  file_path : string;
  line_num : Z;
  lwl_statement : string;
  num_arg_bytes : Z
}.

(** [for d in s: acc += int(d)]. *)
Fixpoint sum_int_chars (s : string) (acc : Z) : outcome Z :=
  match s with
  | EmptyString => Ok acc
  | String d s' => let* v := int_of_char d in sum_int_chars s' (acc + v)
  end.

(** [LwlMsg.__init__]. *)
Definition LwlMsg_init (id : Z) (fmt arg_bytes file_path : string)
    (line_num : Z) (lwl_statement : string) : outcome LwlMsg :=
  let* n := sum_int_chars arg_bytes 0 in
  Ok {| id := id; fmt := fmt; arg_bytes := arg_bytes;
        file_path := file_path; line_num := line_num;
        lwl_statement := lwl_statement; num_arg_bytes := n |}.

Record LwlMsgSet : Type := {
  lwl_msgs : gmap Z LwlMsg;
  max_msg_len : Z
}.

(** [LwlMsgSet.__init__]. *)
Definition LwlMsgSet_init : LwlMsgSet :=
  {| lwl_msgs := ∅; max_msg_len := 0 |}.

(** [LwlMsgSet.add_lwl_msg]: the returned flag and the set afterwards. *)
Definition add_lwl_msg (self : LwlMsgSet) (id : Z) (fmt arg_bytes : string)
    (lwl_statement file_path : string) (line_num : Z)
    : io (bool * LwlMsgSet) :=
  match lwl_msgs self !! id with
  | Some prev =>
      print (PDuplicate file_path line_num id lwl_statement
               (Lwl.file_path prev) (Lwl.line_num prev)
               (Lwl.lwl_statement prev)) ;;
      io_ret (false, self)
  | None =>
      letp msg := lift (LwlMsg_init id fmt arg_bytes file_path line_num
                          lwl_statement) in
      letp msg_len := lift (sum_int_chars arg_bytes 1) in
      io_ret (true,
              {| lwl_msgs := <[id := msg]> (lwl_msgs self);
                 max_msg_len := if max_msg_len self <? msg_len then msg_len
                                else max_msg_len self |})
  end.

(** [LwlMsgSet.get_metadata(id)]. *)
Definition get_metadata (self : LwlMsgSet) (id : Z) : option LwlMsg :=
  lwl_msgs self !! id.

(** *** get_num_fmt_params *)

Inductive fmt_state : Type := idle | got_percent.

Fixpoint get_num_fmt_params_loop (fmt : string) (state : fmt_state)
    (num_params : Z) : Z :=
  match fmt with
  | EmptyString => num_params
  | String c fmt' =>
      match state with
      | idle =>
          if Ascii.eqb c "%" then get_num_fmt_params_loop fmt' got_percent
                                    num_params
          else get_num_fmt_params_loop fmt' idle num_params
      | got_percent =>
          if Ascii.eqb c "%" then get_num_fmt_params_loop fmt' idle num_params
          else get_num_fmt_params_loop fmt' idle (num_params + 1)
      end
  end.

Definition get_num_fmt_params (fmt : string) : Z :=
  get_num_fmt_params_loop fmt idle 0.

(** *** parse_source_file, once a statement is split *)

(** The names of [parse_source_file] that are live once the regular
    expressions have split a complete statement. *)
Record statement : Type := {
  st_file_path : string;
  st_line_num : Z;
  st_lwl_line_num : Z;
  st_lwl_statement : string;
  st_lwl_bid : option Z;
  st_lwl_id_offset : Z;      (* int(lwl_id_offset), digits by [parse_id_pat] *)
  st_lwl_fmt : string;
  st_lwl_arg_bytes : string
}.

(** [parse_source_file] from [if get_num_fmt_params(lwl_fmt) !=
    len(lwl_arg_bytes)] to the [continue] that ends the loop body. *)
Definition parse_source_file_statement (s : statement) (error_count : Z)
    (msg_set : LwlMsgSet) : io (Z * LwlMsgSet) :=
  if negb (get_num_fmt_params (st_lwl_fmt s)
           =? Z.of_nat (String.length (st_lwl_arg_bytes s)))
  then
    print (PErrFmtArgs (st_file_path s) (st_line_num s) (st_lwl_fmt s)
             (st_lwl_arg_bytes s)) ;;
    io_ret (error_count + 1, msg_set)
  else
    match st_lwl_bid s with
    | None =>
        print (PErrNoBaseId (st_file_path s) (st_line_num s)) ;;
        io_ret (error_count + 1, msg_set)
    | Some lwl_bid =>
        letp added := add_lwl_msg msg_set (lwl_bid + st_lwl_id_offset s)
                        (st_lwl_fmt s) (st_lwl_arg_bytes s)
                        (st_lwl_statement s) (st_file_path s)
                        (st_lwl_line_num s) in
        let '(ok, msg_set) := added in
        if ok then io_ret (error_count, msg_set)
        else io_ret (error_count + 1, msg_set)
    end.

(** *** get_data_bytes *)

Definition len (data : list byte) : Z := Z.of_nat (length data).

(** The [for] loop of [get_data_bytes]. *)
Fixpoint get_data_bytes_loop (data : list byte) (n : nat)
    (idx d factor start_idx : Z) (first_get : bool) : outcome (Z * Z) :=
  match n with
  | O => Ok (d, idx)
  | S n' =>
      if (idx =? start_idx) && negb first_get then Raise EOFError
      else
        let* b := getitem data idx in
        let d := d + b * factor in
        let factor := factor * 256 in
        let idx := idx + 1 in
        let idx := if len data <=? idx then 0 else idx in
        get_data_bytes_loop data n' idx d factor start_idx first_get
  end.

(** [get_data_bytes(data, idx, num_bytes, start_idx, first_get)]. *)
Definition get_data_bytes (data : list byte) (idx num_bytes start_idx : Z)
    (first_get : bool) : outcome (Z * Z) :=
  if len data <=? idx then Raise IndexError
  else get_data_bytes_loop data (Z.to_nat num_bytes) idx 0 1 start_idx
         first_get.

Section Decoder.

(** The [%] operator applied to a format string and a tuple of ints. *)
Variable format_percent : string -> list Z -> string + exn.

(** The module global [lwl_msg_set]. *)
Variable lwl_msg_set : LwlMsgSet.

(** *** get_optimal_start_idx *)

(** The [while (True)] loop of one trial: [invalid_id_ctr] when it is
    left.  After a known id whose argument bytes run out the walk goes on
    from [save_idx]. *)
Fixpoint trial_loop (fuel : nat) (data : list byte) (put_idx : Z)
    (idx : Z) (first_get : bool) (invalid_id_ctr : Z) : outcome Z :=
  match fuel with
  | O => Fuel
  | S fuel' =>
      match get_data_bytes data idx 1 put_idx first_get with
      | Raise EOFError => Ok invalid_id_ctr
      | Raise e => Raise e
      | Fuel => Fuel
      | Ok (id, idx) =>
          let first_get := false in
          match get_metadata lwl_msg_set id with
          | None =>
              trial_loop fuel' data put_idx idx first_get (invalid_id_ctr + 1)
          | Some msg_meta =>
              let save_idx := idx in
              match get_data_bytes data idx (num_arg_bytes msg_meta) put_idx
                      first_get with
              | Raise EOFError =>
                  trial_loop fuel' data put_idx save_idx first_get
                    invalid_id_ctr
              | Raise e => Raise e
              | Fuel => Fuel
              | Ok (_, idx) =>
                  trial_loop fuel' data put_idx idx first_get invalid_id_ctr
              end
          end
      end
  end.

(** [start_idx] of the trial at [offset]. *)
Definition trial_start_idx (data : list byte) (put_idx offset : Z) : Z :=
  let num_data_bytes := len data in
  let start_idx := put_idx + offset in
  if num_data_bytes <=? start_idx then start_idx - num_data_bytes
  else start_idx.

(** The trial at [offset]. *)
Definition run_trial (fuel : nat) (data : list byte) (put_idx offset : Z)
    : outcome Z :=
  trial_loop fuel data put_idx (trial_start_idx data put_idx offset) true 0.

(** The [for offset in range(lwl_msg_set.max_msg_len)] loop. *)
Fixpoint offsets_loop (fuel : nat) (data : list byte) (put_idx : Z)
    (offsets : list Z) (min_invalid_ids : Z) (optimal_start_idx : option Z)
    : outcome (option Z) :=
  match offsets with
  | [] => Ok optimal_start_idx
  | offset :: offsets' =>
      let* invalid_id_ctr := run_trial fuel data put_idx offset in
      if invalid_id_ctr <? min_invalid_ids
      then offsets_loop fuel data put_idx offsets' invalid_id_ctr
             (Some (trial_start_idx data put_idx offset))
      else offsets_loop fuel data put_idx offsets' min_invalid_ids
             optimal_start_idx
  end.

(** [get_optimal_start_idx(data, put_idx)]. *)
Definition get_optimal_start_idx (fuel : nat) (data : list byte)
    (put_idx : Z) : outcome (option Z) :=
  offsets_loop fuel data put_idx (range (max_msg_len lwl_msg_set)) (len data)
    None.

(** *** print_data *)

Record at_eof : Type := {
  eof_id : option Z;
  eof_id_idx : option Z;
  eof_first_get : bool
}.

Inductive id_search : Type :=
| IdFound (id id_idx : Z) (msg_meta : LwlMsg) (idx : Z)
    (skipped_data : list Z)
| IdEof (st : at_eof).

(** The [while not msg_meta] loop. *)
Fixpoint find_id (fuel : nat) (data : list byte) (put_idx : Z)
    (idx : Z) (first_get : bool) (id : option Z) (skipped_data : list Z)
    : outcome id_search :=
  match fuel with
  | O => Fuel
  | S fuel' =>
      let id_idx := idx in
      match get_data_bytes data idx 1 put_idx first_get with
      | Raise EOFError =>
          Ok (IdEof {| eof_id := id; eof_id_idx := Some id_idx;
                       eof_first_get := first_get |})
      | Raise e => Raise e
      | Fuel => Fuel
      | Ok (id, idx) =>
          let first_get := false in
          match get_metadata lwl_msg_set id with
          | None =>
              find_id fuel' data put_idx idx first_get (Some id)
                (skipped_data ++ [id])
          | Some msg_meta => Ok (IdFound id id_idx msg_meta idx skipped_data)
          end
      end
  end.

(** The [for arg_bytes in msg_meta.arg_bytes] loop. *)
Fixpoint read_args (data : list byte) (put_idx : Z) (widths : string)
    (idx : Z) (first_get : bool) (arg_values : list Z)
    : outcome (list Z * Z) :=
  match widths with
  | EmptyString => Ok (arg_values, idx)
  | String c widths' =>
      let* arg_bytes := int_of_char c in
      let* '(arg_value, idx) :=
        get_data_bytes data idx arg_bytes put_idx first_get in
      read_args data put_idx widths' idx first_get (arg_values ++ [arg_value])
  end.

(** The outer [while True] loop inside [try]; [skipped_data] is collected
    and dropped, no statement prints it. *)
Fixpoint stream_loop (fuel : nat) (data : list byte) (put_idx : Z)
    (idx : Z) (first_get : bool) : io at_eof :=
  match fuel with
  | O => lift Fuel
  | S fuel' =>
      letp found := lift (find_id fuel data put_idx idx first_get None []) in
      match found with
      | IdEof st => io_ret st
      | IdFound id id_idx msg_meta idx skipped_data =>
          let first_get := false in
          match read_args data put_idx (arg_bytes msg_meta) idx first_get
                  [] with
          | Raise EOFError =>
              io_ret {| eof_id := Some id; eof_id_idx := Some id_idx;
                        eof_first_get := first_get |}
          | Raise e => lift (Raise e)
          | Fuel => lift Fuel
          | Ok (arg_values, idx) =>
              letp line := lift (call (format_percent (fmt msg_meta)
                                          arg_values)) in
              print (PMsg line) ;;
              stream_loop fuel' data put_idx idx first_get
          end
      end
  end.

(** The [while True] loop that collects [unused_data]. *)
Fixpoint unused_loop (fuel : nat) (data : list byte) (put_idx : Z)
    (idx : Z) (first_get : bool) (unused_data : list Z)
    : outcome (list Z) :=
  match fuel with
  | O => Fuel
  | S fuel' =>
      match get_data_bytes data idx 1 put_idx first_get with
      | Raise EOFError => Ok unused_data
      | Raise e => Raise e
      | Fuel => Fuel
      | Ok (d, idx) =>
          unused_loop fuel' data put_idx idx first_get (unused_data ++ [d])
      end
  end.

(** [print_data(data, start_idx, put_idx)]; [start_idx] is what
    [get_optimal_start_idx] returned, [None] included. *)
Definition print_data (fuel : nat) (data : list byte)
    (start_idx : option Z) (put_idx : Z) : io unit :=
  match start_idx with
  | None => lift (Raise TypeError)   (* None >= len(data) *)
  | Some idx =>
      letp st := stream_loop fuel data put_idx idx true in
      match eof_id st with
      | None => io_ret tt
      | Some _ =>
          match eof_id_idx st with
          | None => lift (Raise TypeError)
          | Some idx =>
              letp unused_data :=
                lift (unused_loop fuel data put_idx idx (eof_first_get st)
                        []) in
              print (PUnused unused_data)
          end
      end
  end.

End Decoder.

End Lwl.

(** ** The circular buffer read as a sequence

    Reference definitions the theorems compare the decoders with: the bytes
    a walk over the circular buffer meets, in the order it meets them, and
    what the walk makes of them. *)

Module Linear.

Import Logfmt.

(** Byte of the blob at absolute index [i] (0 outside the blob). *)
Definition blob_byte (d : Data) (i : Z) : Z :=
  nth (Z.to_nat i) (map byte_val (data_array d)) 0.

(** The [n] bytes of the buffer at [idx], [idx + 1], ..., wrapping to 0 at
    [buf_len]. *)
Fixpoint circ_bytes (d : Data) (buf_start_idx buf_len : Z) (n : nat)
    (idx : Z) : list Z :=
  match n with
  | O => []
  | S n' => blob_byte d (buf_start_idx + idx)
            :: circ_bytes d buf_start_idx buf_len n' (circ_next buf_len idx)
  end.

(** How many bytes a walk at [idx] still has before it is back on
    [put_idx]: the whole buffer when it stands on [put_idx] with its first
    read still to come, the distance up to [put_idx] otherwise. *)
Definition remaining (buf_len put_idx idx : Z) (first_get : bool) : nat :=
  if first_get && (idx =? put_idx) then Z.to_nat buf_len
  else Z.to_nat ((put_idx - idx) mod buf_len).

(** The bytes a walk at [idx] meets before exhaustion. *)
Definition stream (d : Data) (buf_start_idx buf_len put_idx idx : Z)
    (first_get : bool) : list Z :=
  circ_bytes d buf_start_idx buf_len (remaining buf_len put_idx idx first_get)
    idx.

(** Most significant byte first. *)
Definition big_endian (bytes : list Z) : Z :=
  fold_left (fun value b => value * 256 + b) bytes 0.

(** Least significant byte first. *)
Fixpoint little_endian (bytes : list Z) : Z :=
  match bytes with
  | [] => 0
  | b :: bytes' => b + 256 * little_endian bytes'
  end.

(** Unknown ids met by a walk over [s] that takes each byte as an id, or
    as one of the [skip] argument bytes still owed to the last known id.
    A known id whose argument bytes run out adds nothing. *)
Fixpoint count_invalid (cat : LwlMsgSet) (s : list Z) (skip : nat) : Z :=
  match s with
  | [] => 0
  | b :: s' =>
      match skip with
      | S k => count_invalid cat s' k
      | O =>
          match get_metadata cat b with
          | None => 1 + count_invalid cat s' 0
          | Some msg_meta =>
              count_invalid cat s' (Z.to_nat (num_arg_bytes msg_meta))
          end
      end
  end.

(** The three error lines of the framing loop. *)
Definition framing_error (l : printed) : Prop :=
  match l with
  | PErrHeader _ _ | PErrMagic _ | PErrSection _ _ _ => True
  | _ => False
  end.

(** Unknown ids among the bytes the trial at offset [t] can reach. *)
Definition trial_count (G : Globals) (buf_start_idx buf_len put_idx t : Z)
    : Z :=
  count_invalid (g_lwl_msg_set G)
    (stream (g_data G) buf_start_idx buf_len put_idx
       (trial_start_idx buf_len put_idx t) (t =? 0)) 0.

(** A message set as [add_lwl_msg] builds it: [num_arg_bytes] is the sum
    of the digits of [arg_bytes]. *)
Definition catalog_built (cat : LwlMsgSet) : Prop :=
  forall id msg_meta,
    lwl_msgs cat !! id = Some msg_meta ->
    sum_int_chars (arg_bytes msg_meta) 0 = Ok (num_arg_bytes msg_meta).

(** The widths a string of digits declares. *)
Fixpoint widths_of (arg_bytes : string) : list nat :=
  match arg_bytes with
  | EmptyString => []
  | String c arg_bytes' =>
      (nat_of_ascii c - 48)%nat :: widths_of arg_bytes'
  end.

(** Splits the argument values off the front of [s], one big-endian value
    per declared width; [None] when [s] ends inside an argument. *)
Fixpoint take_args (widths : list nat) (s : list Z)
    : option (list Z * list Z) :=
  match widths with
  | [] => Some ([], s)
  | w :: widths' =>
      if (length s <? w)%nat then None
      else match take_args widths' (drop w s) with
           | Some (arg_values, rest) =>
               Some (big_endian (take w s) :: arg_values, rest)
           | None => None
           end
  end.

(** How a decode of the byte sequence ends: at an id boundary with nothing
    pending, with unknown bytes pending, or inside the message that starts
    [bytes]. *)
Inductive ending : Type :=
| EndClean
| EndPending (pending : list Z)
| EndPartial (bytes : list Z).

Section Decode.

Variable format_percent : string -> list Z -> string + exn.
Variable cat : LwlMsgSet.

(** Streaming decode of the byte sequence [s]: unknown ids pile up in
    [pending] and are printed, as skipped data, in front of the next
    message; each message takes its arguments by declared width. *)
Fixpoint decode (fuel : nat) (s pending : list Z) : io ending :=
  match fuel with
  | O => lift Fuel
  | S fuel' =>
      match s with
      | [] => io_ret (match pending with
                      | [] => EndClean
                      | _ :: _ => EndPending pending
                      end)
      | b :: rest =>
          match get_metadata cat b with
          | None => decode fuel' rest (pending ++ [b])
          | Some msg_meta =>
              (match pending with
               | [] => io_ret tt
               | _ :: _ => print (PSkipped pending)
               end) ;;
              match take_args (widths_of (arg_bytes msg_meta)) rest with
              | None => io_ret (EndPartial (b :: rest))
              | Some (arg_values, rest') =>
                  letp line := lift (call (format_percent (fmt msg_meta)
                                             arg_values)) in
                  print (PMsg line) ;;
                  decode fuel' rest' []
              end
          end
      end
  end.

(** What [pretty_print] prints once the decode of the sequence has
    ended.  A message cut short is printed as unused data from its id on;
    the one message that loses its bytes is the one whose id sits on
    [put_idx]: the walk started there ([at_put]) and the message spans the
    [whole] sequence. *)
Definition finish (at_put : bool) (whole : nat) (r : io ending) : io unit :=
  match r with
  | (Ok EndClean, out) => (Ok tt, out)
  | (Ok (EndPending _), out) => (Ok tt, out ++ [PUnused []])
  | (Ok (EndPartial bytes), out) =>
      (Ok tt,
       out ++ [PUnused (if at_put && (length bytes =? whole)%nat then []
                        else bytes)])
  | (Raise e, out) => (Raise e, out)
  | (Fuel, out) => (Fuel, out)
  end.

End Decode.

End Linear.

(** ** Sample inputs

    Catalogs, blobs and a formatter the examples below run the decoders
    on. *)

Module Samples.

(** [fmt % args] for the formats whose only conversions are [%d] and
    [%%]; an argument too few or too many raises [TypeError]. *)
Fixpoint format_d (fmt : string) (args : list Z) : string + exn :=
  match fmt with
  | EmptyString =>
      match args with
      | [] => inl EmptyString
      | _ :: _ => inr TypeError
      end
  | String "%" (String "d" fmt') =>
      match args with
      | [] => inr TypeError
      | a :: args' =>
          match format_d fmt' args' with
          | inl s => inl (NilZero.string_of_int (Z.to_int a) ++ s)%string
          | inr e => inr e
          end
      end
  | String "%" (String "%" fmt') =>
      match format_d fmt' args with
      | inl s => inl (String "%" s)
      | inr e => inr e
      end
  | String "%" _ => inr ValueError
  | String c fmt' =>
      match format_d fmt' args with
      | inl s => inl (String c s)
      | inr e => inr e
      end
  end.

(** The messages [tick] (no argument) and [val=%d] (one 4-byte argument)
    under ids 1 and 2, as [add_lwl_msg] stores them. *)
Definition tick_val : Logfmt.LwlMsgSet :=
  {| Logfmt.lwl_msgs :=
       <[2 := {| Logfmt.id := 2; Logfmt.fmt := "val=%d";
                 Logfmt.arg_bytes := "4"; Logfmt.file_path := "app.c";
                 Logfmt.line_num := 3; Logfmt.lwl_statement := "LWL(val)";
                 Logfmt.num_arg_bytes := 4 |}]>
       (<[1 := {| Logfmt.id := 1; Logfmt.fmt := "tick";
                  Logfmt.arg_bytes := ""; Logfmt.file_path := "app.c";
                  Logfmt.line_num := 3; Logfmt.lwl_statement := "LWL(tick)";
                  Logfmt.num_arg_bytes := 0 |}]> ∅);
     Logfmt.max_msg_len := 5 |}.

Definition no_fields : Logfmt.FaultData :=
  {| Logfmt.fields := []; Logfmt.max_name_len := 0 |}.

(** The module globals around a blob. *)
Definition globals_of (blob : list byte) : Logfmt.Globals :=
  {| Logfmt.g_swab := false;
     Logfmt.g_data := {| Logfmt.data_array := blob |};
     Logfmt.g_fault_data := no_fields;
     Logfmt.g_lwl_msg_set := tick_val |}.

(** The module globals around a blob when no source file declared a
    message. *)
Definition globals_without_messages (blob : list byte) : Logfmt.Globals :=
  {| Logfmt.g_swab := false;
     Logfmt.g_data := {| Logfmt.data_array := blob |};
     Logfmt.g_fault_data := no_fields;
     Logfmt.g_lwl_msg_set := Logfmt.LwlMsgSet_init |}.

(** A log section, little-endian header: [buf_len = 6], the given
    [put_idx], buffer [01 | 02 00 00 00 07]. *)
Definition blob_log (put_idx : byte) : list byte :=
  [x01; x00; x0d; xf0;  x16; x00; x00; x00;
   x06; x00; x00; x00;  put_idx; x00; x00; x00;
   x01; x02; x00; x00; x00; x07].

(** A log section whose 4-byte buffer holds unknown ids only. *)
Definition blob_unknown : list byte :=
  [x01; x00; x0d; xf0;  x14; x00; x00; x00;
   x04; x00; x00; x00;  x00; x00; x00; x00;
   xff; xff; xff; xff].

(** A log section whose 4-byte buffer starts with the id of a 5-byte
    message, with the given [put_idx]. *)
Definition blob_long_message (put_idx : byte) : list byte :=
  [x01; x00; x0d; xf0;  x14; x00; x00; x00;
   x04; x00; x00; x00;  put_idx; x00; x00; x00;
   x02; x00; x00; x00].

(** A fault section that declares more bytes than the blob holds. *)
Definition blob_truncated : list byte :=
  [x01; x00; xad; xde;  x10; x00; x00; x00;  x2a; x00].

(** A 19-byte log section ([buf_len = 3], [put_idx = 0]) and a trailer. *)
Definition blob_small_log : list byte :=
  [x01; x00; x0d; xf0;  x13; x00; x00; x00;
   x03; x00; x00; x00;  x00; x00; x00; x00;
   x01; x01; x01;
   x01; x00; xda; xc0;  x08; x00; x00; x00].

(** A fault section whose header is big-endian. *)
Definition blob_big_endian : list byte :=
  [xde; xad; x00; x01;  x00; x00; x00; x08].

(** A trailer section that declares [total_len = 0]. *)
Definition blob_zero_trailer : list byte :=
  [x01; x00; xda; xc0;  x00; x00; x00; x00].

(** A log section that declares [total_len = 0]. *)
Definition blob_zero_log : list byte :=
  [x01; x00; x0d; xf0;  x00; x00; x00; x00].


(** lwl.py: the message [tick] under id 1. *)
Definition lwl_tick : Lwl.LwlMsgSet :=
  {| Lwl.lwl_msgs :=
       <[1 := {| Lwl.id := 1; Lwl.fmt := "tick"; Lwl.arg_bytes := "";
                 Lwl.file_path := "app.c"; Lwl.line_num := 3;
                 Lwl.lwl_statement := "LWL(tick)";
                 Lwl.num_arg_bytes := 0 |}]> ∅;
     Lwl.max_msg_len := 1 |}.

(** lwl.py: the message [val=%d] under id 2. *)
Definition lwl_val : Lwl.LwlMsgSet :=
  {| Lwl.lwl_msgs :=
       <[2 := {| Lwl.id := 2; Lwl.fmt := "val=%d"; Lwl.arg_bytes := "4";
                 Lwl.file_path := "app.c"; Lwl.line_num := 3;
                 Lwl.lwl_statement := "LWL(val)";
                 Lwl.num_arg_bytes := 4 |}]> ∅;
     Lwl.max_msg_len := 5 |}.


End Samples.

(** ** Reference definitions for the fault record, the catalog and the
       framing

    What the theorems on the rest of logfmt.py are stated with. *)

Module Reference.

Import Logfmt Linear.

(** The [num_bytes] bytes of the blob from [idx] on. *)
Definition blob_span (d : Data) (idx num_bytes : Z) : list Z :=
  map byte_val (take (Z.to_nat num_bytes) (drop (Z.to_nat idx) (data_array d))).

(** The fields [FaultData.pretty_print] has a line for: all but the
    padding and the two fields of the section header. *)
Definition shown (field : FaultField) : bool :=
  negb (String.prefix "pad" (name field)
        || String.eqb (name field) "magic"
        || String.eqb (name field) "num_section_bytes").

(** A field that lies inside the blob when its section starts at
    [section_offset]. *)
Definition in_blob (d : Data) (section_offset : Z) (field : FaultField)
    : Prop :=
  0 <= section_offset + offset field
  /\ 0 <= num_bytes field
  /\ section_offset + offset field + num_bytes field <= data_len d.

(** The line of a field: its name, right-aligned to the longest name, and
    its value in the byte order of [g_swab]. *)
Definition fault_line (G : Globals) (section_offset : Z) (field : FaultField)
    : printed :=
  PFaultField (max_name_len (g_fault_data G)) (name field)
    ((if g_swab G then big_endian else little_endian)
       (blob_span (g_data G) (section_offset + offset field)
          (num_bytes field))).

(** The message sets [add_lwl_msg] can build from the empty one. *)
Inductive built : LwlMsgSet -> Prop :=
| built_init : built LwlMsgSet_init
| built_add (self : LwlMsgSet) (id : Z)
    (fmt arg_bytes lwl_statement file_path : string) (line_num : Z)
    (ok : bool) (self' : LwlMsgSet) (out : list printed) :
    built self ->
    add_lwl_msg self id fmt arg_bytes lwl_statement file_path line_num
    = (Ok (ok, self'), out) ->
    built self'.

(** What holds of every message of a set: it is filed under its own id,
    its [num_arg_bytes] is the sum of the digits of [arg_bytes], and it is
    not longer than [max_msg_len]; and [max_msg_len] is the length of one
    of the messages, or 0 when there is none. *)
Definition sound (cat : LwlMsgSet) : Prop :=
  (forall id m,
     get_metadata cat id = Some m ->
     Logfmt.id m = id
     /\ sum_int_chars (arg_bytes m) 0 = Ok (num_arg_bytes m)
     /\ 0 <= num_arg_bytes m
     /\ num_arg_bytes m + 1 <= max_msg_len cat)
  /\ (lwl_msgs cat = ∅ /\ max_msg_len cat = 0
      \/ exists id m,
           get_metadata cat id = Some m
           /\ max_msg_len cat = num_arg_bytes m + 1).

(** A format string without a percent sign. *)
Fixpoint plain (s : string) : bool :=
  match s with
  | EmptyString => true
  | String c s' => negb (Ascii.eqb c "%") && plain s'
  end.

(** The blob from [idx] on is a sequence of whole sections, each with a
    known magic and a length that keeps it inside the blob, that ends
    exactly at the end of the blob. *)
Inductive tiles (G : Globals) : Z -> Prop :=
| tiles_end (idx : Z) : idx = data_len (g_data G) -> tiles G idx
| tiles_section (idx magic section_len : Z) (ty : section_type) :
    idx < data_len (g_data G) ->
    idx + 8 <= data_len (g_data G) ->
    get_data (g_swab G) (g_data G) idx 4 = Ok magic ->
    magic_to_fault_type magic = Some ty ->
    get_data (g_swab G) (g_data G) (idx + 4) 4 = Ok section_len ->
    idx + section_len <= data_len (g_data G) ->
    tiles G (idx + section_len) ->
    tiles G idx.

End Reference.

(** ** The rest of logfmt.py *)

Module LogfmtRest.

Import Logfmt.

(** [FaultData.__init__]. *)
Definition FaultData_init : FaultData := {| fields := []; max_name_len := 0 |}.

End LogfmtRest.

(** ** More sample inputs *)

Module MoreSamples.

Import Logfmt LogfmtRest Samples.

(** The fault record layout of five annotated fields, as five calls of
    [add_fault_field] leave it. *)
Definition fault_layout : FaultData :=
  fold_left (fun self '(name, offset, num_bytes) =>
               add_fault_field self name offset num_bytes)
    [("magic"%string, 0, 4); ("num_section_bytes"%string, 4, 4);
     ("fault_type"%string, 8, 4); ("pad1"%string, 12, 4);
     ("lr"%string, 16, 4)]
    FaultData_init.

(** The module globals around a blob, with that layout. *)
Definition globals_with_layout (blob : list byte) : Globals :=
  {| g_swab := false;
     g_data := {| data_array := blob |};
     g_fault_data := fault_layout;
     g_lwl_msg_set := tick_val |}.

(** A fault section of 20 bytes: [fault_type = 2], four bytes of padding,
    [lr = 0x12345678]. *)
Definition blob_fault : list byte :=
  [x01; x00; xad; xde;  x14; x00; x00; x00;
   x02; x00; x00; x00;  x00; x00; x00; x00;
   x78; x56; x34; x12].

(** The sample catalog after [add_lwl_msg] of a third message, with a
    1-byte and a 2-byte argument, under id 3. *)
Definition tick_val_ab : LwlMsgSet :=
  {| lwl_msgs :=
       <[3 := {| Logfmt.id := 3; Logfmt.fmt := "a=%d b=%d";
                 Logfmt.arg_bytes := "12"; Logfmt.file_path := "app.c";
                 Logfmt.line_num := 3; Logfmt.lwl_statement := "LWL(ab)";
                 num_arg_bytes := 3 |}]> (lwl_msgs tick_val);
     max_msg_len := 5 |}.

(** A 20-byte log section whose header holds the given [buf_len] and
    [put_idx], around four unknown bytes. *)
Definition blob_header (buf_len put_idx : byte) : list byte :=
  [x01; x00; x0d; xf0;  x14; x00; x00; x00;
   buf_len; x00; x00; x00;  put_idx; x00; x00; x00;
   xff; xff; xff; xff].

(** A statement of logfmt.py that declares 2 argument bytes and passes one
    [LWL_4] argument. *)
Definition statement_miscounted : statement :=
  {| st_file_path := "app.c"; st_line_num := 9;
     st_lwl_line_num := 2; st_lwl_statement := "LWL(x)";
     st_lwl_base_id := Some 10; st_lwl_id_offset := 1;
     st_lwl_fmt := "x=%d"; st_lwl_num_arg_bytes := 2;
     st_lwl_arg_lengths := "4"; st_num_arg_bytes_check := 4 |}.

(** A statement of lwl.py whose width string is not a digit. *)
Definition lwl_statement_nondigit : Lwl.statement :=
  {| Lwl.st_file_path := "app.c"; Lwl.st_line_num := 9;
     Lwl.st_lwl_line_num := 2; Lwl.st_lwl_statement := "LWL(x)";
     Lwl.st_lwl_bid := Some 10; Lwl.st_lwl_id_offset := 1;
     Lwl.st_lwl_fmt := "x=%d"; Lwl.st_lwl_arg_bytes := "w" |}.

End MoreSamples.

(** ** Reference definitions for lwl.py

    The stand-alone decoder walks the whole of [data]: its buffer starts
    at index 0 and is [len(data)] bytes long. *)

Module LwlReference.

Import Lwl.

(** [data] as a blob. *)
Definition blob (data : list byte) : Logfmt.Data :=
  {| Logfmt.data_array := data |}.

(** The bytes a walk over [data] at [idx] meets before it is back on
    [put_idx]. *)
Definition window (data : list byte) (put_idx idx : Z) (first_get : bool)
    : list Z :=
  Linear.stream (blob data) 0 (len data) put_idx idx first_get.

(** Unknown ids met by a trial of lwl.py over [s]: after a known id with
    all its argument bytes the walk goes on behind them, after a known id
    whose argument bytes run out it goes on with the byte after the id. *)
Fixpoint count_invalid (cat : LwlMsgSet) (fuel : nat) (s : list Z) : Z :=
  match fuel with
  | O => 0
  | S fuel' =>
      match s with
      | [] => 0
      | b :: s' =>
          match get_metadata cat b with
          | None => 1 + count_invalid cat fuel' s'
          | Some msg_meta =>
              let n := Z.to_nat (num_arg_bytes msg_meta) in
              if (length s' <? n)%nat then count_invalid cat fuel' s'
              else count_invalid cat fuel' (drop n s')
          end
      end
  end.

(** Unknown ids among the bytes the trial at offset [t] can reach; every
    trial of lwl.py is allowed its first read. *)
Definition trial_count (cat : LwlMsgSet) (data : list byte) (put_idx t : Z)
    : Z :=
  let s := window data put_idx (trial_start_idx data put_idx t) true in
  count_invalid cat (length s) s.

(** A message set as [add_lwl_msg] of lwl.py builds it. *)
Definition catalog_built (cat : LwlMsgSet) : Prop :=
  forall id msg_meta,
    lwl_msgs cat !! id = Some msg_meta ->
    sum_int_chars (arg_bytes msg_meta) 0 = Ok (num_arg_bytes msg_meta).

(** Splits the argument values off the front of [s], one little-endian
    value per declared width; [None] when [s] ends inside an argument. *)
Fixpoint take_args (widths : list nat) (s : list Z)
    : option (list Z * list Z) :=
  match widths with
  | [] => Some ([], s)
  | w :: widths' =>
      if (length s <? w)%nat then None
      else match take_args widths' (drop w s) with
           | Some (arg_values, rest) =>
               Some (Linear.little_endian (take w s) :: arg_values, rest)
           | None => None
           end
  end.

(** How a decode of the byte sequence ends: at an id boundary behind a
    message or at the very start, behind unknown bytes, or inside the
    message that starts [bytes]. *)
Inductive ending : Type :=
| EndClean
| EndPending
| EndPartial (bytes : list Z).

Section Decode.

Variable format_percent : string -> list Z -> string + exn.
Variable cat : LwlMsgSet.

(** Streaming decode of the byte sequence [s] as [print_data] does it:
    unknown ids are passed over without a line, each message takes its
    arguments by declared width.  [pending] tells whether an unknown id was
    passed over since the last message. *)
Fixpoint decode (fuel : nat) (s : list Z) (pending : bool) : io ending :=
  match fuel with
  | O => lift Fuel
  | S fuel' =>
      match s with
      | [] => io_ret (if pending then EndPending else EndClean)
      | b :: rest =>
          match get_metadata cat b with
          | None => decode fuel' rest true
          | Some msg_meta =>
              match take_args (Linear.widths_of (arg_bytes msg_meta)) rest with
              | None => io_ret (EndPartial (b :: rest))
              | Some (arg_values, rest') =>
                  letp line := lift (call (format_percent (fmt msg_meta)
                                             arg_values)) in
                  print (PMsg line) ;;
                  decode fuel' rest' false
              end
          end
      end
  end.

(** What [print_data] prints once the decode of the sequence has ended.
    A message cut short is printed as unused data from its id on, unless
    its id sits on [put_idx]: the walk started there ([at_put]) and the
    message spans the [whole] sequence. *)
Definition finish (at_put : bool) (whole : nat) (r : io ending) : io unit :=
  match r with
  | (Ok EndClean, out) => (Ok tt, out)
  | (Ok EndPending, out) => (Ok tt, out ++ [PUnused []])
  | (Ok (EndPartial bytes), out) =>
      (Ok tt,
       out ++ [PUnused (if at_put && (length bytes =? whole)%nat then []
                        else bytes)])
  | (Raise e, out) => (Raise e, out)
  | (Fuel, out) => (Fuel, out)
  end.

End Decode.

End LwlReference.

(** ** Text: the [str] methods and the patterns the file readers use

    A [str] is a [string] whose characters are the code points below
    256. *)

Module PyText.

(** [c.isspace()], which is also what [\s] matches and what [strip] and
    [split] take off: the white space below U+0100. *)
Definition is_space (c : ascii) : bool :=
  let n := nat_of_ascii c in
  ((9 <=? n) && (n <=? 13) || (28 <=? n) && (n <=? 32)
   || (n =? 133) || (n =? 160))%nat.

(** What [bytearray.fromhex] passes over between two bytes: the ASCII
    white space. *)
Definition is_ascii_space (c : ascii) : bool :=
  let n := nat_of_ascii c in
  ((9 <=? n) && (n <=? 13) || (n =? 32))%nat.

(** [\d] and [[0-9]]: below U+0100 the decimal digits are the ASCII
    ones. *)
Definition is_digit (c : ascii) : bool :=
  let n := nat_of_ascii c in ((48 <=? n) && (n <=? 57))%nat.

(** The value of a hexadecimal digit, [[0-9a-fA-F]]. *)
Definition hex_val (c : ascii) : option Z :=
  let n := Z.of_nat (nat_of_ascii c) in
  if (48 <=? n) && (n <=? 57) then Some (n - 48)
  else if (97 <=? n) && (n <=? 102) then Some (n - 87)
  else if (65 <=? n) && (n <=? 70) then Some (n - 55)
  else None.

Definition is_hexdigit (c : ascii) : bool :=
  match hex_val c with Some _ => true | None => false end.

(** [len(s)]. *)
Definition len (s : string) : Z := Z.of_nat (String.length s).

(** The longest prefix of [s] whose characters satisfy [p], and what
    follows it: how a greedy [p+] or [p*] matches when the next item of
    the pattern cannot match a character that satisfies [p]. *)
Fixpoint span (p : ascii -> bool) (s : string) : string * string :=
  match s with
  | EmptyString => (EmptyString, EmptyString)
  | String c s' =>
      if p c then let '(taken, rest) := span p s' in (String c taken, rest)
      else (EmptyString, s)
  end.

(** [s.lstrip()], [s.rstrip()] and [s.strip()]. *)
Definition lstrip (s : string) : string := (span is_space s).2.

Fixpoint rstrip (s : string) : string :=
  match s with
  | EmptyString => EmptyString
  | String c s' =>
      match rstrip s' with
      | EmptyString => if is_space c then EmptyString
                       else String c EmptyString
      | r => String c r
      end
  end.

Definition strip (s : string) : string := rstrip (lstrip s).

(** [''.join(s.split())]: [s] without its white space. *)
Fixpoint join_split (s : string) : string :=
  match s with
  | EmptyString => EmptyString
  | String c s' => if is_space c then join_split s'
                   else String c (join_split s')
  end.

(** [s] is [prefix] followed by something: what follows. *)
Fixpoint after_prefix (prefix s : string) : option string :=
  match prefix with
  | EmptyString => Some s
  | String c prefix' =>
      match s with
      | EmptyString => None
      | String d s' => if Ascii.eqb c d then after_prefix prefix' s' else None
      end
  end.

(** [int(s, 16)] on a string of hexadecimal digits and [int(s)] on a
    string of decimal digits; a character that is no digit counts 0 (no
    caller passes one). *)
Definition int_hex (s : string) : Z :=
  fold_left (fun value c => value * 16 + default 0 (hex_val c))
    (list_ascii_of_string s) 0.

Definition int_dec (s : string) : Z :=
  fold_left (fun value c => value * 10 + (Z.of_nat (nat_of_ascii c) - 48))
    (list_ascii_of_string s) 0.

(** The byte of a value below 256. *)
Definition byte_of (v : Z) : byte :=
  default x00 (Byte.of_N (Z.to_N (v mod 256))).

(** [bytearray.fromhex(s)]: two hexadecimal digits per byte, ASCII white
    space between bytes passed over, anything else [ValueError]. *)
Fixpoint fromhex (s : string) : outcome (list byte) :=
  match s with
  | EmptyString => Ok []
  | String c s' =>
      if is_ascii_space c then fromhex s'
      else
        match hex_val c, s' with
        | Some high, String c' s'' =>
            match hex_val c' with
            | Some low =>
                let* bytes := fromhex s'' in
                Ok (byte_of (high * 16 + low) :: bytes)
            | None => Raise ValueError
            end
        | _, _ => Raise ValueError
        end
  end.

(** A number that is an [int], or a [float] that holds an integer. *)
Inductive number : Type :=
| PyInt (z : Z)
| PyFloat (z : Z).

(** [float(z)] for [0 <= z]: the nearest value with 53 significant bits,
    ties to the even one. *)
Definition float_of_Z (z : Z) : Z :=
  let e := Z.log2 z - 52 in
  if e <=? 0 then z
  else
    let q := z / 2 ^ e in
    let r := z mod 2 ^ e in
    let half := 2 ^ (e - 1) in
    (if (r <? half) || ((r =? half) && Z.even q) then q else q + 1) * 2 ^ e.

(** The value of a number as a float, and its exact value. *)
Definition to_float (n : number) : Z :=
  match n with
  | PyInt z => float_of_Z z
  | PyFloat z => z
  end.

Definition value_of (n : number) : Z :=
  match n with
  | PyInt z => z
  | PyFloat z => z
  end.

End PyText.

(** ** logfmt.py: reading the data file *)

Module LogfmtFile.

Import Logfmt PyText.

(** The lines [read_data_file] prints. *)
Inductive printed : Type :=
| PErrOddOffset (file_path : string) (line_num len : Z)
    (* 'ERROR: %s:%d: Odd number of hex chars in offset field (%d)' *)
| PErrOddData (file_path : string) (line_num len : Z)
    (* 'ERROR: %s:%d: Odd number of hex chars in data field (%d)' *)
| PErrOffset (file_path : string) (line_num expected_offset offset : Z).
    (* 'ERROR: %s:%d: Expected offset of 0x%08x but got 0x%08x' *)

(** [line_pat], ['([0-9a-fA-F]+):\s*([0-9a-fA-F]+)'], matched at the
    start of [s]: the two groups.  A colon can only follow the whole run of
    hexadecimal digits, and a hexadecimal digit the whole run of white
    space, so the greedy match is the only one. *)
Definition line_pat_match (s : string) : option (string * string) :=
  let '(offset_hex, rest) := span is_hexdigit s in
  match offset_hex, rest with
  | String _ _, String ":" rest =>
      let '(_, rest) := span is_space rest in
      let '(data_hex, _) := span is_hexdigit rest in
      match data_hex with
      | String _ _ => Some (offset_hex, data_hex)
      | EmptyString => None
      end
  | _, _ => None
  end.

(** [re.search(line_pat, s)]: the match at the first position that has
    one. *)
Fixpoint line_pat_search (s : string) : option (string * string) :=
  match line_pat_match s with
  | Some groups => Some groups
  | None =>
      match s with
      | EmptyString => None
      | String _ s' => line_pat_search s'
      end
  end.

(** The [for line in f] loop of [read_data_file], over the lines of the
    file: the returned flag and [self.data_array].  [expected_offset] is
    the [int] 0 up to the first data line and a [float] from then on,
    since [len(data_hex)/2] is one; [%x] of a float raises [TypeError]. *)
Fixpoint read_data_file_loop (file_path : string) (lines : list string)
    (line_num : Z) (data_array : list byte) (expected_offset : number)
    : Py.io printed (bool * list byte) :=
  match lines with
  | [] => io_ret (true, data_array)
  | line :: lines' =>
      let line_num := line_num + 1 in
      let line := strip line in
      match line_pat_search line with
      | None =>
          read_data_file_loop file_path lines' line_num data_array
            expected_offset
      | Some (offset_hex, data_hex) =>
          if negb (len offset_hex mod 2 =? 0) then
            print (PErrOddOffset file_path line_num (len offset_hex)) ;;
            io_ret (false, data_array)
          else if negb (len data_hex mod 2 =? 0) then
            print (PErrOddData file_path line_num (len data_hex)) ;;
            io_ret (false, data_array)
          else
            let offset := int_hex offset_hex in
            if negb (offset =? value_of expected_offset) then
              match expected_offset with
              | PyInt expected =>
                  print (PErrOffset file_path line_num expected offset) ;;
                  io_ret (false, data_array)
              | PyFloat _ => lift (Raise TypeError)
              end
            else
              letp bytes := lift (fromhex data_hex) in
              read_data_file_loop file_path lines' line_num
                (data_array ++ bytes)
                (PyFloat (float_of_Z (to_float expected_offset
                                      + float_of_Z (len data_hex / 2))))
      end
  end.

(** [Data.read_data_file(file_path)] on a new [Data], given the lines of
    the file: the returned flag and [self.data_array] afterwards
    ([self.data_len] is set to its length only before [return True]). *)
Definition read_data_file (file_path : string) (lines : list string)
    : Py.io printed (bool * list byte) :=
  read_data_file_loop file_path lines 0 [] (PyInt 0).

End LogfmtFile.

(** ** Reference definitions for the data file *)

Module DumpReference.

Import PyText.

(** Strings whose characters all satisfy [p]. *)
Fixpoint all (p : ascii -> bool) (s : string) : bool :=
  match s with
  | EmptyString => true
  | String c s' => p c && all p s'
  end.

(** [rest] does not go on with a character that satisfies [p]. *)
Definition stops (p : ascii -> bool) (rest : string) : Prop :=
  match rest with
  | EmptyString => True
  | String c _ => p c = false
  end.

(** A value below 16 as a hexadecimal digit. *)
Definition hex_digit (v : Z) : ascii :=
  ascii_of_nat (Z.to_nat (if v <? 10 then v + 48 else v + 87)).

(** Bytes in hexadecimal, two digits each. *)
Fixpoint to_hex (bytes : list byte) : string :=
  match bytes with
  | [] => EmptyString
  | b :: bytes' =>
      String (hex_digit (byte_val b / 16))
        (String (hex_digit (byte_val b mod 16)) (to_hex bytes'))
  end.

(** A line of the data file: the offset, written as the bytes
    [offset_bytes] most significant first, a colon, a space, the data
    bytes, and the end of the line. *)
Definition dump_line (record : list byte * list byte) : string :=
  ((to_hex record.1 ++ ": " ++ to_hex record.2)
   ++ String (ascii_of_nat 10) EmptyString)%string.

(** Records whose offsets count the data bytes from [start] on. *)
Fixpoint contiguous (start : Z) (records : list (list byte * list byte))
    : Prop :=
  match records with
  | [] => True
  | record :: records' =>
      record.1 <> [] /\ record.2 <> []
      /\ Linear.big_endian (map byte_val record.1) = start
      /\ contiguous (start + Z.of_nat (length record.2)) records'
  end.

(** The data bytes of the records, in order. *)
Definition payload (records : list (list byte * list byte)) : list byte :=
  concat (map snd records).

(** A data file of two lines, eight bytes in all, and a third line whose
    offset skips eight bytes. *)
Definition two_records : list (list byte * list byte) :=
  [([x00; x00; x00; x00], [x01; x00; xad; xde]);
   ([x00; x00; x00; x04], [x08; x00; x00; x00])].

Definition late_record : list byte * list byte :=
  ([x00; x00; x00; x10], [x2a; x00]).

(** A line of hexadecimal digits, as a dump of the lwl buffer has them,
    and such a dump: the size line, the put-index line, then the data. *)
Definition hex_line (bytes : list byte) : string :=
  (to_hex bytes ++ String (ascii_of_nat 10) "")%string.

Definition lwl_dump (size put : string) (chunks : list (list byte))
    : list string :=
  ("size:" ++ size ++ String (ascii_of_nat 10) "")%string
  :: ("put:" ++ put ++ String (ascii_of_nat 10) "")%string
  :: map hex_line chunks.

End DumpReference.

(** ** lwl.py: the dump file, the source directory, [swap32] *)

Module LwlFile.

Import Lwl PyText.

(** [struct.error]. *)
Inductive struct_error : Type := StructError.

(** [struct.pack(">I", i)]: the four bytes of [i], most significant
    first; [struct.error] outside [0 <= i <= 0xffffffff]. *)
Definition pack_big_I (i : Z) : list byte + struct_error :=
  if (0 <=? i) && (i <=? 0xffffffff)
  then inl [byte_of (Z.shiftr i 24); byte_of (Z.shiftr i 16);
            byte_of (Z.shiftr i 8); byte_of i]
  else inr StructError.

(** [struct.unpack("<I", b)[0]]: four bytes, least significant first. *)
Definition unpack_little_I (b : list byte) : Z + struct_error :=
  match b with
  | [b0; b1; b2; b3] =>
      inl (byte_val b0 + Z.shiftl (byte_val b1) 8
           + Z.shiftl (byte_val b2) 16 + Z.shiftl (byte_val b3) 24)
  | _ => inr StructError
  end.

(** [swap32(i)]. *)
Definition swap32 (i : Z) : Z + struct_error :=
  match pack_big_I i with
  | inl b => unpack_little_I b
  | inr e => inr e
  end.

(** The lines [decode_data_file] prints itself, and the lines of
    [print_data]. *)
Inductive printed : Type :=
| PInvalidMissing (put_idx buf_size : option Z)
    (* print('Invalid put_idx %d and/or buf_size %d', (put_idx, buf_size)):
       the text as it stands, then the tuple *)
| PInvalidPutIdx (put_idx buf_size : Z)
    (* print('Invalid put_idx %d for buf_size %d', (put_idx, buf_size)) *)
| POddHex (len : Z)
    (* 'Odd number of hex chars (%d)' *)
| PData (line : Lwl.printed).

(** The lines of [print_data] among the lines of [decode_data_file]. *)
Definition of_print_data {A} (m : Lwl.io A) : Py.io printed A :=
  (m.1, map PData m.2).

(** [re.match(pat, line)] for [size_pat], ['^size:(\d+)'], and [put_pat],
    ['^put:(\d+)']: the digits of the group. *)
Definition keyword_match (keyword line : string) : option string :=
  match after_prefix keyword line with
  | Some rest =>
      match span is_digit rest with
      | (String c digits, _) => Some (String c digits)
      | (EmptyString, _) => None
      end
  | None => None
  end.

(** [for c in line: if c not in string.hexdigits: is_hex = False]. *)
Fixpoint all_hexdigits (line : string) : bool :=
  match line with
  | EmptyString => true
  | String c line' => is_hexdigit c && all_hexdigits line'
  end.

(** The [for line in f] loop of [decode_data_file]:
    [(buf_size, put_idx, hex_data)] when the file is read. *)
Fixpoint decode_data_file_loop (lines : list string)
    (buf_size put_idx : option Z) (hex_data : string)
    : option Z * option Z * string :=
  match lines with
  | [] => (buf_size, put_idx, hex_data)
  | line :: lines' =>
      let line := strip line in
      match keyword_match "size:" line with
      | Some digits =>
          decode_data_file_loop lines' (Some (int_dec digits)) put_idx hex_data
      | None =>
          match keyword_match "put:" line with
          | Some digits =>
              decode_data_file_loop lines' buf_size (Some (int_dec digits))
                hex_data
          | None =>
              let line := join_split line in
              match line with
              | EmptyString =>
                  decode_data_file_loop lines' buf_size put_idx hex_data
              | String _ _ =>
                  if all_hexdigits line
                  then decode_data_file_loop lines' buf_size put_idx
                         (hex_data ++ line)
                  else decode_data_file_loop lines' buf_size put_idx hex_data
              end
          end
      end
  end.

Section Decoder.

Variable format_percent : string -> list Z -> string + exn.
Variable lwl_msg_set : LwlMsgSet.

(** [decode_data_file(file_path)], given the lines of the file: [Some 1]
    is [return 1], [None] the value of [return print_data(...)]. *)
Definition decode_data_file (fuel : nat) (lines : list string)
    : Py.io printed (option Z) :=
  let '(buf_size, put_idx, hex_data) :=
    decode_data_file_loop lines None None EmptyString in
  match put_idx, buf_size with
  | Some put, Some size =>
      if size <=? put then
        print (PInvalidPutIdx put size) ;; io_ret (Some 1)
      else if negb (len hex_data mod 2 =? 0) then
        print (POddHex (len hex_data)) ;; io_ret (Some 1)
      else
        letp data := lift (fromhex hex_data) in
        letp start_idx :=
          lift (get_optimal_start_idx lwl_msg_set fuel data put) in
        of_print_data (print_data format_percent lwl_msg_set fuel data
                         start_idx put) ;;
        io_ret None
  | _, _ => print (PInvalidMissing put_idx buf_size) ;; io_ret (Some 1)
  end.

End Decoder.

Section Walk.

(** The state [parse_source_file] works on and the lines it prints. *)
Variables (S L : Type).

(** [parse_source_file(file_path)]: the error count it returns, with the
    state it leaves. *)
Variable parse_source_file : string -> S -> Py.io L (Z * S).

(** [os.path.join]. *)
Variable os_path_join : string -> string -> string.

(** [s[-2:]]: the last two characters of [s], or [s] when it has fewer. *)
Fixpoint last_two (s : string) : string :=
  match s with
  | String _ (String c (String d s' as t) as u) => last_two u
  | _ => s
  end.

(** The [for file_name in file_names] loop of [parse_source_dir]. *)
Fixpoint parse_files (root_dir_path : string) (file_names : list string)
    (error_count : Z) (st : S) : Py.io L (Z * S) :=
  match file_names with
  | [] => io_ret (error_count, st)
  | file_name :: file_names' =>
      let file_path := os_path_join root_dir_path file_name in
      if negb (String.eqb (last_two file_path) ".c")
      then parse_files root_dir_path file_names' error_count st
      else
        letp r := parse_source_file file_path st in
        parse_files root_dir_path file_names' (error_count + r.1) r.2
  end.

(** [parse_source_dir(dir_path)], given what [os.walk(dir_path)] yields:
    for each directory its path, the names of its subdirectories and the
    names of its files. *)
Fixpoint parse_source_dir_loop
    (walk : list (string * list string * list string)) (error_count : Z)
    (st : S) : Py.io L (Z * S) :=
  match walk with
  | [] => io_ret (error_count, st)
  | (root_dir_path, _, file_names) :: walk' =>
      letp r := parse_files root_dir_path file_names error_count st in
      parse_source_dir_loop walk' r.1 r.2
  end.

Definition parse_source_dir
    (walk : list (string * list string * list string)) (st : S)
    : Py.io L (Z * S) :=
  parse_source_dir_loop walk 0 st.

End Walk.

End LwlFile.

(** ** modules/lwl/lwl.py: [parse_source_file] *)

Module LwlSource.

Import Lwl PyText.

(** The lines [parse_source_file] prints itself, and the lines of the
    statements it checks and adds. *)
Inductive printed : Type :=
| PErrBaseId (file_path : string) (line_num lwl_bid : Z)
    (* 'ERROR: %s:%d: Invalid LWL base ID %d' *)
| PErrContinuation (file_path : string) (line_num : Z) (line : string)
    (* 'ERROR: %s:%d: Invalid LWL continuation line: %s' *)
| PErrLineEnding (file_path : string) (line_num : Z) (line : string)
    (* 'ERROR: %s:%d: Invalid LWL line ending: %s' *)
| PErrParseId (file_path : string) (line_num : Z) (lwl_statement : string)
    (* 'ERROR: %s:%d Cannot parse LWL ID in %s' *)
| PErrParseFmt (file_path : string) (line_num : Z) (lwl_statement : string)
    (* 'ERROR: %s:%d Cannot parse LWL fmt in %s' *)
| PErrParseArgTypes (file_path : string) (line_num : Z)
    (lwl_statement : string)
    (* 'ERROR: %s:%d Cannot parse LWL arg types string in %s' *)
| PErrParseArgBytes (file_path : string) (line_num : Z)
    (lwl_statement : string)
    (* 'ERROR: %s:%d Cannot parse LWL arg bytes string in %s' *)
| PStatement (line : Lwl.printed).

(** The lines of [parse_source_file_statement] among these. *)
Definition of_statement {A} (m : Lwl.io A) : Py.io printed A :=
  (m.1, map PStatement m.2).

(** The double quote. *)
Definition quote : ascii := ascii_of_nat 34.

(** [s[-1]] on a string that is not empty. *)
Fixpoint last_char (s : string) : option ascii :=
  match s with
  | EmptyString => None
  | String c EmptyString => Some c
  | String _ s' => last_char s'
  end.

(** [s[-1] != c]. *)
Definition last_char_differs (s : string) (c : ascii) : bool :=
  match last_char s with
  | Some d => negb (Ascii.eqb d c)
  | None => true
  end.

(** [\s+] and [(\d+)] at the start of [s]: what follows, with the
    digits. *)
Definition spaces1 (s : string) : option string :=
  match span is_space s with
  | (String _ _, rest) => Some rest
  | (EmptyString, _) => None
  end.

Definition digits1 (s : string) : option (string * string) :=
  match span is_digit s with
  | (String c digits, rest) => Some (String c digits, rest)
  | (EmptyString, _) => None
  end.

(** [re.match(lwl_bid_pat, line)] for
    ['^\s*#define\s+LWL_BASE_ID\s+(\d+)']: group 1. *)
Definition lwl_bid_pat (line : string) : option string :=
  s ← after_prefix "#define" (lstrip line);
  s ← spaces1 s;
  s ← after_prefix "LWL_BASE_ID" s;
  s ← spaces1 s;
  r ← digits1 s;
  Some r.1.

(** [re.match(detect_lwl_pat, line)] for ['^\s*LWLX?\(']. *)
Definition detect_lwl_pat (line : string) : bool :=
  match after_prefix "LWL" (lstrip line) with
  | Some s =>
      match after_prefix "X(" s with
      | Some _ => true
      | None => match after_prefix "(" s with
                | Some _ => true
                | None => false
                end
      end
  | None => false
  end.

(** [re.match(parse_id_pat, s)] for ['^\s*(LWLX?)\((\d+)']: group 1,
    group 2 and [s[m.end():]]. *)
Definition parse_id_pat (s : string) : option (string * string * string) :=
  s ← after_prefix "LWL" (lstrip s);
  c ← match after_prefix "X(" s with
      | Some s' => Some ("LWLX"%string, s')
      | None => s' ← after_prefix "(" s; Some ("LWL"%string, s')
      end;
  r ← digits1 c.2;
  Some (c.1, r.1, r.2).

(** [re.match(pat, s)] for [parse_fmt_pat] and [parse_arg_string_pat],
    which are the same pattern: white space, a comma, white space, then
    between two double quotes any characters that are not one.  Group 1
    and [s[m.end():]]. *)
Definition quoted_pat (s : string) : option (string * string) :=
  s ← after_prefix "," (lstrip s);
  s ← after_prefix (String quote "") (lstrip s);
  let r := span (fun c => negb (Ascii.eqb c quote)) s in
  s ← after_prefix (String quote "") r.2;
  Some (r.1, s).

(** [re.match(parse_null_arg_string_pat, s)] for ['\s*,\s*NULL']:
    [s[m.end():]]. *)
Definition null_pat (s : string) : option string :=
  s ← after_prefix "," (lstrip s);
  after_prefix "NULL" (lstrip s).

(** An argument string or [NULL]: the string, empty for [NULL], and
    [s[m.end():]]; [None] when neither pattern matches. *)
Definition null_or_quoted (s : string) : option (string * string) :=
  match null_pat s with
  | Some rest => Some (EmptyString, rest)
  | None => quoted_pat s
  end.

(** The locals of [parse_source_file] that live from one line to the
    next.  [base] is [(lwl_bid, lwl_line_num)]: the two are assigned
    together on a [LWL_BASE_ID] line; before that [lwl_bid] is [None] and
    [lwl_line_num] is not bound. *)
Record parser : Type := {
  base : option (Z * Z);
  error_count : Z;
  lwl_statement : option string;
  line_num : Z;
  msg_set : LwlMsgSet
}.

(** [if lwl_statement]: neither [None] nor empty. *)
Definition truthy (s : option string) : bool :=
  match s with
  | Some (String _ _) => true
  | _ => false
  end.

(** A complete statement, from [m = re.match(parse_id_pat,
    lwl_statement)] to the end of the loop body: [error_count] and the
    message set afterwards.  [lwl_statement] is [None] at every exit. *)
Definition parse_statement (file_path : string) (line_num : Z)
    (base : option (Z * Z)) (error_count : Z) (msg_set : LwlMsgSet)
    (lwl_statement : string) : Py.io printed (Z * LwlMsgSet) :=
  match parse_id_pat lwl_statement with
  | None =>
      print (PErrParseId file_path line_num lwl_statement) ;;
      io_ret (error_count + 1, msg_set)
  | Some (lwl_cmd, lwl_id_offset, lwl_remain) =>
      match quoted_pat lwl_remain with
      | None =>
          print (PErrParseFmt file_path line_num lwl_statement) ;;
          io_ret (error_count + 1, msg_set)
      | Some (lwl_fmt, lwl_remain) =>
          match (if String.eqb lwl_cmd "LWLX"
                 then snd <$> null_or_quoted lwl_remain
                 else Some lwl_remain) with
          | None =>
              print (PErrParseArgTypes file_path line_num lwl_statement) ;;
              io_ret (error_count + 1, msg_set)
          | Some lwl_remain =>
              match null_or_quoted lwl_remain with
              | None =>
                  print (PErrParseArgBytes file_path line_num
                           lwl_statement) ;;
                  io_ret (error_count + 1, msg_set)
              | Some (lwl_arg_bytes, _) =>
                  of_statement
                    (parse_source_file_statement
                       {| st_file_path := file_path;
                          st_line_num := line_num;
                          (* read only once [lwl_bid] is known to be set *)
                          st_lwl_line_num := from_option snd 0 base;
                          st_lwl_statement := lwl_statement;
                          st_lwl_bid := fst <$> base;
                          st_lwl_id_offset := int_dec lwl_id_offset;
                          st_lwl_fmt := lwl_fmt;
                          st_lwl_arg_bytes := lwl_arg_bytes |}
                       error_count msg_set)
              end
          end
      end
  end.

(** The body of [for line in f]. *)
Definition parse_line (file_path : string) (line : string) (p : parser)
    : Py.io printed parser :=
  let line_num := line_num p + 1 in
  let line := strip line in
  match line with
  | EmptyString =>
      io_ret {| base := base p; error_count := error_count p;
                lwl_statement := lwl_statement p; line_num := line_num;
                msg_set := msg_set p |}
  | String _ _ =>
      letp base :=
        match lwl_bid_pat line with
        | Some digits =>
            let lwl_bid := int_dec digits in
            (if lwl_bid =? 0
             then print (PErrBaseId file_path line_num lwl_bid)
             else io_ret tt) ;;
            io_ret (Some (lwl_bid, line_num))
        | None => io_ret (base p)
        end in
      letp pending :=
        if truthy (lwl_statement p) then
          if last_char_differs line ","
             && negb (String.eqb (LwlFile.last_two line) ");")
          then
            print (PErrContinuation file_path line_num line) ;;
            io_ret (error_count p + 1, None)
          else
            io_ret (error_count p,
                    Some (default EmptyString (lwl_statement p) ++ line)%string)
        else if detect_lwl_pat line then
          if negb (String.eqb (LwlFile.last_two line) ");")
             && last_char_differs line ","
          then
            print (PErrLineEnding file_path line_num line) ;;
            io_ret (error_count p + 1, lwl_statement p)
          else io_ret (error_count p, Some line)
        else io_ret (error_count p, lwl_statement p) in
      let error_count := pending.1 in
      let lwl_statement := pending.2 in
      if negb (truthy lwl_statement)
         || negb (String.eqb
                    (LwlFile.last_two (default EmptyString lwl_statement))
                    ");")
      then
        io_ret {| base := base; error_count := error_count;
                  lwl_statement := lwl_statement; line_num := line_num;
                  msg_set := msg_set p |}
      else
        letp r := parse_statement file_path line_num base error_count
                    (msg_set p) (default EmptyString lwl_statement) in
        io_ret {| base := base; error_count := r.1; lwl_statement := None;
                  line_num := line_num; msg_set := r.2 |}
  end.

(** The loop [for line in f], from the locals as they are. *)
Fixpoint parse_lines (file_path : string) (lines : list string)
    (p : parser) : Py.io printed parser :=
  match lines with
  | [] => io_ret p
  | line :: lines' =>
      letp p := parse_line file_path line p in
      parse_lines file_path lines' p
  end.

(** The locals before the loop. *)
Definition parser_init (msg_set : LwlMsgSet) : parser :=
  {| base := None; error_count := 0; lwl_statement := None; line_num := 0;
     msg_set := msg_set |}.

(** [parse_source_file(file_path)], given the lines of the file and the
    module global [lwl_msg_set]: the error count it returns, with the set
    afterwards. *)
Definition parse_source_file (file_path : string) (lines : list string)
    (msg_set : LwlMsgSet) : Py.io printed (Z * LwlMsgSet) :=
  letp p := parse_lines file_path lines (parser_init msg_set) in
  io_ret (error_count p, LwlSource.msg_set p).

End LwlSource.

(** ** Reference definitions for the source parsers *)

Module SourceReference.

Import PyText LwlFile LwlSource.

Local Open Scope string_scope.

Section Walk.

Variables (S L : Type).
Variable parse_source_file : string -> S -> Py.io L (Z * S).
Variable os_path_join : string -> string -> string.

(** The paths of a walk that end in [.c], in the order of the walk. *)
Definition c_paths (walk : list (string * list string * list string))
    : list string :=
  List.filter (fun file_path => String.eqb (last_two file_path) ".c")
    (concat (map (fun step => map (os_path_join step.1.1) step.2) walk)).

(** The files of a list parsed one after the other. *)
Fixpoint parse_paths (paths : list string) (error_count : Z) (st : S)
    : Py.io L (Z * S) :=
  match paths with
  | [] => io_ret (error_count, st)
  | file_path :: paths' =>
      letp r := parse_source_file file_path st in
      parse_paths paths' (error_count + r.1) r.2
  end.

End Walk.

(** The lines [parse_source_file] of lwl.py counts as errors: all but the
    one about a base id of 0. *)
Definition counted (l : LwlSource.printed) : bool :=
  match l with
  | PErrBaseId _ _ _ => false
  | _ => true
  end.

(** How many of the lines printed count as errors. *)
Definition errors (out : list LwlSource.printed) : Z :=
  Z.of_nat (length (List.filter counted out)).

Definition newline : string := String (ascii_of_nat 10) "".

(** A character that is not the double quote. *)
Definition not_quote (c : ascii) : bool := negb (Ascii.eqb c quote).

Definition quoted (s : string) : string :=
  String quote (s ++ String quote "").

(** A line [#define LWL_BASE_ID <bid>]. *)
Definition define_line (bid : string) : string :=
  "#define LWL_BASE_ID " ++ bid ++ newline.

(** A statement [LWL(<offset>, "<fmt>", "<arg_bytes>"<args>);] or
    [LWLX(<offset>, "<fmt>", "<arg_types>", "<arg_bytes>"<args>);]. *)
Definition lwl_text (x : bool) (offset fmt arg_types arg_bytes args : string)
    : string :=
  (if x then "LWLX(" else "LWL(") ++ offset ++ ", " ++ quoted fmt
  ++ (if x then ", " ++ quoted arg_types else "")
  ++ ", " ++ quoted arg_bytes ++ args ++ ");".

(** The statement record [parse_source_file] of lwl.py has read when a
    statement is split. *)
Definition statement_of (file_path : string) (line_num : Z)
    (base : option (Z * Z)) (lwl_statement offset fmt arg_bytes : string)
    : Lwl.statement :=
  {| Lwl.st_file_path := file_path;
     Lwl.st_line_num := line_num;
     Lwl.st_lwl_line_num := from_option snd 0 base;
     Lwl.st_lwl_statement := lwl_statement;
     Lwl.st_lwl_bid := fst <$> base;
     Lwl.st_lwl_id_offset := int_dec offset;
     Lwl.st_lwl_fmt := fmt;
     Lwl.st_lwl_arg_bytes := arg_bytes |}.

End SourceReference.

(** ** Sample sources *)

Module SourceSamples.

Import SourceReference.

Local Open Scope string_scope.

(** A base id of 0, a statement, and a second one with the same id. *)
Definition source_duplicate : list string :=
  [define_line "0";
   lwl_text false "1" "val=%d" "" "4" ", val" ++ newline;
   lwl_text true "1" "tick" "1ms" "" "" ++ newline].

(** A base id of 0, an empty line and a statement. *)
Definition source_single : list string :=
  [define_line "0"; newline;
   lwl_text false "1" "val=%d" "" "4" ", val" ++ newline].

(** A statement on three lines. *)
Definition source_split : list string :=
  [define_line "10";
   "  LWL(2, " ++ newline;
   "      " ++ quoted "val=%d" ++ "," ++ newline;
   "  " ++ quoted "4" ++ ", val);" ++ newline].

End SourceSamples.

(** ** modules/fault/logfmt.py: [SourceParser.parse_source_file] *)

Module LogfmtSource.

Import Logfmt PyText.

(** The lines [parse_source_file] prints itself, and the lines of the
    statements it checks and adds. *)
Inductive printed : Type :=
| PErrBaseId (file_path : string) (line_num lwl_base_id : Z)
    (* 'ERROR: %s:%d: Invalid LWL base ID %d' *)
| PErrContinuation (file_path : string) (line_num : Z) (line : string)
    (* 'ERROR: %s:%d: Invalid LWL continuation line: %s' *)
| PErrLineEnding (file_path : string) (line_num : Z) (line : string)
    (* 'ERROR: %s:%d: Invalid LWL line ending: %s' *)
| PErrParseFmt (file_path : string) (line_num : Z) (lwl_statement : string)
    (* 'ERROR: %s:%d Cannot parse LWL fmt in %s' *)
| PErrParseNumArgBytes (file_path : string) (line_num : Z)
    (lwl_statement : string)
    (* 'ERROR: %s:%d Cannot parse LWL num arg bytes parameter in %s' *)
| PStatement (line : Logfmt.printed).

(** The lines of [parse_source_file_statement] among these. *)
Definition of_statement {A} (m : Logfmt.io A) : Py.io printed A :=
  (m.1, map PStatement m.2).

(** [parse_fault_data_pat], ['//@fault_data,([^,]+),(\d+)'], matched at
    the start of [s]: the two groups.  The name is the whole run of
    characters that are no comma, and a comma has to follow it. *)
Definition parse_fault_data_pat_match (s : string)
    : option (string * string) :=
  s ← after_prefix "//@fault_data," s;
  match span (fun c => negb (Ascii.eqb c ",")) s with
  | (String c name, rest) =>
      s ← after_prefix "," rest;
      r ← LwlSource.digits1 s;
      Some (String c name, r.1)
  | (EmptyString, _) => None
  end.

(** [re.search(parse_fault_data_pat, s)]: the match at the first position
    that has one. *)
Fixpoint parse_fault_data_pat (s : string) : option (string * string) :=
  match parse_fault_data_pat_match s with
  | Some groups => Some groups
  | None =>
      match s with
      | EmptyString => None
      | String _ s' => parse_fault_data_pat s'
      end
  end.

(** [re.match(lwl_base_id_pat, line)]: the pattern is [lwl_bid_pat] of
    lwl.py. *)
Definition lwl_base_id_pat (line : string) : option string :=
  LwlSource.lwl_bid_pat line.

(** [re.match(detect_lwl_pat, line)] for ['^\s*LWL\(']. *)
Definition detect_lwl_pat (line : string) : bool :=
  match after_prefix "LWL(" (lstrip line) with
  | Some _ => true
  | None => false
  end.

(** [re.match(parse_fmt_pat, s)]: white space, [LWL(], then between two
    double quotes any characters that are not one.  Group 1 and
    [s[m.end():]]. *)
Definition parse_fmt_pat (s : string) : option (string * string) :=
  s ← after_prefix "LWL(" (lstrip s);
  s ← after_prefix (String LwlSource.quote "") s;
  let r := span (fun c => negb (Ascii.eqb c LwlSource.quote)) s in
  s ← after_prefix (String LwlSource.quote "") r.2;
  Some (r.1, s).

(** [re.match(parse_num_arg_bytes_pat, s)] for ['\s*,\s*([0-9]+)']:
    group 1 and [s[m.end():]]. *)
Definition parse_num_arg_bytes_pat (s : string) : option (string * string) :=
  s ← after_prefix "," (lstrip s);
  LwlSource.digits1 (lstrip s).

(** [parse_arg_pat], [',\s*LWL_([\d])\('], matched at the start of [s]:
    group 1 and what follows the match. *)
Definition parse_arg_pat_match (s : string) : option (ascii * string) :=
  s ← after_prefix "," s;
  s ← after_prefix "LWL_" (lstrip s);
  match s with
  | String d s =>
      if is_digit d then s ← after_prefix "(" s; Some (d, s) else None
  | EmptyString => None
  end.

(** [re.search(parse_arg_pat, s)]: group 1 and [s[m.end():]]. *)
Fixpoint parse_arg_pat (s : string) : option (ascii * string) :=
  match parse_arg_pat_match s with
  | Some r => Some r
  | None =>
      match s with
      | EmptyString => None
      | String _ s' => parse_arg_pat s'
      end
  end.

(** The [while True] loop that collects the argument lengths:
    [(lwl_arg_lengths, num_arg_bytes_check)]. *)
Fixpoint arg_lengths_loop (fuel : nat) (lwl_remain lwl_arg_lengths : string)
    (num_arg_bytes_check : Z) : outcome (string * Z) :=
  match fuel with
  | O => Fuel
  | S fuel' =>
      match parse_arg_pat lwl_remain with
      | Some (d, lwl_remain) =>
          arg_lengths_loop fuel' lwl_remain
            (lwl_arg_lengths ++ String d "")%string
            (num_arg_bytes_check + int_dec (String d ""))
      | None => Ok (lwl_arg_lengths, num_arg_bytes_check)
      end
  end.

(** The locals of [parse_source_file] that live from one line to the
    next, with the two module globals it changes.  [base] is
    [(lwl_base_id, lwl_line_num)]: the two are assigned together on a
    [LWL_BASE_ID] line; before that [lwl_base_id] is [None] and
    [lwl_line_num] is not bound. *)
Record parser : Type := {
  error_count : Z;
  base : option (Z * Z);
  fault_field_offset : Z;
  line_num : Z;
  lwl_id_offset : Z;
  lwl_statement : option string;
  fault_data : FaultData;
  msg_set : LwlMsgSet
}.

(** A complete statement, from [m = re.match(parse_fmt_pat,
    lwl_statement)] to the end of the loop body: [error_count] and the
    message set afterwards.  [lwl_statement] is [None] at every exit. *)
Definition parse_statement (fuel : nat) (file_path : string) (line_num : Z)
    (base : option (Z * Z)) (lwl_id_offset : Z) (error_count : Z)
    (msg_set : LwlMsgSet) (lwl_statement : string)
    : Py.io printed (Z * LwlMsgSet) :=
  match parse_fmt_pat lwl_statement with
  | None =>
      print (PErrParseFmt file_path line_num lwl_statement) ;;
      io_ret (error_count + 1, msg_set)
  | Some (lwl_fmt, lwl_remain) =>
      match parse_num_arg_bytes_pat lwl_remain with
      | None =>
          print (PErrParseNumArgBytes file_path line_num lwl_statement) ;;
          io_ret (error_count + 1, msg_set)
      | Some (digits, lwl_remain) =>
          let lwl_num_arg_bytes := int_dec digits in
          letp args := lift (arg_lengths_loop fuel lwl_remain EmptyString
                               0) in
          of_statement
            (parse_source_file_statement
               {| st_file_path := file_path;
                  st_line_num := line_num;
                  (* read only once [lwl_base_id] is known to be set *)
                  st_lwl_line_num := from_option snd 0 base;
                  st_lwl_statement := lwl_statement;
                  st_lwl_base_id := fst <$> base;
                  st_lwl_id_offset := lwl_id_offset;
                  st_lwl_fmt := lwl_fmt;
                  st_lwl_num_arg_bytes := lwl_num_arg_bytes;
                  st_lwl_arg_lengths := args.1;
                  st_num_arg_bytes_check := args.2 |}
               error_count msg_set)
      end
  end.

(** The body of [for line in f]. *)
Definition parse_line (fuel : nat) (file_path : string) (line : string)
    (p : parser) : Py.io printed parser :=
  let line_num := line_num p + 1 in
  let line := strip line in
  match line with
  | EmptyString =>
      io_ret {| error_count := error_count p; base := base p;
                fault_field_offset := fault_field_offset p;
                line_num := line_num; lwl_id_offset := lwl_id_offset p;
                lwl_statement := lwl_statement p;
                fault_data := fault_data p; msg_set := msg_set p |}
  | String _ _ =>
      match parse_fault_data_pat line with
      | Some (name, digits) =>
          let num_bytes := int_dec digits in
          io_ret {| error_count := error_count p; base := base p;
                    fault_field_offset := fault_field_offset p + num_bytes;
                    line_num := line_num; lwl_id_offset := lwl_id_offset p;
                    lwl_statement := lwl_statement p;
                    fault_data :=
                      add_fault_field (fault_data p) name
                        (fault_field_offset p) num_bytes;
                    msg_set := msg_set p |}
      | None =>
          letp base :=
            match lwl_base_id_pat line with
            | Some digits =>
                let lwl_base_id := int_dec digits in
                (if lwl_base_id =? 0
                 then print (PErrBaseId file_path line_num lwl_base_id)
                 else io_ret tt) ;;
                io_ret (Some (lwl_base_id, line_num))
            | None => io_ret (base p)
            end in
          letp pending :=
            if LwlSource.truthy (lwl_statement p) then
              if LwlSource.last_char_differs line ","
                 && negb (String.eqb (LwlFile.last_two line) ");")
              then
                print (PErrContinuation file_path line_num line) ;;
                io_ret (error_count p + 1, None)
              else
                io_ret (error_count p,
                        Some (default EmptyString (lwl_statement p)
                              ++ line)%string)
            else if detect_lwl_pat line then
              if negb (String.eqb (LwlFile.last_two line) ");")
                 && LwlSource.last_char_differs line ","
              then
                print (PErrLineEnding file_path line_num line) ;;
                io_ret (error_count p + 1, lwl_statement p)
              else io_ret (error_count p, Some line)
            else io_ret (error_count p, lwl_statement p) in
          let error_count := pending.1 in
          let lwl_statement := pending.2 in
          if negb (LwlSource.truthy lwl_statement)
             || negb (String.eqb
                        (LwlFile.last_two
                           (default EmptyString lwl_statement))
                        ");")
          then
            io_ret {| error_count := error_count; base := base;
                      fault_field_offset := fault_field_offset p;
                      line_num := line_num;
                      lwl_id_offset := lwl_id_offset p;
                      lwl_statement := lwl_statement;
                      fault_data := fault_data p; msg_set := msg_set p |}
          else
            let lwl_id_offset := lwl_id_offset p + 1 in
            letp r := parse_statement fuel file_path line_num base
                        lwl_id_offset error_count (msg_set p)
                        (default EmptyString lwl_statement) in
            io_ret {| error_count := r.1; base := base;
                      fault_field_offset := fault_field_offset p;
                      line_num := line_num; lwl_id_offset := lwl_id_offset;
                      lwl_statement := None;
                      fault_data := fault_data p; msg_set := r.2 |}
      end
  end.

(** The loop [for line in f], from the locals as they are. *)
Fixpoint parse_lines (fuel : nat) (file_path : string) (lines : list string)
    (p : parser) : Py.io printed parser :=
  match lines with
  | [] => io_ret p
  | line :: lines' =>
      letp p := parse_line fuel file_path line p in
      parse_lines fuel file_path lines' p
  end.

(** The locals before the loop. *)
Definition parser_init (fault_data : FaultData) (msg_set : LwlMsgSet)
    : parser :=
  {| error_count := 0; base := None; fault_field_offset := 0;
     line_num := 0; lwl_id_offset := -1; lwl_statement := None;
     fault_data := fault_data; msg_set := msg_set |}.

(** [parse_source_file(file_path)], given the lines of the file and the
    module globals [g_fault_data] and [g_lwl_msg_set]: the error count it
    returns, with the two globals afterwards. *)
Definition parse_source_file (fuel : nat) (file_path : string)
    (lines : list string) (fault_data : FaultData) (msg_set : LwlMsgSet)
    : Py.io printed (Z * (FaultData * LwlMsgSet)) :=
  letp p := parse_lines fuel file_path lines
              (parser_init fault_data msg_set) in
  io_ret (error_count p, (LogfmtSource.fault_data p, LogfmtSource.msg_set p)).

End LogfmtSource.

(** ** Reference definitions for [parse_source_file] of logfmt.py *)

Module LogfmtSourceReference.

Import Logfmt PyText DumpReference LogfmtSource SourceReference.

Local Open Scope string_scope.

Definition no_slash (c : ascii) : bool := negb (Ascii.eqb c "/").
Definition no_comma (c : ascii) : bool := negb (Ascii.eqb c ",").

Definition nonempty (s : string) : bool :=
  match s with
  | EmptyString => false
  | String _ _ => true
  end.

(** A line that neither carries a fault-data annotation, nor defines the
    base id, nor starts a statement. *)
Definition inert (line : string) : bool :=
  match parse_fault_data_pat (strip line), lwl_base_id_pat (strip line) with
  | None, None => negb (detect_lwl_pat (strip line))
  | _, _ => false
  end.

(** The lines of a source with fault-data annotations: a line of the
    kind above, or a declaration followed by the annotation of a field. *)
Inductive field_item : Type :=
| Other (line : string)
| Field (decl name digits : string).

Definition field_line (i : field_item) : string :=
  match i with
  | Other line => line
  | Field decl name digits =>
      decl ++ "//@fault_data," ++ name ++ "," ++ digits ++ newline
  end.

Definition field_ok (i : field_item) : bool :=
  match i with
  | Other line => inert line
  | Field decl name digits =>
      all no_slash decl && nonempty name && all no_comma name
      && all is_digit digits && nonempty digits
  end.

(** The annotated fields one after the other from [offset] on. *)
Fixpoint laid_out (offset : Z) (items : list field_item)
    : list FaultField :=
  match items with
  | [] => []
  | Other _ :: items' => laid_out offset items'
  | Field _ name digits :: items' =>
      Build_FaultField name offset (int_dec digits)
      :: laid_out (offset + int_dec digits) items'
  end.

(** [add_fault_field] for each field of a list. *)
Definition add_fields (fault_data : FaultData) (fields : list FaultField)
    : FaultData :=
  fold_left (fun fd f => add_fault_field fd (name f) (offset f) (num_bytes f))
    fields fault_data.

(** The lines of a source with statements: a line of the first kind, a
    statement [LWL("<fmt>", <declared>, LWL_<d>(<arg>), ...);], or a
    statement whose format cannot be read. *)
Inductive statement_item : Type :=
| Skip (line : string)
| Good (fmt declared : string) (args : list (ascii * string))
| Bad (junk : string).

Definition arg_text (a : ascii * string) : string :=
  ", LWL_" ++ String a.1 "(" ++ a.2 ++ ")".

Fixpoint args_text (args : list (ascii * string)) : string :=
  match args with
  | [] => ""
  | a :: args' => arg_text a ++ args_text args'
  end.

Definition logfmt_text (fmt declared : string) (args : list (ascii * string))
    : string :=
  "LWL(" ++ quoted fmt ++ ", " ++ declared ++ args_text args ++ ");".

Definition bad_text (junk : string) : string := "LWL(" ++ junk ++ ");".

Definition statement_line (i : statement_item) : string :=
  match i with
  | Skip line => line
  | Good fmt declared args => logfmt_text fmt declared args ++ newline
  | Bad junk => bad_text junk ++ newline
  end.

Definition is_none {A} (o : option A) : bool :=
  match o with
  | None => true
  | Some _ => false
  end.

Definition statement_ok (fuel : nat) (i : statement_item) : bool :=
  match i with
  | Skip line => inert line
  | Good fmt declared args =>
      all not_quote fmt && all is_digit declared && nonempty declared
      && forallb (fun a => is_digit a.1 && all no_comma a.2) args
      && is_none (parse_fault_data_pat (logfmt_text fmt declared args))
      && (length args <? fuel)%nat
  | Bad junk =>
      is_none (parse_fmt_pat (bad_text junk))
      && is_none (parse_fault_data_pat (bad_text junk))
  end.

(** The digits of the arguments, and their sum. *)
Definition arg_lengths (args : list (ascii * string)) : string :=
  string_of_list_ascii (map fst args).

Definition arg_sum (args : list (ascii * string)) : Z :=
  fold_right (fun a sum => int_dec (String a.1 "") + sum)%Z 0%Z args.

(** The statements of a source checked and added one after the other,
    each under the offset that is its position among the statements. *)
Fixpoint numbered (file_path : string) (base : Z * Z) (lwl_id_offset : Z)
    (line_num : Z) (items : list statement_item) (error_count : Z)
    (msg_set : LwlMsgSet) : Py.io LogfmtSource.printed (Z * LwlMsgSet) :=
  match items with
  | [] => io_ret (error_count, msg_set)
  | Skip _ :: items' =>
      numbered file_path base lwl_id_offset (line_num + 1) items'
        error_count msg_set
  | Good fmt declared args :: items' =>
      letp r :=
        of_statement
          (parse_source_file_statement
             {| st_file_path := file_path;
                st_line_num := line_num;
                st_lwl_line_num := base.2;
                st_lwl_statement := logfmt_text fmt declared args;
                st_lwl_base_id := Some base.1;
                st_lwl_id_offset := lwl_id_offset;
                st_lwl_fmt := fmt;
                st_lwl_num_arg_bytes := int_dec declared;
                st_lwl_arg_lengths := arg_lengths args;
                st_num_arg_bytes_check := arg_sum args |}
             error_count msg_set) in
      numbered file_path base (lwl_id_offset + 1) (line_num + 1) items'
        r.1 r.2
  | Bad junk :: items' =>
      print (PErrParseFmt file_path line_num (bad_text junk)) ;;
      numbered file_path base (lwl_id_offset + 1) (line_num + 1) items'
        (error_count + 1) msg_set
  end.

End LogfmtSourceReference.

(** ** Sample sources of logfmt.py *)

Module LogfmtSourceSamples.

Import LogfmtSourceReference SourceReference.

Local Open Scope string_scope.

(** A structure with two annotated fields. *)
Definition source_fields : list field_item :=
  [Other ("struct fault_data" ++ newline);
   Other ("{" ++ newline);
   Field "    uint32_t magic;  " "magic" "4";
   Other newline;
   Field "    uint16_t pad1; " "pad1" "2";
   Other ("};" ++ newline)].

(** Three statements, the second of which has no format. *)
Definition source_statements : list statement_item :=
  [Good "boot" "0" [];
   Skip newline;
   Bad "boot, 0";
   Good "a=%d b=%d" "3" [("1"%char, "a"); ("2"%char, "f(b)")]].

End LogfmtSourceSamples.

(** * Theorems *)

(** ** Circular index arithmetic and the readers *)

Module CircFacts.

Import Logfmt Linear.

Lemma circ_next_range buf_len idx :
  0 <= idx < buf_len -> 0 <= circ_next buf_len idx < buf_len.
Proof. unfold circ_next. destruct (Z.leb_spec buf_len (idx + 1)); lia. Qed.

Lemma dist_next buf_len put_idx idx :
  0 <= idx < buf_len -> 0 <= put_idx < buf_len -> idx <> put_idx ->
  (put_idx - circ_next buf_len idx) mod buf_len
  = (put_idx - idx) mod buf_len - 1.
Proof.
  intros Hi Hp Hne. unfold circ_next.
  destruct (Z.leb_spec buf_len (idx + 1)).
  - assert (idx = buf_len - 1) by lia. subst idx.
    rewrite Z.sub_0_r, (Z.mod_small put_idx) by lia.
    replace (put_idx - (buf_len - 1)) with (put_idx + 1 + (-1) * buf_len) by lia.
    rewrite Z.mod_add by lia. rewrite Z.mod_small by lia. lia.
  - destruct (Z.lt_ge_cases idx put_idx).
    + rewrite !Z.mod_small by lia. lia.
    + replace (put_idx - (idx + 1)) with (put_idx - idx - 1 + buf_len + (-1) * buf_len) by lia.
      replace (put_idx - idx) with (put_idx - idx + buf_len + (-1) * buf_len) at 2 by lia.
      rewrite !Z.mod_add by lia. rewrite !Z.mod_small by lia. lia.
Qed.

Lemma dist_zero buf_len put_idx idx :
  0 <= idx < buf_len -> 0 <= put_idx < buf_len ->
  (put_idx - idx) mod buf_len = 0 -> idx = put_idx.
Proof.
  intros Hi Hp H. destruct (Z.lt_ge_cases put_idx idx).
  - replace (put_idx - idx) with (put_idx - idx + buf_len + (-1) * buf_len) in H by lia.
    rewrite Z.mod_add, Z.mod_small in H by lia. lia.
  - rewrite Z.mod_small in H by lia. lia.
Qed.

Lemma dist_self_next buf_len put_idx :
  0 <= put_idx < buf_len ->
  (put_idx - circ_next buf_len put_idx) mod buf_len = buf_len - 1.
Proof.
  intros Hp. unfold circ_next. destruct (Z.leb_spec buf_len (put_idx + 1)).
  - rewrite Z.sub_0_r, Z.mod_small by lia. lia.
  - replace (put_idx - (put_idx + 1)) with (buf_len - 1 + (-1) * buf_len) by lia.
    rewrite Z.mod_add, Z.mod_small by lia. lia.
Qed.

Lemma remaining_le buf_len put_idx idx first_get :
  0 < buf_len -> (remaining buf_len put_idx idx first_get <= Z.to_nat buf_len)%nat.
Proof.
  intros. unfold remaining. destruct (first_get && (idx =? put_idx)); [lia|].
  pose proof (Z.mod_pos_bound (put_idx - idx) buf_len). lia.
Qed.

(** Exhaustion is exactly the [EOFError] test of the readers. *)
Lemma remaining_0 buf_len put_idx idx first_get :
  0 <= idx < buf_len -> 0 <= put_idx < buf_len ->
  remaining buf_len put_idx idx first_get = 0%nat ->
  (idx =? put_idx) && negb first_get = true.
Proof.
  intros Hi Hp. unfold remaining.
  destruct first_get; simpl.
  - destruct (Z.eqb_spec idx put_idx); simpl; [lia|].
    intros H. exfalso. apply n. apply (dist_zero buf_len); try lia.
    pose proof (Z.mod_pos_bound (put_idx - idx) buf_len). lia.
  - intros H. rewrite andb_true_r. apply Z.eqb_eq. apply (dist_zero buf_len); try lia.
    pose proof (Z.mod_pos_bound (put_idx - idx) buf_len). lia.
Qed.

Lemma remaining_S buf_len put_idx idx first_get k :
  0 <= idx < buf_len -> 0 <= put_idx < buf_len ->
  remaining buf_len put_idx idx first_get = S k ->
  (idx =? put_idx) && negb first_get = false
  /\ remaining buf_len put_idx (circ_next buf_len idx) false = k.
Proof.
  intros Hi Hp. unfold remaining. simpl.
  destruct (Z.eqb_spec idx put_idx) as [->|Hne].
  - destruct first_get; simpl.
    + intros H. split; [done|]. rewrite dist_self_next by lia. lia.
    + rewrite Z.sub_diag, Z.mod_0_l by lia. simpl. lia.
  - rewrite andb_false_r. simpl. intros H. split; [done|].
    rewrite dist_next by lia. lia.
Qed.

Lemma length_circ_bytes d bs bl n idx : length (circ_bytes d bs bl n idx) = n.
Proof. revert idx. induction n; simpl; intros; [done|]. by rewrite IHn. Qed.

Lemma count_invalid_drop cat s : forall skip,
  count_invalid cat s skip = count_invalid cat (drop skip s) 0.
Proof.
  induction s as [|b s IH]; intros skip.
  - by destruct skip.
  - destruct skip as [|k]; [done|]. simpl. apply IH.
Qed.

Lemma count_invalid_short cat s skip :
  (length s <= skip)%nat -> count_invalid cat s skip = 0.
Proof.
  intros H. rewrite count_invalid_drop, drop_ge by lia. done.
Qed.

Section Window.

Variable G : Globals.
Variables buf_start_idx buf_len put_idx : Z.
Hypothesis Hstart : 0 <= buf_start_idx.
Hypothesis Hfit : buf_start_idx + buf_len <= data_len (g_data G).
Hypothesis Hput : 0 <= put_idx < buf_len.

Local Abbreviation d := (g_data G).
Local Abbreviation cat := (g_lwl_msg_set G).
Local Abbreviation stream_at := (stream (g_data G) buf_start_idx buf_len put_idx).
Local Abbreviation rem_at := (remaining buf_len put_idx).

Lemma getitem_window idx :
  0 <= idx < buf_len ->
  getitem (data_array d) (buf_start_idx + idx)
  = Ok (blob_byte d (buf_start_idx + idx)).
Proof using Hstart Hfit.
  intros Hi. unfold getitem, blob_byte. unfold data_len in Hfit.
  destruct (Z.ltb_spec (buf_start_idx + idx) 0); [lia|].
  destruct (Z.ltb_spec (buf_start_idx + idx) 0); [lia|]. simpl.
  destruct (Z.leb_spec (Z.of_nat (length (data_array d))) (buf_start_idx + idx)); [lia|].
  destruct (nth_error (data_array d) (Z.to_nat (buf_start_idx + idx))) as [b|] eqn:E.
  - f_equal. symmetry. apply nth_error_nth. by rewrite nth_error_map, E.
  - apply nth_error_None in E. lia.
Qed.

Lemma length_stream idx fg : length (stream_at idx fg) = rem_at idx fg.
Proof. apply length_circ_bytes. Qed.

Lemma stream_cons idx fg b rest :
  0 <= idx < buf_len ->
  stream_at idx fg = b :: rest ->
  (idx =? put_idx) && negb fg = false
  /\ b = blob_byte d (buf_start_idx + idx)
  /\ stream_at (circ_next buf_len idx) false = rest.
Proof.
  intros Hi. unfold stream.
  destruct (rem_at idx fg) as [|k] eqn:E; [done|]. simpl.
  destruct (remaining_S _ _ _ _ _ Hi Hput E) as [H1 H2].
  intros [= <- <-]. rewrite H2. done.
Qed.

Lemma stream_nil idx fg :
  0 <= idx < buf_len ->
  stream_at idx fg = [] -> (idx =? put_idx) && negb fg = true.
Proof.
  intros Hi H. apply (remaining_0 buf_len); try done.
  rewrite <- length_stream, H. done.
Qed.

(** One-byte read. *)
Lemma get_data_circ_1 idx fg :
  0 <= idx < buf_len ->
  get_data_circ d idx 1 buf_start_idx buf_len put_idx fg
  = match stream_at idx fg with
    | [] => Raise EOFError
    | b :: _ => Ok (b, circ_next buf_len idx)
    end.
Proof.
  intros Hi. unfold get_data_circ.
  destruct (Z.leb_spec buf_len idx); [lia|].
  destruct (Z.leb_spec buf_len put_idx); [lia|].
  simpl. destruct (stream_at idx fg) as [|b rest] eqn:E.
  - by rewrite (stream_nil _ _ Hi E).
  - destruct (stream_cons _ _ _ _ Hi E) as (-> & -> & _).
    rewrite getitem_window by done. simpl. rewrite Z.shiftl_0_l. done.
Qed.

(** Multi-byte read once the first read of the walk is behind. *)
Lemma get_data_circ_loop_ok n : forall idx value,
  0 <= idx < buf_len ->
  (n <= length (stream_at idx false))%nat ->
  exists idx', 0 <= idx' < buf_len
    /\ get_data_circ_loop d n idx value buf_start_idx buf_len put_idx false
       = Ok (fold_left (fun v b => v * 256 + b) (take n (stream_at idx false))
               value, idx')
    /\ stream_at idx' false = drop n (stream_at idx false).
Proof.
  induction n as [|n IH]; intros idx value Hi Hn.
  - exists idx. simpl. rewrite drop_0. done.
  - destruct (stream_at idx false) as [|b rest] eqn:E; [simpl in Hn; lia|].
    destruct (stream_cons _ _ _ _ Hi E) as (Hc & Hb & Hrest).
    simpl in Hn.
    destruct (IH (circ_next buf_len idx) (Z.shiftl value 8 + b)
                (circ_next_range _ _ Hi)) as (idx' & Hi' & Hr & Hs).
    { rewrite Hrest. lia. }
    exists idx'. split; [done|]. cbn [get_data_circ_loop]. rewrite Hc.
    rewrite getitem_window by done. cbn [bind]. rewrite <- Hb.
    rewrite Hr, Hs, Hrest. split; [|done].
    cbn [take fold_left]. do 2 f_equal. rewrite Z.shiftl_mul_pow2 by lia. done.
Qed.

Lemma get_data_circ_loop_eof n : forall idx value,
  0 <= idx < buf_len ->
  (length (stream_at idx false) < n)%nat ->
  get_data_circ_loop d n idx value buf_start_idx buf_len put_idx false
  = Raise EOFError.
Proof.
  induction n as [|n IH]; intros idx value Hi Hn; [lia|].
  cbn [get_data_circ_loop]. destruct (stream_at idx false) as [|b rest] eqn:E.
  - by rewrite (stream_nil _ _ Hi E).
  - destruct (stream_cons _ _ _ _ Hi E) as (Hc & Hb & Hrest).
    rewrite Hc, getitem_window by done. cbn [bind].
    apply IH; [by apply circ_next_range|]. rewrite Hrest. simpl in Hn. lia.
Qed.

Lemma get_bytes_left_circ_loop_spec n : forall idx bytes_left,
  0 <= idx < buf_len ->
  exists idx', 0 <= idx' < buf_len
    /\ get_bytes_left_circ_loop n idx bytes_left buf_len put_idx false
       = (bytes_left + Z.of_nat (n `min` length (stream_at idx false)), idx')
    /\ stream_at idx' false = drop n (stream_at idx false).
Proof.
  induction n as [|n IH]; intros idx bl Hi.
  - exists idx. simpl. rewrite drop_0, Z.add_0_r. done.
  - cbn [get_bytes_left_circ_loop].
    destruct (stream_at idx false) as [|b rest] eqn:E.
    + rewrite (stream_nil _ _ Hi E). exists idx. simpl.
      rewrite Z.add_0_r. done.
    + destruct (stream_cons _ _ _ _ Hi E) as (Hc & Hb & Hrest).
      rewrite Hc.
      destruct (IH (circ_next buf_len idx) (bl + 1) (circ_next_range _ _ Hi))
        as (idx' & Hi' & Hr & Hs).
      exists idx'. rewrite Hr, Hs, Hrest. simpl. split; [done|]. split; [|done].
      f_equal. lia.
Qed.

(** Each trial counts the unknown ids of the bytes it can reach. *)
Lemma trial_loop_count fuel : forall idx fg t,
  0 <= idx < buf_len ->
  (length (stream_at idx fg) < fuel)%nat ->
  exists t', trial_loop G fuel buf_start_idx buf_len put_idx idx fg t = Ok t'
    /\ invalid_id_ctr t'
       = invalid_id_ctr t + count_invalid cat (stream_at idx fg) 0.
Proof.
  induction fuel as [|fuel IH]; intros idx fg t Hi Hf; [lia|].
  simpl. rewrite get_data_circ_1 by done.
  destruct (stream_at idx fg) as [|b rest] eqn:E.
  - exists t. simpl. split; [done|lia].
  - destruct (stream_cons _ _ _ _ Hi E) as (Hc & Hb & Hrest).
    pose proof (circ_next_range _ _ Hi) as Hi1.
    simpl in Hf. simpl.
    destruct (get_metadata cat b) as [m|] eqn:Em.
    + unfold get_bytes_left_circ.
      destruct (Z.leb_spec buf_len (circ_next buf_len idx)); [lia|].
      destruct (Z.leb_spec buf_len put_idx); [lia|]. simpl.
      destruct (get_bytes_left_circ_loop_spec (Z.to_nat (num_arg_bytes m))
                  (circ_next buf_len idx) 0 Hi1) as (idx' & Hi' & Hr & Hs).
      rewrite Z.add_0_l, Hrest in Hr. rewrite Hrest in Hs. rewrite Hr. cbn [bind].
      destruct (Z.ltb_spec (Z.of_nat (Z.to_nat (num_arg_bytes m) `min` length rest))
                  (num_arg_bytes m)).
      * eexists. split; [done|]. simpl.
        rewrite count_invalid_short by lia. lia.
      * destruct (IH idx' false
                    {| invalid_id_ctr := invalid_id_ctr t;
                       valid_id_ctr := valid_id_ctr t + 1;
                       bytes_left := Z.of_nat (Z.to_nat (num_arg_bytes m) `min` length rest) |}
                    Hi') as (t' & Ht' & Hcnt).
        { rewrite Hs, length_drop. lia. }
        exists t'. split; [done|]. rewrite Hcnt. simpl.
        rewrite Hs. rewrite (count_invalid_drop _ rest). done.
    + destruct (IH (circ_next buf_len idx) false
                  {| invalid_id_ctr := invalid_id_ctr t + 1;
                     valid_id_ctr := valid_id_ctr t;
                     bytes_left := bytes_left t |} Hi1) as (t' & Ht' & Hcnt).
      { rewrite Hrest. lia. }
      exists t'. split; [done|]. rewrite Hcnt, Hrest. simpl. lia.
Qed.

End Window.

Lemma circ_next_mod buf_len idx k :
  0 <= idx < buf_len ->
  (circ_next buf_len idx + k) mod buf_len = (idx + (1 + k)) mod buf_len.
Proof.
  intros Hi. unfold circ_next. destruct (Z.leb_spec buf_len (idx + 1)).
  - assert (idx = buf_len - 1) by lia. subst idx.
    replace (buf_len - 1 + (1 + k)) with (k + 1 * buf_len) by lia.
    rewrite Z.mod_add by lia. done.
  - f_equal. lia.
Qed.

Lemma circ_bytes_positions d buf_start_idx buf_len n : forall idx,
  0 <= idx < buf_len ->
  circ_bytes d buf_start_idx buf_len n idx
  = map (fun k => blob_byte d (buf_start_idx + (idx + Z.of_nat k) mod buf_len))
      (seq 0 n).
Proof.
  induction n as [|n IH]; intros idx Hi; [done|].
  cbn [circ_bytes seq map]. f_equal.
  - rewrite Z.add_0_r, Z.mod_small by lia. done.
  - rewrite IH by (by apply circ_next_range).
    rewrite <- seq_shift, map_map. apply map_ext. intros k.
    rewrite circ_next_mod by done. do 3 f_equal. lia.
Qed.

Lemma get_data_circ_loop_idx d bs buf_len put_idx fg n : forall idx value r idx',
  0 <= idx < buf_len ->
  get_data_circ_loop d n idx value bs buf_len put_idx fg = Ok (r, idx') ->
  idx' = (idx + Z.of_nat n) mod buf_len.
Proof.
  induction n as [|n IH]; intros idx value r idx' Hi H.
  - simpl in H. injection H as _ <-. rewrite Z.add_0_r, Z.mod_small by lia. done.
  - cbn [get_data_circ_loop] in H.
    destruct ((idx =? put_idx) && negb fg); [done|].
    destruct (getitem (data_array d) (bs + idx)); cbn [bind] in H; try done.
    apply IH in H; [|by apply circ_next_range].
    rewrite H, Nat2Z.inj_succ, circ_next_mod by done. f_equal. lia.
Qed.

End CircFacts.

(** ** Resynchronization: trials and the choice among them *)

Module Resync.

Import Logfmt Linear CircFacts.

Section Select.

Variable G : Globals.
Variables (fuel : nat) (buf_start_idx buf_len put_idx : Z).
Variable c : Z -> Z.

(** The selection loop keeps the first trial that beats every earlier
    one. *)
Lemma offsets_loop_first_min n : forall a best cur,
  (forall t, (a <= t < a + n)%nat ->
     exists tr, run_trial G fuel buf_start_idx buf_len put_idx (Z.of_nat t)
                = Ok tr /\ invalid_id_ctr tr = c (Z.of_nat t)) ->
  (offsets_loop G fuel buf_start_idx buf_len put_idx
     (map Z.of_nat (seq a n)) best cur = Ok cur
   /\ forall t, (a <= t < a + n)%nat -> best <= c (Z.of_nat t))
  \/ exists t', (a <= t' < a + n)%nat
       /\ offsets_loop G fuel buf_start_idx buf_len put_idx
            (map Z.of_nat (seq a n)) best cur
          = Ok (Some (trial_start_idx buf_len put_idx (Z.of_nat t')))
       /\ c (Z.of_nat t') < best
       /\ (forall t, (a <= t < t')%nat -> c (Z.of_nat t') < c (Z.of_nat t))
       /\ (forall t, (t' <= t < a + n)%nat -> c (Z.of_nat t') <= c (Z.of_nat t)).
Proof.
  induction n as [|n IH]; intros a best cur Hok.
  - left. split; [done|]. intros; lia.
  - cbn [seq map offsets_loop].
    destruct (Hok a ltac:(lia)) as (tr & -> & Hc). cbn [bind]. rewrite Hc.
    assert (Hok' : forall t, (S a <= t < S a + n)%nat ->
              exists tr, run_trial G fuel buf_start_idx buf_len put_idx
                           (Z.of_nat t) = Ok tr
                         /\ invalid_id_ctr tr = c (Z.of_nat t)).
    { intros t Ht. apply Hok. lia. }
    destruct (Z.ltb_spec (c (Z.of_nat a)) best) as [Hlt|Hge].
    + destruct (IH (S a) (c (Z.of_nat a))
                  (Some (trial_start_idx buf_len put_idx (Z.of_nat a))) Hok')
        as [[Hr Hall]|(t' & Ht' & Hr & Hbest & Hpre & Hpost)].
      * right. exists a. split; [lia|]. split; [done|]. split; [done|].
        split; [intros; lia|]. intros t Ht.
        destruct (decide (t = a)) as [->|]; [lia|]. apply Hall. lia.
      * right. exists t'. split; [lia|]. split; [done|]. split; [lia|].
        split; intros t Ht.
        -- destruct (decide (t = a)) as [->|]; [lia|]. apply Hpre. lia.
        -- apply Hpost. lia.
    + destruct (IH (S a) best cur Hok')
        as [[Hr Hall]|(t' & Ht' & Hr & Hbest & Hpre & Hpost)].
      * left. split; [done|]. intros t Ht.
        destruct (decide (t = a)) as [->|]; [lia|]. apply Hall. lia.
      * right. exists t'. split; [lia|]. split; [done|]. split; [lia|].
        split; intros t Ht.
        -- destruct (decide (t = a)) as [->|]; [lia|]. apply Hpre. lia.
        -- apply Hpost. lia.
Qed.

End Select.

Lemma count_invalid_bounds cat s : forall skip,
  0 <= count_invalid cat s skip <= Z.of_nat (length s).
Proof.
  induction s as [|b s IH]; intros skip; simpl; [lia|].
  destruct skip as [|k].
  - destruct (get_metadata cat b).
    + specialize (IH (Z.to_nat (num_arg_bytes l))). lia.
    + specialize (IH 0%nat). lia.
  - specialize (IH k). lia.
Qed.

Lemma trial_start_idx_mod buf_len put_idx t :
  0 <= put_idx < buf_len -> 0 <= t -> put_idx + t < 2 * buf_len ->
  trial_start_idx buf_len put_idx t = (put_idx + t) mod buf_len
  /\ 0 <= trial_start_idx buf_len put_idx t < buf_len.
Proof.
  intros Hp Ht Hlt. unfold trial_start_idx.
  destruct (Z.leb_spec buf_len (put_idx + t)).
  - replace (put_idx + t) with (put_idx + t - buf_len + 1 * buf_len) at 2 by lia.
    rewrite Z.mod_add, Z.mod_small by lia. lia.
  - rewrite Z.mod_small by lia. lia.
Qed.

Section Trials.

Variable G : Globals.
Variables (fuel : nat) (buf_start_idx buf_len put_idx : Z).
Hypothesis Hstart : 0 <= buf_start_idx.
Hypothesis Hfit : buf_start_idx + buf_len <= data_len (g_data G).
Hypothesis Hput : 0 <= put_idx < buf_len.
Hypothesis Hfuel : (Z.to_nat buf_len < fuel)%nat.

Lemma run_trial_count t :
  0 <= t -> put_idx + t < 2 * buf_len ->
  exists tr, run_trial G fuel buf_start_idx buf_len put_idx t = Ok tr
    /\ invalid_id_ctr tr = trial_count G buf_start_idx buf_len put_idx t.
Proof using Hstart Hfit Hput Hfuel.
  intros Ht Hlt. unfold run_trial.
  destruct (trial_start_idx_mod buf_len put_idx t Hput Ht Hlt) as [_ Hr].
  destruct (trial_loop_count G buf_start_idx buf_len put_idx Hstart Hfit Hput
              fuel (trial_start_idx buf_len put_idx t) (t =? 0)
              {| invalid_id_ctr := 0; valid_id_ctr := 0; bytes_left := 0 |} Hr)
    as (tr & Htr & Hc).
  - rewrite length_stream.
    pose proof (remaining_le buf_len put_idx
                  (trial_start_idx buf_len put_idx t) (t =? 0)). lia.
  - exists tr. split; [done|]. rewrite Hc. simpl. done.
Qed.

Lemma trial_count_later t :
  1 <= t -> put_idx + t < 2 * buf_len ->
  trial_count G buf_start_idx buf_len put_idx t < buf_len.
Proof using Hput.
  clear Hfuel Hstart Hfit. intros Ht Hlt. unfold trial_count.
  destruct (trial_start_idx_mod buf_len put_idx t Hput ltac:(lia) Hlt) as [_ Hr].
  pose proof (count_invalid_bounds (g_lwl_msg_set G)
                (stream (g_data G) buf_start_idx buf_len put_idx
                   (trial_start_idx buf_len put_idx t) (t =? 0)) 0) as Hb.
  rewrite length_stream in Hb. unfold remaining in Hb.
  destruct (Z.eqb_spec t 0); [lia|]. simpl in Hb.
  pose proof (Z.mod_pos_bound (put_idx - trial_start_idx buf_len put_idx t)
                buf_len). lia.
Qed.

End Trials.

End Resync.

(** ** The streaming decode against the decode of the byte sequence *)

Module DecodeFacts.

Import Logfmt Linear CircFacts.

Lemma int_of_char_ok c v :
  int_of_char c = Ok v -> v = Z.of_nat (nat_of_ascii c - 48) /\ 0 <= v <= 9.
Proof.
  unfold int_of_char.
  destruct (Z.leb_spec 48 (Z.of_nat (nat_of_ascii c)));
    destruct (Z.leb_spec (Z.of_nat (nat_of_ascii c)) 57); simpl; try done.
  intros [= <-]. lia.
Qed.

Lemma sum_int_chars_cons c s acc n :
  sum_int_chars (String c s) acc = Ok n ->
  exists v, int_of_char c = Ok v /\ sum_int_chars s (acc + v) = Ok n.
Proof.
  simpl. destruct (int_of_char c) as [v| |]; simpl; try done. eauto.
Qed.


Lemma take_args_length ws : forall s arg_values rest,
  take_args ws s = Some (arg_values, rest) ->
  length rest = (length s - sum_list ws)%nat /\ (sum_list ws <= length s)%nat
  /\ length arg_values = length ws.
Proof.
  induction ws as [|w ws IH]; intros s args rest H; simpl in *.
  - injection H as <- <-. simpl. lia.
  - destruct (Nat.ltb_spec (length s) w); [done|].
    destruct (take_args ws (drop w s)) as [[a r]|] eqn:E; [|done].
    injection H as <- <-. apply IH in E. rewrite length_drop in E. simpl. lia.
Qed.


Section Decode.

Variable format_percent : string -> list Z -> string + exn.
Variable cat : LwlMsgSet.

Lemma decode_fuel f : forall f' s pending,
  (length s < f)%nat -> (length s < f')%nat ->
  decode format_percent cat f s pending = decode format_percent cat f' s pending.
Proof.
  induction f as [|f IH]; intros f' s pending Hf Hf'; [lia|].
  destruct f' as [|f']; [lia|]. simpl.
  destruct s as [|b rest]; [done|]. simpl in Hf, Hf'.
  destruct (get_metadata cat b) as [m|].
  - destruct (take_args (widths_of (arg_bytes m)) rest) as [[args rest']|] eqn:E;
      [|done].
    apply take_args_length in E as (E & _ & _).
    rewrite (IH f' rest' []) by lia. done.
  - apply IH; lia.
Qed.

Lemma decode_partial_length f : forall s pending bytes out,
  decode format_percent cat f s pending = (Ok (EndPartial bytes), out) ->
  (0 < length bytes <= length s)%nat.
Proof.
  induction f as [|f IH]; intros s pending bytes out H; [done|].
  simpl in H. destruct s as [|b rest]; [by destruct pending|].
  destruct (get_metadata cat b) as [m|].
  - destruct (take_args (widths_of (arg_bytes m)) rest) as [[args rest']|] eqn:E.
    + apply take_args_length in E as (E & _ & _).
      destruct pending; simpl in H;
        destruct (format_percent (fmt m) args); simpl in H; try done;
        destruct (decode format_percent cat f rest' []) as [[[]| |] o] eqn:Ed;
        simpl in H; try done; injection H as <- _;
        apply IH in Ed; simpl; lia.
    + destruct pending; simpl in H; injection H as <- _; simpl; lia.
  - apply IH in H. simpl. lia.
Qed.

End Decode.

Lemma io_bind_assoc {L A B C} (m : Py.io L A) (f : A -> Py.io L B)
    (g : B -> Py.io L C) :
  io_bind (io_bind m f) g = io_bind m (fun x => io_bind (f x) g).
Proof.
  destruct m as [[a|e|] out]; simpl; try done.
  destruct (f a) as [[b|e|] out']; simpl; try done.
  destruct (g b) as [r out'']. by rewrite app_assoc.
Qed.

Section Window.

Variable format_percent : string -> list Z -> string + exn.
Variable G : Globals.
Variables buf_start_idx buf_len put_idx : Z.
Hypothesis Hstart : 0 <= buf_start_idx.
Hypothesis Hfit : buf_start_idx + buf_len <= data_len (g_data G).
Hypothesis Hput : 0 <= put_idx < buf_len.

Local Abbreviation d := (g_data G).
Local Abbreviation cat := (g_lwl_msg_set G).
Local Abbreviation stream_at := (stream (g_data G) buf_start_idx buf_len put_idx).
Local Abbreviation unknown := (fun b : Z => get_metadata (g_lwl_msg_set G) b = None).

Lemma stream_put_false : stream_at put_idx false = [].
Proof using Hput.
  unfold stream, remaining. simpl. rewrite Z.sub_diag, Z.mod_0_l by lia. done.
Qed.

Lemma stream_first_get idx :
  stream_at idx false = if idx =? put_idx then [] else stream_at idx true.
Proof using Hput.
  destruct (Z.eqb_spec idx put_idx) as [->|Hne]; [apply stream_put_false|].
  unfold stream, remaining. simpl. destruct (Z.eqb_spec idx put_idx); done.
Qed.

Lemma read_args_spec widths : forall idx acc a0 n0,
  sum_int_chars widths a0 = Ok n0 ->
  0 <= idx < buf_len ->
  match take_args (widths_of widths) (stream_at idx false) with
  | Some (arg_values, rest) =>
      exists idx', 0 <= idx' < buf_len
        /\ read_args G buf_start_idx buf_len put_idx widths idx false acc
           = Ok (acc ++ arg_values, idx')
        /\ stream_at idx' false = rest
  | None =>
      read_args G buf_start_idx buf_len put_idx widths idx false acc
      = Raise EOFError
  end.
Proof using Hstart Hfit Hput.
  induction widths as [|c widths IH]; intros idx acc a0 n0 Hsum Hi.
  - simpl. exists idx. by rewrite app_nil_r.
  - apply sum_int_chars_cons in Hsum as (v & Hv & Hsum).
    cbn [widths_of take_args read_args]. rewrite Hv. cbn [bind].
    apply int_of_char_ok in Hv as [Hv _].
    unfold get_data_circ.
    destruct (Z.leb_spec buf_len idx); [lia|].
    destruct (Z.leb_spec buf_len put_idx); [lia|].
    replace (Z.to_nat v) with (nat_of_ascii c - 48)%nat by lia.
    set (w := (nat_of_ascii c - 48)%nat).
    destruct (Nat.ltb_spec (length (stream_at idx false)) w) as [Hlt|Hge].
    + rewrite (get_data_circ_loop_eof G buf_start_idx buf_len put_idx Hstart
                 Hfit Hput w idx 0 Hi Hlt). done.
    + destruct (get_data_circ_loop_ok G buf_start_idx buf_len put_idx Hstart
                  Hfit Hput w idx 0 Hi Hge) as (idx1 & Hi1 & Hr & Hs).
      rewrite Hr. cbn [bind].
      specialize (IH idx1 (acc ++ [big_endian (take w (stream_at idx false))])
                    _ _ Hsum Hi1).
      rewrite Hs in IH.
      destruct (take_args (widths_of widths) (drop w (stream_at idx false)))
        as [[args rest]|].
      * destruct IH as (idx' & Hi' & Hr' & Hs'). exists idx'.
        split; [done|]. split; [|done]. unfold big_endian in Hr'.
        rewrite Hr'. by rewrite <- app_assoc.
      * exact IH.
Qed.

Lemma unused_loop_spec fuel : forall idx acc,
  0 <= idx < buf_len ->
  (length (stream_at idx false) < fuel)%nat ->
  unused_loop G fuel buf_start_idx buf_len put_idx idx false acc
  = Ok (acc ++ stream_at idx false).
Proof using Hstart Hfit Hput.
  induction fuel as [|fuel IH]; intros idx acc Hi Hf; [lia|].
  cbn [unused_loop]. rewrite get_data_circ_1 by done.
  destruct (stream_at idx false) as [|b rest] eqn:E.
  - by rewrite app_nil_r.
  - destruct (stream_cons G _ _ _ Hput _ _ _ _ Hi E) as (_ & _ & Hrest).
    rewrite IH; [|by apply circ_next_range|rewrite Hrest; simpl in Hf; lia].
    rewrite Hrest, <- app_assoc. done.
Qed.

(** The search for an id either runs out of bytes, all of them unknown, or
    stops on the first known byte. *)
Lemma find_id_spec fuel : forall idx fg id skipped,
  0 <= idx < buf_len ->
  (length (stream_at idx fg) < fuel)%nat ->
  (Forall unknown (stream_at idx fg)
   /\ find_id G fuel buf_start_idx buf_len put_idx idx fg id skipped
      = Ok (IdEof {| eof_id := fold_left (fun _ b => Some b)
                                 (stream_at idx fg) id;
                     eof_id_idx := Some put_idx;
                     eof_first_get := false |}))
  \/ exists unk b rest m id_idx idx',
       stream_at idx fg = unk ++ b :: rest
       /\ Forall unknown unk
       /\ get_metadata cat b = Some m
       /\ find_id G fuel buf_start_idx buf_len put_idx idx fg id skipped
          = Ok (IdFound b id_idx m idx' (skipped ++ unk))
       /\ 0 <= idx' < buf_len
       /\ stream_at idx' false = rest
       /\ 0 <= id_idx < buf_len
       /\ stream_at id_idx false
          = if fg && (idx =? put_idx) && bool_decide (unk = []) then []
            else b :: rest.
Proof using Hstart Hfit Hput.
  induction fuel as [|fuel IH]; intros idx fg id skipped Hi Hf; [lia|].
  cbn [find_id]. rewrite get_data_circ_1 by done.
  destruct (stream_at idx fg) as [|b rest] eqn:E.
  - left. split; [done|]. simpl.
    pose proof (stream_nil G _ _ _ Hput _ _ Hi E) as H.
    apply andb_true_iff in H as [H1 H2]. apply Z.eqb_eq in H1.
    destruct fg; [done|]. by subst.
  - destruct (stream_cons G _ _ _ Hput _ _ _ _ Hi E) as (Hc & Hb & Hrest).
    pose proof (circ_next_range _ _ Hi) as Hi1.
    destruct (get_metadata cat b) as [m|] eqn:Em.
    + right. exists [], b, rest, m, idx, (circ_next buf_len idx).
      rewrite app_nil_r. repeat split; try done; try lia.
      rewrite stream_first_get. rewrite bool_decide_eq_true_2 by done.
      rewrite andb_true_r.
      destruct (Z.eqb_spec idx put_idx) as [->|Hne].
      * destruct fg; [done|]. rewrite ?Z.eqb_refl in Hc. by simpl in Hc.
      * rewrite andb_false_r. destruct fg; [done|].
        rewrite stream_first_get in E.
        destruct (Z.eqb_spec idx put_idx); [done|]. done.
    + destruct (IH (circ_next buf_len idx) false (Some b) (skipped ++ [b]) Hi1)
        as [[Hall Hr]|(unk & b' & rest' & m & id_idx & idx' & Hs & Hall & Hm
                       & Hr & Hi' & Hs' & Hid & Hsid)].
      { rewrite Hrest. simpl in Hf. lia. }
      * left. rewrite Hrest in Hall, Hr. split; [by constructor|].
        cbn [fold_left]. done.
      * right. exists (b :: unk), b', rest', m, id_idx, idx'.
        rewrite Hrest in Hs. rewrite Hs.
        repeat split; try done; try lia.
        -- by constructor.
        -- rewrite Hr. by rewrite <- app_assoc.
        -- cbn [andb] in Hsid. rewrite Hsid.
           rewrite bool_decide_eq_false_2 by discriminate.
           by rewrite andb_false_r.
Qed.

End Window.

Lemma fold_left_last_some (l : list Z) x :
  exists y, fold_left (fun (_ : option Z) (b : Z) => Some b) l (Some x) = Some y.
Proof. revert x. induction l as [|a l IH]; intros x; simpl; eauto. Qed.

Lemma io_bind_lift_ok {L A B} (a : A) (f : A -> Py.io L B) :
  io_bind (lift (Ok a)) f = f a.
Proof. unfold lift. simpl. by destruct (f a). Qed.

Lemma io_bind_ret {L A B} (a : A) (f : A -> Py.io L B) :
  io_bind (io_ret a) f = f a.
Proof. unfold io_ret. simpl. by destruct (f a). Qed.

Section Decode.

Variable format_percent : string -> list Z -> string + exn.
Variable cat : LwlMsgSet.

Lemma decode_unknown unk : forall s pending f,
  Forall (fun b => get_metadata cat b = None) unk ->
  decode format_percent cat (length unk + f) (unk ++ s) pending
  = decode format_percent cat f s (pending ++ unk).
Proof.
  induction unk as [|a unk IH]; intros s pending f Hall.
  - by rewrite app_nil_r.
  - inversion Hall as [|? ? Ha Hall']; subst. simpl. rewrite Ha.
    rewrite IH by done. by rewrite <- app_assoc.
Qed.

Lemma decode_all_unknown s pending :
  Forall (fun b => get_metadata cat b = None) s ->
  decode format_percent cat (S (length s)) s pending
  = (Ok match pending ++ s with
        | [] => EndClean
        | _ :: _ => EndPending (pending ++ s)
        end, []).
Proof.
  intros Hall. pose proof (decode_unknown s [] pending 1 Hall) as H.
  rewrite app_nil_r, Nat.add_1_r in H. rewrite H. done.
Qed.

End Decode.

Section Window.

Variable format_percent : string -> list Z -> string + exn.
Variable G : Globals.
Variables buf_start_idx buf_len put_idx : Z.
Hypothesis Hstart : 0 <= buf_start_idx.
Hypothesis Hfit : buf_start_idx + buf_len <= data_len (g_data G).
Hypothesis Hput : 0 <= put_idx < buf_len.
Hypothesis Hcat : catalog_built (g_lwl_msg_set G).

Local Abbreviation cat := (g_lwl_msg_set G).
Local Abbreviation stream_at := (stream (g_data G) buf_start_idx buf_len put_idx).

Lemma stream_decode_spec f1 : forall idx fg f2,
  0 <= idx < buf_len ->
  (length (stream_at idx fg) < f1)%nat ->
  (Z.to_nat buf_len < f2)%nat ->
  io_bind (stream_loop format_percent G f1 buf_start_idx buf_len put_idx idx fg)
    (print_unused G f2 buf_start_idx buf_len put_idx)
  = finish (fg && (idx =? put_idx)) (length (stream_at idx fg))
      (decode format_percent cat (S (length (stream_at idx fg)))
         (stream_at idx fg) []).
Proof using Hstart Hfit Hput Hcat.
  induction f1 as [|f1 IH]; intros idx fg f2 Hi Hf1 Hf2; [lia|].
  cbn [stream_loop].
  destruct (find_id_spec G buf_start_idx buf_len put_idx Hstart Hfit Hput
              (S f1) idx fg None [] Hi Hf1)
    as [[Hall Hr]|(unk & b & rest & m & id_idx & idx' & Hs & Hall & Hm
                   & Hr & Hi' & Hs' & Hid & Hsid)].
  - rewrite Hr; clear Hr. rewrite decode_all_unknown by done.
    cbn [lift io_bind io_ret app]. unfold print_unused. cbn [eof_id eof_id_idx eof_first_get].
    destruct (stream_at idx fg) as [|b rest]; [done|].
    cbn [fold_left].
    destruct (fold_left_last_some rest b) as [y ->].
    rewrite unused_loop_spec; try done; [|rewrite stream_put_false by done; simpl; lia].
    rewrite stream_put_false by done. done.
  - rewrite Hr; clear Hr. rewrite Hs. rewrite io_bind_lift_ok. cbn [app].
    remember (S (length rest)) as fr eqn:Hfr.
    replace (S (length (unk ++ b :: rest))) with (length unk + S fr)%nat
      by (rewrite length_app; simpl; lia).
    rewrite decode_unknown by done.
    cbn [decode]. rewrite Hm. cbn [app].
    assert (Hsum : sum_int_chars (arg_bytes m) 0 = Ok (num_arg_bytes m))
      by (eapply Hcat; exact Hm).
    pose proof (read_args_spec G buf_start_idx buf_len put_idx Hstart Hfit
                  Hput (arg_bytes m) idx' [] 0 _ Hsum Hi') as Hargs.
    rewrite Hs' in Hargs.
    destruct (take_args (widths_of (arg_bytes m)) rest) as [[args rest']|] eqn:Et.
    + destruct Hargs as (idx'' & Hi'' & Hra & Hs'').
      rewrite Hra. cbn [app].
      apply take_args_length in Et as (Elen & _ & _).
      specialize (IH idx'' false f2 Hi'').
      rewrite Hs'' in IH. cbn [andb] in IH.
      assert (Hlen : (length (stream_at idx fg) = length unk + S (length rest))%nat)
        by (rewrite Hs, length_app; done).
      specialize (IH ltac:(lia) Hf2).
      rewrite (decode_fuel format_percent cat fr (S (length rest')) rest' [])
        by lia.
      destruct (format_percent (fmt m) args) as [line|e]; cbn [call];
        [|by destruct unk].
      destruct (decode format_percent cat (S (length rest')) rest' [])
        as [r out] eqn:Ed.
      assert (Hpart : forall bytes, r = Ok (EndPartial bytes) ->
                (length bytes =? length (unk ++ b :: rest))%nat = false).
      { intros bytes ->. apply decode_partial_length in Ed.
        apply Nat.eqb_neq. rewrite length_app. simpl. lia. }
      destruct (stream_loop format_percent G f1 buf_start_idx buf_len put_idx
                  idx'' false) as [r1 out1].
      destruct unk as [|u unk]; cbn [lift io_bind io_ret print app] in *.
      all: destruct r1 as [st| |]; destruct r as [[| |bytes]| |];
        cbn [finish io_bind] in *;
        try (destruct (print_unused G f2 buf_start_idx buf_len put_idx st));
        try rewrite (Hpart _ eq_refl);
        rewrite ?andb_false_r in *; try done.
      all: try (injection IH as -> ->; done).
      all: injection IH as ->; done.
    + rewrite Hargs.
      assert (Hlen2 : (length (stream_at id_idx false) < f2)%nat).
      { rewrite length_stream.
        pose proof (remaining_le buf_len put_idx id_idx false). lia. }
      destruct unk as [|u unk]; cbn [lift io_bind io_ret print app].
      all: unfold print_unused; cbn [eof_id eof_id_idx eof_first_get].
      all: rewrite unused_loop_spec by done.
      all: rewrite Hsid; cbn [lift io_bind print finish app].
      * rewrite bool_decide_eq_true_2 by done. rewrite andb_true_r.
        rewrite Nat.eqb_refl, andb_true_r. done.
      * rewrite bool_decide_eq_false_2 by discriminate. rewrite andb_false_r.
        match goal with
        | |- context [(?x =? ?y)%nat] =>
            assert ((x =? y)%nat = false) as ->; [|by rewrite andb_false_r]
        end.
        apply Nat.eqb_neq. simpl. rewrite length_app. simpl. lia.
Qed.

End Window.

Section Decode.

Variable format_percent : string -> list Z -> string + exn.
Variable cat : LwlMsgSet.

Lemma decode_not_fuel f : forall s pending,
  (length s < f)%nat -> (decode format_percent cat f s pending).1 <> Fuel.
Proof.
  induction f as [|f IH]; intros s pending Hf; [lia|].
  cbn [decode]. destruct s as [|b rest]; [by destruct pending|]. simpl in Hf.
  destruct (get_metadata cat b) as [m|]; [|apply IH; lia].
  destruct (take_args (widths_of (arg_bytes m)) rest) as [[args rest']|] eqn:E.
  - apply take_args_length in E as (E & _ & _).
    specialize (IH rest' [] ltac:(lia)).
    destruct (format_percent (fmt m) args) as [line|e];
      [|destruct pending; cbn; congruence].
    destruct (decode format_percent cat f rest' []) as [[| |] o];
      destruct pending; cbn in *; congruence.
  - destruct pending; cbn; congruence.
Qed.

Lemma decode_raise f : forall s pending e,
  (decode format_percent cat f s pending).1 = Raise e ->
  exists b m args,
    get_metadata cat b = Some m /\ format_percent (fmt m) args = inr e.
Proof.
  induction f as [|f IH]; intros s pending e H; [done|].
  cbn [decode] in H. destruct s as [|b rest]; [by destruct pending|].
  destruct (get_metadata cat b) as [m|] eqn:Em; [|by eapply IH].
  destruct (take_args (widths_of (arg_bytes m)) rest) as [[args rest']|] eqn:E.
  - destruct (format_percent (fmt m) args) as [line|e'] eqn:Ef.
    + apply (IH rest' [] e).
      destruct (decode format_percent cat f rest' []) as [r o].
      destruct pending; cbn in H; by destruct r.
    + exists b, m, args. split; [done|]. rewrite Ef.
      destruct pending; cbn in H; congruence.
  - by destruct pending.
Qed.

End Decode.

Lemma finish_fst at_put whole (r : io ending) :
  (finish at_put whole r).1
  = match r.1 with Ok _ => Ok tt | Raise e => Raise e | Fuel => Fuel end.
Proof. destruct r as [[[| |]| |] out]; done. Qed.



End DecodeFacts.

(** ** The framing loop *)

Module FramerFacts.

Import Logfmt Linear.

Section Framing.

Variable format_percent : string -> list Z -> string + exn.
Variable G : Globals.

(** The two length checks of the loop body: a header or a section that
    runs past the blob is reported and ends the run with [False]. *)
Lemma header_past_blob (fuel : nat) (idx : Z) (local_g_swab : option bool) :
  data_len (g_data G) < idx + 8 ->
  process_section format_percent G fuel idx local_g_swab
  = (Ok (Return false), [PErrHeader idx (data_len (g_data G))]).
Proof.
  intros H. unfold process_section.
  destruct (Z.ltb_spec (data_len (g_data G)) (idx + 8)); [done|lia].
Qed.

Lemma section_past_blob (fuel : nat) (idx magic section_len : Z)
    (ty : section_type) (local_g_swab : option bool) :
  idx + 8 <= data_len (g_data G) ->
  get_data (g_swab G) (g_data G) idx 4 = Ok magic ->
  magic_to_fault_type magic = Some ty ->
  get_data (g_swab G) (g_data G) (idx + 4) 4 = Ok section_len ->
  data_len (g_data G) < idx + section_len ->
  process_section format_percent G fuel idx local_g_swab
  = (Ok (Return false),
     [PErrSection idx section_len (data_len (g_data G))]).
Proof.
  intros Hhdr Hmagic Hty Hlen Hpast.
  unfold process_section, check_magic, dispatch_section.
  destruct (Z.ltb_spec (data_len (g_data G)) (idx + 8)); [lia|].
  rewrite Hmagic. cbn [lift io_bind]. rewrite Hty. cbn [io_ret io_bind].
  rewrite Hlen. cbn [lift io_bind].
  destruct (Z.ltb_spec (data_len (g_data G)) (idx + section_len)); [done|lia].
Qed.

(** The magic check ends with [None] only behind its error line. *)
Lemma check_magic_outcomes (idx : Z) (local_g_swab : option bool)
    (checked : option (section_type * option bool)) (out : list printed) :
  check_magic G idx local_g_swab = (Ok checked, out) ->
  match checked with
  | None => out = [PErrMagic idx]
  | Some _ => out = []
  end.
Proof.
  unfold check_magic.
  destruct (get_data (g_swab G) (g_data G) idx 4) as [magic| |];
    cbn [lift io_bind]; try done.
  destruct (magic_to_fault_type magic) as [ty|].
  - cbn. by intros [= <- <-].
  - destruct local_g_swab as [b|]; [|done].
    destruct (magic_to_fault_type magic) as [ty|]; cbn; by intros [= <- <-].
Qed.

(** The dispatch leaves the loop only behind its error line, and goes on
    only to an index inside the blob. *)
Lemma dispatch_section_outcomes (fuel : nat) (idx : Z) (ty : section_type)
    (local_g_swab : option bool) (step : next_step) (out : list printed) :
  dispatch_section format_percent G fuel idx ty local_g_swab
  = (Ok step, out) ->
  match step with
  | Return b =>
      b = false /\ exists out' l, out = out' ++ [l] /\ framing_error l
  | Continue idx' _ => idx' <= data_len (g_data G)
  end.
Proof.
  unfold dispatch_section.
  destruct (get_data (g_swab G) (g_data G) (idx + 4) 4) as [section_len| |];
    cbn [lift io_bind]; try done.
  destruct (Z.ltb_spec (data_len (g_data G)) (idx + section_len)).
  - cbn. intros [= <- <-]. split; [done|].
    by exists [], (PErrSection idx section_len (data_len (g_data G))).
  - destruct (match ty with
              | SECTION_TYPE_FAULT => FaultData_pretty_print G idx section_len
              | SECTION_TYPE_LWL =>
                  LwlPrinter_pretty_print format_percent G fuel idx section_len
              | SECTION_TYPE_TRAILER =>
                  print PRule ;; print (PText "End of fault data") ;;
                  print PRule
              end) as [[[]| |] o]; cbn; try done.
    intros [= <- <-]. lia.
Qed.

(** The loop body leaves the loop with [False] only behind one of the
    framing error lines, and goes on only to an index inside the blob. *)
Lemma process_section_outcomes (fuel : nat) (idx : Z)
    (local_g_swab : option bool) (step : next_step) (out : list printed) :
  process_section format_percent G fuel idx local_g_swab = (Ok step, out) ->
  match step with
  | Return b =>
      b = false /\ exists out' l, out = out' ++ [l] /\ framing_error l
  | Continue idx' _ => idx' <= data_len (g_data G)
  end.
Proof.
  unfold process_section.
  destruct (Z.ltb_spec (data_len (g_data G)) (idx + 8)).
  { intros [= <- <-]. split; [done|].
    by exists [], (PErrHeader idx (data_len (g_data G))). }
  destruct (check_magic G idx local_g_swab) as [[checked| |] o] eqn:Ec;
    cbn [io_bind]; try done.
  apply check_magic_outcomes in Ec.
  destruct checked as [[ty l0]|].
  - subst o.
    destruct (dispatch_section format_percent G fuel idx ty l0)
      as [r o'] eqn:Ed.
    rewrite app_nil_l. intros [= -> <-].
    by apply dispatch_section_outcomes in Ed.
  - subst o. cbn. intros [= <- <-]. split; [done|].
    by exists [], (PErrMagic idx).
Qed.


End Framing.

(** An unrecognized magic makes any pass through the loop body raise
    [UnboundLocalError]: the local [g_swab] is never bound. *)
Lemma process_section_flip
    (format_percent : string -> list Z -> string + exn) (G : Globals)
    (fuel : nat) (idx magic : Z) :
  idx + 8 <= data_len (g_data G) ->
  get_data (g_swab G) (g_data G) idx 4 = Ok magic ->
  magic_to_fault_type magic = None ->
  process_section format_percent G fuel idx None
  = (Raise UnboundLocalError, []).
Proof.
  intros Hhdr Hmagic Htype. unfold process_section, check_magic.
  destruct (Z.ltb_spec (data_len (g_data G)) (idx + 8)); [lia|].
  rewrite Hmagic. cbn [lift io_bind]. rewrite Htype. done.
Qed.

End FramerFacts.

(** ** The claims *)

Import Logfmt Linear Samples CircFacts Resync DecodeFacts FramerFacts.

(** Settles a side condition on concrete inputs by evaluation. *)
Ltac evaluate :=
  first [ lia | reflexivity
        | vm_compute; first [ lia | reflexivity | discriminate
                            | intro; discriminate ] ].

(** The sample catalog is one [add_lwl_msg] could have built. *)
Lemma tick_val_built : catalog_built tick_val.
Proof.
  intros id m H. unfold tick_val in H. cbn [lwl_msgs] in H.
  apply lookup_insert_Some in H as [[<- <-]|[_ H]]; [reflexivity|].
  apply lookup_insert_Some in H as [[<- <-]|[_ H]]; [reflexivity|].
  by rewrite lookup_empty in H.
Qed.

(** Claim C1.  On a blob whose first section header is big-endian the
    little-endian read of the magic is not a known magic; [process_data]
    then evaluates [not g_swab] on its unbound local and raises
    [UnboundLocalError].  No byte order is flipped and no section is
    decoded. *)
Theorem byte_order_flip_unbound (fuel : nat) :
  process_data format_d (globals_of blob_big_endian) (S fuel)
  = (Raise UnboundLocalError, []).
Proof. reflexivity. Qed.

(** Claim C2, counterexample: [get_data_bytes] of lwl.py composes the
    bytes [12 34] least significant byte first. *)
Lemma lwl_reads_little_endian :
  Lwl.get_data_bytes [x12; x34; x00] 0 2 2 false = Ok (0x3412, 2)
  /\ big_endian [0x12; 0x34] = 0x1234.
Proof. split; reflexivity. Qed.

(** Claim C2, for [Data.get_data_circ] of logfmt.py.  Once the first read
    of a walk is behind ([first_get = False], as for every argument of a
    message), a read of [num_bytes] bytes at [idx] returns the bytes at
    [idx], [idx + 1], ..., wrapping at [buf_len], composed most significant
    byte first, together with the index after them; it raises [EOFError]
    when fewer bytes remain before [put_idx].  This holds for every width,
    every position, and whatever [g_swab G] is. *)
Theorem get_data_circ_big_endian (G : Globals)
    (buf_start_idx buf_len put_idx idx num_bytes : Z) :
  0 <= buf_start_idx ->
  buf_start_idx + buf_len <= data_len (g_data G) ->
  0 <= put_idx < buf_len ->
  0 <= idx < buf_len ->
  let n := Z.to_nat num_bytes in
  let bytes :=
    map (fun k => blob_byte (g_data G)
                    (buf_start_idx + (idx + Z.of_nat k) mod buf_len))
      (seq 0 n) in
  ((n <= remaining buf_len put_idx idx false)%nat ->
   get_data_circ (g_data G) idx num_bytes buf_start_idx buf_len put_idx false
   = Ok (big_endian bytes, (idx + Z.of_nat n) mod buf_len))
  /\ ((remaining buf_len put_idx idx false < n)%nat ->
      get_data_circ (g_data G) idx num_bytes buf_start_idx buf_len put_idx
        false = Raise EOFError).
Proof.
  intros Hstart Hfit Hput Hi n bytes.
  unfold get_data_circ.
  destruct (Z.leb_spec buf_len idx); [lia|].
  destruct (Z.leb_spec buf_len put_idx); [lia|].
  fold n. split; intros Hn.
  - destruct (get_data_circ_loop_ok G buf_start_idx buf_len put_idx Hstart
                Hfit Hput n idx 0 Hi) as (idx' & Hi' & Hr & Hs).
    { by rewrite length_stream. }
    rewrite Hr. f_equal. f_equal.
    + unfold big_endian, bytes. f_equal.
      unfold stream. rewrite !circ_bytes_positions by done.
      rewrite firstn_map. f_equal.
      rewrite take_seq. f_equal. lia.
    + eapply get_data_circ_loop_idx; [exact Hi|exact Hr].
  - apply (get_data_circ_loop_eof G); try done. by rewrite length_stream.
Qed.

(** The theorem above at a sample input. *)
Lemma get_data_circ_big_endian_witness :
  get_data_circ (g_data (globals_of (blob_log x00))) 2 4 16 6 0 false
  = Ok (big_endian [0; 0; 0; 7], 0).
Proof.
  destruct (get_data_circ_big_endian (globals_of (blob_log x00)) 16 6 0 2 4)
    as [H _]; [evaluate..|].
  apply H. evaluate.
Defined.

(** Claim C3, counterexample: with [W = 1], lwl.py runs the trial at
    offset 0 only and returns its start index, although the trial at
    offset 1 meets fewer invalid ids.  In logfmt.py, a trial whose offset
    takes it to [2 * buf_len] raises [IndexError], and without any message
    declared no trial beats the initial bound and the result is [None]. *)
Lemma lwl_runs_one_trial_less :
  (Lwl.max_msg_len lwl_tick = 1
   /\ Lwl.run_trial lwl_tick 20 [xff; x01] 0 0 = Ok 1
   /\ Lwl.trial_start_idx [xff; x01] 0 1 = 1
   /\ Lwl.run_trial lwl_tick 20 [xff; x01] 0 1 = Ok 0
   /\ Lwl.get_optimal_start_idx lwl_tick 20 [xff; x01] 0 = Ok (Some 0))
  /\ get_optimal_start_idx (globals_of (blob_long_message x03)) 20 16 4 3
     = Raise IndexError
  /\ get_optimal_start_idx (globals_without_messages blob_unknown) 20 16 4 0
     = Ok None.
Proof. repeat split; reflexivity. Qed.

(** Claim C3, for [LwlPrinter.get_optimal_start_idx] of logfmt.py.  With
    [W = max_msg_len], a non-empty catalog ([1 <= W]) and
    [put_idx + W < 2 * buf_len], there is one trial for each offset [t] in
    [[0, W]]; it starts at [(put_idx + t) mod buf_len] and ends with a
    count [c t] of invalid ids.  The function returns the start index of
    the trial [t'] whose count is minimal, the smallest such offset. *)
Theorem resync_first_minimum (G : Globals) (fuel : nat)
    (buf_start_idx buf_len put_idx : Z) :
  let W := max_msg_len (g_lwl_msg_set G) in
  0 <= buf_start_idx ->
  buf_start_idx + buf_len <= data_len (g_data G) ->
  0 <= put_idx < buf_len ->
  1 <= W ->
  put_idx + W < 2 * buf_len ->
  (Z.to_nat buf_len < fuel)%nat ->
  exists (c : Z -> Z) (t' : Z),
    (forall t, 0 <= t <= W ->
       trial_start_idx buf_len put_idx t = (put_idx + t) mod buf_len
       /\ exists tr, run_trial G fuel buf_start_idx buf_len put_idx t = Ok tr
                     /\ invalid_id_ctr tr = c t)
    /\ 0 <= t' <= W
    /\ get_optimal_start_idx G fuel buf_start_idx buf_len put_idx
       = Ok (Some ((put_idx + t') mod buf_len))
    /\ (forall t, 0 <= t <= W -> c t' <= c t)
    /\ (forall t, 0 <= t < t' -> c t' < c t).
Proof.
  intros W Hstart Hfit Hput HW Hlt Hfuel.
  set (c := trial_count G buf_start_idx buf_len put_idx).
  assert (Hok : forall t, 0 <= t <= W ->
            exists tr, run_trial G fuel buf_start_idx buf_len put_idx t = Ok tr
                       /\ invalid_id_ctr tr = c t).
  { intros t Ht. apply run_trial_count; try done; lia. }
  
  destruct (offsets_loop_first_min G fuel buf_start_idx buf_len put_idx c
              (Z.to_nat (W + 1)) 0 buf_len None)
    as [[_ Hall]|(t' & Ht' & Hr & Hbest & Hpre & Hpost)].
  { intros t Ht. apply Hok. lia. }
  - exfalso. specialize (Hall 1%nat ltac:(lia)).
    assert (H1 : put_idx + 1 < 2 * buf_len) by lia.
    pose proof (trial_count_later G buf_start_idx buf_len put_idx Hput 1
                  (Z.le_refl 1) H1). unfold c in Hall.
    change (Z.of_nat 1) with 1 in Hall. lia.
  - exists c, (Z.of_nat t'). split; [|split; [lia|split; [|split]]].
    + intros t Ht. split; [|by apply Hok].
      apply trial_start_idx_mod; try done; lia.
    + unfold get_optimal_start_idx, range. fold W. rewrite Hr.
      do 2 f_equal. apply trial_start_idx_mod; try done; lia.
    + intros t Ht. destruct (Z.lt_ge_cases t (Z.of_nat t')).
      * specialize (Hpre (Z.to_nat t) ltac:(lia)). rewrite Z2Nat.id in Hpre by lia. lia.
      * specialize (Hpost (Z.to_nat t) ltac:(lia)). rewrite Z2Nat.id in Hpost by lia. lia.
    + intros t Ht. specialize (Hpre (Z.to_nat t) ltac:(lia)).
      rewrite Z2Nat.id in Hpre by lia. lia.
Qed.

(** The theorem above at a sample input. *)
Lemma resync_first_minimum_witness :
  exists t',
    0 <= t' <= 5
    /\ get_optimal_start_idx (globals_of (blob_log x01)) 20 16 6 1
       = Ok (Some ((1 + t') mod 6)).
Proof.
  destruct (resync_first_minimum (globals_of (blob_log x01)) 20 16 6 1)
    as (c & t' & _ & Ht & Hr & _);
    [evaluate..|].
  exists t'. split; [exact Ht|exact Hr].
Defined.

(** Claim C4.  A trailer section that declares [total_len = 0] passes
    the only length check, prints the end-of-data marker and leaves [idx]
    where it was: however many passes the loop is granted it has not ended,
    and no error has been printed. *)
Theorem zero_length_trailer_never_ends (fuel : nat) :
  process_data format_d (globals_of blob_zero_trailer) fuel
  = (Fuel,
     concat (replicate fuel [PRule; PText "End of fault data"; PRule])).
Proof.
  unfold process_data. induction fuel as [|fuel IH]; [reflexivity|].
  cbn [process_loop replicate concat].
  change (0 <? data_len (g_data (globals_of blob_zero_trailer))) with true.
  cbv iota.
  change (process_section format_d (globals_of blob_zero_trailer) (S fuel) 0
            None)
    with (@Ok next_step (Continue 0 None),
          [PRule; PText "End of fault data"; PRule]).
  cbn [io_bind]. rewrite IH. reflexivity.
Qed.

(** Claim C5.  On a log section that declares [total_len = 0] the framing
    loop rejects the section, advances by 0 and starts again: however many
    passes it is granted it has neither consumed the blob nor returned. *)
Theorem zero_length_log_never_ends (fuel : nat) :
  process_data format_d (globals_of blob_zero_log) fuel
  = (Fuel,
     concat (replicate fuel [PRule; PText "LWL"; PRule; PErrLwlSize 0])).
Proof.
  unfold process_data. induction fuel as [|fuel IH]; [reflexivity|].
  cbn [process_loop replicate concat].
  change (0 <? data_len (g_data (globals_of blob_zero_log))) with true.
  cbv iota.
  change (process_section format_d (globals_of blob_zero_log) (S fuel) 0 None)
    with (@Ok next_step (Continue 0 None),
          [PRule; PText "LWL"; PRule; PErrLwlSize 0]).
  cbn [io_bind]. rewrite IH. reflexivity.
Qed.

(** Claim C6, counterexample: with [buf_len = 4] and [W = 5] the trial at
    offset 4 starts on [put_idx]; its first read is refused and it counts
    nothing, while the trial at offset 0 counts the four unknown bytes.
    With [put_idx = 3] the trial at offset 5 raises [IndexError] before
    any read. *)
Lemma wrapped_trial_first_read_refused :
  max_msg_len (g_lwl_msg_set (globals_of blob_unknown)) = 5
  /\ trial_start_idx 4 0 4 = 0
  /\ get_data_circ (g_data (globals_of blob_unknown)) 0 1 16 4 0 (4 =? 0)
     = Raise EOFError
  /\ run_trial (globals_of blob_unknown) 20 16 4 0 4
     = Ok {| invalid_id_ctr := 0; valid_id_ctr := 0; bytes_left := 0 |}
  /\ run_trial (globals_of blob_unknown) 20 16 4 0 0
     = Ok {| invalid_id_ctr := 4; valid_id_ctr := 0; bytes_left := 0 |}
  /\ run_trial (globals_of (blob_long_message x03)) 20 16 4 3 5
     = Raise IndexError.
Proof. repeat split; reflexivity. Qed.

(** Claim C6, for the trials of logfmt.py.  The trial at offset [t]
    starts at [start_idx] and reaches [reach] bytes: the whole buffer for
    [t = 0], whose first read is the one permitted on [put_idx], and the
    bytes up to [put_idx] for [t >= 1].  A trial [t >= 1] that starts on
    [put_idx] ends at once with nothing counted, and any read after the
    first that lands on [put_idx] ends the trial with its counters as they
    stand. *)
Theorem trial_first_read_exemption (G : Globals) (fuel : nat)
    (buf_start_idx buf_len put_idx t : Z) :
  0 <= buf_start_idx ->
  buf_start_idx + buf_len <= data_len (g_data G) ->
  0 <= put_idx < buf_len ->
  0 <= t ->
  put_idx + t < 2 * buf_len ->
  (Z.to_nat buf_len < fuel)%nat ->
  let start_idx := trial_start_idx buf_len put_idx t in
  let reach := if t =? 0 then buf_len else (put_idx - start_idx) mod buf_len in
  (exists tr,
     run_trial G fuel buf_start_idx buf_len put_idx t = Ok tr
     /\ invalid_id_ctr tr
        = count_invalid (g_lwl_msg_set G)
            (circ_bytes (g_data G) buf_start_idx buf_len (Z.to_nat reach)
               start_idx) 0)
  /\ (t <> 0 -> start_idx = put_idx ->
      run_trial G fuel buf_start_idx buf_len put_idx t
      = Ok {| invalid_id_ctr := 0; valid_id_ctr := 0; bytes_left := 0 |})
  /\ (forall tr,
        trial_loop G fuel buf_start_idx buf_len put_idx put_idx false tr
        = Ok tr).
Proof.
  intros Hstart Hfit Hput Ht Hlt Hfuel start_idx reach.
  assert (Hstop : forall tr,
            trial_loop G fuel buf_start_idx buf_len put_idx put_idx false tr
            = Ok tr).
  { intros tr. destruct fuel as [|fuel']; [lia|]. cbn [trial_loop].
    rewrite (get_data_circ_1 G) by done.
    rewrite (stream_put_false G) by done. done. }
  split; [|split; [|exact Hstop]].
  - destruct (run_trial_count G fuel buf_start_idx buf_len put_idx Hstart
                Hfit Hput Hfuel t Ht Hlt) as (tr & Htr & Hc).
    exists tr. split; [done|]. rewrite Hc. unfold trial_count, stream, remaining.
    fold start_idx. do 2 f_equal. unfold reach.
    destruct (Z.eqb_spec t 0) as [->|]; [|done].
    unfold start_idx, trial_start_idx. rewrite Z.add_0_r.
    destruct (Z.leb_spec buf_len put_idx); [lia|]. by rewrite Z.eqb_refl.
  - intros Hne Heq. unfold run_trial. fold start_idx. rewrite Heq.
    destruct (Z.eqb_spec t 0); [done|]. apply Hstop.
Qed.

(** The theorem above at a sample input. *)
Lemma trial_first_read_exemption_witness :
  run_trial (globals_of blob_unknown) 20 16 4 0 4
  = Ok {| invalid_id_ctr := 0; valid_id_ctr := 0; bytes_left := 0 |}
  /\ exists tr,
       run_trial (globals_of blob_unknown) 20 16 4 0 0 = Ok tr
       /\ invalid_id_ctr tr = 4.
Proof.
  split.
  - destruct (trial_first_read_exemption (globals_of blob_unknown) 20 16 4 0 4)
      as (_ & H & _);
      [evaluate..|].
    apply H; evaluate.
  - destruct (trial_first_read_exemption (globals_of blob_unknown) 20 16 4 0 0)
      as (H & _ & _);
      [evaluate..|].
    exact H.
Defined.

(** Claim C7, counterexample: in lwl.py the trial goes on after a known id
    whose four argument bytes run out, and counts the two bytes of the
    partial span as invalid ids. *)
Lemma lwl_trial_walks_partial_span :
  (Lwl.num_arg_bytes <$> Lwl.get_metadata lwl_val 2) = Some 4
  /\ Lwl.get_metadata lwl_val 255 = None
  /\ Lwl.run_trial lwl_val 20 [x02; xff; xff] 0 0 = Ok 2.
Proof. repeat split; reflexivity. Qed.

(** Claim C7, for the trials of logfmt.py.  When the bytes left to a
    trial are a known id followed by fewer bytes than its descriptor
    declares, the trial stops there: [invalid_id_ctr] and [valid_id_ctr]
    are returned as they stood before the id was read, so neither the id
    nor its partial argument span is counted. *)
Theorem trial_stops_on_short_message (G : Globals) (fuel : nat)
    (buf_start_idx buf_len put_idx idx : Z) (first_get : bool) (t : trial)
    (id : Z) (span : list Z) (msg_meta : LwlMsg) :
  0 <= buf_start_idx ->
  buf_start_idx + buf_len <= data_len (g_data G) ->
  0 <= put_idx < buf_len ->
  0 <= idx < buf_len ->
  stream (g_data G) buf_start_idx buf_len put_idx idx first_get = id :: span ->
  get_metadata (g_lwl_msg_set G) id = Some msg_meta ->
  Z.of_nat (length span) < num_arg_bytes msg_meta ->
  trial_loop G (S fuel) buf_start_idx buf_len put_idx idx first_get t
  = Ok {| invalid_id_ctr := invalid_id_ctr t;
          valid_id_ctr := valid_id_ctr t;
          bytes_left := Z.of_nat (length span) + 1 |}
  /\ count_invalid (g_lwl_msg_set G) (id :: span) 0 = 0.
Proof.
  intros Hstart Hfit Hput Hi Hs Hm Hshort. split.
  - cbn [trial_loop]. rewrite (get_data_circ_1 G) by done. rewrite Hs.
    destruct (stream_cons G _ _ _ Hput _ _ _ _ Hi Hs) as (_ & _ & Hrest).
    pose proof (circ_next_range _ _ Hi) as Hi1.
    rewrite Hm. unfold get_bytes_left_circ.
    destruct (Z.leb_spec buf_len (circ_next buf_len idx)); [lia|].
    destruct (Z.leb_spec buf_len put_idx); [lia|]. cbn [bind].
    destruct (get_bytes_left_circ_loop_spec G buf_start_idx buf_len put_idx
                Hput (Z.to_nat (num_arg_bytes msg_meta))
                (circ_next buf_len idx) 0 Hi1) as (idx' & _ & Hr & _).
    rewrite Hr, Hrest, Z.add_0_l.
    replace (Z.to_nat (num_arg_bytes msg_meta) `min` length span)%nat
      with (length span) by lia.
    destruct (Z.ltb_spec (Z.of_nat (length span)) (num_arg_bytes msg_meta));
      [done|lia].
  - cbn [count_invalid]. rewrite Hm. apply count_invalid_short. lia.
Qed.

(** The theorem above at a sample input. *)
Lemma trial_stops_on_short_message_witness :
  trial_loop (globals_of (blob_log x04)) 1 16 6 4 1 false
    {| invalid_id_ctr := 0; valid_id_ctr := 0; bytes_left := 0 |}
  = Ok {| invalid_id_ctr := 0; valid_id_ctr := 0; bytes_left := 3 |}.
Proof.
  edestruct (trial_stops_on_short_message (globals_of (blob_log x04)) 0 16 6 4
               1 false
               {| invalid_id_ctr := 0; valid_id_ctr := 0; bytes_left := 0 |}
               2 [0; 0])
    as [H _]; [evaluate..|exact H].
Defined.










(** * Further properties of logfmt.py *)

Import Logfmt Linear Samples CircFacts Resync DecodeFacts FramerFacts.
Import Reference LogfmtRest MoreSamples.

(** ** The linear reader [Data.get_data] and the circular readers *)

Module ReaderFacts.

Lemma getitem_in_range (data : list byte) (i : Z) :
  0 <= i < Z.of_nat (length data) ->
  getitem data i = Ok (nth (Z.to_nat i) (map byte_val data) 0).
Proof.
  intros Hi. unfold getitem.
  destruct (Z.ltb_spec i 0); [lia|].
  destruct (Z.ltb_spec i 0); [lia|]. simpl.
  destruct (Z.leb_spec (Z.of_nat (length data)) i); [lia|].
  destruct (nth_error data (Z.to_nat i)) as [b|] eqn:E.
  - f_equal. symmetry. apply nth_error_nth. by rewrite nth_error_map, E.
  - apply nth_error_None in E. lia.
Qed.

Lemma byte_val_range (b : byte) : 0 <= byte_val b < 256.
Proof.
  unfold byte_val. pose proof (Byte.to_N_bounded b). lia.
Qed.

Lemma span_cons (l : list Z) (i n : nat) :
  (i + S n <= length l)%nat ->
  take (S n) (drop i l) = nth i l 0 :: take n (drop (S i) l).
Proof.
  revert i. induction l as [|x l IH]; intros i H; simpl in H; [lia|].
  destruct i as [|i].
  - by rewrite !drop_0.
  - simpl. rewrite <- IH by lia. done.
Qed.

Lemma get_data_loop_ok (g_swab : bool) (d : Data) (n : nat) :
  forall idx value shift,
  0 <= idx -> idx + Z.of_nat n <= data_len d -> 0 <= shift ->
  get_data_loop g_swab d n idx value shift
  = Ok (let bytes := take n (drop (Z.to_nat idx)
                                (map byte_val (data_array d))) in
        if g_swab then fold_left (fun v b => v * 256 + b) bytes value
        else value + 2 ^ shift * little_endian bytes).
Proof.
  induction n as [|n IH]; intros idx value shift Hi Hn Hs.
  - simpl. destruct g_swab; [done|]. f_equal. lia.
  - cbn [get_data_loop]. unfold data_len in *.
    destruct (Z.leb_spec (Z.of_nat (length (data_array d))) idx); [lia|].
    rewrite getitem_in_range by lia. cbn [bind].
    rewrite span_cons by (rewrite length_map; lia).
    replace (S (Z.to_nat idx)) with (Z.to_nat (idx + 1)) by lia.
    destruct g_swab.
    + rewrite IH by lia. cbn [fold_left]. do 2 f_equal.
      rewrite Z.shiftl_mul_pow2 by lia. done.
    + rewrite IH by lia. cbn [little_endian]. f_equal.
      rewrite Z.shiftl_mul_pow2, Z.pow_add_r by lia. lia.
Qed.

Lemma get_data_loop_eof (g_swab : bool) (d : Data) (n : nat) :
  forall idx value shift,
  0 <= idx -> (0 < n)%nat -> data_len d < idx + Z.of_nat n ->
  get_data_loop g_swab d n idx value shift = Raise EOFError.
Proof.
  induction n as [|n IH]; intros idx value shift Hi Hpos Hn; [lia|].
  cbn [get_data_loop]. unfold data_len in *.
  destruct (Z.leb_spec (Z.of_nat (length (data_array d))) idx); [done|].
  rewrite getitem_in_range by lia. cbn [bind].
  destruct g_swab; apply IH; lia.
Qed.

(** A value read by [get_data] is never negative. *)
Lemma little_endian_nonneg (l : list Z) :
  Forall (fun b => 0 <= b) l -> 0 <= little_endian l.
Proof.
  induction 1 as [|b l Hb _ IH]; simpl; lia.
Qed.

Lemma fold_big_endian_nonneg (l : list Z) : forall value,
  Forall (fun b => 0 <= b) l -> 0 <= value ->
  0 <= fold_left (fun v b => v * 256 + b) l value.
Proof.
  induction l as [|b l IH]; intros value Hl Hv; simpl; [done|].
  inversion Hl; subst. apply IH; [done|lia].
Qed.

Lemma byte_vals_nonneg (l : list byte) (i n : nat) :
  Forall (fun b => 0 <= b) (take n (drop i (map byte_val l))).
Proof.
  apply Forall_take, Forall_drop.
  induction l as [|b l IH]; simpl; constructor; [|done].
  pose proof (byte_val_range b). lia.
Qed.

Lemma get_data_nonneg (g_swab : bool) (d : Data) (idx num_bytes value : Z) :
  0 <= idx ->
  get_data g_swab d idx num_bytes = Ok value -> 0 <= value.
Proof.
  intros Hi H. unfold get_data in H.
  destruct (Z.le_gt_cases (idx + Z.of_nat (Z.to_nat num_bytes)) (data_len d)).
  - rewrite get_data_loop_ok in H by lia. injection H as <-. cbn zeta.
    pose proof (byte_vals_nonneg (data_array d) (Z.to_nat idx)
                  (Z.to_nat num_bytes)) as Hb.
    destruct g_swab.
    + by apply fold_big_endian_nonneg.
    + apply little_endian_nonneg in Hb. lia.
  - destruct (Z.to_nat num_bytes) as [|n] eqn:E.
    + simpl in H. injection H as <-. lia.
    + rewrite get_data_loop_eof in H by lia. done.
Qed.

(** The circular read with [first_get] held at [True]. *)
Lemma get_data_circ_loop_first (G : Globals) (buf_start_idx buf_len put_idx : Z)
    (n : nat) : forall idx value,
  0 <= buf_start_idx ->
  buf_start_idx + buf_len <= data_len (g_data G) ->
  0 <= idx < buf_len ->
  get_data_circ_loop (g_data G) n idx value buf_start_idx buf_len put_idx true
  = Ok (fold_left (fun v b => v * 256 + b)
          (circ_bytes (g_data G) buf_start_idx buf_len n idx) value,
        (idx + Z.of_nat n) mod buf_len).
Proof.
  induction n as [|n IH]; intros idx value Hstart Hfit Hi.
  - simpl. rewrite Z.add_0_r, Z.mod_small by lia. done.
  - cbn [get_data_circ_loop circ_bytes]. rewrite andb_false_r.
    rewrite (getitem_window G buf_start_idx buf_len Hstart Hfit) by done.
    cbn [bind]. rewrite IH by (try done; by apply circ_next_range).
    cbn [fold_left]. rewrite Z.shiftl_mul_pow2 by lia.
    rewrite circ_next_mod by done. do 3 f_equal. lia.
Qed.

(** The look-ahead of [get_bytes_left_circ]. *)
Lemma get_bytes_left_circ_loop_min (buf_len put_idx : Z) (n : nat) :
  forall idx acc,
  0 <= put_idx < buf_len -> 0 <= idx < buf_len ->
  get_bytes_left_circ_loop n idx acc buf_len put_idx false
  = (let k := Z.of_nat (n `min` remaining buf_len put_idx idx false) in
     (acc + k, (idx + k) mod buf_len)).
Proof.
  induction n as [|n IH]; intros idx acc Hp Hi; cbn zeta.
  - simpl. rewrite !Z.add_0_r, Z.mod_small by lia. done.
  - cbn [get_bytes_left_circ_loop].
    destruct (remaining buf_len put_idx idx false) as [|k] eqn:E.
    + rewrite (remaining_0 _ _ _ _ Hi Hp E). simpl.
      rewrite !Z.add_0_r, Z.mod_small by lia. done.
    + destruct (remaining_S _ _ _ _ _ Hi Hp E) as [-> Hk].
      rewrite IH by (try done; by apply circ_next_range). cbn zeta.
      rewrite Hk. rewrite circ_next_mod by done.
      replace (S n `min` S k)%nat with (S (n `min` k)) by lia.
      f_equal; [lia|]. f_equal. lia.
Qed.

End ReaderFacts.

Import ReaderFacts.

(** Property X1 ([Data.get_data]).  A read of [num_bytes] bytes at [idx]
    that stays inside the blob returns those bytes composed least
    significant byte first, or most significant byte first when [g_swab]
    is set; a read of at least one byte that runs past the end of the blob
    raises [EOFError], whatever was read before the end. *)
Theorem get_data_byte_order (g_swab : bool) (d : Data) (idx num_bytes : Z) :
  0 <= idx -> 0 <= num_bytes ->
  let bytes := map byte_val (take (Z.to_nat num_bytes)
                               (drop (Z.to_nat idx) (data_array d))) in
  (idx + num_bytes <= data_len d ->
   get_data g_swab d idx num_bytes
   = Ok (if g_swab then big_endian bytes else little_endian bytes))
  /\ (0 < num_bytes -> data_len d < idx + num_bytes ->
      get_data g_swab d idx num_bytes = Raise EOFError).
Proof.
  intros Hi Hn bytes. unfold get_data. split.
  - intros Hfit. rewrite get_data_loop_ok by lia. cbn zeta.
    subst bytes. rewrite skipn_map, firstn_map.
    destruct g_swab; [done|]. f_equal. lia.
  - intros Hpos Hpast. apply get_data_loop_eof; lia.
Qed.

(** The theorem above on the header of a sample section. *)
Lemma get_data_byte_order_witness :
  (get_data false {| data_array := blob_big_endian |} 4 4 = Ok 0x08000000
   /\ get_data true {| data_array := blob_big_endian |} 4 4 = Ok 8)
  /\ get_data false {| data_array := blob_big_endian |} 6 4 = Raise EOFError.
Proof.
  split; [split|].
  - apply (get_data_byte_order false {| data_array := blob_big_endian |} 4 4);
      evaluate.
  - apply (get_data_byte_order true {| data_array := blob_big_endian |} 4 4);
      evaluate.
  - apply (get_data_byte_order false {| data_array := blob_big_endian |} 6 4);
      evaluate.
Defined.

(** Property X2 ([Data.get_data_circ]).  [first_get] is a parameter the
    method never clears: a read that is passed [first_get = True] is never
    stopped at [put_idx].  Whatever its length, it returns the bytes at
    [idx], [idx + 1], ..., wrapping at [buf_len], composed most
    significant byte first, and never raises [EOFError]. *)
Theorem get_data_circ_first_get_unbounded (G : Globals)
    (buf_start_idx buf_len put_idx idx num_bytes : Z) :
  0 <= buf_start_idx ->
  buf_start_idx + buf_len <= data_len (g_data G) ->
  0 <= put_idx < buf_len ->
  0 <= idx < buf_len ->
  get_data_circ (g_data G) idx num_bytes buf_start_idx buf_len put_idx true
  = Ok (big_endian (circ_bytes (g_data G) buf_start_idx buf_len
                      (Z.to_nat num_bytes) idx),
        (idx + Z.of_nat (Z.to_nat num_bytes)) mod buf_len).
Proof.
  intros Hstart Hfit Hput Hi. unfold get_data_circ.
  destruct (Z.leb_spec buf_len idx); [lia|].
  destruct (Z.leb_spec buf_len put_idx); [lia|].
  by apply get_data_circ_loop_first.
Qed.

(** The theorem above on a 6-byte buffer: a 7-byte read at [put_idx]
    comes back to where it started and goes on. *)
Lemma get_data_circ_first_get_unbounded_witness :
  get_data_circ (g_data (globals_of (blob_log x00))) 0 7 16 6 0 true
  = Ok (big_endian [1; 2; 0; 0; 0; 7; 1], 1).
Proof.
  apply (get_data_circ_first_get_unbounded (globals_of (blob_log x00))
           16 6 0 0 7); evaluate.
Defined.

(** Property X3 ([Data.get_bytes_left_circ] against [Data.get_data_circ]).
    Once the first read of a walk is behind, the look-ahead returns the
    smaller of the number asked for and the number of bytes left before
    [put_idx], with the index after them, and never raises; it returns the
    number asked for exactly when the read of as many bytes succeeds, and
    then both return the same index. *)
Theorem bytes_left_agrees_with_read (G : Globals)
    (buf_start_idx buf_len put_idx idx n : Z) :
  0 <= buf_start_idx ->
  buf_start_idx + buf_len <= data_len (g_data G) ->
  0 <= put_idx < buf_len ->
  0 <= idx < buf_len ->
  0 <= n ->
  let k := Z.min n (Z.of_nat (remaining buf_len put_idx idx false)) in
  get_bytes_left_circ idx n buf_start_idx buf_len put_idx false
  = Ok (k, (idx + k) mod buf_len)
  /\ (k = n ->
      exists value,
        get_data_circ (g_data G) idx n buf_start_idx buf_len put_idx false
        = Ok (value, (idx + k) mod buf_len))
  /\ (k < n ->
      get_data_circ (g_data G) idx n buf_start_idx buf_len put_idx false
      = Raise EOFError).
Proof.
  intros Hstart Hfit Hput Hi Hn k.
  assert (Hk : k = Z.of_nat (Z.to_nat n `min` remaining buf_len put_idx idx false))
    by lia.
  split; [|split].
  - unfold get_bytes_left_circ.
    destruct (Z.leb_spec buf_len idx); [lia|].
    destruct (Z.leb_spec buf_len put_idx); [lia|].
    rewrite get_bytes_left_circ_loop_min by done. cbn zeta.
    rewrite <- Hk. done.
  - intros Hkn. unfold get_data_circ.
    destruct (Z.leb_spec buf_len idx); [lia|].
    destruct (Z.leb_spec buf_len put_idx); [lia|].
    destruct (get_data_circ_loop_ok G buf_start_idx buf_len put_idx Hstart
                Hfit Hput (Z.to_nat n) idx 0 Hi) as (idx' & Hi' & Hr & _).
    { rewrite length_stream. lia. }
    eexists. rewrite Hr. do 2 f_equal.
    apply get_data_circ_loop_idx in Hr; [|done]. rewrite Hr. f_equal. lia.
  - intros Hkn. unfold get_data_circ.
    destruct (Z.leb_spec buf_len idx); [lia|].
    destruct (Z.leb_spec buf_len put_idx); [lia|].
    apply (get_data_circ_loop_eof G buf_start_idx buf_len put_idx Hstart Hfit
             Hput); [done|].
    rewrite length_stream. lia.
Qed.

(** The theorem above on a 6-byte buffer, two bytes before [put_idx]. *)
Lemma bytes_left_agrees_with_read_witness :
  get_bytes_left_circ 2 4 16 6 4 false = Ok (2, 4)
  /\ (2 = 4 ->
      exists value,
        get_data_circ (g_data (globals_of (blob_log x04))) 2 4 16 6 4 false
        = Ok (value, 4))
  /\ (2 < 4 ->
      get_data_circ (g_data (globals_of (blob_log x04))) 2 4 16 6 4 false
      = Raise EOFError).
Proof.
  apply (bytes_left_agrees_with_read (globals_of (blob_log x04)) 16 6 4 2 4);
    evaluate.
Defined.

Import ReaderFacts.

(** ** The fault record *)

Module FaultFacts.

Lemma fold_max_base (l : list Z) (m x : Z) :
  fold_right Z.max (Z.max m x) l = Z.max x (fold_right Z.max m l).
Proof. induction l as [|y l IH]; simpl; lia. Qed.

Lemma add_fault_field_fold (l : list (string * Z * Z)) : forall self,
  let fd := fold_left (fun self '(name, offset, num_bytes) =>
                         add_fault_field self name offset num_bytes) l self in
  fields fd
  = fields self ++ map (fun '(name, offset, num_bytes) =>
                          Build_FaultField name offset num_bytes) l
  /\ max_name_len fd
     = fold_right Z.max (max_name_len self)
         (map (fun '(name, _, _) => Z.of_nat (String.length name)) l).
Proof.
  induction l as [|[[n o] b] l IH]; intros self; cbn zeta.
  - simpl. by rewrite app_nil_r.
  - cbn [fold_left map fold_right]. destruct (IH (add_fault_field self n o b))
      as [-> ->]. unfold add_fault_field. cbn [fields max_name_len].
    rewrite <- app_assoc. split; [done|].
    rewrite <- fold_max_base. f_equal.
    destruct (Z.ltb_spec (max_name_len self) (Z.of_nat (String.length n))); lia.
Qed.

Lemma get_data_span (g_swab : bool) (d : Data) (idx num_bytes : Z) :
  0 <= idx -> 0 <= num_bytes -> idx + num_bytes <= data_len d ->
  get_data g_swab d idx num_bytes
  = Ok ((if g_swab then big_endian else little_endian)
          (blob_span d idx num_bytes)).
Proof.
  intros Hi Hn Hfit. unfold get_data, blob_span.
  rewrite get_data_loop_ok by lia. cbn zeta.
  rewrite skipn_map, firstn_map. destruct g_swab; [done|]. f_equal. lia.
Qed.

Lemma skip_test (f : FaultField) :
  String.prefix "pad" (name f) || (name f =? "magic")%string
  || (name f =? "num_section_bytes")%string = negb (shown f).
Proof. unfold shown. by rewrite negb_involutive. Qed.

Lemma print_fields_ok (G : Globals) (section_offset : Z)
    (fs : list FaultField) :
  Forall (fun f => shown f = true -> in_blob (g_data G) section_offset f) fs ->
  FaultData_print_fields G fs section_offset
  = (Ok tt, map (fault_line G section_offset) (List.filter shown fs)).
Proof.
  induction fs as [|f fs IH]; intros Hall; [done|].
  inversion Hall as [|? ? Hf Hfs]; subst.
  cbn [FaultData_print_fields List.filter]. rewrite skip_test.
  destruct (shown f); cbn [negb].
  - destruct (Hf eq_refl) as (H1 & H2 & H3).
    rewrite get_data_span by done. rewrite IH by done. done.
  - by apply IH.
Qed.

Lemma print_fields_eof (G : Globals) (section_offset : Z)
    (pre post : list FaultField) (f : FaultField) :
  Forall (fun f => shown f = true -> in_blob (g_data G) section_offset f) pre ->
  shown f = true ->
  0 <= section_offset + offset f -> 0 < num_bytes f ->
  data_len (g_data G) < section_offset + offset f + num_bytes f ->
  FaultData_print_fields G (pre ++ f :: post) section_offset
  = (Raise EOFError, map (fault_line G section_offset) (List.filter shown pre)).
Proof.
  intros Hall Hs Ho Hn Hpast.
  induction pre as [|p pre IH].
  - cbn [app FaultData_print_fields List.filter map]. rewrite skip_test, Hs.
    cbn [negb]. unfold get_data. rewrite get_data_loop_eof by lia. done.
  - inversion Hall as [|? ? Hp Hpre]; subst.
    cbn [app FaultData_print_fields List.filter]. rewrite skip_test.
    destruct (shown p); cbn [negb].
    + destruct (Hp eq_refl) as (H1 & H2 & H3).
      rewrite get_data_span by done. rewrite IH by done. done.
    + by apply IH.
Qed.

End FaultFacts.

Import FaultFacts.

(** Property X4 ([FaultData.add_fault_field]).  After any sequence of
    calls on a new [FaultData], [fields] holds the fields in the order of
    the calls and [max_name_len] is the length of the longest name, so no
    name is longer than the width [pretty_print] aligns the names to. *)
Theorem add_fault_field_keeps_max (l : list (string * Z * Z)) :
  let fd := fold_left (fun self '(name, offset, num_bytes) =>
                         add_fault_field self name offset num_bytes)
              l FaultData_init in
  fields fd = map (fun '(name, offset, num_bytes) =>
                     Build_FaultField name offset num_bytes) l
  /\ max_name_len fd
     = fold_right Z.max 0
         (map (fun '(name, _, _) => Z.of_nat (String.length name)) l)
  /\ Forall (fun f => Z.of_nat (String.length (name f)) <= max_name_len fd)
       (fields fd).
Proof.
  cbn zeta. destruct (add_fault_field_fold l FaultData_init) as [Hf Hm].
  rewrite Hf, Hm. cbn [FaultData_init fields max_name_len app].
  split; [done|]. split; [done|].
  clear. induction l as [|[[n o] b] l IH]; simpl; constructor.
  - cbn [name]. lia.
  - eapply Forall_impl; [exact IH|]. simpl. intros f Hf. lia.
Qed.

(** Property X5 ([FaultData.pretty_print]).  The fault record is printed
    as three header lines and one line per field that is neither padding
    nor one of the two fields of the section header, in the order of the
    layout, each value read at [section_offset + offset] in the byte order
    of [g_swab].  [section_len] plays no part: a field is read wherever it
    lies in the blob, and the first printed field that runs past the end
    of the blob raises [EOFError] behind the lines of the fields before
    it. *)
Theorem fault_fields_printed (G : Globals) (section_offset section_len : Z) :
  let header := [PRule; PText "Fault data"; PRule] in
  let inside :=
    Forall (fun f => shown f = true -> in_blob (g_data G) section_offset f) in
  (inside (fields (g_fault_data G)) ->
   FaultData_pretty_print G section_offset section_len
   = (Ok tt,
      header ++ map (fault_line G section_offset)
                  (List.filter shown (fields (g_fault_data G)))))
  /\ (forall pre f post,
        fields (g_fault_data G) = pre ++ f :: post ->
        inside pre ->
        shown f = true ->
        0 <= section_offset + offset f ->
        0 < num_bytes f ->
        data_len (g_data G) < section_offset + offset f + num_bytes f ->
        FaultData_pretty_print G section_offset section_len
        = (Raise EOFError,
           header ++ map (fault_line G section_offset)
                       (List.filter shown pre))).
Proof.
  cbn zeta. unfold FaultData_pretty_print. split.
  - intros Hall. rewrite print_fields_ok by done. done.
  - intros pre f post -> Hall Hs Ho Hn Hpast.
    rewrite print_fields_eof by done. done.
Qed.

(** The theorem above on a sample layout: a 20-byte fault section, and
    the same layout on a blob that ends inside [fault_type]. *)
Lemma fault_fields_printed_witness :
  FaultData_pretty_print (globals_with_layout blob_fault) 0 20
  = (Ok tt,
     [PRule; PText "Fault data"; PRule;
      PFaultField 17 "fault_type" 2; PFaultField 17 "lr" 0x12345678])
  /\ FaultData_pretty_print (globals_with_layout blob_truncated) 0 16
     = (Raise EOFError, [PRule; PText "Fault data"; PRule]).
Proof.
  split.
  - apply (proj1 (fault_fields_printed (globals_with_layout blob_fault) 0 20)).
    repeat constructor; evaluate.
  - apply (proj2 (fault_fields_printed (globals_with_layout blob_truncated)
                    0 16)
             [Build_FaultField "magic" 0 4;
              Build_FaultField "num_section_bytes" 4 4]
             (Build_FaultField "fault_type" 8 4)
             [Build_FaultField "pad1" 12 4; Build_FaultField "lr" 16 4]);
      try evaluate.
    repeat constructor; evaluate.
Defined.

Import ReaderFacts FaultFacts.

(** ** The message catalog *)

Module CatalogFacts.

Lemma sum_int_chars_shift (s : string) : forall acc k n,
  sum_int_chars s acc = Ok n -> sum_int_chars s (acc + k) = Ok (n + k).
Proof.
  induction s as [|c s IH]; intros acc k n H; simpl in *.
  - injection H as <-. done.
  - destruct (int_of_char c) as [v| |]; simpl in *; try done.
    replace (acc + k + v) with (acc + v + k) by lia. by apply IH.
Qed.

Lemma sum_int_chars_lower (s : string) : forall acc n,
  sum_int_chars s acc = Ok n -> acc <= n.
Proof.
  induction s as [|c s IH]; intros acc n H; simpl in *.
  - injection H as <-. lia.
  - destruct (int_of_char c) as [v| |] eqn:Ev; simpl in *; try done.
    apply int_of_char_ok in Ev as [_ Hv]. apply IH in H. lia.
Qed.

(** [add_lwl_msg] on an id that is not in the set. *)
Lemma add_lwl_msg_fresh (self : LwlMsgSet) (id : Z)
    (fmt arg_bytes lwl_statement file_path : string) (line_num : Z)
    (ok : bool) (self' : LwlMsgSet) (out : list printed) :
  lwl_msgs self !! id = None ->
  add_lwl_msg self id fmt arg_bytes lwl_statement file_path line_num
  = (Ok (ok, self'), out) ->
  exists n,
    sum_int_chars arg_bytes 0 = Ok n
    /\ ok = true /\ out = []
    /\ self' = {| lwl_msgs :=
                    <[id := {| Logfmt.id := id; Logfmt.fmt := fmt;
                               Logfmt.arg_bytes := arg_bytes;
                               Logfmt.file_path := file_path;
                               Logfmt.line_num := line_num;
                               Logfmt.lwl_statement := lwl_statement;
                               num_arg_bytes := n |}]> (lwl_msgs self);
                  max_msg_len := Z.max (max_msg_len self) (n + 1) |}.
Proof.
  intros Hfresh. unfold add_lwl_msg, LwlMsg_init. rewrite Hfresh.
  destruct (sum_int_chars arg_bytes 0) as [n| |] eqn:Hsum; cbn; try done.
  pose proof (sum_int_chars_shift _ 0 1 n Hsum) as Hsum1.
  change (0 + 1) with 1 in Hsum1. rewrite Hsum1. cbn.
  intros [= <- <- <-]. exists n. repeat split.
  f_equal. destruct (Z.ltb_spec (max_msg_len self) (n + 1)); lia.
Qed.

Lemma add_lwl_msg_duplicate (self : LwlMsgSet) (id : Z)
    (fmt arg_bytes lwl_statement file_path : string) (line_num : Z)
    (prev : LwlMsg) :
  lwl_msgs self !! id = Some prev ->
  add_lwl_msg self id fmt arg_bytes lwl_statement file_path line_num
  = (Ok (false, self),
     [PDuplicate file_path line_num id lwl_statement (Logfmt.file_path prev)
        (Logfmt.line_num prev) (Logfmt.lwl_statement prev)]).
Proof. intros H. unfold add_lwl_msg. rewrite H. done. Qed.

Lemma sound_init : sound LwlMsgSet_init.
Proof.
  split.
  - intros id m H. unfold get_metadata in H. simpl in H.
    by rewrite lookup_empty in H.
  - by left.
Qed.

Lemma sound_add (self : LwlMsgSet) (id : Z)
    (fmt arg_bytes lwl_statement file_path : string) (line_num : Z)
    (ok : bool) (self' : LwlMsgSet) (out : list printed) :
  sound self ->
  add_lwl_msg self id fmt arg_bytes lwl_statement file_path line_num
  = (Ok (ok, self'), out) ->
  sound self'.
Proof.
  intros [Hall Hmax] Hadd.
  destruct (lwl_msgs self !! id) as [prev|] eqn:E.
  - rewrite (add_lwl_msg_duplicate _ _ _ _ _ _ _ _ E) in Hadd.
    injection Hadd as _ <- _. by split.
  - apply add_lwl_msg_fresh in Hadd as (n & Hsum & -> & -> & ->); [|done].
    pose proof (sum_int_chars_lower _ _ _ Hsum) as Hn.
    split.
    + intros id' m. unfold get_metadata. cbn [lwl_msgs max_msg_len].
      destruct (decide (id' = id)) as [->|Hne].
      * rewrite lookup_insert_eq. intros [= <-]. cbn. repeat split; try done; lia.
      * rewrite lookup_insert_ne by done. intros Hm.
        destruct (Hall id' m Hm) as (H1 & H2 & H3 & H4).
        repeat split; try done. lia.
    + right. unfold get_metadata. cbn [lwl_msgs max_msg_len].
      destruct (Z.max_spec (max_msg_len self) (n + 1)) as [[Hlt ->]|[Hge ->]].
      * eexists id, _. rewrite lookup_insert_eq. split; [done|]. done.
      * destruct Hmax as [[Hempty Hzero]|(id0 & m0 & Hm0 & Hlen)]; [lia|].
        exists id0, m0. split; [|done].
        destruct (decide (id0 = id)) as [->|Hne].
        -- unfold get_metadata in Hm0. congruence.
        -- by rewrite lookup_insert_ne.
Qed.

Lemma built_sound (cat : LwlMsgSet) : built cat -> sound cat.
Proof.
  induction 1 as [|self id fmt ab st fp ln ok self' out _ IH Hadd].
  - apply sound_init.
  - by eapply sound_add.
Qed.

(** The sample catalog is built by two calls. *)
Lemma tick_val_is_built : built tick_val.
Proof.
  eapply (built_add _ 2 "val=%d" "4" "LWL(val)" "app.c" 3 true tick_val []).
  - eapply (built_add LwlMsgSet_init 1 "tick" "" "LWL(tick)" "app.c" 3 true
              _ []); [apply built_init|reflexivity].
  - reflexivity.
Qed.

End CatalogFacts.

Import CatalogFacts.

(** Property X6 ([LwlMsgSet.add_lwl_msg], [LwlMsgSet.get_metadata]).
    Whenever [add_lwl_msg] returns, every message that was in the set is
    still there, unchanged.  On an id that is in the set it returns
    [False], leaves the set as it was and prints the duplicate line with
    the place of the earlier statement.  On a new id it returns [True],
    prints nothing, and afterwards [get_metadata] of that id is the
    message passed, with [num_arg_bytes] the sum of the digits of
    [arg_bytes]; [max_msg_len] becomes the larger of its old value and
    that sum plus one for the id byte. *)
Theorem add_lwl_msg_lookup (self : LwlMsgSet) (id : Z)
    (fmt arg_bytes lwl_statement file_path : string) (line_num : Z)
    (ok : bool) (self' : LwlMsgSet) (out : list printed) :
  add_lwl_msg self id fmt arg_bytes lwl_statement file_path line_num
  = (Ok (ok, self'), out) ->
  (forall id' m,
     get_metadata self id' = Some m -> get_metadata self' id' = Some m)
  /\ match get_metadata self id with
     | Some prev =>
         ok = false /\ self' = self
         /\ out = [PDuplicate file_path line_num id lwl_statement
                     (Logfmt.file_path prev) (Logfmt.line_num prev)
                     (Logfmt.lwl_statement prev)]
     | None =>
         ok = true /\ out = []
         /\ exists n,
              sum_int_chars arg_bytes 0 = Ok n
              /\ get_metadata self' id
                 = Some {| Logfmt.id := id; Logfmt.fmt := fmt;
                           Logfmt.arg_bytes := arg_bytes;
                           Logfmt.file_path := file_path;
                           Logfmt.line_num := line_num;
                           Logfmt.lwl_statement := lwl_statement;
                           num_arg_bytes := n |}
              /\ (forall id', id' <> id ->
                    get_metadata self' id' = get_metadata self id')
              /\ max_msg_len self' = Z.max (max_msg_len self) (n + 1)
     end.
Proof.
  intros Hadd. unfold get_metadata.
  destruct (lwl_msgs self !! id) as [prev|] eqn:E.
  - rewrite (add_lwl_msg_duplicate _ _ _ _ _ _ _ _ E) in Hadd.
    injection Hadd as <- <- <-. done.
  - apply add_lwl_msg_fresh in Hadd as (n & Hsum & -> & -> & ->); [|done].
    cbn [lwl_msgs max_msg_len]. split.
    + intros id' m Hm. destruct (decide (id' = id)) as [->|Hne];
        [congruence|by rewrite lookup_insert_ne].
    + split; [done|]. split; [done|]. exists n. split; [done|].
      rewrite lookup_insert_eq. split; [done|]. split; [|done].
      intros id' Hne. by rewrite lookup_insert_ne.
Qed.

(** The theorem above on the sample catalog and a new id. *)
Lemma add_lwl_msg_lookup_witness :
  (forall id' m,
     get_metadata tick_val id' = Some m ->
     get_metadata tick_val_ab id' = Some m)
  /\ match get_metadata tick_val 3 with
     | Some prev =>
         true = false /\ tick_val_ab = tick_val
         /\ [] = [PDuplicate "app.c" 3 3 "LWL(ab)" (Logfmt.file_path prev)
                    (Logfmt.line_num prev) (Logfmt.lwl_statement prev)]
     | None =>
         true = true /\ @nil printed = []
         /\ exists n,
              sum_int_chars "12" 0 = Ok n
              /\ get_metadata tick_val_ab 3
                 = Some {| Logfmt.id := 3; Logfmt.fmt := "a=%d b=%d";
                           Logfmt.arg_bytes := "12";
                           Logfmt.file_path := "app.c";
                           Logfmt.line_num := 3;
                           Logfmt.lwl_statement := "LWL(ab)";
                           num_arg_bytes := n |}
              /\ (forall id', id' <> 3 ->
                    get_metadata tick_val_ab id' = get_metadata tick_val id')
              /\ max_msg_len tick_val_ab
                 = Z.max (max_msg_len tick_val) (n + 1)
     end.
Proof.
  apply (add_lwl_msg_lookup tick_val 3 "a=%d b=%d" "12" "LWL(ab)" "app.c" 3).
  reflexivity.
Defined.

(** Property X7 (the sets [LwlMsgSet.add_lwl_msg] builds).  In every set
    reached from the empty one by calls of [add_lwl_msg], each message is
    filed under its own id, its [num_arg_bytes] is the sum of the digits of
    its [arg_bytes], and its length, id byte included, is at most
    [max_msg_len]; [max_msg_len] is the length of the longest message, and
    0 only for the empty set. *)
Theorem built_catalog_sound (cat : LwlMsgSet) :
  built cat ->
  (forall id m,
     get_metadata cat id = Some m ->
     Logfmt.id m = id
     /\ sum_int_chars (arg_bytes m) 0 = Ok (num_arg_bytes m)
     /\ 0 <= num_arg_bytes m
     /\ num_arg_bytes m + 1 <= max_msg_len cat)
  /\ (lwl_msgs cat = ∅ /\ max_msg_len cat = 0
      \/ exists id m,
           get_metadata cat id = Some m
           /\ max_msg_len cat = num_arg_bytes m + 1).
Proof. apply built_sound. Qed.

(** The theorem above on the sample catalog. *)
Lemma built_catalog_sound_witness :
  (forall id m,
     get_metadata tick_val id = Some m ->
     Logfmt.id m = id
     /\ sum_int_chars (arg_bytes m) 0 = Ok (num_arg_bytes m)
     /\ 0 <= num_arg_bytes m
     /\ num_arg_bytes m + 1 <= max_msg_len tick_val)
  /\ (lwl_msgs tick_val = ∅ /\ max_msg_len tick_val = 0
      \/ exists id m,
           get_metadata tick_val id = Some m
           /\ max_msg_len tick_val = num_arg_bytes m + 1).
Proof.
  apply (built_catalog_sound tick_val).
  eapply (built_add _ 2 "val=%d" "4" "LWL(val)" "app.c" 3 true tick_val []).
  - eapply (built_add LwlMsgSet_init 1 "tick" "" "LWL(tick)" "app.c" 3 true
              _ []); [apply built_init|reflexivity].
  - reflexivity.
Defined.

Module FmtFacts.

Lemma lwl_slots_plain (pre rest : string) :
  plain pre = true -> forall n,
  Lwl.get_num_fmt_params_loop (pre ++ rest) Lwl.idle n
  = Lwl.get_num_fmt_params_loop rest Lwl.idle n.
Proof.
  intros Hp n. induction pre as [|c pre IH]; [done|].
  simpl in Hp. apply andb_true_iff in Hp as [Hc Hp].
  simpl. destruct (Ascii.eqb c "%"); [done|]. by apply IH.
Qed.

Lemma lwl_slots_none (pre : string) :
  plain pre = true -> forall n,
  Lwl.get_num_fmt_params_loop pre Lwl.idle n = n.
Proof.
  intros Hp n. induction pre as [|c pre IH]; [done|].
  simpl in Hp. apply andb_true_iff in Hp as [Hc Hp].
  simpl. destruct (Ascii.eqb c "%"); [done|]. by apply IH.
Qed.

Lemma lwl_slots_shift (s : string) : forall st n k,
  Lwl.get_num_fmt_params_loop s st (n + k)
  = Lwl.get_num_fmt_params_loop s st n + k.
Proof.
  induction s as [|c s IH]; intros st n k; [done|].
  cbn [Lwl.get_num_fmt_params_loop].
  destruct st; destruct (Ascii.eqb c "%"); rewrite <- ?IH; try done.
  f_equal. lia.
Qed.

Lemma slots_agree (s : string) : forall n,
  get_num_fmt_params_loop s idle n
  = Lwl.get_num_fmt_params_loop s Lwl.idle n
  /\ get_num_fmt_params_loop s got_percent n
     = Lwl.get_num_fmt_params_loop s Lwl.got_percent n.
Proof.
  induction s as [|c s IH]; intros n; [done|].
  cbn [get_num_fmt_params_loop Lwl.get_num_fmt_params_loop].
  destruct (Ascii.eqb c "%"); split; apply IH.
Qed.

End FmtFacts.

Import FmtFacts.

(** Property X8 ([get_num_fmt_params]).  The count goes through the
    format from the left: text without a percent sign counts nothing; a
    percent sign followed by any character but a percent sign counts one
    parameter, and that character is consumed with it; two percent signs in
    a row count nothing; a percent sign that ends the format counts
    nothing.  The method of logfmt.py and the function of lwl.py return the
    same count on every format, so the rules hold for both. *)
Theorem fmt_params_counted (pre rest : string) (c : ascii) :
  plain pre = true ->
  Lwl.get_num_fmt_params pre = 0
  /\ Lwl.get_num_fmt_params (pre ++ "%") = 0
  /\ Lwl.get_num_fmt_params (pre ++ "%%" ++ rest)
     = Lwl.get_num_fmt_params rest
  /\ (c <> "%"%char ->
      Lwl.get_num_fmt_params (pre ++ String "%" (String c rest))
      = 1 + Lwl.get_num_fmt_params rest)
  /\ (forall fmt : string,
        get_num_fmt_params fmt = Lwl.get_num_fmt_params fmt).
Proof.
  intros Hp. unfold Lwl.get_num_fmt_params, get_num_fmt_params.
  repeat split.
  - by apply lwl_slots_none.
  - rewrite lwl_slots_plain; done.
  - rewrite lwl_slots_plain; done.
  - intros Hc. rewrite lwl_slots_plain by done.
    apply Ascii.eqb_neq in Hc.
    change (Lwl.get_num_fmt_params_loop (String "%" (String c rest)) Lwl.idle 0)
      with (if Ascii.eqb c "%"
            then Lwl.get_num_fmt_params_loop rest Lwl.idle 0
            else Lwl.get_num_fmt_params_loop rest Lwl.idle (0 + 1)).
    rewrite Hc. rewrite (lwl_slots_shift rest Lwl.idle 0 1). lia.
  - intros fmt. apply slots_agree.
Qed.

(** The theorem above on [count=%d%%], with the two programs compared
    on a format without a percent sign and on one that ends with one. *)
Lemma fmt_params_counted_witness :
  Lwl.get_num_fmt_params "count=" = 0
  /\ Lwl.get_num_fmt_params ("count=" ++ "%") = 0
  /\ Lwl.get_num_fmt_params ("count=" ++ "%%" ++ "%%")
     = Lwl.get_num_fmt_params "%%"
  /\ Lwl.get_num_fmt_params ("count=" ++ String "%" (String "d" "%%")) = 1
  /\ get_num_fmt_params "Simple trace" = 0
  /\ get_num_fmt_params "100%" = 0
  /\ get_num_fmt_params "count=%d%%" = 1.
Proof.
  destruct (fmt_params_counted "count=" "%%" "d" eq_refl)
    as (H1 & H2 & H3 & H4 & H5).
  split; [exact H1|]. split; [exact H2|]. split; [exact H3|].
  split; [rewrite H4; [reflexivity|discriminate]|].
  rewrite !H5. repeat split; reflexivity.
Defined.

Import ReaderFacts FaultFacts CatalogFacts FmtFacts.

(** ** Statements *)

Module StatementFacts.

Lemma lwl_sum_nondigit (pre post : string) (c : ascii) :
  (nat_of_ascii c < 48 \/ 57 < nat_of_ascii c)%nat -> forall acc,
  Lwl.sum_int_chars (pre ++ String c post) acc = Raise ValueError.
Proof.
  intros Hc. induction pre as [|p pre IH]; intros acc; simpl.
  - unfold int_of_char.
    destruct (Z.leb_spec 48 (Z.of_nat (nat_of_ascii c)));
      destruct (Z.leb_spec (Z.of_nat (nat_of_ascii c)) 57); simpl; try done.
    lia.
  - unfold int_of_char at 1.
    destruct ((48 <=? Z.of_nat (nat_of_ascii p))
              && (Z.of_nat (nat_of_ascii p) <=? 57)); simpl; [apply IH|done].
Qed.

End StatementFacts.

Import StatementFacts.

(** Property X9 ([parse_source_file] of lwl.py, through
    [LwlMsgSet.add_lwl_msg] and [LwlMsg.__init__]).  The width string of a
    statement is checked for its length only.  When it has as many
    characters as the format has parameters and one of them is not a
    decimal digit, the statement, on a new id and after a base id, is not
    reported: [int(d)] raises [ValueError] in the constructor of the
    message, no line is printed and no error is counted. *)
Theorem lwl_width_not_a_digit (s : Lwl.statement) (error_count lwl_bid : Z)
    (msg_set : Lwl.LwlMsgSet) (pre post : string) (c : ascii) :
  Lwl.get_num_fmt_params (Lwl.st_lwl_fmt s)
  = Z.of_nat (String.length (Lwl.st_lwl_arg_bytes s)) ->
  Lwl.st_lwl_bid s = Some lwl_bid ->
  Lwl.lwl_msgs msg_set !! (lwl_bid + Lwl.st_lwl_id_offset s) = None ->
  Lwl.st_lwl_arg_bytes s = (pre ++ String c post)%string ->
  (nat_of_ascii c < 48 \/ 57 < nat_of_ascii c)%nat ->
  Lwl.parse_source_file_statement s error_count msg_set
  = (Raise ValueError, []).
Proof.
  intros Hslots Hbid Hfresh Hab Hc. unfold Lwl.parse_source_file_statement.
  rewrite Hslots, Z.eqb_refl, Hbid. cbn [negb].
  unfold Lwl.add_lwl_msg. rewrite Hfresh. unfold Lwl.LwlMsg_init.
  rewrite Hab, lwl_sum_nondigit by done. done.
Qed.

(** The theorem above on [LWL(1, "x=%d", "w")]. *)
Lemma lwl_width_not_a_digit_witness :
  Lwl.parse_source_file_statement lwl_statement_nondigit 0 lwl_tick
  = (Raise ValueError, []).
Proof.
  apply (lwl_width_not_a_digit lwl_statement_nondigit 0 10 lwl_tick "" "" "w");
    evaluate.
Defined.

(** Property X10 ([SourceParser.parse_source_file] of logfmt.py).  A
    statement whose declared number of argument bytes differs from the sum
    of the widths of its [LWL_n] arguments is reported, and that is all:
    the error is not counted and the message is added to the set, on a new
    id and after a base id, with the sum of the widths as its
    [num_arg_bytes]. *)
Theorem miscounted_statement_added (s : statement) (error_count lwl_base_id : Z)
    (msg_set : LwlMsgSet) :
  st_num_arg_bytes_check s <> st_lwl_num_arg_bytes s ->
  sum_int_chars (st_lwl_arg_lengths s) 0 = Ok (st_num_arg_bytes_check s) ->
  st_lwl_base_id s = Some lwl_base_id ->
  lwl_msgs msg_set !! (lwl_base_id + st_lwl_id_offset s) = None ->
  exists msg_set' msg_meta,
    parse_source_file_statement s error_count msg_set
    = (Ok (error_count, msg_set'),
       [PErrArgBytes (st_file_path s) (st_line_num s)
          (st_num_arg_bytes_check s) (st_lwl_num_arg_bytes s)
          (st_lwl_statement s)])
    /\ get_metadata msg_set' (lwl_base_id + st_lwl_id_offset s)
       = Some msg_meta
    /\ fmt msg_meta = st_lwl_fmt s
    /\ arg_bytes msg_meta = st_lwl_arg_lengths s
    /\ num_arg_bytes msg_meta = st_num_arg_bytes_check s.
Proof.
  intros Hne Hsum Hbase Hfresh. unfold parse_source_file_statement.
  destruct (Z.eqb_spec (st_num_arg_bytes_check s) (st_lwl_num_arg_bytes s));
    [done|]. cbn [negb]. rewrite Hbase.
  unfold add_lwl_msg, LwlMsg_init. rewrite Hfresh, Hsum.
  pose proof (sum_int_chars_shift _ 0 1 _ Hsum) as Hsum1.
  change (0 + 1) with 1 in Hsum1. cbn [bind lift]. rewrite Hsum1. cbn.
  eexists _, _. split; [done|]. unfold get_metadata. cbn [lwl_msgs].
  rewrite lookup_insert_eq. done.
Qed.

(** The theorem above on a statement that declares 2 bytes and passes
    [LWL_4]. *)
Lemma miscounted_statement_added_witness :
  exists msg_set' msg_meta,
    parse_source_file_statement statement_miscounted 0 tick_val
    = (Ok (0, msg_set'), [PErrArgBytes "app.c" 9 4 2 "LWL(x)"])
    /\ get_metadata msg_set' 11 = Some msg_meta
    /\ fmt msg_meta = "x=%d"%string
    /\ arg_bytes msg_meta = "4"%string
    /\ num_arg_bytes msg_meta = 4.
Proof.
  apply (miscounted_statement_added statement_miscounted 0 10 tick_val);
    evaluate.
Defined.

Import ReaderFacts FaultFacts CatalogFacts FmtFacts StatementFacts.

(** ** The framing loop and the log section, end to end *)

Module FramingFacts.

Section Framing.

Variable format_percent : string -> list Z -> string + exn.
Variable G : Globals.

(** The loop body goes on only behind a section with a known magic that
    lies inside the blob, and it goes on at the end of that section. *)
Lemma process_section_continue (fuel : nat) (idx : Z)
    (local_g_swab : option bool) (idx' : Z) (local_g_swab' : option bool)
    (out : list printed) :
  process_section format_percent G fuel idx local_g_swab
  = (Ok (Continue idx' local_g_swab'), out) ->
  exists magic ty section_len,
    idx + 8 <= data_len (g_data G)
    /\ get_data (g_swab G) (g_data G) idx 4 = Ok magic
    /\ magic_to_fault_type magic = Some ty
    /\ get_data (g_swab G) (g_data G) (idx + 4) 4 = Ok section_len
    /\ idx + section_len <= data_len (g_data G)
    /\ idx' = idx + section_len.
Proof.
  unfold process_section, check_magic, dispatch_section.
  destruct (Z.ltb_spec (data_len (g_data G)) (idx + 8)); [done|].
  destruct (get_data (g_swab G) (g_data G) idx 4) as [magic| |] eqn:Em;
    cbn [lift io_bind]; try done.
  destruct (magic_to_fault_type magic) as [ty|] eqn:Ety.
  - cbn [io_ret io_bind].
    destruct (get_data (g_swab G) (g_data G) (idx + 4) 4)
      as [section_len| |] eqn:El; cbn [lift io_bind]; try done.
    destruct (Z.ltb_spec (data_len (g_data G)) (idx + section_len)); [done|].
    destruct (match ty with
              | SECTION_TYPE_FAULT => FaultData_pretty_print G idx section_len
              | SECTION_TYPE_LWL =>
                  LwlPrinter_pretty_print format_percent G fuel idx section_len
              | SECTION_TYPE_TRAILER =>
                  print PRule ;; print (PText "End of fault data") ;;
                  print PRule
              end) as [[[]| |] o]; cbn; try done.
    intros [= <- _ _]. exists magic, ty, section_len. done.
  - destruct local_g_swab as [b|]; [|done]. cbn. done.
Qed.

Lemma process_loop_true_tiles (fuel : nat) : forall idx local_g_swab out,
  idx <= data_len (g_data G) ->
  process_loop format_percent G fuel idx local_g_swab = (Ok true, out) ->
  tiles G idx.
Proof.
  induction fuel as [|fuel IH]; intros idx l0 out Hi; cbn [process_loop].
  - destruct (Z.ltb_spec idx (data_len (g_data G))); [done|].
    intros _. apply tiles_end. lia.
  - destruct (Z.ltb_spec idx (data_len (g_data G))) as [Hlt|Hge];
      [|intros _; apply tiles_end; lia].
    destruct (process_section format_percent G (S fuel) idx l0)
      as [[step| |] o] eqn:Es; cbn [io_bind]; try done.
    destruct step as [b|idx' l1].
    + cbn. intros [= -> _].
      apply process_section_outcomes in Es as [Hb _]. done.
    + destruct (process_loop format_percent G fuel idx' l1) as [r o'] eqn:El.
      intros [= -> _].
      apply process_section_continue in Es
        as (magic & ty & len & H8 & Hm & Hty & Hlen & Hfit & ->).
      eapply tiles_section; eauto.
Qed.

End Framing.

End FramingFacts.

Import FramingFacts.

(** Property X11 ([Data.process_data] returning [True]).  [process_data]
    returns [True] only when the blob is a sequence of whole sections:
    each starts where the one before it ends, has a magic the reading
    byte order recognizes and a length that keeps it inside the blob, and
    the last one ends exactly at the end of the blob. *)
Theorem process_data_true_tiles
    (format_percent : string -> list Z -> string + exn) (G : Globals)
    (fuel : nat) (out : list printed) :
  process_data format_percent G fuel = (Ok true, out) -> tiles G 0.
Proof.
  apply process_loop_true_tiles. unfold data_len. lia.
Qed.

(** The theorem above on a blob of two sections. *)
Lemma process_data_true_tiles_witness : tiles (globals_of blob_small_log) 0.
Proof.
  apply (process_data_true_tiles format_d (globals_of blob_small_log) 6
           [PRule; PText "LWL"; PRule; PErrLwlSize 19;
            PRule; PText "End of fault data"; PRule]).
  reflexivity.
Defined.



Import ReaderFacts FaultFacts CatalogFacts FmtFacts StatementFacts FramingFacts.

(** ** The log section, end to end *)

Module SectionFacts.

Lemma get_data_loop_not_fuel (g_swab : bool) (d : Data) (n : nat) :
  forall idx value shift, get_data_loop g_swab d n idx value shift <> Fuel.
Proof.
  induction n as [|n IH]; intros idx value shift; [done|].
  cbn [get_data_loop]. destruct (data_len d <=? idx); [done|].
  unfold getitem.
  destruct ((if idx <? 0 then idx + Z.of_nat (length (data_array d)) else idx) <? 0);
    [done|].
  destruct (Z.of_nat (length (data_array d))
            <=? (if idx <? 0 then idx + Z.of_nat (length (data_array d)) else idx));
    [done|]. cbn [orb].
  destruct (nth_error (data_array d) _); [|done].
  cbn [bind]. destruct g_swab; apply IH.
Qed.

Lemma get_data_not_fuel (g_swab : bool) (d : Data) (idx num_bytes : Z) :
  get_data g_swab d idx num_bytes <> Fuel.
Proof. apply get_data_loop_not_fuel. Qed.

Section Window.

Variable format_percent : string -> list Z -> string + exn.
Variable G : Globals.
Variables (fuel : nat) (buf_start_idx buf_len put_idx : Z).
Hypothesis Hstart : 0 <= buf_start_idx.
Hypothesis Hfit : buf_start_idx + buf_len <= data_len (g_data G).
Hypothesis Hput : 0 <= put_idx < buf_len.
Hypothesis Hfuel : (Z.to_nat buf_len < fuel)%nat.

(** A trial either counts, or starts beyond the buffer and raises
    [IndexError]. *)
Lemma run_trial_outcome (t : Z) :
  0 <= t ->
  (exists tr, run_trial G fuel buf_start_idx buf_len put_idx t = Ok tr)
  \/ (2 * buf_len <= put_idx + t
      /\ run_trial G fuel buf_start_idx buf_len put_idx t = Raise IndexError).
Proof using Hstart Hfit Hput Hfuel.
  intros Ht. destruct (Z.lt_ge_cases (put_idx + t) (2 * buf_len)) as [Hlt|Hge].
  - left.
    destruct (run_trial_count G fuel buf_start_idx buf_len put_idx Hstart Hfit
                Hput Hfuel t Ht Hlt) as (tr & Htr & _). eauto.
  - right. split; [lia|]. unfold run_trial, trial_start_idx.
    destruct (Z.leb_spec buf_len (put_idx + t)); [|lia].
    destruct fuel as [|f]; [lia|]. cbn [trial_loop]. unfold get_data_circ.
    destruct (Z.leb_spec buf_len (put_idx + t - buf_len)); [done|lia].
Qed.

Lemma offsets_loop_outcome (offsets : list Z) : forall best cur,
  Forall (fun t => 0 <= t) offsets ->
  (forall i, cur = Some i -> 0 <= i < buf_len) ->
  match offsets_loop G fuel buf_start_idx buf_len put_idx offsets best cur with
  | Ok (Some i) => 0 <= i < buf_len
  | Ok None => True
  | Raise e => e = IndexError
  | Fuel => False
  end.
Proof using Hstart Hfit Hput Hfuel.
  induction offsets as [|t offsets IH]; intros best cur Hall Hcur.
  - simpl. destruct cur as [i|]; [by apply Hcur|done].
  - inversion Hall as [|? ? Ht Hall']; subst. cbn [offsets_loop].
    destruct (run_trial_outcome t Ht) as [[tr Htr]|[Hge Htr]]; rewrite Htr;
      cbn [bind]; [|done].
    destruct (invalid_id_ctr tr <? best); apply IH; try done.
    intros i [= <-].
    assert (put_idx + t < 2 * buf_len) as Hlt.
    { destruct (Z.lt_ge_cases (put_idx + t) (2 * buf_len)) as [|Hge]; [done|].
      exfalso. unfold run_trial, trial_start_idx in Htr.
      destruct (Z.leb_spec buf_len (put_idx + t)); [|lia].
      destruct fuel as [|f]; [lia|]. cbn [trial_loop] in Htr.
      unfold get_data_circ in Htr.
      destruct (Z.leb_spec buf_len (put_idx + t - buf_len)); [done|lia]. }
    apply (trial_start_idx_mod buf_len put_idx t Hput Ht Hlt).
Qed.

Lemma get_optimal_start_idx_outcome :
  match get_optimal_start_idx G fuel buf_start_idx buf_len put_idx with
  | Ok (Some i) => 0 <= i < buf_len
  | Ok None => True
  | Raise e => e = IndexError
  | Fuel => False
  end.
Proof using Hstart Hfit Hput Hfuel.
  apply offsets_loop_outcome; [|done].
  unfold range. apply List.Forall_forall. intros t Ht.
  apply in_map_iff in Ht as (k & <- & _). lia.
Qed.

Hypothesis Hcat : catalog_built (g_lwl_msg_set G).

(** The decode of the buffer always ends: with [Ok], with what the [%]
    operator raised on a format of the catalog, with [IndexError] from a
    trial, or with [TypeError] when no trial was chosen. *)
Lemma decode_buffer_outcome :
  match (decode_buffer format_percent G fuel buf_start_idx buf_len put_idx).1
  with
  | Ok _ => True
  | Raise e =>
      e = IndexError \/ e = TypeError
      \/ exists b m args,
           get_metadata (g_lwl_msg_set G) b = Some m
           /\ format_percent (fmt m) args = inr e
  | Fuel => False
  end.
Proof using Hstart Hfit Hput Hfuel Hcat.
  unfold decode_buffer. pose proof get_optimal_start_idx_outcome as Hs.
  destruct (get_optimal_start_idx G fuel buf_start_idx buf_len put_idx)
    as [[idx|]| |]; cbn [lift io_bind fst]; try (by auto).
  change (letp st := stream_loop format_percent G fuel buf_start_idx buf_len
                         put_idx idx true
            in print_unused G fuel buf_start_idx buf_len put_idx st)
      with (io_bind (stream_loop format_percent G fuel buf_start_idx buf_len
                       put_idx idx true)
              (print_unused G fuel buf_start_idx buf_len put_idx)).
    rewrite (stream_decode_spec format_percent G buf_start_idx buf_len put_idx
               Hstart Hfit Hput Hcat fuel idx true fuel Hs);
      [|rewrite length_stream;
        pose proof (remaining_le buf_len put_idx idx true); lia|done].
    set (s := stream (g_data G) buf_start_idx buf_len put_idx idx true).
    pose proof (decode_not_fuel format_percent (g_lwl_msg_set G)
                  (S (length s)) s [] ltac:(lia)) as Hnf.
    pose proof (decode_raise format_percent (g_lwl_msg_set G)
                  (S (length s)) s []) as Hr.
    pose proof (finish_fst (true && (idx =? put_idx)) (length s)
                  (decode format_percent (g_lwl_msg_set G) (S (length s)) s []))
      as Hff.
    destruct (finish (true && (idx =? put_idx)) (length s)
                (decode format_percent (g_lwl_msg_set G) (S (length s)) s []))
      as [r' o']. cbn [fst] in *. subst r'.
    destruct (decode format_percent (g_lwl_msg_set G) (S (length s)) s []).1
      as [x|e|]; [done| |done]. right. right. by apply Hr.
Qed.

End Window.

Lemma io_bind_fst {L A B} (m : Py.io L A) (f : A -> Py.io L B) :
  (io_bind m f).1
  = match m.1 with
    | Ok a => (f a).1
    | Raise e => Raise e
    | Fuel => Fuel
    end.
Proof. destruct m as [[a|e|] out]; simpl; try done. by destruct (f a). Qed.

Lemma header_field (G : Globals) (section_offset section_len k : Z) :
  0 <= section_offset ->
  section_offset + section_len <= data_len (g_data G) ->
  0 <= k -> k + 4 <= section_len ->
  exists v, get_data (g_swab G) (g_data G) (section_offset + k) 4 = Ok v
            /\ 0 <= v.
Proof.
  intros Ho Hfit Hk Hk4. eexists. split.
  - apply get_data_span; lia.
  - destruct (get_data (g_swab G) (g_data G) (section_offset + k) 4) eqn:E.
    + rewrite get_data_span in E by lia. injection E as <-.
      eapply (get_data_nonneg (g_swab G) (g_data G) (section_offset + k) 4);
        [lia|]. apply get_data_span; lia.
    + rewrite get_data_span in E by lia. done.
    + rewrite get_data_span in E by lia. done.
Qed.

Section Section_.

Variable format_percent : string -> list Z -> string + exn.
Variable G : Globals.
Hypothesis Hcat : catalog_built (g_lwl_msg_set G).

Lemma pretty_print_outcome (fuel : nat) (section_offset section_len : Z) :
  0 <= section_offset ->
  section_offset + section_len <= data_len (g_data G) ->
  section_len < Z.of_nat fuel ->
  match (LwlPrinter_pretty_print format_percent G fuel section_offset
           section_len).1 with
  | Ok _ => True
  | Raise e =>
      e = IndexError \/ e = TypeError
      \/ exists b m args,
           get_metadata (g_lwl_msg_set G) b = Some m
           /\ format_percent (fmt m) args = inr e
  | Fuel => False
  end.
Proof using Hcat.
  intros Ho Hfit Hfuel. unfold LwlPrinter_pretty_print.
  rewrite !io_bind_fst. cbn [print fst].
  destruct (Z.ltb_spec section_len 20); [done|].
  destruct (header_field G section_offset section_len 8 Ho Hfit)
    as (buf_len & -> & Hb); [lia..|].
  rewrite io_bind_fst. cbn [lift fst].
  destruct (header_field G section_offset section_len 12 Ho Hfit)
    as (put_idx & -> & Hp); [lia..|].
  rewrite io_bind_fst. cbn [lift fst].
  destruct (Z.eqb_spec (buf_len + 16) section_len); cbn [negb]; [|done].
  destruct (Z.leb_spec buf_len put_idx); [done|].
  apply decode_buffer_outcome; try done; lia.
Qed.

Lemma fault_print_not_fuel (fs : list FaultField) (section_offset : Z) :
  (FaultData_print_fields G fs section_offset).1 <> Fuel.
Proof.
  induction fs as [|f fs IH]; [done|]. cbn [FaultData_print_fields].
  destruct (String.prefix "pad" (name f) || (name f =? "magic")%string
            || (name f =? "num_section_bytes")%string); [done|].
  rewrite io_bind_fst. cbn [lift fst].
  pose proof (get_data_not_fuel (g_swab G) (g_data G)
                (section_offset + offset f) (num_bytes f)) as Hnf.
  destruct (get_data (g_swab G) (g_data G) (section_offset + offset f)
              (num_bytes f)); try done.
  by rewrite io_bind_fst.
Qed.

Lemma process_section_not_fuel (fuel : nat) (idx : Z)
    (local_g_swab : option bool) :
  0 <= idx ->
  data_len (g_data G) - idx < Z.of_nat fuel ->
  (process_section format_percent G fuel idx local_g_swab).1 <> Fuel.
Proof using Hcat.
  intros Hi Hfuel. unfold process_section.
  destruct (Z.ltb_spec (data_len (g_data G)) (idx + 8)); [done|].
  rewrite io_bind_fst.
  assert (Hm : (check_magic G idx local_g_swab).1 <> Fuel).
  { unfold check_magic. rewrite io_bind_fst. cbn [lift fst].
    pose proof (get_data_not_fuel (g_swab G) (g_data G) idx 4) as Hnf.
    destruct (get_data (g_swab G) (g_data G) idx 4) as [magic| |]; try done.
    destruct (magic_to_fault_type magic); [done|].
    destruct local_g_swab; [|done]. rewrite io_bind_fst. cbn [lift fst].
    destruct (magic_to_fault_type magic); done. }
  destruct (check_magic G idx local_g_swab).1 as [[[ty l1]|]| |] eqn:Ec;
    try done.
  unfold dispatch_section. rewrite io_bind_fst. cbn [lift fst].
  pose proof (get_data_not_fuel (g_swab G) (g_data G) (idx + 4) 4) as Hnf.
  destruct (get_data (g_swab G) (g_data G) (idx + 4) 4) as [section_len| |];
    try done.
  destruct (Z.ltb_spec (data_len (g_data G)) (idx + section_len)) as [|Hfits];
    [done|].
  rewrite io_bind_fst. destruct ty.
  - unfold FaultData_pretty_print. rewrite !io_bind_fst. cbn [print fst].
    pose proof (fault_print_not_fuel (fields (g_fault_data G)) idx) as Hf.
    destruct (FaultData_print_fields G (fields (g_fault_data G)) idx).1
      as [[]| |]; done.
  - assert (Hlen : section_len < Z.of_nat fuel) by lia.
    pose proof (pretty_print_outcome fuel idx section_len Hi Hfits Hlen) as Hp.
    destruct (LwlPrinter_pretty_print format_percent G fuel idx section_len).1
      as [[]| |]; done.
  - done.
Qed.

(** The framing loop runs out of iterations only on a section that
    declares a length of 0. *)
Lemma process_loop_stalls (fuel : nat) : forall idx local_g_swab,
  0 <= idx ->
  data_len (g_data G) - idx < Z.of_nat fuel ->
  (process_loop format_percent G fuel idx local_g_swab).1 = Fuel ->
  exists idx' magic ty,
    0 <= idx' /\ idx' + 8 <= data_len (g_data G)
    /\ get_data (g_swab G) (g_data G) idx' 4 = Ok magic
    /\ magic_to_fault_type magic = Some ty
    /\ get_data (g_swab G) (g_data G) (idx' + 4) 4 = Ok 0.
Proof using Hcat.
  induction fuel as [|fuel IH]; intros idx l0 Hi Hfuel; cbn [process_loop].
  - destruct (Z.ltb_spec idx (data_len (g_data G))); [lia|done].
  - destruct (Z.ltb_spec idx (data_len (g_data G))); [|done].
    rewrite io_bind_fst.
    pose proof (process_section_not_fuel (S fuel) idx l0 Hi Hfuel) as Hnf.
    destruct (process_section format_percent G (S fuel) idx l0)
      as [[[b|idx' l1]| |] o] eqn:Es; cbn [fst] in *; try done.
    apply process_section_continue in Es
      as (magic & ty & len & H8 & Hm & Hty & Hlen & Hfit & ->).
    assert (Hi4 : 0 <= idx + 4) by lia.
    pose proof (get_data_nonneg _ _ _ _ _ Hi4 Hlen) as Hpos.
    destruct (Z.eq_dec len 0) as [->|Hne].
    + intros _. exists idx, magic, ty. done.
    + apply IH; lia.
Qed.

End Section_.

End SectionFacts.

Import ReaderFacts FaultFacts CatalogFacts FmtFacts StatementFacts FramingFacts SectionFacts.

(** Property X13 ([LwlPrinter.pretty_print], the header of the log
    section).  A log section of 20 bytes or more whose [buf_len] field is
    not its length less the 16 bytes of header is rejected with the
    invalid-[buf_len] line; one whose [buf_len] fits and whose [put_idx] is
    not below it is rejected with the invalid-[put_idx] line, which is
    printed with its [%d] left as it is.  Nothing of the buffer is decoded,
    [pretty_print] returns, and [process_data] goes on with the section at
    [idx + section_len]. *)
Theorem log_header_rejected
    (format_percent : string -> list Z -> string + exn) (G : Globals)
    (fuel : nat) (idx magic section_len buf_len put_idx : Z)
    (local_g_swab : option bool) :
  idx + 8 <= data_len (g_data G) ->
  get_data (g_swab G) (g_data G) idx 4 = Ok magic ->
  magic_to_fault_type magic = Some SECTION_TYPE_LWL ->
  get_data (g_swab G) (g_data G) (idx + 4) 4 = Ok section_len ->
  20 <= section_len ->
  idx + section_len <= data_len (g_data G) ->
  get_data (g_swab G) (g_data G) (idx + 8) 4 = Ok buf_len ->
  get_data (g_swab G) (g_data G) (idx + 12) 4 = Ok put_idx ->
  buf_len + 16 <> section_len \/ buf_len <= put_idx ->
  let rejection :=
    [PRule; PText "LWL"; PRule;
     if buf_len + 16 =? section_len then PErrLwlPutIdx
     else PErrLwlBufLen buf_len] in
  LwlPrinter_pretty_print format_percent G fuel idx section_len
  = (Ok tt, rejection)
  /\ process_section format_percent G fuel idx local_g_swab
     = (Ok (Continue (idx + section_len) local_g_swab), rejection).
Proof.
  intros Hhdr Hmagic Htype Hlen Hlong Hfits Hbuf Hput Hbad rejection.
  assert (Hpp : LwlPrinter_pretty_print format_percent G fuel idx section_len
                = (Ok tt, rejection)).
  { unfold LwlPrinter_pretty_print.
    destruct (Z.ltb_spec section_len 20); [lia|].
    rewrite Hbuf, Hput. cbn [lift io_bind]. subst rejection.
    destruct (Z.eqb_spec (buf_len + 16) section_len); cbn [negb]; [|done].
    destruct (Z.leb_spec buf_len put_idx); [done|lia]. }
  split; [exact Hpp|].
  unfold process_section, check_magic, dispatch_section.
  destruct (Z.ltb_spec (data_len (g_data G)) (idx + 8)); [lia|].
  rewrite Hmagic. cbn [lift io_bind]. rewrite Htype. cbn [io_ret io_bind].
  rewrite Hlen. cbn [lift io_bind].
  destruct (Z.ltb_spec (data_len (g_data G)) (idx + section_len)); [lia|].
  rewrite Hpp. done.
Qed.

(** The theorem above on a section of 20 bytes that declares a buffer of
    5. *)
Lemma log_header_rejected_witness :
  LwlPrinter_pretty_print format_d (globals_of (blob_header x05 x00)) 5 0 20
  = (Ok tt, [PRule; PText "LWL"; PRule; PErrLwlBufLen 5])
  /\ process_section format_d (globals_of (blob_header x05 x00)) 5 0 None
     = (Ok (Continue 20 None), [PRule; PText "LWL"; PRule; PErrLwlBufLen 5]).
Proof.
  apply (log_header_rejected format_d (globals_of (blob_header x05 x00)) 5 0
           MOD_MAGIC_LWL 20 5 0 None); evaluate.
Defined.

Module ResyncFacts.

Lemma count_invalid_unknown (cat : LwlMsgSet) (s : list Z) :
  (forall b, get_metadata cat b = None) ->
  count_invalid cat s 0 = Z.of_nat (length s).
Proof.
  intros Hnone. induction s as [|b s IH]; [done|].
  cbn [count_invalid length]. rewrite Hnone, IH. lia.
Qed.

End ResyncFacts.

Import ResyncFacts.

(** Property X14 ([LwlPrinter.pretty_print] and
    [LwlPrinter.get_optimal_start_idx] without a catalog).  When no source
    file declared a message, the only trial counts every byte of the
    buffer as an invalid id, which does not beat the initial bound
    [buf_len]: [get_optimal_start_idx] returns [None], and the decode of
    any log section with a valid header raises [TypeError] at its first
    read, behind the three header lines. *)
Theorem no_message_declared_type_error
    (format_percent : string -> list Z -> string + exn) (G : Globals)
    (fuel : nat) (section_offset section_len buf_len put_idx : Z) :
  g_lwl_msg_set G = LwlMsgSet_init ->
  0 <= section_offset ->
  section_offset + section_len <= data_len (g_data G) ->
  20 <= section_len ->
  get_data (g_swab G) (g_data G) (section_offset + 8) 4 = Ok buf_len ->
  get_data (g_swab G) (g_data G) (section_offset + 12) 4 = Ok put_idx ->
  buf_len + 16 = section_len ->
  put_idx < buf_len ->
  (Z.to_nat buf_len < fuel)%nat ->
  get_optimal_start_idx G fuel (section_offset + 16) buf_len put_idx = Ok None
  /\ LwlPrinter_pretty_print format_percent G fuel section_offset section_len
     = (Raise TypeError, [PRule; PText "LWL"; PRule]).
Proof.
  intros Hcat Ho Hfit Hlong Hbuf Hput Hlen Hlt Hfuel.
  assert (Hp : 0 <= put_idx).
  { eapply (get_data_nonneg _ _ (section_offset + 12)); [lia|exact Hput]. }
  assert (Hopt : get_optimal_start_idx G fuel (section_offset + 16) buf_len
                   put_idx = Ok None).
  { unfold get_optimal_start_idx. rewrite Hcat. cbn [max_msg_len LwlMsgSet_init].
    change (range (0 + 1)) with [0]. cbn [offsets_loop].
    destruct (run_trial_count G fuel (section_offset + 16) buf_len put_idx
                ltac:(lia) ltac:(lia) ltac:(lia) Hfuel 0 ltac:(lia) ltac:(lia))
      as (tr & -> & Hc).
    cbn [bind]. rewrite Hc. unfold trial_count.
    rewrite count_invalid_unknown.
    - rewrite length_stream. unfold remaining, trial_start_idx.
      rewrite Z.add_0_r. destruct (Z.leb_spec buf_len put_idx); [lia|].
      change (0 =? 0) with true. cbn [andb]. rewrite Z.eqb_refl.
      rewrite Z2Nat.id by lia. rewrite Z.ltb_irrefl. done.
    - intros b. rewrite Hcat. unfold get_metadata. simpl.
      apply lookup_empty. }
  split; [exact Hopt|].
  unfold LwlPrinter_pretty_print.
  destruct (Z.ltb_spec section_len 20); [lia|].
  rewrite Hbuf, Hput. cbn [lift io_bind print].
  destruct (Z.eqb_spec (buf_len + 16) section_len); [|lia]. cbn [negb].
  destruct (Z.leb_spec buf_len put_idx); [lia|].
  unfold decode_buffer. rewrite Hopt. done.
Qed.

(** The theorem above on a full buffer of four bytes. *)
Lemma no_message_declared_type_error_witness :
  get_optimal_start_idx (globals_without_messages blob_unknown) 5 16 4 0
  = Ok None
  /\ LwlPrinter_pretty_print format_d (globals_without_messages blob_unknown)
       5 0 20
     = (Raise TypeError, [PRule; PText "LWL"; PRule]).
Proof.
  apply (no_message_declared_type_error format_d
           (globals_without_messages blob_unknown) 5 0 20 4 0); evaluate.
Defined.

(** Property X15 ([LwlPrinter.pretty_print] on a well-formed section).
    On a log section with a valid header, a catalog built by
    [add_lwl_msg] that holds a message and a longest message [W] with
    [put_idx + W < 2 * buf_len], [pretty_print] prints the three header
    lines and then the streaming decode of the bytes from the chosen start
    index [(put_idx + t') mod buf_len] up to [put_idx]; the bytes from
    [put_idx] up to the start index are dropped.  It returns, or raises
    what the [%] operator raised on a format of the catalog, and nothing
    else: no [IndexError], [EOFError] or [TypeError] leaves it. *)
Theorem log_section_decoded
    (format_percent : string -> list Z -> string + exn) (G : Globals)
    (fuel : nat) (section_offset section_len buf_len put_idx : Z) :
  let W := max_msg_len (g_lwl_msg_set G) in
  catalog_built (g_lwl_msg_set G) ->
  1 <= W ->
  put_idx + W < 2 * buf_len ->
  0 <= section_offset ->
  section_offset + section_len <= data_len (g_data G) ->
  20 <= section_len ->
  get_data (g_swab G) (g_data G) (section_offset + 8) 4 = Ok buf_len ->
  get_data (g_swab G) (g_data G) (section_offset + 12) 4 = Ok put_idx ->
  buf_len + 16 = section_len ->
  put_idx < buf_len ->
  (Z.to_nat buf_len < fuel)%nat ->
  exists t',
    0 <= t' <= W
    /\ let start := (put_idx + t') mod buf_len in
       let s := stream (g_data G) (section_offset + 16) buf_len put_idx start
                  true in
       let run := finish (start =? put_idx) (length s)
                    (decode format_percent (g_lwl_msg_set G) (S (length s))
                       s []) in
       get_optimal_start_idx G fuel (section_offset + 16) buf_len put_idx
       = Ok (Some start)
       /\ LwlPrinter_pretty_print format_percent G fuel section_offset
            section_len
          = (run.1, [PRule; PText "LWL"; PRule] ++ run.2)
       /\ (run.1 = Ok tt
           \/ exists e b m args,
                run.1 = Raise e
                /\ get_metadata (g_lwl_msg_set G) b = Some m
                /\ format_percent (fmt m) args = inr e).
Proof.
  intros W Hcat HW Hlt Ho Hfit Hlong Hbuf Hput Hlen Hpb Hfuel.
  assert (Hp : 0 <= put_idx).
  { eapply (get_data_nonneg _ _ (section_offset + 12)); [lia|exact Hput]. }
  assert (Hstart : 0 <= section_offset + 16) by lia.
  assert (Hwin : section_offset + 16 + buf_len <= data_len (g_data G)) by lia.
  assert (Hpr : 0 <= put_idx < buf_len) by lia.
  set (c := trial_count G (section_offset + 16) buf_len put_idx).
  destruct (offsets_loop_first_min G fuel (section_offset + 16) buf_len put_idx
              c (Z.to_nat (W + 1)) 0 buf_len None)
    as [[_ Hall]|(t' & Ht' & Hr & _)].
  { intros t Ht. apply run_trial_count; try done; lia. }
  { exfalso. assert (H1 : (0 <= 1 < 0 + Z.to_nat (W + 1))%nat) by lia.
    specialize (Hall 1%nat H1).
    assert (H2 : put_idx + 1 < 2 * buf_len) by lia.
    pose proof (trial_count_later G (section_offset + 16) buf_len put_idx Hpr
                  1 (Z.le_refl 1) H2) as Hc.
    unfold c in Hall. change (Z.of_nat 1) with 1 in Hall. lia. }
  assert (Hlt' : put_idx + Z.of_nat t' < 2 * buf_len) by lia.
  destruct (trial_start_idx_mod buf_len put_idx (Z.of_nat t') Hpr
              (Nat2Z.is_nonneg t') Hlt') as [Hmod Hrange].
  rewrite Hmod in Hr, Hrange.
  exists (Z.of_nat t'). split; [lia|]. cbn zeta.
  set (start := (put_idx + Z.of_nat t') mod buf_len) in *.
  set (s := stream (g_data G) (section_offset + 16) buf_len put_idx start true).
  assert (Hopt : get_optimal_start_idx G fuel (section_offset + 16) buf_len
                   put_idx = Ok (Some start)).
  { unfold get_optimal_start_idx, range. fold W. exact Hr. }
  pose proof (stream_decode_spec format_percent G (section_offset + 16)
                buf_len put_idx Hstart Hwin Hpr Hcat fuel start true fuel
                Hrange) as Hrun.
  fold s in Hrun. cbn [andb] in Hrun.
  assert (Hs : (length s < fuel)%nat).
  { unfold s. rewrite length_stream.
    pose proof (remaining_le buf_len put_idx start true). lia. }
  specialize (Hrun Hs Hfuel).
  split; [exact Hopt|]. split.
  - unfold LwlPrinter_pretty_print.
    destruct (Z.ltb_spec section_len 20); [lia|].
    rewrite Hbuf, Hput. cbn [lift io_bind print].
    destruct (Z.eqb_spec (buf_len + 16) section_len); [|lia]. cbn [negb].
    destruct (Z.leb_spec buf_len put_idx); [lia|].
    unfold decode_buffer. rewrite Hopt. cbn [lift io_bind].
    change (letp st := stream_loop format_percent G fuel (section_offset + 16)
                         buf_len put_idx start true
            in print_unused G fuel (section_offset + 16) buf_len put_idx st)
      with (io_bind (stream_loop format_percent G fuel (section_offset + 16)
                       buf_len put_idx start true)
              (print_unused G fuel (section_offset + 16) buf_len put_idx)).
    rewrite Hrun.
    destruct (finish (start =? put_idx) (length s)
                (decode format_percent (g_lwl_msg_set G) (S (length s)) s []))
      as [r o]. done.
  - rewrite finish_fst.
    pose proof (decode_not_fuel format_percent (g_lwl_msg_set G)
                  (S (length s)) s [] (Nat.lt_succ_diag_r _)) as Hnf.
    pose proof (decode_raise format_percent (g_lwl_msg_set G)
                  (S (length s)) s []) as Hraise.
    destruct (decode format_percent (g_lwl_msg_set G) (S (length s)) s []).1
      as [x|e|]; [by left| |done].
    right. destruct (Hraise e eq_refl) as (b & m & args & Hm & Hf).
    by exists e, b, m, args.
Qed.

(** The theorem above on a 6-byte buffer that holds two whole messages. *)
Lemma log_section_decoded_witness :
  exists t',
    0 <= t' <= 5
    /\ let start := (0 + t') mod 6 in
       let s := stream (g_data (globals_of (blob_log x00))) 16 6 0 start true in
       let run := finish (start =? 0) (length s)
                    (decode format_d tick_val (S (length s)) s []) in
       get_optimal_start_idx (globals_of (blob_log x00)) 7 16 6 0
       = Ok (Some start)
       /\ LwlPrinter_pretty_print format_d (globals_of (blob_log x00)) 7 0 22
          = (run.1, [PRule; PText "LWL"; PRule] ++ run.2)
       /\ (run.1 = Ok tt
           \/ exists e b m args,
                run.1 = Raise e
                /\ get_metadata tick_val b = Some m
                /\ format_d (fmt m) args = inr e).
Proof.
  apply (log_section_decoded format_d (globals_of (blob_log x00)) 7 0 22 6 0);
    [apply tick_val_built|evaluate..].
Defined.

(** Property X16 ([Data.process_data], termination).  With a catalog built
    by [add_lwl_msg], the framing loop needs at most one pass per byte of
    the blob, and the loops of the printers it calls need no more, unless
    it comes to a section with a known magic and a declared length of 0:
    a run that has not ended after more passes than the blob has bytes
    stands on such a section. *)
Theorem framing_stalls_only_on_zero_length
    (format_percent : string -> list Z -> string + exn) (G : Globals)
    (fuel : nat) :
  catalog_built (g_lwl_msg_set G) ->
  data_len (g_data G) < Z.of_nat fuel ->
  (process_data format_percent G fuel).1 = Fuel ->
  exists idx magic ty,
    0 <= idx /\ idx + 8 <= data_len (g_data G)
    /\ get_data (g_swab G) (g_data G) idx 4 = Ok magic
    /\ magic_to_fault_type magic = Some ty
    /\ get_data (g_swab G) (g_data G) (idx + 4) 4 = Ok 0.
Proof.
  intros Hcat Hfuel. apply process_loop_stalls; [done|lia|lia].
Qed.

(** The theorem above on a log section that declares a length of 0. *)
Lemma framing_stalls_only_on_zero_length_witness :
  exists idx magic ty,
    0 <= idx /\ idx + 8 <= data_len (g_data (globals_of blob_zero_log))
    /\ get_data false (g_data (globals_of blob_zero_log)) idx 4 = Ok magic
    /\ magic_to_fault_type magic = Some ty
    /\ get_data false (g_data (globals_of blob_zero_log)) (idx + 4) 4 = Ok 0.
Proof.
  apply (framing_stalls_only_on_zero_length format_d (globals_of blob_zero_log)
           9); [apply tick_val_built|evaluate|reflexivity].
Defined.

(** * Further properties of lwl.py *)

Import Logfmt Linear Samples CircFacts Resync DecodeFacts FramerFacts.
Import Reference LogfmtRest MoreSamples.

Import ReaderFacts.
Import LwlReference.

(** ** lwl.py: the circular reader and the trials *)

Module LwlFacts.

Section Data.

Variable data : list byte.
Variable put_idx : Z.
Hypothesis Hput : 0 <= put_idx < Lwl.len data.

Local Abbreviation G :=
  {| g_swab := false; g_data := blob data;
     g_fault_data := {| fields := []; max_name_len := 0 |};
     g_lwl_msg_set := LwlMsgSet_init |}.
Local Abbreviation window_at := (window data put_idx).

Lemma lwl_getitem (idx : Z) :
  0 <= idx < Lwl.len data ->
  getitem data idx = Ok (blob_byte (blob data) (0 + idx)).
Proof. intros Hi. by rewrite getitem_in_range. Qed.

Lemma window_cons (idx : Z) (fg : bool) (b : Z) (rest : list Z) :
  0 <= idx < Lwl.len data ->
  window_at idx fg = b :: rest ->
  (idx =? put_idx) && negb fg = false
  /\ b = blob_byte (blob data) (0 + idx)
  /\ window_at (circ_next (Lwl.len data) idx) false = rest.
Proof using Hput.
  intros Hi E. exact (stream_cons G 0 (Lwl.len data) put_idx Hput idx fg b
                        rest Hi E).
Qed.

Lemma window_nil (idx : Z) (fg : bool) :
  0 <= idx < Lwl.len data ->
  window_at idx fg = [] -> (idx =? put_idx) && negb fg = true.
Proof using Hput.
  intros Hi E. exact (stream_nil G 0 (Lwl.len data) put_idx Hput idx fg Hi E).
Qed.

Lemma length_window (idx : Z) (fg : bool) :
  length (window_at idx fg) = remaining (Lwl.len data) put_idx idx fg.
Proof. apply length_circ_bytes. Qed.

Lemma get_data_bytes_1 (idx : Z) (fg : bool) :
  0 <= idx < Lwl.len data ->
  Lwl.get_data_bytes data idx 1 put_idx fg
  = match window_at idx fg with
    | [] => Raise EOFError
    | b :: _ => Ok (b, circ_next (Lwl.len data) idx)
    end.
Proof using Hput.
  intros Hi. unfold Lwl.get_data_bytes.
  destruct (Z.leb_spec (Lwl.len data) idx); [lia|].
  change (Z.to_nat 1) with 1%nat. cbn [Lwl.get_data_bytes_loop].
  destruct (window_at idx fg) as [|b rest] eqn:E.
  - by rewrite (window_nil _ _ Hi E).
  - destruct (window_cons _ _ _ _ Hi E) as (-> & -> & _).
    rewrite lwl_getitem by done. cbn [bind]. do 2 f_equal. lia.
Qed.

Lemma get_data_bytes_loop_ok (n : nat) : forall idx d factor,
  0 <= idx < Lwl.len data ->
  (n <= length (window_at idx false))%nat ->
  exists idx', 0 <= idx' < Lwl.len data
    /\ Lwl.get_data_bytes_loop data n idx d factor put_idx false
       = Ok (d + factor * little_endian (take n (window_at idx false)), idx')
    /\ window_at idx' false = drop n (window_at idx false).
Proof using Hput.
  induction n as [|n IH]; intros idx d factor Hi Hn.
  - exists idx. simpl. rewrite drop_0. split; [done|]. split; [|done].
    do 2 f_equal. lia.
  - destruct (window_at idx false) as [|b rest] eqn:E; [simpl in Hn; lia|].
    destruct (window_cons _ _ _ _ Hi E) as (Hc & Hb & Hrest).
    simpl in Hn.
    destruct (IH (circ_next (Lwl.len data) idx) (d + b * factor)
                (factor * 256) (circ_next_range _ _ Hi))
      as (idx' & Hi' & Hr & Hs).
    { rewrite Hrest. lia. }
    exists idx'. split; [done|]. cbn [Lwl.get_data_bytes_loop]. rewrite Hc.
    rewrite lwl_getitem by done. cbn [bind]. rewrite <- Hb.
    change (if Lwl.len data <=? idx + 1 then 0 else idx + 1)
      with (circ_next (Lwl.len data) idx).
    rewrite Hr, Hs, Hrest. split; [|done].
    cbn [take little_endian]. do 2 f_equal. lia.
Qed.

Lemma get_data_bytes_loop_eof (n : nat) : forall idx d factor,
  0 <= idx < Lwl.len data ->
  (length (window_at idx false) < n)%nat ->
  Lwl.get_data_bytes_loop data n idx d factor put_idx false = Raise EOFError.
Proof using Hput.
  induction n as [|n IH]; intros idx d factor Hi Hn; [lia|].
  cbn [Lwl.get_data_bytes_loop].
  destruct (window_at idx false) as [|b rest] eqn:E.
  - by rewrite (window_nil _ _ Hi E).
  - destruct (window_cons _ _ _ _ Hi E) as (Hc & Hb & Hrest).
    rewrite Hc, lwl_getitem by done. cbn [bind].
    change (if Lwl.len data <=? idx + 1 then 0 else idx + 1)
      with (circ_next (Lwl.len data) idx).
    apply IH; [by apply circ_next_range|]. rewrite Hrest. simpl in Hn. lia.
Qed.

Lemma get_data_bytes_loop_idx (fg : bool) (n : nat) :
  forall idx d factor r idx',
  0 <= idx < Lwl.len data ->
  Lwl.get_data_bytes_loop data n idx d factor put_idx fg = Ok (r, idx') ->
  idx' = (idx + Z.of_nat n) mod Lwl.len data.
Proof.
  induction n as [|n IH]; intros idx d factor r idx' Hi H.
  - simpl in H. injection H as _ <-. rewrite Z.add_0_r, Z.mod_small by lia. done.
  - cbn [Lwl.get_data_bytes_loop] in H.
    destruct ((idx =? put_idx) && negb fg); [done|].
    destruct (getitem data idx); cbn [bind] in H; try done.
    change (if Lwl.len data <=? idx + 1 then 0 else idx + 1)
      with (circ_next (Lwl.len data) idx) in H.
    apply IH in H; [|by apply circ_next_range].
    rewrite H, Nat2Z.inj_succ, circ_next_mod by done. f_equal. lia.
Qed.

End Data.

End LwlFacts.

Import LwlFacts.

(** Property X17 ([get_data_bytes] of lwl.py).  Once the first read of a
    walk is behind, a read of [num_bytes] bytes at [idx] returns the bytes
    at [idx], [idx + 1], ..., wrapping at [len(data)], composed least
    significant byte first, together with the index after them; it raises
    [EOFError] when fewer bytes remain before [start_idx].  This holds for
    every width and every position. *)
Theorem get_data_bytes_little_endian (data : list byte)
    (idx num_bytes start_idx : Z) :
  0 <= start_idx < Lwl.len data ->
  0 <= idx < Lwl.len data ->
  let n := Z.to_nat num_bytes in
  let bytes :=
    map (fun k => blob_byte (blob data) ((idx + Z.of_nat k) mod Lwl.len data))
      (seq 0 n) in
  ((n <= remaining (Lwl.len data) start_idx idx false)%nat ->
   Lwl.get_data_bytes data idx num_bytes start_idx false
   = Ok (little_endian bytes, (idx + Z.of_nat n) mod Lwl.len data))
  /\ ((remaining (Lwl.len data) start_idx idx false < n)%nat ->
      Lwl.get_data_bytes data idx num_bytes start_idx false = Raise EOFError).
Proof.
  intros Hput Hi n bytes. unfold Lwl.get_data_bytes.
  destruct (Z.leb_spec (Lwl.len data) idx); [lia|].
  fold n. split; intros Hn.
  - destruct (get_data_bytes_loop_ok data start_idx Hput n idx 0 1 Hi)
      as (idx' & Hi' & Hr & Hs).
    { by rewrite length_window. }
    rewrite Hr. f_equal. f_equal.
    + rewrite Z.add_0_l, Z.mul_1_l. f_equal. unfold bytes, window, stream.
      rewrite circ_bytes_positions by done.
      rewrite firstn_map, take_seq. 
      replace (n `min` remaining (Lwl.len data) start_idx idx false)%nat
        with n by lia. done.
    + eapply get_data_bytes_loop_idx; [exact Hi|exact Hr].
  - apply get_data_bytes_loop_eof; try done. by rewrite length_window.
Qed.

(** The theorem above on three bytes, read from the start. *)
Lemma get_data_bytes_little_endian_witness :
  Lwl.get_data_bytes [x12; x34; x00] 0 2 2 false
  = Ok (little_endian [0x12; 0x34], 2).
Proof.
  destruct (get_data_bytes_little_endian [x12; x34; x00] 0 2 2) as [H _];
    [unfold Lwl.len; simpl; lia..|].
  apply H. evaluate.
Defined.

Import ReaderFacts.
Import LwlReference LwlFacts.

Module LwlTrialFacts.

Lemma count_invalid_fuel (cat : Lwl.LwlMsgSet) (f : nat) : forall f' s,
  (length s <= f)%nat -> (length s <= f')%nat ->
  count_invalid cat f s = count_invalid cat f' s.
Proof.
  induction f as [|f IH]; intros f' s Hf Hf'.
  - destruct s; [|simpl in Hf; lia]. by destruct f'.
  - destruct s as [|b s]; [by destruct f'|].
    destruct f' as [|f']; [simpl in Hf'; lia|]. simpl in Hf, Hf'.
    cbn [count_invalid]. destruct (Lwl.get_metadata cat b) as [m|].
    + destruct (length s <? Z.to_nat (Lwl.num_arg_bytes m))%nat.
      * apply IH; lia.
      * apply IH; rewrite length_drop; lia.
    + f_equal. apply IH; lia.
Qed.

Lemma lwl_count_invalid_bounds (cat : Lwl.LwlMsgSet) (f : nat) : forall s,
  0 <= count_invalid cat f s <= Z.of_nat (length s).
Proof.
  induction f as [|f IH]; intros s; [simpl; lia|].
  destruct s as [|b s]; [simpl; lia|]. cbn [count_invalid length].
  destruct (Lwl.get_metadata cat b) as [m|].
  - destruct (length s <? Z.to_nat (Lwl.num_arg_bytes m))%nat.
    + specialize (IH s). lia.
    + specialize (IH (drop (Z.to_nat (Lwl.num_arg_bytes m)) s)).
      rewrite length_drop in IH. lia.
  - specialize (IH s). lia.
Qed.

Section Data.

Variable cat : Lwl.LwlMsgSet.
Variable data : list byte.
Variable put_idx : Z.
Hypothesis Hput : 0 <= put_idx < Lwl.len data.

Local Abbreviation window_at := (window data put_idx).

(** Each trial counts the unknown ids of its walk. *)
Lemma lwl_trial_loop_count (fuel : nat) : forall idx fg ctr,
  0 <= idx < Lwl.len data ->
  (length (window_at idx fg) < fuel)%nat ->
  Lwl.trial_loop cat fuel data put_idx idx fg ctr
  = Ok (ctr + count_invalid cat (length (window_at idx fg))
                (window_at idx fg)).
Proof using Hput.
  induction fuel as [|fuel IH]; intros idx fg ctr Hi Hf; [lia|].
  cbn [Lwl.trial_loop]. rewrite get_data_bytes_1 by done.
  destruct (window_at idx fg) as [|b rest] eqn:E.
  - simpl. f_equal. lia.
  - destruct (window_cons data put_idx Hput _ _ _ _ Hi E) as (Hc & Hb & Hrest).
    pose proof (circ_next_range _ _ Hi) as Hi1.
    simpl in Hf. cbn [length count_invalid].
    destruct (Lwl.get_metadata cat b) as [m|] eqn:Em.
    + unfold Lwl.get_data_bytes.
      destruct (Z.leb_spec (Lwl.len data) (circ_next (Lwl.len data) idx));
        [lia|].
      destruct (Nat.ltb_spec (length rest) (Z.to_nat (Lwl.num_arg_bytes m)))
        as [Hshort|Hlong].
      * rewrite get_data_bytes_loop_eof by (try done; rewrite Hrest; lia).
        rewrite IH by (try done; rewrite Hrest; lia). by rewrite Hrest.
      * destruct (get_data_bytes_loop_ok data put_idx Hput
                    (Z.to_nat (Lwl.num_arg_bytes m))
                    (circ_next (Lwl.len data) idx) 0 1 Hi1)
          as (idx' & Hi' & Hr & Hs).
        { rewrite Hrest. lia. }
        rewrite Hr. rewrite Hrest in Hs.
        rewrite IH by (try done; rewrite Hs, length_drop; lia).
        rewrite Hs. do 2 f_equal. apply count_invalid_fuel.
        -- done.
        -- rewrite length_drop. lia.
    + rewrite IH by (try done; rewrite Hrest; lia). rewrite Hrest.
      f_equal. lia.
Qed.

Variable fuel : nat.
Hypothesis Hfuel : (length data < fuel)%nat.

Lemma lwl_run_trial_count (t : Z) :
  0 <= t -> put_idx + t < 2 * Lwl.len data ->
  Lwl.trial_start_idx data put_idx t = (put_idx + t) mod Lwl.len data
  /\ Lwl.run_trial cat fuel data put_idx t
     = Ok (trial_count cat data put_idx t).
Proof using Hput Hfuel.
  intros Ht Hlt.
  destruct (trial_start_idx_mod (Lwl.len data) put_idx t Hput Ht Hlt)
    as [Hmod Hr].
  change (trial_start_idx (Lwl.len data) put_idx t)
    with (Lwl.trial_start_idx data put_idx t) in Hmod, Hr.
  split; [exact Hmod|]. unfold Lwl.run_trial, trial_count.
  rewrite lwl_trial_loop_count; [by rewrite Z.add_0_l|done|].
  rewrite length_window.
  pose proof (remaining_le (Lwl.len data) put_idx
                (Lwl.trial_start_idx data put_idx t) true).
  unfold Lwl.len in *. lia.
Qed.

(** The selection loop keeps the first trial that beats every earlier
    one. *)
Lemma lwl_offsets_loop_first_min (c : Z -> Z) (n : nat) : forall a best cur,
  (forall t, (a <= t < a + n)%nat ->
     Lwl.run_trial cat fuel data put_idx (Z.of_nat t) = Ok (c (Z.of_nat t))) ->
  (Lwl.offsets_loop cat fuel data put_idx (map Z.of_nat (seq a n)) best cur
   = Ok cur
   /\ forall t, (a <= t < a + n)%nat -> best <= c (Z.of_nat t))
  \/ exists t', (a <= t' < a + n)%nat
       /\ Lwl.offsets_loop cat fuel data put_idx (map Z.of_nat (seq a n))
            best cur
          = Ok (Some (Lwl.trial_start_idx data put_idx (Z.of_nat t')))
       /\ c (Z.of_nat t') < best
       /\ (forall t, (a <= t < t')%nat -> c (Z.of_nat t') < c (Z.of_nat t))
       /\ (forall t, (t' <= t < a + n)%nat -> c (Z.of_nat t') <= c (Z.of_nat t)).
Proof using Type.
  clear Hput Hfuel. induction n as [|n IH]; intros a best cur Hok.
  - left. split; [done|]. intros; lia.
  - cbn [seq map Lwl.offsets_loop].
    rewrite (Hok a ltac:(lia)). cbn [bind].
    assert (Hok' : forall t, (S a <= t < S a + n)%nat ->
              Lwl.run_trial cat fuel data put_idx (Z.of_nat t)
              = Ok (c (Z.of_nat t))).
    { intros t Ht. apply Hok. lia. }
    destruct (Z.ltb_spec (c (Z.of_nat a)) best) as [Hlt|Hge].
    + destruct (IH (S a) (c (Z.of_nat a))
                  (Some (Lwl.trial_start_idx data put_idx (Z.of_nat a))) Hok')
        as [[Hr Hall]|(t' & Ht' & Hr & Hbest & Hpre & Hpost)].
      * right. exists a. split; [lia|]. split; [done|]. split; [done|].
        split; [intros; lia|]. intros t Ht.
        destruct (decide (t = a)) as [->|]; [lia|]. apply Hall. lia.
      * right. exists t'. split; [lia|]. split; [done|]. split; [lia|].
        split; intros t Ht.
        -- destruct (decide (t = a)) as [->|]; [lia|]. apply Hpre. lia.
        -- apply Hpost. lia.
    + destruct (IH (S a) best cur Hok')
        as [[Hr Hall]|(t' & Ht' & Hr & Hbest & Hpre & Hpost)].
      * left. split; [done|]. intros t Ht.
        destruct (decide (t = a)) as [->|]; [lia|]. apply Hall. lia.
      * right. exists t'. split; [lia|]. split; [done|]. split; [lia|].
        split; intros t Ht.
        -- destruct (decide (t = a)) as [->|]; [lia|]. apply Hpre. lia.
        -- apply Hpost. lia.
Qed.

End Data.

End LwlTrialFacts.

Import LwlTrialFacts.

(** Property X18 ([get_optimal_start_idx] of lwl.py).  With
    [W = max_msg_len] and [put_idx + W <= 2 * len(data)], there is one
    trial for each offset [t] in [[0, W - 1]]; it starts at
    [(put_idx + t) mod len(data)], is allowed its first read on [put_idx],
    and counts the unknown ids of a walk that, after a known id whose
    argument bytes run out, goes on with the byte after the id.  The
    function returns the start index of the first trial whose count is
    minimal, provided that count is below [len(data)]; when no trial
    counts fewer than [len(data)] invalid ids, as when [W = 0] or when the
    only trial finds no known id, it returns [None]. *)
Theorem lwl_resync_first_minimum (cat : Lwl.LwlMsgSet) (fuel : nat)
    (data : list byte) (put_idx : Z) :
  let W := Lwl.max_msg_len cat in
  let c := trial_count cat data put_idx in
  0 <= put_idx < Lwl.len data ->
  put_idx + W <= 2 * Lwl.len data ->
  (length data < fuel)%nat ->
  (forall t, 0 <= t < W ->
     Lwl.trial_start_idx data put_idx t = (put_idx + t) mod Lwl.len data
     /\ Lwl.run_trial cat fuel data put_idx t = Ok (c t))
  /\ ((forall t, 0 <= t < W -> Lwl.len data <= c t)
      /\ Lwl.get_optimal_start_idx cat fuel data put_idx = Ok None
      \/ exists t',
           0 <= t' < W
           /\ Lwl.get_optimal_start_idx cat fuel data put_idx
              = Ok (Some ((put_idx + t') mod Lwl.len data))
           /\ c t' < Lwl.len data
           /\ (forall t, 0 <= t < W -> c t' <= c t)
           /\ (forall t, 0 <= t < t' -> c t' < c t)).
Proof.
  intros W c Hput HW Hfuel.
  assert (Hok : forall t, 0 <= t < W ->
            Lwl.trial_start_idx data put_idx t
            = (put_idx + t) mod Lwl.len data
            /\ Lwl.run_trial cat fuel data put_idx t = Ok (c t)).
  { intros t Ht. apply lwl_run_trial_count; try done; lia. }
  split; [exact Hok|].
  destruct (lwl_offsets_loop_first_min cat data put_idx fuel c (Z.to_nat W) 0
              (Lwl.len data) None)
    as [[Hr Hall]|(t' & Ht' & Hr & Hbest & Hpre & Hpost)].
  { intros t Ht. apply Hok. lia. }
  - left. split; [|exact Hr]. intros t Ht.
    specialize (Hall (Z.to_nat t) ltac:(lia)).
    rewrite Z2Nat.id in Hall by lia. done.
  - right. exists (Z.of_nat t'). split; [lia|]. split; [|split; [done|split]].
    + unfold Lwl.get_optimal_start_idx, range. fold W. rewrite Hr.
      do 2 f_equal. apply Hok. lia.
    + intros t Ht. destruct (Z.lt_ge_cases t (Z.of_nat t')).
      * specialize (Hpre (Z.to_nat t) ltac:(lia)).
        rewrite Z2Nat.id in Hpre by lia. lia.
      * specialize (Hpost (Z.to_nat t) ltac:(lia)).
        rewrite Z2Nat.id in Hpost by lia. lia.
    + intros t Ht. specialize (Hpre (Z.to_nat t) ltac:(lia)).
      rewrite Z2Nat.id in Hpre by lia. lia.
Qed.

(** The theorem above on two bytes, the second the id of the only
    message: the one trial counts the first byte, and its start index is
    returned. *)
Lemma lwl_resync_first_minimum_witness :
  Lwl.run_trial lwl_tick 3 [xff; x01] 0 0
  = Ok (trial_count lwl_tick [xff; x01] 0 0)
  /\ trial_count lwl_tick [xff; x01] 0 0 = 1
  /\ Lwl.get_optimal_start_idx lwl_tick 3 [xff; x01] 0 = Ok (Some 0).
Proof.
  destruct (lwl_resync_first_minimum lwl_tick 3 [xff; x01] 0) as [Hok _];
    [unfold Lwl.len; simpl; lia..|].
  split; [apply Hok; simpl; lia|]. split; reflexivity.
Defined.

Import ReaderFacts.
Import LwlReference LwlFacts LwlTrialFacts.

(** ** lwl.py: the streaming decode *)

Module LwlDecodeFacts.

Lemma lwl_sum_int_chars_cons c s acc n :
  Lwl.sum_int_chars (String c s) acc = Ok n ->
  exists v, int_of_char c = Ok v /\ Lwl.sum_int_chars s (acc + v) = Ok n.
Proof.
  simpl. destruct (int_of_char c) as [v| |]; simpl; try done. eauto.
Qed.

Lemma lwl_take_args_length ws : forall s arg_values rest,
  take_args ws s = Some (arg_values, rest) ->
  length rest = (length s - sum_list ws)%nat /\ (sum_list ws <= length s)%nat
  /\ length arg_values = length ws.
Proof.
  induction ws as [|w ws IH]; intros s args rest H; simpl in *.
  - injection H as <- <-. simpl. lia.
  - destruct (Nat.ltb_spec (length s) w); [done|].
    destruct (take_args ws (drop w s)) as [[a r]|] eqn:E; [|done].
    injection H as <- <-. apply IH in E. rewrite length_drop in E. simpl. lia.
Qed.

Section Decode.

Variable format_percent : string -> list Z -> string + exn.
Variable cat : Lwl.LwlMsgSet.

Lemma lwl_decode_fuel f : forall f' s pending,
  (length s < f)%nat -> (length s < f')%nat ->
  decode format_percent cat f s pending = decode format_percent cat f' s pending.
Proof.
  induction f as [|f IH]; intros f' s pending Hf Hf'; [lia|].
  destruct f' as [|f']; [lia|]. simpl.
  destruct s as [|b rest]; [done|]. simpl in Hf, Hf'.
  destruct (Lwl.get_metadata cat b) as [m|].
  - destruct (take_args (widths_of (Lwl.arg_bytes m)) rest)
      as [[args rest']|] eqn:E; [|done].
    apply lwl_take_args_length in E as (E & _ & _).
    rewrite (IH f' rest' false) by lia. done.
  - apply IH; lia.
Qed.

Lemma lwl_decode_partial_length f : forall s pending bytes out,
  decode format_percent cat f s pending = (Ok (EndPartial bytes), out) ->
  (0 < length bytes <= length s)%nat.
Proof.
  induction f as [|f IH]; intros s pending bytes out H; [done|].
  simpl in H. destruct s as [|b rest]; [by destruct pending|].
  destruct (Lwl.get_metadata cat b) as [m|].
  - destruct (take_args (widths_of (Lwl.arg_bytes m)) rest)
      as [[args rest']|] eqn:E.
    + apply lwl_take_args_length in E as (E & _ & _).
      destruct (format_percent (Lwl.fmt m) args); simpl in H; try done.
      destruct (decode format_percent cat f rest' false) as [[[]| |] o] eqn:Ed;
        simpl in H; try done. injection H as <- _.
      apply IH in Ed. simpl. lia.
    + injection H as <- _. simpl. lia.
  - apply IH in H. simpl. lia.
Qed.

Lemma lwl_decode_unknown unk : forall s pending f,
  unk <> [] ->
  Forall (fun b => Lwl.get_metadata cat b = None) unk ->
  decode format_percent cat (length unk + f) (unk ++ s) pending
  = decode format_percent cat f s true.
Proof.
  induction unk as [|a unk IH]; intros s pending f Hne Hall; [done|].
  inversion Hall as [|? ? Ha Hall']; subst. simpl. rewrite Ha.
  destruct unk as [|a' unk]; [done|]. by apply IH.
Qed.

Lemma lwl_decode_not_fuel f : forall s pending,
  (length s < f)%nat -> (decode format_percent cat f s pending).1 <> Fuel.
Proof.
  induction f as [|f IH]; intros s pending Hf; [lia|].
  cbn [decode]. destruct s as [|b rest]; [by destruct pending|]. simpl in Hf.
  destruct (Lwl.get_metadata cat b) as [m|]; [|apply IH; lia].
  destruct (take_args (widths_of (Lwl.arg_bytes m)) rest)
    as [[args rest']|] eqn:E; [|done].
  apply lwl_take_args_length in E as (E & _ & _).
  specialize (IH rest' false ltac:(lia)).
  destruct (format_percent (Lwl.fmt m) args) as [line|e]; [|cbn; congruence].
  destruct (decode format_percent cat f rest' false) as [[| |] o];
    cbn in *; congruence.
Qed.

Lemma lwl_decode_raise f : forall s pending e,
  (decode format_percent cat f s pending).1 = Raise e ->
  exists b m args,
    Lwl.get_metadata cat b = Some m
    /\ format_percent (Lwl.fmt m) args = inr e.
Proof.
  induction f as [|f IH]; intros s pending e H; [done|].
  cbn [decode] in H. destruct s as [|b rest]; [by destruct pending|].
  destruct (Lwl.get_metadata cat b) as [m|] eqn:Em; [|by eapply IH].
  destruct (take_args (widths_of (Lwl.arg_bytes m)) rest)
    as [[args rest']|] eqn:E; [|done].
  destruct (format_percent (Lwl.fmt m) args) as [line|e'] eqn:Ef.
  - apply (IH rest' false e).
    destruct (decode format_percent cat f rest' false) as [r o].
    cbn in H. by destruct r.
  - exists b, m, args. split; [done|]. rewrite Ef. cbn in H. congruence.
Qed.

(** No line of the decode is anything but a message. *)
Lemma decode_lines f : forall s pending,
  Forall (fun l => exists line, l = Lwl.PMsg line)
    (decode format_percent cat f s pending).2.
Proof.
  induction f as [|f IH]; intros s pending; [by constructor|].
  cbn [decode]. destruct s as [|b rest]; [by constructor|].
  destruct (Lwl.get_metadata cat b) as [m|]; [|apply IH].
  destruct (take_args (widths_of (Lwl.arg_bytes m)) rest)
    as [[args rest']|]; [|by constructor].
  destruct (format_percent (Lwl.fmt m) args) as [line|e]; [|by constructor].
  specialize (IH rest' false).
  destruct (decode format_percent cat f rest' false) as [r o]. cbn in *.
  destruct r; cbn; constructor; eauto.
Qed.

End Decode.

Lemma lwl_finish_fst at_put whole (r : Lwl.io ending) :
  (finish at_put whole r).1
  = match r.1 with Ok _ => Ok tt | Raise e => Raise e | Fuel => Fuel end.
Proof. destruct r as [[[| |]| |] out]; done. Qed.

Section Window.

Variable format_percent : string -> list Z -> string + exn.
Variable cat : Lwl.LwlMsgSet.
Variable data : list byte.
Variable put_idx : Z.
Hypothesis Hput : 0 <= put_idx < Lwl.len data.

Local Abbreviation window_at := (window data put_idx).
Local Abbreviation unknown := (fun b : Z => Lwl.get_metadata cat b = None).

Lemma window_put_false : window_at put_idx false = [].
Proof using Hput.
  unfold window, stream, remaining. simpl.
  rewrite Z.sub_diag, Z.mod_0_l by lia. done.
Qed.

Lemma window_first_get idx :
  window_at idx false = if idx =? put_idx then [] else window_at idx true.
Proof using Hput.
  destruct (Z.eqb_spec idx put_idx) as [->|Hne]; [apply window_put_false|].
  unfold window, stream, remaining. simpl.
  destruct (Z.eqb_spec idx put_idx); done.
Qed.

Lemma lwl_read_args_spec widths : forall idx acc a0 n0,
  Lwl.sum_int_chars widths a0 = Ok n0 ->
  0 <= idx < Lwl.len data ->
  match take_args (widths_of widths) (window_at idx false) with
  | Some (arg_values, rest) =>
      exists idx', 0 <= idx' < Lwl.len data
        /\ Lwl.read_args data put_idx widths idx false acc
           = Ok (acc ++ arg_values, idx')
        /\ window_at idx' false = rest
  | None =>
      Lwl.read_args data put_idx widths idx false acc = Raise EOFError
  end.
Proof using Hput.
  induction widths as [|c widths IH]; intros idx acc a0 n0 Hsum Hi.
  - simpl. exists idx. by rewrite app_nil_r.
  - apply lwl_sum_int_chars_cons in Hsum as (v & Hv & Hsum).
    cbn [widths_of take_args Lwl.read_args]. rewrite Hv. cbn [bind].
    apply int_of_char_ok in Hv as [Hv _].
    unfold Lwl.get_data_bytes.
    destruct (Z.leb_spec (Lwl.len data) idx); [lia|].
    replace (Z.to_nat v) with (nat_of_ascii c - 48)%nat by lia.
    set (w := (nat_of_ascii c - 48)%nat).
    destruct (Nat.ltb_spec (length (window_at idx false)) w) as [Hlt|Hge].
    + rewrite (get_data_bytes_loop_eof data put_idx Hput w idx 0 1 Hi Hlt).
      done.
    + destruct (get_data_bytes_loop_ok data put_idx Hput w idx 0 1 Hi Hge)
        as (idx1 & Hi1 & Hr & Hs).
      rewrite Hr. cbn [bind].
      specialize (IH idx1
                    (acc ++ [0 + 1 * little_endian (take w (window_at idx false))])
                    _ _ Hsum Hi1).
      rewrite Hs in IH.
      destruct (take_args (widths_of widths) (drop w (window_at idx false)))
        as [[args rest]|].
      * destruct IH as (idx' & Hi' & Hr' & Hs'). exists idx'.
        split; [done|]. split; [|done].
        rewrite Hr'. rewrite <- app_assoc. do 3 f_equal. cbn [app]. f_equal. lia.
      * exact IH.
Qed.

Lemma lwl_unused_loop_spec fuel : forall idx acc,
  0 <= idx < Lwl.len data ->
  (length (window_at idx false) < fuel)%nat ->
  Lwl.unused_loop fuel data put_idx idx false acc
  = Ok (acc ++ window_at idx false).
Proof using Hput.
  induction fuel as [|fuel IH]; intros idx acc Hi Hf; [lia|].
  cbn [Lwl.unused_loop]. rewrite get_data_bytes_1 by done.
  destruct (window_at idx false) as [|b rest] eqn:E.
  - by rewrite app_nil_r.
  - destruct (window_cons data put_idx Hput _ _ _ _ Hi E) as (_ & _ & Hrest).
    rewrite IH; [|by apply circ_next_range|rewrite Hrest; simpl in Hf; lia].
    rewrite Hrest, <- app_assoc. done.
Qed.

(** The search for an id either runs out of bytes, all of them unknown, or
    stops on the first known byte. *)
Lemma lwl_find_id_spec fuel : forall idx fg id skipped,
  0 <= idx < Lwl.len data ->
  (length (window_at idx fg) < fuel)%nat ->
  (Forall unknown (window_at idx fg)
   /\ Lwl.find_id cat fuel data put_idx idx fg id skipped
      = Ok (Lwl.IdEof {| Lwl.eof_id := fold_left (fun _ b => Some b)
                                         (window_at idx fg) id;
                         Lwl.eof_id_idx := Some put_idx;
                         Lwl.eof_first_get := false |}))
  \/ exists unk b rest m id_idx idx',
       window_at idx fg = unk ++ b :: rest
       /\ Forall unknown unk
       /\ Lwl.get_metadata cat b = Some m
       /\ Lwl.find_id cat fuel data put_idx idx fg id skipped
          = Ok (Lwl.IdFound b id_idx m idx' (skipped ++ unk))
       /\ 0 <= idx' < Lwl.len data
       /\ window_at idx' false = rest
       /\ 0 <= id_idx < Lwl.len data
       /\ window_at id_idx false
          = if fg && (idx =? put_idx) && bool_decide (unk = []) then []
            else b :: rest.
Proof using Hput.
  induction fuel as [|fuel IH]; intros idx fg id skipped Hi Hf; [lia|].
  cbn [Lwl.find_id]. rewrite get_data_bytes_1 by done.
  destruct (window_at idx fg) as [|b rest] eqn:E.
  - left. split; [done|]. simpl.
    pose proof (window_nil data put_idx Hput _ _ Hi E) as H.
    apply andb_true_iff in H as [H1 H2]. apply Z.eqb_eq in H1.
    destruct fg; [done|]. by subst.
  - destruct (window_cons data put_idx Hput _ _ _ _ Hi E) as (Hc & Hb & Hrest).
    pose proof (circ_next_range _ _ Hi) as Hi1.
    destruct (Lwl.get_metadata cat b) as [m|] eqn:Em.
    + right. exists [], b, rest, m, idx, (circ_next (Lwl.len data) idx).
      rewrite app_nil_r. repeat split; try done; try lia.
      rewrite window_first_get. rewrite bool_decide_eq_true_2 by done.
      rewrite andb_true_r.
      destruct (Z.eqb_spec idx put_idx) as [->|Hne].
      * destruct fg; [done|]. rewrite ?Z.eqb_refl in Hc. by simpl in Hc.
      * rewrite andb_false_r. destruct fg; [done|].
        rewrite window_first_get in E.
        destruct (Z.eqb_spec idx put_idx); [done|]. done.
    + destruct (IH (circ_next (Lwl.len data) idx) false (Some b)
                  (skipped ++ [b]) Hi1)
        as [[Hall Hr]|(unk & b' & rest' & m & id_idx & idx' & Hs & Hall & Hm
                       & Hr & Hi' & Hs' & Hid & Hsid)].
      { rewrite Hrest. simpl in Hf. lia. }
      * left. rewrite Hrest in Hall, Hr. split; [by constructor|].
        cbn [fold_left]. done.
      * right. exists (b :: unk), b', rest', m, id_idx, idx'.
        rewrite Hrest in Hs. rewrite Hs.
        repeat split; try done; try lia.
        -- by constructor.
        -- rewrite Hr. by rewrite <- app_assoc.
        -- cbn [andb] in Hsid. rewrite Hsid.
           rewrite bool_decide_eq_false_2 by discriminate.
           by rewrite andb_false_r.
Qed.

End Window.

Section Main.

Variable format_percent : string -> list Z -> string + exn.
Variable cat : Lwl.LwlMsgSet.
Variable data : list byte.
Variable put_idx : Z.
Hypothesis Hput : 0 <= put_idx < Lwl.len data.
Hypothesis Hcat : catalog_built cat.

Local Abbreviation window_at := (window data put_idx).

(** The statements of [print_data] behind its [try] block. *)
Local Abbreviation after f2 :=
  (fun st : Lwl.at_eof =>
     match Lwl.eof_id st with
     | None => io_ret tt
     | Some _ =>
         match Lwl.eof_id_idx st with
         | None => lift (Raise TypeError)
         | Some idx =>
             letp unused_data :=
               lift (Lwl.unused_loop f2 data put_idx idx
                       (Lwl.eof_first_get st) []) in
             print (Lwl.PUnused unused_data)
         end
     end).

Lemma decode_all_unknown_fuel s : forall pending f,
  (length s < f)%nat ->
  Forall (fun b => Lwl.get_metadata cat b = None) s ->
  decode format_percent cat f s pending
  = (Ok (if pending || negb (bool_decide (s = [])) then EndPending
         else EndClean), []).
Proof.
  induction s as [|b s IH]; intros pending f Hf Hall.
  - destruct f; [simpl in Hf; lia|]. simpl. by destruct pending.
  - inversion Hall as [|? ? Hb Hall']; subst.
    destruct f as [|f]; [lia|]. simpl in Hf. cbn [decode].
    rewrite Hb, IH by (done || lia). cbn [orb]. by rewrite orb_true_r.
Qed.

Lemma lwl_decode_all_unknown s pending :
  Forall (fun b => Lwl.get_metadata cat b = None) s ->
  decode format_percent cat (S (length s)) s pending
  = (Ok (if pending || negb (bool_decide (s = [])) then EndPending
         else EndClean), []).
Proof. apply decode_all_unknown_fuel. lia. Qed.

Lemma decode_skip unk : forall b rest m f pending,
  Forall (fun b => Lwl.get_metadata cat b = None) unk ->
  Lwl.get_metadata cat b = Some m ->
  decode format_percent cat (length unk + S f) (unk ++ b :: rest) pending
  = decode format_percent cat (S f) (b :: rest) false.
Proof.
  induction unk as [|a unk IH]; intros b rest m f pending Hall Hm.
  - cbn [length app Nat.add decode]. by rewrite Hm.
  - inversion Hall as [|? ? Ha Hall']; subst.
    cbn [length app Nat.add decode]. rewrite Ha. by eapply IH.
Qed.

Lemma lwl_stream_decode_spec f2 f1 : forall idx fg,
  (length data < f2)%nat ->
  0 <= idx < Lwl.len data ->
  (length (window_at idx fg) < f1)%nat ->
  io_bind (Lwl.stream_loop format_percent cat f1 data put_idx idx fg)
    (after f2)
  = finish (fg && (idx =? put_idx)) (length (window_at idx fg))
      (decode format_percent cat (S (length (window_at idx fg)))
         (window_at idx fg) false).
Proof using Hput Hcat.
  match goal with |- context [io_bind _ ?f] => set (k := f) end.
  induction f1 as [|f1 IH]; intros idx fg Hf2 Hi Hf1; [lia|].
  cbn [Lwl.stream_loop].
  destruct (lwl_find_id_spec cat data put_idx Hput (S f1) idx fg None [] Hi Hf1)
    as [[Hall Hr]|(unk & b & rest & m & id_idx & idx' & Hs & Hall & Hm
                   & Hr & Hi' & Hs' & Hid & Hsid)].
  - rewrite Hr; clear Hr. rewrite lwl_decode_all_unknown by done.
    subst k. cbn [lift io_bind io_ret app orb].
    cbn [Lwl.eof_id Lwl.eof_id_idx Lwl.eof_first_get].
    destruct (window_at idx fg) as [|b rest]; [done|].
    cbn [fold_left].
    destruct (fold_left_last_some rest b) as [y ->].
    rewrite lwl_unused_loop_spec; try done;
      [|rewrite window_put_false by done; simpl; lia].
    rewrite window_put_false by done. done.
  - rewrite Hr; clear Hr. rewrite Hs. rewrite io_bind_lift_ok. cbn [app].
    remember (S (length rest)) as fr eqn:Hfr.
    replace (S (length (unk ++ b :: rest))) with (length unk + S fr)%nat
      by (rewrite length_app; simpl; lia).
    rewrite (decode_skip unk b rest m fr false Hall Hm).
    cbn [decode]. rewrite Hm.
    assert (Hsum : Lwl.sum_int_chars (Lwl.arg_bytes m) 0
                   = Ok (Lwl.num_arg_bytes m)) by (eapply Hcat; exact Hm).
    pose proof (lwl_read_args_spec data put_idx Hput (Lwl.arg_bytes m) idx' [] 0
                  _ Hsum Hi') as Hargs.
    rewrite Hs' in Hargs.
    destruct (take_args (widths_of (Lwl.arg_bytes m)) rest)
      as [[args rest']|] eqn:Et.
    + destruct Hargs as (idx'' & Hi'' & Hra & Hs'').
      rewrite Hra. cbn [app].
      apply lwl_take_args_length in Et as (Elen & _ & _).
      specialize (IH idx'' false Hf2 Hi'').
      rewrite Hs'' in IH. cbn [andb] in IH.
      assert (Hlen : (length (window_at idx fg)
                      = length unk + S (length rest))%nat)
        by (rewrite Hs, length_app; done).
      specialize (IH ltac:(lia)).
      rewrite (lwl_decode_fuel format_percent cat fr (S (length rest')) rest' false)
        by lia.
      destruct (format_percent (Lwl.fmt m) args) as [line|e]; cbn [call];
        [|done].
      destruct (decode format_percent cat (S (length rest')) rest' false)
        as [r out] eqn:Ed.
      assert (Hpart : forall bytes, r = Ok (EndPartial bytes) ->
                (length bytes =? length (unk ++ b :: rest))%nat = false).
      { intros bytes ->. apply lwl_decode_partial_length in Ed.
        apply Nat.eqb_neq. rewrite length_app. simpl. lia. }
      destruct (Lwl.stream_loop format_percent cat f1 data put_idx idx'' false)
        as [r1 out1].
      cbn [lift io_bind io_ret print app] in *.
      destruct r1 as [st| |]; destruct r as [[| |bytes]| |];
        cbn [finish io_bind] in *;
        try (destruct (k st));
        try rewrite (Hpart _ eq_refl);
        rewrite ?andb_false_r in *; try done.
      all: try (injection IH as -> ->; done).
      all: injection IH as ->; done.
    + rewrite Hargs.
      assert (Hlen2 : (length (window_at id_idx false) < f2)%nat).
      { rewrite length_window.
        pose proof (remaining_le (Lwl.len data) put_idx id_idx false).
        unfold Lwl.len in *. lia. }
      subst k. cbn [lift io_bind io_ret print app].
      cbn [Lwl.eof_id Lwl.eof_id_idx Lwl.eof_first_get].
      rewrite lwl_unused_loop_spec by done.
      rewrite Hsid; cbn [lift io_bind io_ret print finish app].
      destruct unk as [|u unk].
      * rewrite bool_decide_eq_true_2 by done. rewrite andb_true_r.
        rewrite Nat.eqb_refl, andb_true_r. done.
      * rewrite bool_decide_eq_false_2 by discriminate. rewrite andb_false_r.
        match goal with
        | |- context [(?x =? ?y)%nat] =>
            assert ((x =? y)%nat = false) as ->; [|by rewrite andb_false_r]
        end.
        apply Nat.eqb_neq. simpl. rewrite length_app. simpl. lia.
Qed.

End Main.

End LwlDecodeFacts.

Import ReaderFacts.
Import LwlReference LwlFacts LwlTrialFacts LwlDecodeFacts.

(** The sample catalogs of lwl.py are ones [add_lwl_msg] could have
    built. *)
Lemma lwl_val_built : LwlReference.catalog_built lwl_val.
Proof.
  intros id m H. unfold lwl_val in H. cbn [Lwl.lwl_msgs] in H.
  apply lookup_insert_Some in H as [[<- <-]|[_ H]]; [reflexivity|].
  by rewrite lookup_empty in H.
Qed.

(** Property X19 ([print_data] of lwl.py).  From any start index, what
    [print_data] prints is the decode of the bytes from there up to
    [put_idx]: unknown bytes are passed over and leave no line; each known
    id prints its message with the arguments taken by declared width,
    least significant byte first; a message cut short comes out as unused
    data from its id on (unless that id sits on [put_idx]), and unknown
    bytes at the end leave an empty unused-data line.  The run ends, and
    it raises only what the [%] operator raises on a format of the
    catalog. *)
Theorem lwl_print_data_refines
    (format_percent : string -> list Z -> string + exn)
    (cat : Lwl.LwlMsgSet) (fuel : nat) (data : list byte)
    (idx put_idx : Z) :
  0 <= put_idx < Lwl.len data ->
  LwlReference.catalog_built cat ->
  0 <= idx < Lwl.len data ->
  (length data < fuel)%nat ->
  let s := window data put_idx idx true in
  let run := Lwl.print_data format_percent cat fuel data (Some idx) put_idx in
  run = LwlReference.finish (idx =? put_idx) (length s)
          (LwlReference.decode format_percent cat (S (length s)) s false)
  /\ run.1 <> Fuel
  /\ (forall e, run.1 = Raise e ->
        exists b m args,
          Lwl.get_metadata cat b = Some m
          /\ format_percent (Lwl.fmt m) args = inr e).
Proof.
  intros Hput Hcat Hi Hfuel s run.
  assert (Hrun : run = LwlReference.finish (idx =? put_idx) (length s)
                         (LwlReference.decode format_percent cat
                            (S (length s)) s false)).
  { unfold run, Lwl.print_data.
    rewrite (LwlDecodeFacts.lwl_stream_decode_spec format_percent cat data
               put_idx Hput Hcat fuel fuel idx true Hfuel Hi); [done|].
    rewrite length_window.
    pose proof (remaining_le (Lwl.len data) put_idx idx true).
    unfold Lwl.len in *. lia. }
  split; [exact Hrun|]. rewrite Hrun, LwlDecodeFacts.lwl_finish_fst. split.
  - pose proof (LwlDecodeFacts.lwl_decode_not_fuel format_percent cat
                  (S (length s)) s false ltac:(lia)) as Hnf.
    destruct ((LwlReference.decode format_percent cat (S (length s)) s false).1);
      done.
  - intros e He. apply (LwlDecodeFacts.lwl_decode_raise format_percent cat
                          (S (length s)) s false).
    destruct ((LwlReference.decode format_percent cat (S (length s)) s false).1);
      congruence.
Qed.

(** The theorem above on seven bytes: an unknown byte, a message with a
    4-byte argument, and the id of a second one without its argument. *)
Lemma lwl_print_data_refines_witness :
  Lwl.print_data format_d lwl_val 8 [xff; x02; x07; x00; x00; x00; x02]
    (Some 0) 0
  = (Ok tt, [Lwl.PMsg "val=7"; Lwl.PUnused [2]]).
Proof.
  destruct (lwl_print_data_refines format_d lwl_val 8
              [xff; x02; x07; x00; x00; x00; x02] 0 0)
    as [H _]; [unfold Lwl.len; simpl; lia|exact lwl_val_built
              |unfold Lwl.len; simpl; lia|simpl; lia|].
  rewrite H. vm_compute. reflexivity.
Defined.

(** * The files the programs read *)

Import Logfmt Linear Samples CircFacts Resync DecodeFacts FramerFacts.
Import Reference LogfmtRest MoreSamples.

Import PyText DumpReference.

(** ** Text *)

Module TextFacts.

Local Open Scope string_scope.

Lemma small_cases (P : Z -> Prop) (n : nat) :
  (forall k, (k < n)%nat -> P (Z.of_nat k)) ->
  forall v, 0 <= v < Z.of_nat n -> P v.
Proof.
  intros H v Hv. rewrite <- (Z2Nat.id v) by lia. apply H. lia.
Qed.

Lemma hex_digit_facts (v : Z) :
  0 <= v < 16 ->
  hex_val (hex_digit v) = Some v
  /\ is_hexdigit (hex_digit v) = true
  /\ is_space (hex_digit v) = false
  /\ is_ascii_space (hex_digit v) = false.
Proof.
  revert v. apply (small_cases _ 16). intros k Hk.
  do 16 (destruct k as [|k]; [repeat split; reflexivity|]). lia.
Qed.

Lemma byte_of_val (b : byte) : byte_of (byte_val b) = b.
Proof.
  unfold byte_of, byte_val. pose proof (Byte.to_N_bounded b).
  rewrite Z.mod_small by lia. rewrite N2Z.id, Byte.of_to_N. done.
Qed.

Lemma byte_val_split (b : byte) :
  0 <= byte_val b / 16 < 16 /\ 0 <= byte_val b mod 16 < 16
  /\ byte_val b / 16 * 16 + byte_val b mod 16 = byte_val b.
Proof.
  unfold byte_val. pose proof (Byte.to_N_bounded b).
  set (v := Z.of_N (Byte.to_N b)) in *. assert (0 <= v < 256) by lia.
  pose proof (Z.div_mod v 16). pose proof (Z.mod_pos_bound v 16).
  assert (0 <= v / 16 < 16).
  { split; [apply Z.div_pos; lia|apply Z.div_lt_upper_bound; lia]. }
  lia.
Qed.

Lemma append_nil (b : string) : "" ++ b = b.
Proof. reflexivity. Qed.

Lemma append_cons (c : ascii) (a b : string) :
  String c a ++ b = String c (a ++ b).
Proof. reflexivity. Qed.

Lemma append_assoc (a b c : string) : (a ++ b) ++ c = a ++ (b ++ c).
Proof.
  induction a as [|x a IH]; [done|]. rewrite !append_cons. by rewrite IH.
Qed.

Lemma span_app (p : ascii -> bool) (a rest : string) :
  all p a = true -> stops p rest -> span p (a ++ rest) = (a, rest).
Proof.
  intros Ha Hr. induction a as [|c a IH].
  - rewrite append_nil. destruct rest as [|c rest]; [done|].
    simpl in *. by rewrite Hr.
  - rewrite append_cons. simpl in *.
    apply andb_true_iff in Ha as [-> Ha]. by rewrite IH.
Qed.

Lemma rstrip_no_space (b : string) :
  all (fun c => negb (is_space c)) b = true -> rstrip b = b.
Proof.
  induction b as [|c b IH]; [done|]. simpl. intros H.
  apply andb_true_iff in H as [Hc Hb]. rewrite IH by done.
  destruct b; [|reflexivity]. apply negb_true_iff in Hc. by rewrite Hc.
Qed.

Lemma rstrip_app (a b : string) :
  rstrip b <> "" -> rstrip (a ++ b) = a ++ rstrip b.
Proof.
  intros Hb. induction a as [|c a IH]; [reflexivity|].
  rewrite !append_cons. cbn [rstrip]. rewrite IH.
  destruct (a ++ rstrip b) eqn:E; [|reflexivity].
  destruct a; [by rewrite append_nil in E|by rewrite append_cons in E].
Qed.

Lemma rstrip_newline (s : string) :
  rstrip (s ++ String (ascii_of_nat 10) "") = rstrip s.
Proof.
  induction s as [|c s IH]; [done|]. rewrite append_cons. cbn [rstrip].
  by rewrite IH.
Qed.

Lemma to_hex_all (bytes : list byte) :
  all is_hexdigit (to_hex bytes) = true
  /\ all (fun c => negb (is_space c)) (to_hex bytes) = true.
Proof.
  induction bytes as [|b bytes [IH1 IH2]]; [done|]. simpl.
  destruct (byte_val_split b) as (Hh & Hl & _).
  destruct (hex_digit_facts _ Hh) as (_ & -> & -> & _).
  destruct (hex_digit_facts _ Hl) as (_ & -> & -> & _).
  by rewrite IH1, IH2.
Qed.

Lemma to_hex_cons (bytes : list byte) :
  bytes <> [] ->
  exists c s, to_hex bytes = String c s /\ is_space c = false
              /\ is_hexdigit c = true.
Proof.
  destruct bytes as [|b bytes]; [done|]. intros _. simpl.
  destruct (byte_val_split b) as (Hh & _ & _).
  destruct (hex_digit_facts _ Hh) as (_ & H1 & H2 & _). eauto.
Qed.

Lemma len_to_hex (bytes : list byte) :
  len (to_hex bytes) = 2 * Z.of_nat (length bytes).
Proof.
  unfold len. induction bytes as [|b bytes IH]; [done|].
  simpl String.length. simpl List.length. lia.
Qed.

Lemma int_hex_acc (bytes : list byte) : forall acc,
  fold_left (fun value c => value * 16 + default 0 (hex_val c))
    (list_ascii_of_string (to_hex bytes)) acc
  = fold_left (fun value b => value * 256 + b) (map byte_val bytes) acc.
Proof.
  induction bytes as [|b bytes IH]; intros acc; [done|].
  simpl. destruct (byte_val_split b) as (Hh & Hl & Hb).
  destruct (hex_digit_facts _ Hh) as (-> & _).
  destruct (hex_digit_facts _ Hl) as (-> & _). cbn [default].
  rewrite IH. f_equal. unfold Datatypes.id. lia.
Qed.

Lemma int_hex_to_hex (bytes : list byte) :
  int_hex (to_hex bytes) = big_endian (map byte_val bytes).
Proof. apply int_hex_acc. Qed.

Lemma fromhex_to_hex (bytes : list byte) : fromhex (to_hex bytes) = Ok bytes.
Proof.
  induction bytes as [|b bytes IH]; [done|]. simpl.
  destruct (byte_val_split b) as (Hh & Hl & Hb).
  destruct (hex_digit_facts _ Hh) as (-> & _ & _ & ->).
  destruct (hex_digit_facts _ Hl) as (-> & _). rewrite IH. cbn [bind].
  by rewrite Hb, byte_of_val.
Qed.

Lemma float_of_Z_exact (z : Z) : 0 <= z < 2 ^ 53 -> float_of_Z z = z.
Proof.
  intros Hz. unfold float_of_Z.
  destruct (Z.eq_dec z 0) as [->|Hne]; [done|].
  assert (Z.log2 z < 53) by (apply Z.log2_lt_pow2; lia).
  destruct (Z.leb_spec (Z.log2 z - 52) 0); [done|lia].
Qed.

Lemma strip_dump_line (record : list byte * list byte) :
  record.1 <> [] -> record.2 <> [] ->
  strip (dump_line record) = to_hex record.1 ++ ": " ++ to_hex record.2.
Proof.
  intros H1 H2. unfold strip, dump_line, lstrip.
  destruct (to_hex_cons _ H1) as (c & s & E1 & Hc & _).
  assert (Hl : forall rest, (span is_space (to_hex record.1 ++ rest)).2
                            = to_hex record.1 ++ rest).
  { intros rest. rewrite E1, append_cons. simpl. by rewrite Hc. }
  rewrite append_assoc, Hl, <- append_assoc, rstrip_newline.
  destruct (to_hex_all record.2) as [_ Hns].
  destruct (to_hex_cons _ H2) as (c2 & s2 & E2 & _ & _).
  assert (Hr : rstrip (": " ++ to_hex record.2) = ": " ++ to_hex record.2).
  { apply rstrip_no_space in Hns. rewrite !append_cons, append_nil.
    cbn [rstrip]. rewrite Hns, E2. done. }
  rewrite rstrip_app; rewrite Hr; [done|]. by rewrite append_cons.
Qed.

Lemma search_dump_line (record : list byte * list byte) :
  record.1 <> [] -> record.2 <> [] ->
  LogfmtFile.line_pat_search (to_hex record.1 ++ ": " ++ to_hex record.2)
  = Some (to_hex record.1, to_hex record.2).
Proof.
  intros H1 H2.
  destruct (to_hex_cons _ H1) as (c & s & E1 & _ & _).
  destruct (to_hex_cons _ H2) as (c2 & s2 & E2 & Hc2 & _).
  destruct (to_hex_all record.1) as [Hh1 _].
  destruct (to_hex_all record.2) as [Hh2 _].
  assert (Hm : LogfmtFile.line_pat_match
                 (to_hex record.1 ++ ": " ++ to_hex record.2)
               = Some (to_hex record.1, to_hex record.2)).
  { unfold LogfmtFile.line_pat_match.
    rewrite (span_app is_hexdigit (to_hex record.1)) by done.
    rewrite !append_cons, append_nil.
    assert (Hs : span is_space (String " " (to_hex record.2))
                 = (" ", to_hex record.2)).
    { apply (span_app is_space " " (to_hex record.2)); [done|].
      rewrite E2. exact Hc2. }
    rewrite Hs.
    assert (Hd : span is_hexdigit (to_hex record.2) = (to_hex record.2, "")).
    { pose proof (span_app is_hexdigit (to_hex record.2) "" Hh2 I) as H.
      clear -H. revert H. generalize (to_hex record.2). intros t.
      assert (t ++ "" = t) as ->; [|done].
      induction t as [|x t IH]; [done|]. rewrite append_cons. by rewrite IH. }
    rewrite Hd. rewrite E1 at 1. rewrite E2 at 1. done. }
  destruct (to_hex record.1 ++ ": " ++ to_hex record.2);
    cbn [LogfmtFile.line_pat_search]; by rewrite Hm.
Qed.

Lemma read_loop_prefix (file_path : string)
    (records : list (list byte * list byte)) (more : list string) :
  forall line_num data_array expected_offset start,
  value_of expected_offset = start ->
  to_float expected_offset = start ->
  0 <= start ->
  contiguous start records ->
  start + Z.of_nat (length (payload records)) < 2 ^ 53 ->
  LogfmtFile.read_data_file_loop file_path (map dump_line records ++ more)
    line_num data_array expected_offset
  = LogfmtFile.read_data_file_loop file_path more
      (line_num + Z.of_nat (length records))
      (data_array ++ payload records)
      (match records with
       | [] => expected_offset
       | _ :: _ => PyFloat (start + Z.of_nat (length (payload records)))
       end).
Proof.
  induction records as [|r records IH];
    intros line_num data expected start Hv Hf Hs Hc Hlt.
  - cbn. by rewrite Z.add_0_r, app_nil_r.
  - destruct Hc as (H1 & H2 & Hoff & Hc).
    unfold payload in *. cbn [map concat snd] in *.
    rewrite length_app in Hlt.
    cbn [map app LogfmtFile.read_data_file_loop].
    rewrite strip_dump_line, search_dump_line by done.
    rewrite !len_to_hex.
    replace (2 * Z.of_nat (length r.1)) with (Z.of_nat (length r.1) * 2) by lia.
    replace (2 * Z.of_nat (length r.2)) with (Z.of_nat (length r.2) * 2) by lia.
    rewrite !Z.mod_mul, Z.div_mul by lia. cbn [Z.eqb negb].
    rewrite int_hex_to_hex, Hoff, Hv, Z.eqb_refl. cbn [negb].
    rewrite fromhex_to_hex, io_bind_lift_ok.
    rewrite (float_of_Z_exact (Z.of_nat (length r.2))) by lia.
    rewrite Hf, float_of_Z_exact by lia.
    rewrite (IH _ _ _ (start + Z.of_nat (length r.2))); try done; try lia.
    rewrite <- app_assoc, length_app.
    f_equal; [cbn [length]; lia|].
    destruct records as [|r' records]; f_equal; cbn; lia.
Qed.

End TextFacts.

Import TextFacts.



(** Property X21 ([Data.read_data_file], an offset out of sequence).
    After lines in sequence, a line whose offset is not the number of bytes
    read so far ends the reading.  On the first data line of the file the
    mismatch is reported and the call returns [False].  On any later line
    the report itself fails: the expected offset is by then a [float],
    [%x] does not take one, and the call raises [TypeError] without a
    line. *)
Theorem offset_out_of_sequence (file_path : string)
    (records : list (list byte * list byte)) (bad : list byte * list byte)
    (rest : list string) :
  contiguous 0 records ->
  Z.of_nat (length (payload records)) < 2 ^ 53 ->
  bad.1 <> [] -> bad.2 <> [] ->
  big_endian (map byte_val bad.1) <> Z.of_nat (length (payload records)) ->
  LogfmtFile.read_data_file file_path
    (map dump_line records ++ dump_line bad :: rest)
  = match records with
    | [] =>
        (Ok (false, []),
         [LogfmtFile.PErrOffset file_path 1 0
            (big_endian (map byte_val bad.1))])
    | _ :: _ => (Raise TypeError, [])
    end.
Proof.
  intros Hc Hlt H1 H2 Hne. unfold LogfmtFile.read_data_file.
  rewrite (read_loop_prefix _ _ _ _ _ _ 0); try done.
  cbn [LogfmtFile.read_data_file_loop].
  rewrite strip_dump_line, search_dump_line by done.
  rewrite !len_to_hex.
  replace (2 * Z.of_nat (length bad.1)) with (Z.of_nat (length bad.1) * 2)
    by lia.
  replace (2 * Z.of_nat (length bad.2)) with (Z.of_nat (length bad.2) * 2)
    by lia.
  rewrite !Z.mod_mul by lia. cbn [Z.eqb negb]. rewrite int_hex_to_hex.
  destruct records as [|r records].
  - cbn [value_of]. cbn [payload map concat length] in Hne.
    destruct (Z.eqb_spec (big_endian (map byte_val bad.1)) 0); [done|]. done.
  - cbn [value_of]. rewrite Z.add_0_l.
    destruct (Z.eqb_spec (big_endian (map byte_val bad.1))
                (Z.of_nat (length (payload (r :: records))))); done.
Qed.

(** The theorem above on a third line that skips eight bytes. *)
Lemma offset_out_of_sequence_witness :
  LogfmtFile.read_data_file "fault.txt"
    (map dump_line two_records ++ [dump_line late_record])
  = (Raise TypeError, []).
Proof.
  apply (offset_out_of_sequence "fault.txt" two_records late_record []).
  - repeat split; discriminate.
  - vm_compute. reflexivity.
  - discriminate.
  - discriminate.
  - vm_compute. discriminate.
Defined.

Import ReaderFacts.
Import PyText DumpReference TextFacts.
Import LwlFile.

(** ** lwl.py: [swap32] *)

Module SwapFacts.

Lemma byte_val_of (v : Z) : byte_val (byte_of v) = v mod 256.
Proof.
  unfold byte_val, byte_of. pose proof (Z.mod_pos_bound v 256 ltac:(lia)) as Hv.
  destruct (Byte.of_N (Z.to_N (v mod 256))) as [b|] eqn:E.
  - cbn. apply Byte.to_of_N in E. rewrite E. lia.
  - exfalso. pose proof (Byte.to_of_N_option_map (Z.to_N (v mod 256))) as H.
    rewrite E in H. cbn in H.
    destruct (N.leb_spec (Z.to_N (v mod 256)) 255); [done|lia].
Qed.

(** The four base-256 digits of a number below [2^32]. *)
Lemma split32 (a b c d : Z) :
  0 <= a < 256 -> 0 <= b < 256 -> 0 <= c < 256 -> 0 <= d < 256 ->
  let n := a * 16777216 + b * 65536 + c * 256 + d in
  n mod 256 = d /\ n / 256 mod 256 = c /\ n / 65536 mod 256 = b
  /\ n / 16777216 = a.
Proof.
  intros Ha Hb Hc Hd n.
  assert (H1 : n / 16777216 = a).
  { symmetry.
    apply (Z.div_unique n 16777216 a (b * 65536 + c * 256 + d)); lia. }
  assert (H2 : n / 65536 = a * 256 + b).
  { symmetry. apply (Z.div_unique n 65536 _ (c * 256 + d)); lia. }
  assert (H3 : n / 256 = a * 65536 + b * 256 + c).
  { symmetry. apply (Z.div_unique n 256 _ d); lia. }
  rewrite H1, H2, H3. repeat split.
  - symmetry. apply (Z.mod_unique n 256 (a * 65536 + b * 256 + c) d); lia.
  - symmetry. apply (Z.mod_unique _ 256 (a * 256 + b) c); lia.
  - symmetry. apply (Z.mod_unique _ 256 a b); lia.
Qed.

Lemma digits32 (i : Z) :
  0 <= i <= 0xffffffff ->
  exists a b c d,
    (0 <= a < 256 /\ 0 <= b < 256 /\ 0 <= c < 256 /\ 0 <= d < 256)
    /\ i = a * 16777216 + b * 65536 + c * 256 + d.
Proof.
  intros Hi.
  exists (i / 16777216), (i / 65536 mod 256), (i / 256 mod 256), (i mod 256).
  pose proof (Z.mod_pos_bound i 256 ltac:(lia)).
  pose proof (Z.mod_pos_bound (i / 256) 256 ltac:(lia)).
  pose proof (Z.mod_pos_bound (i / 65536) 256 ltac:(lia)).
  assert (0 <= i / 16777216 < 256).
  { split; [apply Z.div_pos; lia|apply Z.div_lt_upper_bound; lia]. }
  split; [done|].
  pose proof (Z.div_mod i 256 ltac:(lia)) as E1.
  pose proof (Z.div_mod (i / 256) 256 ltac:(lia)) as E2.
  pose proof (Z.div_mod (i / 65536) 256 ltac:(lia)) as E3.
  rewrite Z.div_div in E2 by lia. change (256 * 256) with 65536 in E2.
  assert (E4 : i / 65536 / 256 = i / 16777216).
  { rewrite Z.div_div by lia. reflexivity. }
  rewrite E4 in E3. lia.
Qed.

Lemma swap32_digits (a b c d : Z) :
  0 <= a < 256 -> 0 <= b < 256 -> 0 <= c < 256 -> 0 <= d < 256 ->
  swap32 (a * 16777216 + b * 65536 + c * 256 + d)
  = inl (d * 16777216 + c * 65536 + b * 256 + a).
Proof.
  intros Ha Hb Hc Hd.
  destruct (split32 a b c d Ha Hb Hc Hd) as (H0 & H1 & H2 & H3).
  set (n := a * 16777216 + b * 65536 + c * 256 + d) in *.
  unfold swap32, pack_big_I.
  destruct (Z.leb_spec 0 n); [|lia].
  destruct (Z.leb_spec n 0xffffffff); [|lia]. cbn [andb unpack_little_I].
  rewrite !byte_val_of, !Z.shiftl_mul_pow2, !Z.shiftr_div_pow2 by lia.
  change (2 ^ 24) with 16777216. change (2 ^ 16) with 65536.
  change (2 ^ 8) with 256.
  rewrite H0, H1, H2, H3, (Z.mod_small a 256) by lia. f_equal. lia.
Qed.

End SwapFacts.

Import SwapFacts.

(** Property X22 ([swap32]).  On [0 <= i <= 0xffffffff], [swap32]
    returns the number whose four bytes are those of [i] in the opposite
    order; the result is in the same range and [swap32] takes it back to
    [i].  Outside that range [struct.pack] raises [struct.error]. *)
Theorem swap32_involution (i : Z) :
  (0 <= i <= 0xffffffff ->
   exists j,
     swap32 i = inl j
     /\ j = i mod 256 * 2 ^ 24 + i / 2 ^ 8 mod 256 * 2 ^ 16
            + i / 2 ^ 16 mod 256 * 2 ^ 8 + i / 2 ^ 24
     /\ 0 <= j <= 0xffffffff
     /\ swap32 j = inl i)
  /\ (i < 0 \/ 0xffffffff < i -> swap32 i = inr StructError).
Proof.
  split.
  - intros Hi.
    destruct (digits32 i Hi) as (a & b & c & d & (Ha & Hb & Hc & Hd) & ->).
    destruct (split32 a b c d Ha Hb Hc Hd) as (H0 & H1 & H2 & H3).
    exists (d * 16777216 + c * 65536 + b * 256 + a).
    split; [by apply swap32_digits|].
    change (2 ^ 24) with 16777216. change (2 ^ 16) with 65536.
    change (2 ^ 8) with 256. rewrite H0, H1, H2, H3.
    split; [reflexivity|]. split; [lia|]. by apply swap32_digits.
  - intros Hi. unfold swap32, pack_big_I.
    destruct (Z.leb_spec 0 i); destruct (Z.leb_spec i 0xffffffff);
      cbn [andb]; try done; lia.
Qed.

(** The theorem above on [0x12345678]. *)
Lemma swap32_involution_witness :
  swap32 0x12345678 = inl 0x78563412 /\ swap32 0x78563412 = inl 0x12345678.
Proof.
  destruct (proj1 (swap32_involution 0x12345678)) as (j & H1 & Hj & _ & H2);
    [lia|].
  assert (j = 0x78563412) as -> by (rewrite Hj; reflexivity).
  split; [exact H1|exact H2].
Defined.

(** ** lwl.py: [decode_data_file] *)

Module DumpFileFacts.

Local Open Scope string_scope.

Lemma append_empty (a : string) : a ++ "" = a.
Proof. induction a as [|c a IH]; [done|]. by rewrite append_cons, IH. Qed.

Lemma to_hex_app (a b : list byte) :
  to_hex (a ++ b)%list = to_hex a ++ to_hex b.
Proof.
  induction a as [|x a IH]; [done|].
  cbn [app to_hex]. by rewrite IH, !append_cons.
Qed.

Lemma all_hexdigits_all (s : string) : all_hexdigits s = all is_hexdigit s.
Proof. induction s as [|c s IH]; [done|]. cbn. by rewrite IH. Qed.

Lemma join_split_no_space (s : string) :
  all (fun c => negb (is_space c)) s = true -> join_split s = s.
Proof.
  induction s as [|c s IH]; [done|]. cbn. intros [Hc Hs]%andb_prop.
  destruct (is_space c); [done|]. by rewrite IH.
Qed.

Lemma digits_no_space (s : string) :
  all is_digit s = true -> all (fun c => negb (is_space c)) s = true.
Proof.
  induction s as [|c s IH]; [done|]. cbn. intros [Hc Hs]%andb_prop.
  rewrite IH by done. rewrite andb_true_r.
  destruct c as [[] [] [] [] [] [] [] []]; try done.
Qed.

Lemma all_app (p : ascii -> bool) (a b : string) :
  all p (a ++ b) = all p a && all p b.
Proof.
  induction a as [|c a IH]; [done|]. rewrite append_cons. cbn.
  by rewrite IH, andb_assoc.
Qed.

Lemma lstrip_no_space (c : ascii) (s : string) :
  is_space c = false -> lstrip (String c s) = String c s.
Proof. intros H. unfold lstrip. cbn. by rewrite H. Qed.

(** A keyword line is taken as one. *)
Lemma keyword_line (keyword digits : string) (c : ascii) (k : string) :
  keyword = String c k ->
  all (fun c => negb (is_space c)) keyword = true ->
  all is_digit digits = true -> digits <> "" ->
  let line := strip (keyword ++ digits ++ String (ascii_of_nat 10) "") in
  line = keyword ++ digits
  /\ keyword_match keyword line = Some digits.
Proof.
  intros -> Hk Hd Hne line.
  assert (Hline : line = String c k ++ digits).
  { unfold line, strip. rewrite append_cons, lstrip_no_space.
    2:{ cbn in Hk. apply andb_prop in Hk as [Hc _].
        by destruct (is_space c). }
    rewrite <- append_cons, <- append_assoc, rstrip_newline.
    apply rstrip_no_space. rewrite all_app, Hk. by apply digits_no_space. }
  split; [exact Hline|]. rewrite Hline. unfold keyword_match.
  assert (Hp : forall p, after_prefix p (p ++ digits) = Some digits).
  { induction p as [|x p IH]; [done|]. rewrite append_cons. cbn.
    by rewrite Ascii.eqb_refl. }
  rewrite Hp. rewrite <- (append_empty digits) at 1.
  rewrite span_app; [|done|done].
  by destruct digits.
Qed.

(** A line of hexadecimal digits is no keyword line. *)
Lemma hex_no_keyword (keyword : string) (c k : ascii) (s rest : string) :
  keyword = String k rest -> is_hexdigit k = false ->
  is_hexdigit c = true ->
  keyword_match keyword (String c s) = None.
Proof.
  intros -> Hk Hc. unfold keyword_match. cbn.
  destruct (Ascii.eqb_spec k c) as [->|]; [congruence|done].
Qed.

Lemma strip_hex_line (bytes : list byte) :
  strip (hex_line bytes) = to_hex bytes.
Proof.
  unfold hex_line, strip. destruct (to_hex_all bytes) as [_ Hs].
  destruct bytes as [|b bytes].
  - reflexivity.
  - destruct (to_hex_cons (b :: bytes)) as (c & s & E & Hc & _); [done|].
    rewrite E in *. rewrite append_cons, lstrip_no_space by done.
    rewrite <- append_cons, rstrip_newline. by apply rstrip_no_space.
Qed.

Lemma hex_lines_read (chunks : list (list byte)) :
  forall buf_size put_idx acc,
  decode_data_file_loop (map hex_line chunks) buf_size put_idx (to_hex acc)
  = (buf_size, put_idx, to_hex (acc ++ concat chunks)%list).
Proof.
  induction chunks as [|chunk chunks IH]; intros buf_size put_idx acc.
  - cbn. by rewrite app_nil_r.
  - cbn [map decode_data_file_loop concat]. rewrite strip_hex_line.
    destruct (to_hex_all chunk) as [Hh Hs].
    destruct chunk as [|b chunk].
    + cbn. apply IH.
    + destruct (to_hex_cons (b :: chunk)) as (c & s & E & Hc & Hx); [done|].
      rewrite E in *.
      rewrite (hex_no_keyword "size:" c "s" s "ize:") by done.
      rewrite (hex_no_keyword "put:" c "p" s "ut:") by done.
      rewrite join_split_no_space by done.
      rewrite all_hexdigits_all, Hh, <- E, <- to_hex_app, app_assoc.
      apply IH.
Qed.

(** What the reading loop of [decode_data_file] has at the end of a
    dump. *)
Lemma lwl_dump_read (size put : string) (chunks : list (list byte)) :
  all is_digit size = true -> size <> "" ->
  all is_digit put = true -> put <> "" ->
  decode_data_file_loop (lwl_dump size put chunks) None None ""
  = (Some (int_dec size), Some (int_dec put), to_hex (concat chunks)).
Proof.
  intros Hs Hsn Hp Hpn. unfold lwl_dump.
  cbn [decode_data_file_loop].
  destruct (keyword_line "size:" size "s" "ize:") as [_ ->]; try done.
  destruct (keyword_line "put:" put "p" "ut:") as [-> ->]; try done.
  rewrite append_cons.
  change (keyword_match "size:" (String "p" ("ut:" ++ put))) with (@None string).
  apply (hex_lines_read chunks _ _ []).
Qed.

Lemma even_hex (bytes : list byte) :
  (len (to_hex bytes) mod 2 =? 0)%Z = true.
Proof.
  rewrite len_to_hex. apply Z.eqb_eq.
  rewrite Z.mul_comm. apply Z.mod_mul. lia.
Qed.

End DumpFileFacts.

(** ** lwl.py: a put index past the data *)

Module PastDataFacts.

Import Lwl.

Section Past.

Variable cat : LwlMsgSet.
Variable data : list byte.
Variable put_idx : Z.
Hypothesis Hput : Lwl.len data <= put_idx.

Lemma getitem_ok (idx : Z) :
  0 <= idx < Lwl.len data -> exists b, getitem data idx = Ok b.
Proof. intros Hi. eexists. by apply getitem_in_range. Qed.

(** No read reaches [put_idx]: every read succeeds. *)
Lemma get_data_bytes_loop_past (n : nat) : forall idx d factor first_get,
  0 <= idx < Lwl.len data ->
  exists d' idx',
    get_data_bytes_loop data n idx d factor put_idx first_get = Ok (d', idx')
    /\ 0 <= idx' < Lwl.len data.
Proof using Hput.
  induction n as [|n IH]; intros idx d factor first_get Hi.
  - by exists d, idx.
  - cbn [get_data_bytes_loop].
    destruct (Z.eqb_spec idx put_idx); [lia|]. cbn [andb].
    destruct (getitem_ok idx Hi) as [b ->]. cbn [bind].
    apply IH. destruct (Z.leb_spec (Lwl.len data) (idx + 1)); lia.
Qed.

Lemma get_data_bytes_past (idx num_bytes : Z) (first_get : bool) :
  0 <= idx < Lwl.len data ->
  exists d' idx',
    get_data_bytes data idx num_bytes put_idx first_get = Ok (d', idx')
    /\ 0 <= idx' < Lwl.len data.
Proof using Hput.
  intros Hi. unfold get_data_bytes.
  destruct (Z.leb_spec (Lwl.len data) idx); [lia|].
  by apply get_data_bytes_loop_past.
Qed.

Lemma trial_loop_past (fuel : nat) : forall idx first_get ctr,
  0 <= idx < Lwl.len data ->
  trial_loop cat fuel data put_idx idx first_get ctr = Fuel.
Proof using Hput.
  induction fuel as [|fuel IH]; intros idx first_get ctr Hi; [done|].
  cbn [trial_loop].
  destruct (get_data_bytes_past idx 1 first_get Hi) as (id & idx1 & -> & H1).
  destruct (get_metadata cat id) as [m|]; [|by apply IH].
  destruct (get_data_bytes_past idx1 (num_arg_bytes m) false H1)
    as (d & idx2 & -> & H2).
  by apply IH.
Qed.

Lemma range_cons (n : Z) : 1 <= n -> exists l, range n = 0 :: l.
Proof.
  intros Hn. unfold range.
  destruct (Z.to_nat n) as [|k] eqn:E; [lia|]. cbn. by eexists.
Qed.

Lemma get_optimal_start_idx_past (fuel : nat) :
  1 <= max_msg_len cat ->
  put_idx < 2 * Lwl.len data ->
  get_optimal_start_idx cat fuel data put_idx = Fuel.
Proof using Hput.
  intros HW Hlt. unfold get_optimal_start_idx.
  destruct (range_cons _ HW) as [l ->]. cbn [offsets_loop].
  unfold run_trial, trial_start_idx. rewrite Z.add_0_r.
  destruct (Z.leb_spec (Lwl.len data) put_idx); [|lia].
  rewrite trial_loop_past by lia. done.
Qed.

Lemma get_optimal_start_idx_far (fuel : nat) :
  1 <= max_msg_len cat ->
  2 * Lwl.len data <= put_idx ->
  get_optimal_start_idx cat (S fuel) data put_idx = Raise IndexError.
Proof using Hput.
  intros HW Hge. unfold get_optimal_start_idx.
  destruct (range_cons _ HW) as [l ->]. cbn [offsets_loop].
  unfold run_trial, trial_start_idx. rewrite Z.add_0_r.
  destruct (Z.leb_spec (Lwl.len data) put_idx); [|lia].
  cbn [trial_loop]. unfold get_data_bytes.
  destruct (Z.leb_spec (Lwl.len data) (put_idx - Lwl.len data)); [|lia].
  done.
Qed.

End Past.

End PastDataFacts.

Import DumpFileFacts PastDataFacts.

(** Property X23 ([decode_data_file]).  On a dump made of a size line, a
    put-index line and lines of hexadecimal digits, with the put index
    below the size, [decode_data_file] is [print_data] on the bytes of the
    hexadecimal lines, put together in file order, from the index
    [get_optimal_start_idx] finds for them; it prints nothing of its own
    and returns [None]. *)
Theorem decode_data_file_dump
    (format_percent : string -> list Z -> string + exn)
    (cat : Lwl.LwlMsgSet) (fuel : nat) (size put : string)
    (chunks : list (list byte)) :
  all is_digit size = true -> size <> ""%string ->
  all is_digit put = true -> put <> ""%string ->
  int_dec put < int_dec size ->
  decode_data_file format_percent cat fuel (lwl_dump size put chunks)
  = (letp start_idx :=
       lift (Lwl.get_optimal_start_idx cat fuel (concat chunks)
               (int_dec put)) in
     of_print_data (Lwl.print_data format_percent cat fuel (concat chunks)
                      start_idx (int_dec put)) ;;
     io_ret None).
Proof.
  intros Hs Hsn Hp Hpn Hlt. unfold decode_data_file.
  rewrite lwl_dump_read by done.
  destruct (Z.leb_spec (int_dec size) (int_dec put)); [lia|].
  rewrite even_hex. cbn [negb]. rewrite fromhex_to_hex.
  by rewrite io_bind_lift_ok.
Qed.

(** The theorem above on a dump of eight bytes in two lines, read with
    the catalog of one message. *)
Lemma decode_data_file_dump_witness :
  decode_data_file format_d lwl_val 9
    (lwl_dump "8" "7" [[x02; x07; x00; x00]; [x00; xff; x02; x00]])
  = (Ok None, [PData (Lwl.PMsg "val=7"); PData (Lwl.PUnused [2])]).
Proof.
  rewrite (decode_data_file_dump format_d lwl_val 9 "8" "7"
             [[x02; x07; x00; x00]; [x00; xff; x02; x00]]);
    [vm_compute; reflexivity|reflexivity|done|reflexivity|done
    |vm_compute; reflexivity].
Defined.

(** Property X24 ([decode_data_file], [get_optimal_start_idx] of lwl.py).
    The size a dump declares is compared with the put index and with
    nothing else.  A dump whose put index is below the declared size but
    not below the number of data bytes passes the checks; then, the
    catalog having a message, the search for the start index never ends
    when the put index is below twice the number of data bytes (no read
    ever meets the put index), and raises [IndexError] from there on.
    Nothing is printed. *)
Theorem put_index_past_data
    (format_percent : string -> list Z -> string + exn)
    (cat : Lwl.LwlMsgSet) (size put : string) (chunks : list (list byte)) :
  all is_digit size = true -> size <> ""%string ->
  all is_digit put = true -> put <> ""%string ->
  int_dec put < int_dec size ->
  1 <= Lwl.max_msg_len cat ->
  Lwl.len (concat chunks) <= int_dec put ->
  forall fuel,
  decode_data_file format_percent cat (S fuel) (lwl_dump size put chunks)
  = if int_dec put <? 2 * Lwl.len (concat chunks) then (Fuel, [])
    else (Raise IndexError, []).
Proof.
  intros Hs Hsn Hp Hpn Hlt HW Hpast fuel. unfold decode_data_file.
  rewrite lwl_dump_read by done.
  destruct (Z.leb_spec (int_dec size) (int_dec put)); [lia|].
  rewrite even_hex. cbn [negb]. rewrite fromhex_to_hex, io_bind_lift_ok.
  destruct (Z.ltb_spec (int_dec put) (2 * Lwl.len (concat chunks))).
  - by rewrite get_optimal_start_idx_past.
  - by rewrite get_optimal_start_idx_far.
Qed.

(** The theorem above on a dump of three bytes whose put index is 4, and
    on one whose put index is 6. *)
Lemma put_index_past_data_witness :
  decode_data_file format_d lwl_val 100
    (lwl_dump "8" "4" [[x02; x07; x00]])
  = (Fuel, [])
  /\ decode_data_file format_d lwl_val 100
       (lwl_dump "8" "6" [[x02; x07; x00]])
     = (Raise IndexError, []).
Proof.
  split.
  - rewrite (put_index_past_data format_d lwl_val "8" "4" [[x02; x07; x00]]);
      [reflexivity|reflexivity|done|reflexivity|done
      |vm_compute; reflexivity|vm_compute; discriminate
      |vm_compute; discriminate].
  - rewrite (put_index_past_data format_d lwl_val "8" "6" [[x02; x07; x00]]);
      [reflexivity|reflexivity|done|reflexivity|done
      |vm_compute; reflexivity|vm_compute; discriminate
      |vm_compute; discriminate].
Defined.

Import PyText LwlFile SourceReference.

(** ** [parse_source_dir] *)

Module WalkFacts.

Lemma io_bind_ext {L A B} (m : Py.io L A) (f g : A -> Py.io L B) :
  (forall a, f a = g a) -> io_bind m f = io_bind m g.
Proof. intros H. destruct m as [[a|e|] out]; cbn; by rewrite ?H. Qed.

Lemma io_bind_ret_r {L A} (m : Py.io L A) : io_bind m io_ret = m.
Proof.
  destruct m as [[a|e|] out]; cbn; try done. by rewrite app_nil_r.
Qed.

Section Walk.

Context {S L : Type}.
Variable parse_source_file : string -> S -> Py.io L (Z * S).
Variable os_path_join : string -> string -> string.

Lemma parse_paths_app (a b : list string) : forall error_count st,
  parse_paths S L parse_source_file (a ++ b) error_count st
  = letp r := parse_paths S L parse_source_file a error_count st in
    parse_paths S L parse_source_file b r.1 r.2.
Proof.
  induction a as [|x a IH]; intros error_count st.
  - cbn [app parse_paths]. by rewrite io_bind_ret.
  - cbn [app parse_paths]. rewrite io_bind_assoc.
    apply io_bind_ext. intros r. apply IH.
Qed.

Lemma parse_files_paths (root_dir_path : string) (file_names : list string) :
  forall error_count st,
  parse_files S L parse_source_file os_path_join root_dir_path file_names
    error_count st
  = parse_paths S L parse_source_file
      (List.filter (fun file_path => String.eqb (last_two file_path) ".c")
         (map (os_path_join root_dir_path) file_names))
      error_count st.
Proof.
  induction file_names as [|f fs IH]; intros error_count st; [done|].
  cbn [parse_files map List.filter].
  destruct (String.eqb (last_two (os_path_join root_dir_path f)) ".c");
    cbn [negb parse_paths].
  - apply io_bind_ext. intros r. apply IH.
  - apply IH.
Qed.

Lemma parse_source_dir_loop_paths
    (walk : list (string * list string * list string)) :
  forall error_count st,
  parse_source_dir_loop S L parse_source_file os_path_join walk error_count st
  = parse_paths S L parse_source_file (c_paths os_path_join walk)
      error_count st.
Proof.
  induction walk as [|[[root dirs] files] walk IH]; intros error_count st;
    [done|].
  cbn [parse_source_dir_loop]. unfold c_paths.
  cbn [map concat fst snd]. rewrite List.filter_app, parse_paths_app.
  rewrite parse_files_paths. apply io_bind_ext. intros r. apply IH.
Qed.

End Walk.

End WalkFacts.

Import WalkFacts.

(** Property X25 ([parse_source_dir] of lwl.py and of logfmt.py).  The
    files parsed are those whose joined path has [.c] as its last two
    characters, each once, in the order of the walk: directories in the
    order [os.walk] yields them, files in the order of each directory's
    list; the names of the subdirectories play no part.  Each file is
    parsed in the state the one before left, the result is the sum of the
    error counts, and an exception in one file ends the walk. *)
Theorem parse_source_dir_c_files {S L : Type}
    (parse_source_file : string -> S -> Py.io L (Z * S))
    (os_path_join : string -> string -> string)
    (walk : list (string * list string * list string)) (st : S) :
  parse_source_dir S L parse_source_file os_path_join walk st
  = parse_paths S L parse_source_file (c_paths os_path_join walk) 0 st.
Proof. apply parse_source_dir_loop_paths. Qed.

Import PyText LwlFile LwlSource SourceReference WalkFacts SourceSamples.

(** ** lwl.py: [parse_source_file] *)

Module SourceFacts.

Import Lwl.

Lemma io_bind_ok {L A B} (m : Py.io L A) (f : A -> Py.io L B) (b : B)
    (out : list L) :
  io_bind m f = (Ok b, out) ->
  exists a out1 out2,
    m = (Ok a, out1) /\ f a = (Ok b, out2) /\ out = out1 ++ out2.
Proof.
  destruct m as [[a|e|] out1]; cbn; try done.
  destruct (f a) as [r out2] eqn:E. intros [= -> <-]. by exists a, out1, out2.
Qed.

Lemma errors_app (a b : list LwlSource.printed) :
  errors (a ++ b) = errors a + errors b.
Proof. unfold errors. rewrite List.filter_app, length_app. lia. Qed.

Lemma errors_statement (out : list Lwl.printed) :
  errors (map PStatement out) = Z.of_nat (length out).
Proof.
  unfold errors. induction out as [|l out IH]; [done|].
  cbn in *. lia.
Qed.

Lemma add_lwl_msg_prints (self : LwlMsgSet) (id : Z)
    (fmt arg_bytes lwl_statement file_path : string) (line_num : Z)
    (ok : bool) (self' : LwlMsgSet) (out : list Lwl.printed) :
  add_lwl_msg self id fmt arg_bytes lwl_statement file_path line_num
  = (Ok (ok, self'), out) ->
  Z.of_nat (length out) = if ok then 0 else 1.
Proof.
  unfold add_lwl_msg. destruct (lwl_msgs self !! id) as [prev|].
  - cbn. by intros [= <- _ <-].
  - unfold LwlMsg_init.
    destruct (sum_int_chars arg_bytes 0) as [n|e|]; cbn; try done.
    destruct (sum_int_chars arg_bytes 1) as [n1|e|]; cbn; try done.
    by intros [= <- _ <-].
Qed.

Lemma statement_counts (s : statement) (error_count : Z)
    (msg_set : LwlMsgSet) (r : Z * LwlMsgSet) (out : list Lwl.printed) :
  parse_source_file_statement s error_count msg_set = (Ok r, out) ->
  r.1 = error_count + Z.of_nat (length out).
Proof.
  unfold parse_source_file_statement.
  destruct (negb _).
  { cbn. intros [= <- <-]. cbn. lia. }
  destruct (st_lwl_bid s) as [bid|].
  2:{ cbn. intros [= <- <-]. cbn. lia. }
  intros H. apply io_bind_ok in H as ([ok set'] & o1 & o2 & Ha & Hk & ->).
  apply add_lwl_msg_prints in Ha.
  destruct ok; cbn in Hk; injection Hk as <- <-; rewrite length_app; cbn; lia.
Qed.

Lemma parse_statement_counts (file_path : string) (line_num : Z)
    (base : option (Z * Z)) (error_count : Z) (msg_set : LwlMsgSet)
    (lwl_statement : string) (r : Z * LwlMsgSet)
    (out : list LwlSource.printed) :
  parse_statement file_path line_num base error_count msg_set lwl_statement
  = (Ok r, out) ->
  r.1 = error_count + errors out.
Proof.
  unfold parse_statement.
  destruct (parse_id_pat lwl_statement) as [[[cmd off] remain]|].
  2:{ cbn. by intros [= <- <-]. }
  destruct (quoted_pat remain) as [[fmt remain1]|].
  2:{ cbn. by intros [= <- <-]. }
  destruct (if String.eqb cmd "LWLX" then _ else _) as [remain2|].
  2:{ cbn. by intros [= <- <-]. }
  destruct (null_or_quoted remain2) as [[arg_bytes remain3]|].
  2:{ cbn. by intros [= <- <-]. }
  unfold of_statement.
  destruct (parse_source_file_statement _ _ _) as [o out'] eqn:E.
  cbn [fst snd]. intros [= -> <-].
  apply statement_counts in E. by rewrite errors_statement.
Qed.

Lemma parse_line_counts (file_path line : string) (p p' : parser)
    (out : list LwlSource.printed) :
  parse_line file_path line p = (Ok p', out) ->
  error_count p' = error_count p + errors out.
Proof.
  unfold parse_line. destruct (strip line) as [|c l] eqn:El.
  { cbn. intros [= <- <-]. cbn. unfold errors. cbn. lia. }
  intros H.
  apply io_bind_ok in H as (base' & o1 & o2 & Hb & H & ->).
  assert (Ho1 : errors o1 = 0).
  { destruct (lwl_bid_pat _) as [digits|].
    - destruct (int_dec digits =? 0); cbn in Hb; by injection Hb as _ <-.
    - cbn in Hb. by injection Hb as _ <-. }
  apply io_bind_ok in H as ([ec stmt] & o3 & o4 & Hp & H & ->).
  assert (Ho3 : ec = error_count p + errors o3).
  { destruct (truthy (LwlSource.lwl_statement p)).
    - destruct (_ && _); cbn in Hp; injection Hp as <- _ <-;
        unfold errors; cbn; lia.
    - destruct (detect_lwl_pat _); [destruct (_ && _)|];
        cbn in Hp; injection Hp as <- _ <-; unfold errors; cbn; lia. }
  cbn [fst snd] in H. rewrite !errors_app, Ho1.
  destruct (_ || _).
  - cbn in H. injection H as <- <-. cbn. unfold errors at 2. cbn. lia.
  - apply io_bind_ok in H as (r & o5 & o6 & Hs & H & ->).
    apply parse_statement_counts in Hs.
    cbn in H. injection H as <- <-. cbn. rewrite errors_app.
    unfold errors at 3. cbn. lia.
Qed.

Lemma parse_lines_counts (file_path : string) (lines : list string) :
  forall (p p' : parser) (out : list LwlSource.printed),
  parse_lines file_path lines p = (Ok p', out) ->
  error_count p' = error_count p + errors out.
Proof.
  induction lines as [|line lines IH]; intros p p' out H.
  - cbn in H. injection H as <- <-. unfold errors. cbn. lia.
  - cbn [parse_lines] in H.
    apply io_bind_ok in H as (p1 & o1 & o2 & H1 & H2 & ->).
    apply parse_line_counts in H1. apply IH in H2.
    rewrite errors_app. lia.
Qed.

End SourceFacts.

Import SourceFacts.

(** Property X26 ([parse_source_file] of lwl.py).  When a file is parsed
    to the end, the number returned is the number of lines printed, the
    lines about a base id of 0 left out: every error that is counted
    prints one line, a duplicate id included, and the base id of 0 is
    the one complaint that is printed without being counted. *)
Theorem parse_source_file_count (file_path : string) (lines : list string)
    (msg_set msg_set' : Lwl.LwlMsgSet) (error_count : Z)
    (out : list LwlSource.printed) :
  parse_source_file file_path lines msg_set
  = (Ok (error_count, msg_set'), out) ->
  error_count = Z.of_nat (length (List.filter counted out)).
Proof.
  unfold parse_source_file. intros H.
  apply io_bind_ok in H as (p & o1 & o2 & H1 & H2 & ->).
  apply parse_lines_counts in H1. cbn in H2. injection H2 as <- _ <-.
  rewrite app_nil_r. cbn in H1. exact H1.
Qed.

(** The theorem above on a file with a base id of 0 and the same id used
    twice: two lines are printed, one is counted. *)
Lemma parse_source_file_count_witness :
  1 = Z.of_nat
        (length
           (List.filter counted
              (parse_source_file "m.c" source_duplicate
                 Lwl.LwlMsgSet_init).2)).
Proof.
  destruct (parse_source_file "m.c" source_duplicate Lwl.LwlMsgSet_init)
    as [[[error_count msg_set']|e|] out] eqn:E.
  - assert (error_count = 1) as Hc.
    { vm_compute in E. by injection E as <- _ _. }
    rewrite <- Hc. exact (parse_source_file_count _ _ _ _ _ _ E).
  - vm_compute in E. discriminate E.
  - vm_compute in E. discriminate E.
Defined.

Import PyText DumpReference TextFacts DumpFileFacts.
Import LwlFile LwlSource SourceReference WalkFacts SourceFacts.

(** ** lwl.py: how a statement is split *)

Module SplitFacts.

Local Open Scope string_scope.

Lemma after_prefix_app (p rest : string) :
  after_prefix p (p ++ rest) = Some rest.
Proof.
  induction p as [|x p IH]; [done|]. rewrite append_cons. cbn.
  by rewrite Ascii.eqb_refl.
Qed.

Lemma after_prefix_more (p s r t : string) :
  after_prefix p s = Some r -> after_prefix p (s ++ t) = Some (r ++ t).
Proof.
  revert s. induction p as [|x p IH]; intros s.
  - cbn. by intros [= ->].
  - destruct s as [|c s]; [done|]. rewrite append_cons. cbn.
    destruct (Ascii.eqb x c); [apply IH|done].
Qed.

Lemma last_two_cons (x c d : ascii) (u : string) :
  last_two (String x (String c (String d u))) = last_two (String c (String d u)).
Proof. reflexivity. Qed.

Lemma app_two (s : string) (c d : ascii) (u : string) :
  exists a b w, s ++ String c (String d u) = String a (String b w).
Proof.
  destruct s as [|x [|y s]].
  - by exists c, d, u.
  - by exists x, c, (String d u).
  - exists x, y, (s ++ String c (String d u)). by rewrite !append_cons.
Qed.

Lemma last_two_app (s t : string) (c d : ascii) (u : string) :
  t = String c (String d u) -> last_two (s ++ t) = last_two t.
Proof.
  intros ->. induction s as [|x s IH]; [done|].
  rewrite append_cons. destruct (app_two s c d u) as (a & b & w & E).
  rewrite E in *. by rewrite last_two_cons.
Qed.

Lemma last_char_app (s : string) (c : ascii) (t : string) :
  last_char (s ++ String c t) = last_char (String c t).
Proof.
  induction s as [|x s IH]; [done|]. rewrite append_cons.
  destruct s as [|y s].
  - rewrite append_nil. reflexivity.
  - rewrite append_cons in *. exact IH.
Qed.

Lemma lstrip_first (c : ascii) (s : string) :
  lstrip (String c s) = String c s -> is_space c = false.
Proof.
  unfold lstrip. cbn. destruct (is_space c) eqn:E; [|done].
  destruct (span is_space s) as [taken rest] eqn:Es. cbn. intros H.
  assert (Hlen : forall s, (String.length (span is_space s).2
                            <= String.length s)%nat).
  { clear. induction s as [|x s IH]; [done|]. cbn.
    destruct (is_space x); [|done].
    destruct (span is_space s); cbn in *. lia. }
  specialize (Hlen s). rewrite Es in Hlen. cbn in Hlen.
  rewrite H in Hlen. cbn in Hlen. lia.
Qed.

Lemma lstrip_idem (s : string) : lstrip (lstrip s) = lstrip s.
Proof.
  unfold lstrip. induction s as [|c s IH]; [done|]. cbn.
  destruct (is_space c) eqn:E.
  - destruct (span is_space s) as [taken rest]. exact IH.
  - cbn. by rewrite E.
Qed.

Lemma rstrip_head (s : string) (c : ascii) (r : string) :
  rstrip s = String c r -> exists s', s = String c s'.
Proof.
  destruct s as [|x s]; [done|]. cbn.
  destruct (rstrip s); [destruct (is_space x)|]; intros [= <- _]; by eexists.
Qed.

Lemma rstrip_idem (s : string) : rstrip (rstrip s) = rstrip s.
Proof.
  induction s as [|c s IH]; [done|]. cbn.
  destruct (rstrip s) as [|d r] eqn:E.
  - destruct (is_space c) eqn:Ec; [done|]. cbn. by rewrite Ec.
  - cbn [rstrip] in *. rewrite IH. reflexivity.
Qed.

(** What [strip] returns is stripped. *)
Lemma strip_shape (s : string) (c : ascii) (r : string) :
  strip s = String c r ->
  is_space c = false /\ rstrip (String c r) = String c r.
Proof.
  unfold strip. intros H. split.
  - destruct (rstrip_head _ _ _ H) as [s' Hs].
    apply (lstrip_first c s'). rewrite <- Hs. apply lstrip_idem.
  - rewrite <- H. apply rstrip_idem.
Qed.

(** A text without white space at either end, followed by the end of
    the line, is what [strip] returns. *)
Lemma strip_line (c : ascii) (s : string) :
  is_space c = false -> rstrip (String c s) = String c s ->
  strip (String c s ++ newline) = String c s.
Proof.
  intros Hc Hr. unfold strip. rewrite append_cons, lstrip_no_space by done.
  rewrite <- append_cons. unfold newline. by rewrite rstrip_newline.
Qed.

Lemma strip_stripped (c : ascii) (s : string) :
  is_space c = false -> rstrip (String c s) = String c s ->
  strip (String c s) = String c s.
Proof. intros Hc Hr. unfold strip. by rewrite lstrip_no_space. Qed.

Lemma spaces1_one (c : ascii) (s : string) :
  is_space c = false -> spaces1 (String " " (String c s)) = Some (String c s).
Proof. intros H. unfold spaces1. cbn. by rewrite H. Qed.

Lemma digits1_app (digits rest : string) :
  all is_digit digits = true -> digits <> "" -> stops is_digit rest ->
  digits1 (digits ++ rest) = Some (digits, rest).
Proof.
  intros Hd Hne Hs. unfold digits1. rewrite span_app by done.
  by destruct digits.
Qed.

Lemma digit_first (c : ascii) : is_digit c = true -> is_space c = false.
Proof. destruct c as [[] [] [] [] [] [] [] []]; done. Qed.

Lemma quoted_app (s rest : string) :
  quoted s ++ rest = String quote (s ++ String quote rest).
Proof.
  unfold quoted. by rewrite append_cons, append_assoc, append_cons, append_nil.
Qed.

(** A comma, a blank and a quoted text are taken by the pattern for a
    quoted argument, and not by the one for [NULL]. *)
Lemma quoted_pat_quoted (s rest : string) :
  all not_quote s = true ->
  quoted_pat (", " ++ quoted s ++ rest) = Some (s, rest)
  /\ null_pat (", " ++ quoted s ++ rest) = None.
Proof.
  intros Hs. rewrite quoted_app. set (t := s ++ String quote rest). split.
  - change (quoted_pat (", " ++ String quote t))
      with (let r := span not_quote t in
            s ← after_prefix (String quote "") r.2; Some (r.1, s)).
    cbv zeta. unfold t.
    rewrite span_app; [|exact Hs|reflexivity]. reflexivity.
  - reflexivity.
Qed.

Lemma null_or_quoted_quoted (s rest : string) :
  all not_quote s = true ->
  null_or_quoted (", " ++ quoted s ++ rest) = Some (s, rest).
Proof.
  intros Hs. unfold null_or_quoted.
  by destruct (quoted_pat_quoted s rest Hs) as [-> ->].
Qed.

End SplitFacts.

Import PyText DumpReference TextFacts DumpFileFacts.
Import LwlFile LwlSource SourceReference WalkFacts SourceFacts SplitFacts.
Import SourceSamples.

Module StatementSplit.

Local Open Scope string_scope.

Section Text.

Variables (x : bool) (offset fmt arg_types arg_bytes args : string).
Hypothesis Hoff : all is_digit offset = true.
Hypothesis Hoffne : offset <> "".
Hypothesis Hfmt : all not_quote fmt = true.
Hypothesis Htypes : all not_quote arg_types = true.
Hypothesis Hbytes : all not_quote arg_bytes = true.

Local Abbreviation text := (lwl_text x offset fmt arg_types arg_bytes args).

(** The statement is a text of at least two characters that starts with
    [L] and ends with [);]. *)
Lemma text_shape :
  exists body, text = String "L" (String "W" body)
               /\ exists front, text = front ++ ");".
Proof using Type.
  unfold lwl_text. destruct x.
  - eexists; split; [reflexivity|].
    exists ("LWLX(" ++ offset ++ ", " ++ quoted fmt
            ++ (", " ++ quoted arg_types) ++ ", " ++ quoted arg_bytes
            ++ args).
    by rewrite !append_assoc.
  - eexists; split; [reflexivity|].
    exists ("LWL(" ++ offset ++ ", " ++ quoted fmt ++ "" ++ ", "
            ++ quoted arg_bytes ++ args).
    by rewrite !append_assoc.
Qed.

Lemma text_last_two : last_two text = ");".
Proof using Type.
  destruct text_shape as (_ & _ & front & ->).
  by rewrite (last_two_app front ");" ")" ";" "").
Qed.

Lemma text_strip : strip (text ++ newline) = text.
Proof using Type.
  destruct text_shape as (body & E & front & E').
  rewrite E. apply strip_line; [done|]. rewrite <- E, E'.
  by rewrite rstrip_app.
Qed.

Lemma text_no_define : lwl_bid_pat text = None.
Proof using Type. destruct text_shape as (body & -> & _). reflexivity. Qed.

Lemma text_detect : detect_lwl_pat text = true.
Proof using Type. unfold lwl_text. destruct x; reflexivity. Qed.

Lemma text_id :
  parse_id_pat text
  = Some (if x then "LWLX" else "LWL", offset,
          ", " ++ quoted fmt ++ (if x then ", " ++ quoted arg_types else "")
          ++ ", " ++ quoted arg_bytes ++ args ++ ");").
Proof using Hoff Hoffne.
  unfold lwl_text. destruct x.
  - change (parse_id_pat ("LWLX(" ++ ?t))
      with (r ← digits1 t; Some ("LWLX", r.1, r.2)).
    by rewrite digits1_app.
  - change (parse_id_pat ("LWL(" ++ ?t))
      with (r ← digits1 t; Some ("LWL", r.1, r.2)).
    by rewrite digits1_app.
Qed.

(** What [parse_statement] makes of the statement. *)
Lemma parse_statement_text (file_path : string) (line_num : Z)
    (base : option (Z * Z)) (error_count : Z) (msg_set : Lwl.LwlMsgSet) :
  parse_statement file_path line_num base error_count msg_set text
  = of_statement
      (Lwl.parse_source_file_statement
         (statement_of file_path line_num base text offset fmt arg_bytes)
         error_count msg_set).
Proof using Hoff Hoffne Hfmt Htypes Hbytes.
  unfold parse_statement. rewrite text_id.
  rewrite (proj1 (quoted_pat_quoted fmt _ Hfmt)).
  destruct x.
  - change (String.eqb "LWLX" "LWLX") with true. cbv iota.
    rewrite append_assoc, null_or_quoted_quoted by done.
    cbn [fmap option_fmap option_map snd].
    by rewrite null_or_quoted_quoted.
  - change (String.eqb "LWL" "LWLX") with false. cbv iota.
    rewrite append_nil. by rewrite null_or_quoted_quoted.
Qed.

(** The loop body on the line of the statement, no statement pending. *)
Lemma parse_line_text (file_path : string) (p : parser) :
  truthy (LwlSource.lwl_statement p) = false ->
  parse_line file_path (text ++ newline) p
  = letp r := of_statement
                (Lwl.parse_source_file_statement
                   (statement_of file_path (LwlSource.line_num p + 1)
                      (base p) text offset fmt arg_bytes)
                   (error_count p) (msg_set p)) in
    io_ret {| base := base p; error_count := r.1;
              LwlSource.lwl_statement := None;
              LwlSource.line_num := LwlSource.line_num p + 1;
              msg_set := r.2 |}.
Proof using Hoff Hoffne Hfmt Htypes Hbytes.
  intros Hp. unfold parse_line. rewrite text_strip.
  destruct text_shape as (body & E & _).
  assert (Ht : truthy (Some text) = true) by (by rewrite E).
  assert (Hm : forall (A : Type) (a b : A),
             match text with "" => a | String _ _ => b end = b).
  { intros A a b. by rewrite E. }
  rewrite Hm.
  rewrite text_no_define, Hp, text_detect, text_last_two.
  rewrite io_bind_ret. change (String.eqb ");" ");") with true.
  cbn [negb andb]. rewrite io_bind_ret. cbn [fst snd].
  rewrite Ht. cbn [negb orb default]. unfold Datatypes.id.
  rewrite text_last_two. change (String.eqb ");" ");") with true.
  cbn [negb]. by rewrite parse_statement_text.
Qed.

End Text.

(** A [LWL_BASE_ID] line is read as one. *)
Lemma define_strip (bid : string) :
  all is_digit bid = true -> bid <> "" ->
  strip (define_line bid) = "#define LWL_BASE_ID " ++ bid.
Proof.
  intros Hd Hne. unfold define_line. rewrite <- append_assoc.
  change ("#define LWL_BASE_ID " ++ bid)
    with (String "#" ("define LWL_BASE_ID " ++ bid)).
  apply strip_line; [done|].
  change (String "#" ("define LWL_BASE_ID " ++ bid))
    with ("#define LWL_BASE_ID " ++ bid).
  rewrite rstrip_app; rewrite rstrip_no_space; try done;
    by apply digits_no_space.
Qed.

Lemma define_bid (bid : string) :
  all is_digit bid = true -> bid <> "" ->
  lwl_bid_pat ("#define LWL_BASE_ID " ++ bid) = Some bid.
Proof.
  intros Hd Hne.
  change (lwl_bid_pat ("#define LWL_BASE_ID " ++ bid))
    with (s ← spaces1 (String " " bid); r ← digits1 s; Some r.1).
  destruct bid as [|c bid']; [done|].
  rewrite spaces1_one.
  2:{ apply digit_first. cbn in Hd. by apply andb_prop in Hd as [-> _]. }
  cbn [mbind option_bind].
  assert (digits1 (String c bid') = Some (String c bid', "")) as ->.
  { rewrite <- (append_empty (String c bid')) at 1.
    by apply digits1_app. }
  reflexivity.
Qed.

(** The loop body on a [LWL_BASE_ID] line, no statement pending. *)
Lemma parse_line_define (file_path bid : string) (p : parser) :
  all is_digit bid = true -> bid <> "" ->
  truthy (LwlSource.lwl_statement p) = false ->
  parse_line file_path (define_line bid) p
  = ((if (int_dec bid =? 0)%Z
      then print (PErrBaseId file_path (LwlSource.line_num p + 1)
                    (int_dec bid))
      else io_ret tt) ;;
     io_ret {| base := Some (int_dec bid, LwlSource.line_num p + 1);
               error_count := error_count p;
               LwlSource.lwl_statement := LwlSource.lwl_statement p;
               LwlSource.line_num := LwlSource.line_num p + 1;
               msg_set := msg_set p |}).
Proof.
  intros Hd Hne Hp. unfold parse_line.
  rewrite define_strip by done.
  change ("#define LWL_BASE_ID " ++ bid)
    with (String "#" ("define LWL_BASE_ID " ++ bid)) at 1.
  cbv iota. rewrite define_bid, Hp by done.
  change (detect_lwl_pat ("#define LWL_BASE_ID " ++ bid)) with false.
  cbv iota. rewrite io_bind_assoc.
  destruct (int_dec bid =? 0)%Z; cbn; rewrite Hp; reflexivity.
Qed.

(** The loop over blank lines. *)
Lemma parse_lines_blanks (file_path : string) (blanks rest : list string) :
  Forall (fun line => strip line = "") blanks ->
  forall p,
  parse_lines file_path (blanks ++ rest) p
  = parse_lines file_path rest
      {| base := base p; error_count := error_count p;
         LwlSource.lwl_statement := LwlSource.lwl_statement p;
         LwlSource.line_num := LwlSource.line_num p
                               + Z.of_nat (length blanks);
         msg_set := msg_set p |}.
Proof.
  induction 1 as [|line blanks Hl _ IH]; intros p.
  - cbn [app length]. rewrite Z.add_0_r. by destruct p.
  - cbn [app parse_lines]. unfold parse_line. rewrite Hl.
    rewrite io_bind_ret, IH. cbn [base error_count LwlSource.lwl_statement
                                 LwlSource.line_num msg_set length].
    do 2 f_equal. lia.
Qed.

End StatementSplit.

Import PyText DumpReference TextFacts DumpFileFacts.
Import LwlFile LwlSource SourceReference WalkFacts SourceFacts SplitFacts.
Import StatementSplit SourceSamples.

Module JoinFacts.

Local Open Scope string_scope.

Lemma parse_lines_app (file_path : string) (a b : list string) : forall p,
  parse_lines file_path (a ++ b) p
  = letp p' := parse_lines file_path a p in parse_lines file_path b p'.
Proof.
  induction a as [|line a IH]; intros p.
  - cbn [app parse_lines]. by rewrite io_bind_ret.
  - cbn [app parse_lines]. rewrite io_bind_assoc.
    apply io_bind_ext. intros p'. apply IH.
Qed.

Lemma detect_first (s : string) :
  detect_lwl_pat s = true ->
  exists t, lstrip s = String "L" t.
Proof.
  unfold detect_lwl_pat. destruct (lstrip s) as [|c t]; [done|].
  change (after_prefix "LWL" (String c t))
    with (if Ascii.eqb "L" c then after_prefix "WL" t else None).
  destruct (Ascii.eqb_spec "L" c) as [<-|]; [by eexists|done].
Qed.

Lemma detect_app (s t : string) :
  lstrip s = s -> detect_lwl_pat s = true -> detect_lwl_pat (s ++ t) = true.
Proof.
  intros Hs Hd. destruct (detect_first s Hd) as [u Hu]. rewrite Hs in Hu.
  assert (Hl : lstrip (s ++ t) = s ++ t).
  { rewrite Hu, append_cons. by apply lstrip_no_space. }
  unfold detect_lwl_pat in *. rewrite Hl. rewrite Hs in Hd.
  destruct (after_prefix "LWL" s) as [r|] eqn:E; [|done].
  rewrite (after_prefix_more _ _ _ t E).
  destruct (after_prefix "X(" r) as [r1|] eqn:E1.
  { by rewrite (after_prefix_more _ _ _ t E1). }
  destruct (after_prefix "(" r) as [r2|] eqn:E2; [|done].
  rewrite (after_prefix_more _ _ _ t E2).
  by destruct (after_prefix "X(" (r ++ t)).
Qed.

Lemma detect_no_define (s : string) :
  detect_lwl_pat s = true -> lwl_bid_pat s = None.
Proof.
  intros Hd. destruct (detect_first s Hd) as [u Hu].
  unfold lwl_bid_pat. by rewrite Hu.
Qed.

Lemma last_char_some (s : string) (c : ascii) :
  last_char s = Some c -> exists front, s = front ++ String c "".
Proof.
  induction s as [|x s IH]; [done|]. destruct s as [|y s].
  - cbn. intros [= ->]. by exists "".
  - intros H. destruct (IH H) as [front ->]. by exists (String x front).
Qed.

Lemma last_two_comma (front : string) :
  String.eqb (last_two (front ++ ",")) ");" = false.
Proof.
  destruct front as [|x front]; [done|].
  assert (H : exists y, last_two (String x front ++ ",") = String y ",").
  { revert x. induction front as [|z front IH]; intros x; [by eexists|].
    destruct (IH z) as [y Hy]. exists y. rewrite <- Hy.
    rewrite !append_cons.
    destruct (front ++ ",") as [|w r] eqn:E; [by destruct front|].
    apply last_two_cons. }
  destruct H as [y ->]. cbn.
  destruct (Ascii.eqb y ")"); reflexivity.
Qed.

(** The first line of a statement that goes on. *)
Lemma parse_line_open (file_path a : string) (p : parser) :
  truthy (LwlSource.lwl_statement p) = false ->
  detect_lwl_pat (strip a) = true ->
  last_char (strip a) = Some ","%char ->
  parse_line file_path a p
  = io_ret {| base := base p; error_count := error_count p;
              LwlSource.lwl_statement := Some (strip a);
              LwlSource.line_num := LwlSource.line_num p + 1;
              msg_set := msg_set p |}.
Proof.
  intros Hp Hd Hc. unfold parse_line.
  destruct (last_char_some _ _ Hc) as [front Hfront].
  destruct (strip a) as [|ca ra] eqn:Ea; [done|].
  rewrite (detect_no_define _ Hd), Hp, Hd.
  assert (Hae : (negb (String.eqb (last_two (String ca ra)) ");")
                 && last_char_differs (String ca ra) ",") = false).
  { apply andb_false_intro2. unfold last_char_differs. by rewrite Hc. }
  rewrite Hae, !io_bind_ret. cbn [fst snd truthy negb orb default].
  unfold Datatypes.id. rewrite Hfront, last_two_comma. reflexivity.
Qed.

(** A line that carries a pending statement on is read as the statement
    joined with it would be, on the same line, nothing pending. *)
Lemma parse_line_joined (file_path sa b : string) (p q : parser) :
  LwlSource.lwl_statement p = Some sa ->
  truthy (LwlSource.lwl_statement q) = false ->
  base q = base p -> error_count q = error_count p ->
  LwlSource.line_num q = LwlSource.line_num p -> msg_set q = msg_set p ->
  strip sa = sa -> sa <> "" ->
  detect_lwl_pat sa = true ->
  lwl_bid_pat (strip b) = None ->
  last_char (strip b) = Some ","%char \/ last_two (strip b) = ");" ->
  parse_line file_path b p = parse_line file_path (sa ++ strip b) q.
Proof.
  intros Hps Hq Hqb Hqe Hql Hqm Hsa Hne Hda Hnb Hb.
  destruct sa as [|ca ra]; [done|].
  destruct (strip_shape _ _ _ Hsa) as [Hca Hra].
  destruct (strip b) as [|cb rb] eqn:Eb; [by destruct Hb|].
  destruct (strip_shape _ _ _ Eb) as [Hcb Hrb].
  set (sa := String ca ra) in *. set (sb := String cb rb) in *.
  assert (Hla : lstrip sa = sa) by (by apply lstrip_no_space).
  assert (Hj : strip (sa ++ sb) = String ca (ra ++ sb)).
  { unfold sa. rewrite append_cons. apply strip_stripped; [done|].
    rewrite <- append_cons. fold sa. rewrite rstrip_app; rewrite Hrb; done. }
  assert (Hjd : detect_lwl_pat (sa ++ sb) = true) by (by apply detect_app).
  assert (Hje : (negb (String.eqb (last_two (sa ++ sb)) ");")
                 && last_char_differs (sa ++ sb) ",") = false).
  { destruct Hb as [Hb|Hb].
    - apply andb_false_intro2. unfold last_char_differs, sb.
      rewrite last_char_app. fold sb. by rewrite Hb.
    - apply andb_false_intro1.
      assert (exists c d u, sb = String c (String d u)) as (c & d & u & E).
      { unfold sb in *. destruct rb as [|d u]; [done|]. by eexists _, _, _. }
      rewrite (last_two_app sa sb c d u E), Hb. reflexivity. }
  assert (Hbe : (last_char_differs sb ","
                 && negb (String.eqb (last_two sb) ");")) = false).
  { destruct Hb as [Hb|Hb].
    - apply andb_false_intro1. unfold last_char_differs. by rewrite Hb.
    - apply andb_false_intro2. by rewrite Hb. }
  unfold parse_line. rewrite Eb, Hj. fold sb.
  change (String ca (ra ++ sb)) with (sa ++ sb).
  unfold sb at 1. cbv iota. fold sb.
  assert (Hts : truthy (Some sa) = true) by done.
  rewrite Hnb, (detect_no_define _ Hjd), Hps, Hq, Hjd, Hje, Hbe, Hts.
  rewrite !io_bind_ret. cbn [fst snd default].
  unfold Datatypes.id. by rewrite Hqb, Hqe, Hql, Hqm.
Qed.

(** The two-line form and the joined form leave the loop in the same
    state. *)
Lemma parse_two_lines (file_path a b : string) (p : parser) :
  truthy (LwlSource.lwl_statement p) = false ->
  detect_lwl_pat (strip a) = true ->
  last_char (strip a) = Some ","%char ->
  lwl_bid_pat (strip b) = None ->
  last_char (strip b) = Some ","%char \/ last_two (strip b) = ");" ->
  forall rest,
  parse_lines file_path (a :: b :: rest) p
  = parse_lines file_path ("" :: (strip a ++ strip b) :: rest) p.
Proof.
  intros Hp Hda Hca Hnb Hb rest. cbn [parse_lines].
  rewrite (parse_line_open _ _ _ Hp Hda Hca), io_bind_ret.
  assert (He : parse_line file_path "" p
               = io_ret {| base := base p; error_count := error_count p;
                           LwlSource.lwl_statement :=
                             LwlSource.lwl_statement p;
                           LwlSource.line_num := LwlSource.line_num p + 1;
                           msg_set := msg_set p |}) by done.
  rewrite He, io_bind_ret. f_equal.
  apply parse_line_joined; try done.
  - destruct (strip a) as [|c r] eqn:E; [done|].
    destruct (strip_shape _ _ _ E). by apply strip_stripped.
  - intros E. by rewrite E in Hca.
Qed.

End JoinFacts.

Import PyText DumpReference TextFacts DumpFileFacts.
Import LwlFile LwlSource SourceReference WalkFacts SourceFacts SplitFacts.
Import StatementSplit JoinFacts SourceSamples.

(** Property X27 ([parse_source_file] of lwl.py).  A file with a line
    [#define LWL_BASE_ID <bid>], empty lines, and a statement [LWL(...)]
    or [LWLX(...)] on one line is read as that statement: the id offset,
    the format and the argument-bytes string are the ones written
    (strings without a double quote), the argument types of [LWLX] and
    the arguments that follow are passed over.  The statement is checked
    and added under the id [bid + offset]; errors about it name the line
    it is on, while the line number stored with the message is that of
    the [LWL_BASE_ID] line.  A base id of 0 prints a complaint and is
    used all the same. *)
Theorem statement_read_back (file_path bid : string) (blanks : list string)
    (x : bool) (offset fmt arg_types arg_bytes args : string)
    (msg_set : Lwl.LwlMsgSet) :
  all is_digit bid = true -> bid <> ""%string ->
  all is_digit offset = true -> offset <> ""%string ->
  all not_quote fmt = true -> all not_quote arg_types = true ->
  all not_quote arg_bytes = true ->
  Forall (fun line => strip line = ""%string) blanks ->
  let text := lwl_text x offset fmt arg_types arg_bytes args in
  parse_source_file file_path
    (define_line bid :: blanks ++ [(text ++ newline)%string]) msg_set
  = ((if int_dec bid =? 0
      then print (PErrBaseId file_path 1 (int_dec bid))
      else io_ret tt) ;;
     of_statement
       (Lwl.parse_source_file_statement
          {| Lwl.st_file_path := file_path;
             Lwl.st_line_num := 2 + Z.of_nat (length blanks);
             Lwl.st_lwl_line_num := 1;
             Lwl.st_lwl_statement := text;
             Lwl.st_lwl_bid := Some (int_dec bid);
             Lwl.st_lwl_id_offset := int_dec offset;
             Lwl.st_lwl_fmt := fmt;
             Lwl.st_lwl_arg_bytes := arg_bytes |}
          0 msg_set)).
Proof.
  intros Hb Hbne Ho Hone Hf Ht Ha Hblank text. subst text.
  unfold parse_source_file. cbn [parse_lines].
  rewrite parse_line_define by done.
  rewrite !io_bind_assoc. apply io_bind_ext. intros _.
  rewrite io_bind_ret, parse_lines_blanks by done.
  cbn [parse_lines base LwlSource.error_count LwlSource.lwl_statement
       LwlSource.line_num LwlSource.msg_set parser_init].
  rewrite parse_line_text by done.
  cbn [base LwlSource.error_count LwlSource.lwl_statement
       LwlSource.line_num LwlSource.msg_set].
  rewrite !io_bind_assoc.
  replace (0 + 1 + Z.of_nat (length blanks) + 1)
    with (2 + Z.of_nat (length blanks)) by lia.
  change (statement_of ?f ?n (Some (?b, 0 + 1)) ?t ?o ?m ?a)
    with {| Lwl.st_file_path := f; Lwl.st_line_num := n;
            Lwl.st_lwl_line_num := 1; Lwl.st_lwl_statement := t;
            Lwl.st_lwl_bid := Some b; Lwl.st_lwl_id_offset := int_dec o;
            Lwl.st_lwl_fmt := m; Lwl.st_lwl_arg_bytes := a |}.
  match goal with
  | |- _ = ?m => rewrite <- (io_bind_ret_r m) at 2
  end.
  apply io_bind_ext. intros [error_count msg_set'].
  by rewrite !io_bind_ret.
Qed.

(** The theorem above on a base id of 0, an empty line and a statement
    with one 4-byte argument. *)
Lemma statement_read_back_witness :
  parse_source_file "m.c" source_single Lwl.LwlMsgSet_init
  = (Ok (0,
         {| Lwl.lwl_msgs :=
              <[1 := {| Lwl.id := 1; Lwl.fmt := "val=%d";
                        Lwl.arg_bytes := "4"; Lwl.file_path := "m.c";
                        Lwl.line_num := 1;
                        Lwl.lwl_statement :=
                          lwl_text false "1" "val=%d" "" "4" ", val";
                        Lwl.num_arg_bytes := 4 |}]> ∅;
            Lwl.max_msg_len := 5 |}),
     [PErrBaseId "m.c" 1 0]).
Proof.
  etransitivity.
  - apply (statement_read_back "m.c" "0" [newline] false "1" "val=%d" ""
             "4" ", val" Lwl.LwlMsgSet_init);
      [reflexivity|done|reflexivity|done|reflexivity|reflexivity
      |reflexivity|by repeat constructor].
  - vm_compute. reflexivity.
Defined.

(** Property X28 ([parse_source_file] of lwl.py).  A statement written on
    two lines is read as if the second line held the two, stripped and put
    together with nothing in between, and the first line were empty: so
    wherever the first line starts a statement and ends with a comma, and
    the second ends with a comma or with [);] and is no [LWL_BASE_ID]
    line.  Lines before and after are read the same in both files, the
    line numbers of messages included. *)
Theorem statement_on_two_lines (file_path : string)
    (pre post : list string) (a b : string) (msg_set : Lwl.LwlMsgSet) :
  (forall p out,
     parse_lines file_path pre (parser_init msg_set) = (Ok p, out) ->
     truthy (LwlSource.lwl_statement p) = false) ->
  detect_lwl_pat (strip a) = true ->
  last_char (strip a) = Some ","%char ->
  lwl_bid_pat (strip b) = None ->
  last_char (strip b) = Some ","%char \/ last_two (strip b) = ");"%string ->
  parse_source_file file_path (pre ++ a :: b :: post) msg_set
  = parse_source_file file_path
      (pre ++ ""%string :: (strip a ++ strip b)%string :: post) msg_set.
Proof.
  intros Hpre Hda Hca Hnb Hb. unfold parse_source_file.
  rewrite !parse_lines_app.
  destruct (parse_lines file_path pre (parser_init msg_set))
    as [[p|e|] out] eqn:E; [|done|done].
  specialize (Hpre p out eq_refl).
  assert (Hk : parse_lines file_path (a :: b :: post) p
               = parse_lines file_path
                   (""%string :: (strip a ++ strip b)%string :: post) p).
  { by apply parse_two_lines. }
  cbn [io_bind]. by rewrite Hk.
Qed.

(** The theorem above on the first two lines of a statement written on
    three. *)
Lemma statement_on_two_lines_witness :
  parse_source_file "m.c" source_split Lwl.LwlMsgSet_init
  = parse_source_file "m.c"
      [define_line "10"; ""%string;
       ("LWL(2," ++ quoted "val=%d" ++ ",")%string;
       ("  " ++ quoted "4" ++ ", val);" ++ newline)%string]
      Lwl.LwlMsgSet_init.
Proof.
  apply (statement_on_two_lines "m.c" [define_line "10"]
           [("  " ++ quoted "4" ++ ", val);" ++ newline)%string]
           ("  LWL(2, " ++ newline)%string
           ("      " ++ quoted "val=%d" ++ "," ++ newline)%string
           Lwl.LwlMsgSet_init).
  - intros p out H. vm_compute in H. by injection H as <- _.
  - reflexivity.
  - reflexivity.
  - reflexivity.
  - left. reflexivity.
Defined.

(** * The source parser of logfmt.py *)

Import Logfmt Linear Samples CircFacts Resync DecodeFacts FramerFacts.
Import Reference LogfmtRest MoreSamples.

Import PyText DumpReference TextFacts DumpFileFacts.
Import LwlFile SourceReference WalkFacts SplitFacts JoinFacts.
Import LogfmtSource LogfmtSourceReference LogfmtSourceSamples.

(** ** logfmt.py: [parse_source_file] *)

Module FieldFacts.

Local Open Scope string_scope.

Lemma all_lstrip (p : ascii -> bool) (s : string) :
  all p s = true -> all p (lstrip s) = true.
Proof.
  unfold lstrip. induction s as [|c s IH]; [done|]. cbn.
  intros [Hc Hs]%andb_prop. destruct (is_space c).
  - destruct (span is_space s). by apply IH.
  - cbn. by rewrite Hc, Hs.
Qed.

Lemma lstrip_app (a : string) (c : ascii) (x : string) :
  is_space c = false -> lstrip (a ++ String c x) = lstrip a ++ String c x.
Proof.
  intros Hc. unfold lstrip. induction a as [|d a IH].
  - rewrite append_nil. cbn. by rewrite Hc.
  - rewrite append_cons. cbn. destruct (is_space d).
    + destruct (span is_space (a ++ String c x)), (span is_space a).
      exact IH.
    + cbn. by rewrite append_cons.
Qed.

Lemma search_unfold (s : string) :
  parse_fault_data_pat s
  = match parse_fault_data_pat_match s with
    | Some groups => Some groups
    | None => match s with
              | "" => None
              | String _ s' => parse_fault_data_pat s'
              end
    end.
Proof. by destruct s. Qed.

Lemma search_skip (d x : string) :
  all no_slash d = true ->
  parse_fault_data_pat (d ++ x) = parse_fault_data_pat x.
Proof.
  induction d as [|c d IH]; [done|]. cbn [all].
  intros [Hc Hd]%andb_prop. rewrite append_cons, search_unfold.
  assert (parse_fault_data_pat_match (String c (d ++ x)) = None) as ->.
  { unfold parse_fault_data_pat_match.
    change (after_prefix "//@fault_data," (String c (d ++ x)))
      with (if Ascii.eqb "/" c then after_prefix "/@fault_data," (d ++ x)
            else None).
    unfold no_slash in Hc. rewrite Ascii.eqb_sym in Hc.
    by destruct (Ascii.eqb "/" c). }
  by apply IH.
Qed.

Lemma search_none (s : string) :
  all no_slash s = true -> parse_fault_data_pat s = None.
Proof.
  intros H. rewrite <- (append_empty s). by rewrite search_skip.
Qed.

Lemma nonempty_cons (s : string) :
  nonempty s = true -> exists c r, s = String c r.
Proof. destruct s; [done|]. by eexists _, _. Qed.

Lemma nonempty_ne (s : string) : nonempty s = true -> s <> "".
Proof. by destruct s. Qed.

(** The annotation is found where it starts. *)
Lemma annotation_match (name digits : string) :
  nonempty name = true -> all no_comma name = true ->
  all is_digit digits = true -> nonempty digits = true ->
  parse_fault_data_pat ("//@fault_data," ++ name ++ "," ++ digits)
  = Some (name, digits).
Proof.
  intros Hn Hc Hd Hdn. rewrite search_unfold.
  unfold parse_fault_data_pat_match. rewrite after_prefix_app.
  cbn [mbind option_bind].
  change (fun c => negb (Ascii.eqb c ",")) with no_comma.
  rewrite span_app; [|done|reflexivity].
  destruct (nonempty_cons _ Hn) as (c & r & ->).
  change (after_prefix "," ("," ++ digits)) with (Some digits).
  cbn [mbind option_bind].
  rewrite <- (append_empty digits) at 1.
  rewrite digits1_app; [done|done|by apply nonempty_ne|done].
Qed.

End FieldFacts.

Import PyText DumpReference TextFacts DumpFileFacts.
Import LwlFile SourceReference WalkFacts SplitFacts JoinFacts.
Import LogfmtSource LogfmtSourceReference LogfmtSourceSamples FieldFacts.

Module LineFacts.

Local Open Scope string_scope.

Section Line.

Variables (fuel : nat) (file_path : string).

(** A line the parser passes over. *)
Lemma parse_line_inert (line : string) (p : parser) :
  LwlSource.truthy (lwl_statement p) = false ->
  inert line = true ->
  parse_line fuel file_path line p
  = io_ret {| error_count := error_count p; base := base p;
              fault_field_offset := fault_field_offset p;
              line_num := line_num p + 1;
              lwl_id_offset := lwl_id_offset p;
              lwl_statement := lwl_statement p;
              fault_data := fault_data p; msg_set := msg_set p |}.
Proof.
  intros Hp Hi. unfold parse_line, inert in *.
  destruct (strip line) as [|c l]; [done|].
  destruct (parse_fault_data_pat (String c l)); [done|].
  destruct (lwl_base_id_pat (String c l)); [done|].
  destruct (detect_lwl_pat (String c l)); [done|].
  rewrite Hp, !io_bind_ret. cbn [fst snd]. by rewrite Hp.
Qed.

(** A line with the annotation of a field. *)
Lemma parse_line_field (decl name digits : string) (p : parser) :
  field_ok (Field decl name digits) = true ->
  parse_line fuel file_path (field_line (Field decl name digits)) p
  = io_ret {| error_count := error_count p; base := base p;
              fault_field_offset := fault_field_offset p + int_dec digits;
              line_num := line_num p + 1;
              lwl_id_offset := lwl_id_offset p;
              lwl_statement := lwl_statement p;
              fault_data :=
                Logfmt.add_fault_field (fault_data p) name
                  (fault_field_offset p) (int_dec digits);
              msg_set := msg_set p |}.
Proof.
  cbn [field_ok field_line]. rewrite !andb_true_iff.
  intros [[[[Hdecl Hn] Hc] Hd] Hdn].
  set (A := "//@fault_data," ++ name ++ "," ++ digits).
  assert (Hs : strip (decl ++ "//@fault_data," ++ name ++ "," ++ digits
                      ++ newline)
               = lstrip decl ++ A).
  { unfold strip.
    change ("//@fault_data," ++ ?t) with (String "/" ("/@fault_data," ++ t)).
    rewrite lstrip_app by done.
    change (String "/" ("/@fault_data," ++ ?t)) with ("//@fault_data," ++ t).
    replace (lstrip decl ++ "//@fault_data," ++ name ++ "," ++ digits
             ++ newline)
      with ((lstrip decl ++ A) ++ newline).
    2:{ unfold A. by rewrite !append_assoc. }
    unfold newline. rewrite rstrip_newline.
    assert (HA : rstrip A = A).
    { unfold A.
      replace ("//@fault_data," ++ name ++ "," ++ digits)
        with (("//@fault_data," ++ name ++ ",") ++ digits).
      2:{ by rewrite !append_assoc. }
      rewrite rstrip_app; rewrite rstrip_no_space; try done;
        try by apply digits_no_space.
      by apply nonempty_ne. }
    rewrite (rstrip_app (lstrip decl) A); [by rewrite HA|].
    rewrite HA. unfold A. by rewrite append_cons. }
  unfold parse_line. rewrite Hs.
  assert (Hf : parse_fault_data_pat (lstrip decl ++ A) = Some (name, digits)).
  { rewrite search_skip by (by apply all_lstrip).
    by apply annotation_match. }
  destruct (lstrip decl ++ A) as [|c l] eqn:E.
  { destruct (lstrip decl); discriminate E. }
  by rewrite Hf.
Qed.

(** The loop over lines of these two kinds. *)
Lemma parse_lines_fields (items : list field_item) : forall p,
  forallb field_ok items = true ->
  LwlSource.truthy (lwl_statement p) = false ->
  exists p',
    parse_lines fuel file_path (map field_line items) p = io_ret p'
    /\ error_count p' = error_count p
    /\ msg_set p' = msg_set p
    /\ fault_data p'
       = add_fields (fault_data p) (laid_out (fault_field_offset p) items).
Proof.
  induction items as [|i items IH]; intros p Hok Hp.
  - by exists p.
  - cbn [forallb] in Hok. apply andb_prop in Hok as [Hi Hok].
    cbn [map parse_lines]. destruct i as [line|decl name digits].
    + rewrite parse_line_inert, io_bind_ret by done.
      match goal with
      | |- context [parse_lines _ _ _ ?q] =>
          destruct (IH q Hok Hp) as (p' & -> & He & Hm & Hf)
      end.
      by exists p'.
    + rewrite parse_line_field, io_bind_ret by done.
      match goal with
      | |- context [parse_lines _ _ _ ?q] =>
          destruct (IH q Hok Hp) as (p' & -> & He & Hm & Hf)
      end.
      by exists p'.
Qed.

End Line.

Lemma fields_add_fields (fs : list Logfmt.FaultField) : forall fd,
  Logfmt.fields (add_fields fd fs) = (Logfmt.fields fd ++ fs)%list.
Proof.
  unfold add_fields. induction fs as [|f fs IH]; intros fd.
  - cbn. by rewrite app_nil_r.
  - cbn [fold_left]. rewrite IH. cbn. destruct f.
    by rewrite <- app_assoc.
Qed.

End LineFacts.

Import LineFacts.

(** Property X29 ([parse_source_file] of logfmt.py).  In a file whose
    lines are fault-data annotations ([//@fault_data,<name>,<bytes>] after
    a declaration) and lines that are neither that, nor a base id, nor the
    start of a statement, each annotation adds one field, in file order,
    after the fields [g_fault_data] already holds.  The first field of the
    file is given offset 0 whatever is there already, and each next one
    the offset where the one before ends.  Nothing is printed, the error
    count is 0 and the message set is left as it is. *)
Theorem fault_fields_laid_out (fuel : nat) (file_path : string)
    (items : list field_item) (fault_data : Logfmt.FaultData)
    (msg_set : Logfmt.LwlMsgSet) :
  forallb field_ok items = true ->
  parse_source_file fuel file_path (map field_line items) fault_data msg_set
  = (Ok (0, (add_fields fault_data (laid_out 0 items), msg_set)), [])
  /\ Logfmt.fields (add_fields fault_data (laid_out 0 items))
     = (Logfmt.fields fault_data ++ laid_out 0 items)%list.
Proof.
  intros Hok. split; [|apply fields_add_fields].
  unfold parse_source_file.
  destruct (parse_lines_fields fuel file_path items
              (parser_init fault_data msg_set) Hok eq_refl)
    as (p' & -> & He & Hm & Hf).
  rewrite io_bind_ret, He, Hm, Hf. reflexivity.
Qed.

(** The theorem above on a structure with two annotated fields, read
    when one field is there already. *)
Lemma fault_fields_laid_out_witness :
  (parse_source_file 0 "fault.h" (map field_line source_fields)
     (Logfmt.add_fault_field LogfmtRest.FaultData_init "lr" 8 4)
     Logfmt.LwlMsgSet_init).1
  = Ok (0,
        ({| Logfmt.fields :=
              [Logfmt.Build_FaultField "lr" 8 4;
               Logfmt.Build_FaultField "magic" 0 4;
               Logfmt.Build_FaultField "pad1" 4 2];
            Logfmt.max_name_len := 5 |},
         Logfmt.LwlMsgSet_init)).
Proof.
  destruct (fault_fields_laid_out 0 "fault.h" source_fields
              (Logfmt.add_fault_field LogfmtRest.FaultData_init "lr" 8 4)
              Logfmt.LwlMsgSet_init) as [-> _]; [reflexivity|].
  reflexivity.
Defined.

Import PyText DumpReference TextFacts DumpFileFacts.
Import LwlFile SourceReference WalkFacts SplitFacts StatementSplit JoinFacts.
Import LogfmtSource LogfmtSourceReference LogfmtSourceSamples.
Import FieldFacts LineFacts.

Module NumberFacts.

Local Open Scope string_scope.

Lemma arg_search_unfold (s : string) :
  parse_arg_pat s
  = match parse_arg_pat_match s with
    | Some r => Some r
    | None => match s with
              | "" => None
              | String _ s' => parse_arg_pat s'
              end
    end.
Proof. by destruct s. Qed.

Lemma arg_search_skip (pre x : string) :
  all no_comma pre = true -> parse_arg_pat (pre ++ x) = parse_arg_pat x.
Proof.
  induction pre as [|c pre IH]; [done|]. cbn [all].
  intros [Hc Hpre]%andb_prop. rewrite append_cons, arg_search_unfold.
  assert (parse_arg_pat_match (String c (pre ++ x)) = None) as ->.
  { unfold parse_arg_pat_match.
    change (after_prefix "," (String c (pre ++ x)))
      with (if Ascii.eqb "," c then Some (pre ++ x) else None).
    unfold no_comma in Hc. rewrite Ascii.eqb_sym in Hc.
    by destruct (Ascii.eqb "," c). }
  by apply IH.
Qed.

Lemma arg_text_app (a : ascii * string) (rest : string) :
  arg_text a ++ rest
  = String "," (String " " ("LWL_" ++ String a.1
                                        (String "(" (a.2 ++ ")" ++ rest)))).
Proof. unfold arg_text. by rewrite !append_assoc. Qed.

Lemma arg_search_arg (a : ascii * string) (rest : string) :
  is_digit a.1 = true ->
  parse_arg_pat (arg_text a ++ rest) = Some (a.1, a.2 ++ ")" ++ rest).
Proof.
  intros Hd. rewrite arg_text_app, arg_search_unfold.
  change (parse_arg_pat_match
            (String "," (String " " ("LWL_" ++ String a.1
                                       (String "(" (a.2 ++ ")" ++ rest))))))
    with (if is_digit a.1 then Some (a.1, a.2 ++ ")" ++ rest) else None).
  by rewrite Hd.
Qed.

(** The loop that collects the argument lengths, on the arguments as
    they are written. *)
Lemma arg_lengths_loop_args (args : list (ascii * string)) :
  forall (fuel : nat) (pre lwl_arg_lengths : string) (check : Z),
  all no_comma pre = true ->
  forallb (fun a => is_digit a.1 && all no_comma a.2) args = true ->
  (length args < fuel)%nat ->
  arg_lengths_loop fuel (pre ++ args_text args ++ ");") lwl_arg_lengths check
  = Ok (lwl_arg_lengths ++ arg_lengths args, (check + arg_sum args)%Z).
Proof.
  induction args as [|a args IH]; intros fuel pre acc check Hpre Hok Hfuel.
  - destruct fuel as [|fuel]; [cbn in Hfuel; lia|].
    cbn [arg_lengths_loop args_text]. rewrite arg_search_skip by done.
    change (parse_arg_pat ("" ++ ");")) with (@None (ascii * string)).
    cbn. by rewrite append_empty, Z.add_0_r.
  - destruct fuel as [|fuel]; [cbn in Hfuel; lia|].
    cbn [forallb] in Hok. apply andb_prop in Hok as [Ha Hok].
    apply andb_prop in Ha as [Hd Hc].
    cbn [arg_lengths_loop args_text]. rewrite arg_search_skip by done.
    rewrite append_assoc, arg_search_arg by done.
    replace (a.2 ++ ")" ++ args_text args ++ ");")
      with ((a.2 ++ ")") ++ args_text args ++ ");")
      by (by rewrite !append_assoc).
    rewrite IH; [|by rewrite all_app, Hc|done|cbn in Hfuel; lia].
    unfold arg_lengths, arg_sum. cbn [map string_of_list_ascii fold_right].
    rewrite append_assoc, append_cons, append_nil. f_equal. f_equal. lia.
Qed.

Lemma lstrip_blank (s : string) : lstrip (String " " s) = lstrip s.
Proof. unfold lstrip. cbn. by destruct (span is_space s). Qed.

Section Text.

Variables (fmt declared : string) (args : list (ascii * string)).
Hypothesis Hfmt : all not_quote fmt = true.
Hypothesis Hdec : all is_digit declared = true.
Hypothesis Hdecne : declared <> "".
Hypothesis Hargs :
  forallb (fun a => is_digit a.1 && all no_comma a.2) args = true.

Local Abbreviation text := (logfmt_text fmt declared args).

Lemma logfmt_text_shape :
  (exists body, text = String "L" body)
  /\ exists front, text = front ++ ");".
Proof using Type.
  unfold logfmt_text. split; [by eexists|].
  exists ("LWL(" ++ quoted fmt ++ ", " ++ declared ++ args_text args).
  by rewrite !append_assoc.
Qed.

Lemma logfmt_text_last_two : last_two text = ");".
Proof using Type.
  destruct logfmt_text_shape as (_ & front & ->).
  by rewrite (last_two_app front ");" ")" ";" "").
Qed.

Lemma logfmt_text_strip : strip (text ++ newline) = text.
Proof using Type.
  destruct logfmt_text_shape as ((body & E) & front & E').
  rewrite E. apply strip_line; [done|]. rewrite <- E, E'.
  by rewrite rstrip_app.
Qed.

Lemma args_stop : stops is_digit (args_text args ++ ");").
Proof using Type.
  clear Hfmt Hdec Hdecne Hargs. destruct args as [|a rest]; [done|].
  cbn [args_text]. rewrite append_assoc, arg_text_app. done.
Qed.

Lemma logfmt_text_fmt :
  parse_fmt_pat text = Some (fmt, ", " ++ declared ++ args_text args ++ ");").
Proof using Hfmt.
  unfold logfmt_text. rewrite quoted_app.
  set (rest := ", " ++ declared ++ args_text args ++ ");").
  change (parse_fmt_pat ("LWL(" ++ String LwlSource.quote ?t))
    with (let r := span not_quote t in
          s ← after_prefix (String LwlSource.quote "") r.2; Some (r.1, s)).
  cbv zeta. rewrite span_app; [|exact Hfmt|reflexivity]. reflexivity.
Qed.

Lemma logfmt_text_declared :
  parse_num_arg_bytes_pat (", " ++ declared ++ args_text args ++ ");")
  = Some (declared, args_text args ++ ");").
Proof using Hdec Hdecne.
  destruct declared as [|c d] eqn:E; [done|].
  assert (Hc : is_space c = false).
  { apply digit_first. cbn in Hdec. by apply andb_prop in Hdec as [-> _]. }
  set (rest := args_text args ++ ");").
  assert (Hr : stops is_digit rest) by apply args_stop.
  change (parse_num_arg_bytes_pat (", " ++ String c d ++ rest))
    with (LwlSource.digits1 (lstrip (String " " (String c (d ++ rest))))).
  rewrite lstrip_blank, lstrip_no_space by done. rewrite <- append_cons.
  by apply digits1_app.
Qed.

(** What [parse_statement] makes of the statement. *)
Lemma logfmt_parse_statement (fuel : nat) (file_path : string)
    (line_num : Z) (base : option (Z * Z)) (lwl_id_offset error_count : Z)
    (msg_set : Logfmt.LwlMsgSet) :
  (length args < fuel)%nat ->
  parse_statement fuel file_path line_num base lwl_id_offset error_count
    msg_set text
  = of_statement
      (Logfmt.parse_source_file_statement
         {| Logfmt.st_file_path := file_path;
            Logfmt.st_line_num := line_num;
            Logfmt.st_lwl_line_num := from_option snd 0%Z base;
            Logfmt.st_lwl_statement := text;
            Logfmt.st_lwl_base_id := fst <$> base;
            Logfmt.st_lwl_id_offset := lwl_id_offset;
            Logfmt.st_lwl_fmt := fmt;
            Logfmt.st_lwl_num_arg_bytes := int_dec declared;
            Logfmt.st_lwl_arg_lengths := arg_lengths args;
            Logfmt.st_num_arg_bytes_check := arg_sum args |}
         error_count msg_set).
Proof using Hfmt Hdec Hdecne Hargs.
  intros Hfuel. unfold parse_statement.
  rewrite logfmt_text_fmt, logfmt_text_declared.
  rewrite <- (append_nil (args_text args ++ ");")).
  rewrite arg_lengths_loop_args by done.
  rewrite io_bind_lift_ok. cbn [fst snd]. by rewrite append_nil.
Qed.

End Text.

End NumberFacts.

Import PyText DumpReference TextFacts DumpFileFacts.
Import LwlFile SourceReference WalkFacts SplitFacts StatementSplit JoinFacts.
Import LogfmtSource LogfmtSourceReference LogfmtSourceSamples.
Import FieldFacts LineFacts NumberFacts.

Module NumberedFacts.

Local Open Scope string_scope.

Section Line.

Variables (fuel : nat) (file_path : string).

(** The loop body on the line of a statement, no statement pending. *)
Lemma parse_line_good (fmt declared : string) (args : list (ascii * string))
    (p : parser) :
  statement_ok fuel (Good fmt declared args) = true ->
  LwlSource.truthy (lwl_statement p) = false ->
  parse_line fuel file_path (logfmt_text fmt declared args ++ newline) p
  = letp r :=
      of_statement
        (Logfmt.parse_source_file_statement
           {| Logfmt.st_file_path := file_path;
              Logfmt.st_line_num := line_num p + 1;
              Logfmt.st_lwl_line_num := from_option snd 0%Z (base p);
              Logfmt.st_lwl_statement := logfmt_text fmt declared args;
              Logfmt.st_lwl_base_id := fst <$> base p;
              Logfmt.st_lwl_id_offset := lwl_id_offset p + 1;
              Logfmt.st_lwl_fmt := fmt;
              Logfmt.st_lwl_num_arg_bytes := int_dec declared;
              Logfmt.st_lwl_arg_lengths := arg_lengths args;
              Logfmt.st_num_arg_bytes_check := arg_sum args |}
           (error_count p) (msg_set p)) in
    io_ret {| error_count := r.1; base := base p;
              fault_field_offset := fault_field_offset p;
              line_num := line_num p + 1;
              lwl_id_offset := lwl_id_offset p + 1;
              lwl_statement := None;
              fault_data := fault_data p; msg_set := r.2 |}.
Proof.
  cbn [statement_ok]. rewrite !andb_true_iff.
  intros [[[[[Hfmt Hdec] Hdn] Hargs] Hfd] Hfuel] Hp.
  apply Nat.ltb_lt in Hfuel. apply nonempty_ne in Hdn.
  set (text := logfmt_text fmt declared args) in *.
  destruct (parse_fault_data_pat text) eqn:Hf; [done|].
  assert (Hs : strip (text ++ newline) = text) by apply logfmt_text_strip.
  unfold parse_line. rewrite Hs.
  destruct (logfmt_text_shape fmt declared args) as ((body & E) & _).
  fold text in E.
  assert (Hm : forall (A : Type) (a b : A),
             match text with "" => a | String _ _ => b end = b).
  { intros A a b. by rewrite E. }
  assert (Ht : LwlSource.truthy (Some text) = true) by (by rewrite E).
  assert (Hb : lwl_base_id_pat text = None) by (by rewrite E).
  assert (Hd : detect_lwl_pat text = true) by reflexivity.
  assert (Hl : last_two text = ");") by apply logfmt_text_last_two.
  rewrite Hm, Hf, Hb, Hp, Hd, Hl, io_bind_ret.
  change (String.eqb ");" ");") with true. cbn [negb andb].
  rewrite io_bind_ret. cbn [fst snd]. rewrite Ht.
  cbn [negb orb default]. unfold Datatypes.id. rewrite Hl.
  change (String.eqb ");" ");") with true. cbn [negb].
  unfold text. by rewrite logfmt_parse_statement.
Qed.

(** The loop body on a statement whose format cannot be read. *)
Lemma parse_line_bad (junk : string) (p : parser) :
  statement_ok fuel (Bad junk) = true ->
  LwlSource.truthy (lwl_statement p) = false ->
  parse_line fuel file_path (bad_text junk ++ newline) p
  = (print (PErrParseFmt file_path (line_num p + 1) (bad_text junk)) ;;
     io_ret {| error_count := error_count p + 1; base := base p;
               fault_field_offset := fault_field_offset p;
               line_num := line_num p + 1;
               lwl_id_offset := lwl_id_offset p + 1;
               lwl_statement := None;
               fault_data := fault_data p; msg_set := msg_set p |}).
Proof.
  cbn [statement_ok]. rewrite !andb_true_iff. intros [Hfmt Hfd] Hp.
  set (text := bad_text junk) in *.
  destruct (parse_fmt_pat text) eqn:Hpf; [done|].
  destruct (parse_fault_data_pat text) eqn:Hf; [done|].
  assert (E : text = String "L" ("WL(" ++ junk ++ ");")) by reflexivity.
  assert (E' : text = ("LWL(" ++ junk) ++ ");").
  { unfold text, bad_text. by rewrite !append_assoc. }
  assert (Hs : strip (text ++ newline) = text).
  { assert (Hr : rstrip text = text) by (rewrite E'; by rewrite rstrip_app).
    rewrite E in *. by apply strip_line. }
  assert (Hm : forall (A : Type) (a b : A),
             match text with "" => a | String _ _ => b end = b).
  { intros A a b. by rewrite E. }
  assert (Ht : LwlSource.truthy (Some text) = true) by (by rewrite E).
  assert (Hb : lwl_base_id_pat text = None) by (by rewrite E).
  assert (Hd : detect_lwl_pat text = true) by reflexivity.
  assert (Hl : last_two text = ");").
  { rewrite E'. by rewrite (last_two_app _ ");" ")" ";" ""). }
  unfold parse_line. rewrite Hs.
  rewrite Hm, Hf, Hb, Hp, Hd, Hl, io_bind_ret.
  change (String.eqb ");" ");") with true. cbn [negb andb].
  rewrite io_bind_ret. cbn [fst snd]. rewrite Ht.
  cbn [negb orb default]. unfold Datatypes.id. rewrite Hl.
  change (String.eqb ");" ");") with true. cbn [negb].
  unfold parse_statement. rewrite Hpf. reflexivity.
Qed.

(** The loop body on a [LWL_BASE_ID] line, no statement pending. *)
Lemma logfmt_parse_line_define (bid : string) (p : parser) :
  all is_digit bid = true -> bid <> "" ->
  LwlSource.truthy (lwl_statement p) = false ->
  parse_line fuel file_path (define_line bid) p
  = ((if (int_dec bid =? 0)%Z
      then print (PErrBaseId file_path (line_num p + 1) (int_dec bid))
      else io_ret tt) ;;
     io_ret {| error_count := error_count p;
               base := Some (int_dec bid, line_num p + 1);
               fault_field_offset := fault_field_offset p;
               line_num := line_num p + 1;
               lwl_id_offset := lwl_id_offset p;
               lwl_statement := lwl_statement p;
               fault_data := fault_data p; msg_set := msg_set p |}).
Proof.
  intros Hd Hne Hp. unfold parse_line. rewrite define_strip by done.
  change ("#define LWL_BASE_ID " ++ bid)
    with (String "#" ("define LWL_BASE_ID " ++ bid)) at 1.
  cbv iota.
  assert (Hf : parse_fault_data_pat ("#define LWL_BASE_ID " ++ bid) = None).
  { apply search_none. rewrite all_app. apply andb_true_intro.
    split; [reflexivity|].
    clear -Hd. induction bid as [|c b IH]; [done|]. cbn in *.
    apply andb_prop in Hd as [Hc Hb]. rewrite IH by done.
    rewrite andb_true_r. by destruct c as [[] [] [] [] [] [] [] []]. }
  rewrite Hf. unfold lwl_base_id_pat. rewrite define_bid, Hp by done.
  change (detect_lwl_pat ("#define LWL_BASE_ID " ++ bid)) with false.
  cbv iota. rewrite io_bind_assoc.
  destruct (int_dec bid =? 0)%Z; cbn; rewrite Hp; reflexivity.
Qed.

(** The loop over statements and lines passed over. *)
Lemma parse_lines_numbered (items : list statement_item) :
  forall (p : parser) (b : Z * Z),
  forallb (statement_ok fuel) items = true ->
  LwlSource.truthy (lwl_statement p) = false ->
  base p = Some b ->
  (letp p' := parse_lines fuel file_path (map statement_line items) p in
   io_ret (error_count p', (fault_data p', msg_set p')))
  = letp r := numbered file_path b (lwl_id_offset p + 1) (line_num p + 1)
                items (error_count p) (msg_set p) in
    io_ret (r.1, (fault_data p, r.2)).
Proof.
  induction items as [|i items IH]; intros p b Hok Hp Hb.
  - cbn [map parse_lines numbered]. by rewrite !io_bind_ret.
  - cbn [forallb] in Hok. apply andb_prop in Hok as [Hi Hok].
    destruct i as [line|fmt declared args|junk];
      cbn [map parse_lines numbered statement_line].
    + rewrite parse_line_inert, io_bind_ret by done.
      match goal with
      | |- context [parse_lines _ _ _ ?q] => rewrite (IH q b Hok Hp Hb)
      end.
      reflexivity.
    + rewrite parse_line_good by done. rewrite !io_bind_assoc.
      rewrite Hb. cbn [from_option fmap option_fmap option_map].
      apply io_bind_ext. intros r. rewrite io_bind_ret.
      match goal with
      | |- context [parse_lines _ _ _ ?q] =>
          rewrite (IH q b Hok eq_refl eq_refl)
      end.
      reflexivity.
    + rewrite parse_line_bad by done. rewrite !io_bind_assoc.
      apply io_bind_ext. intros _. rewrite io_bind_ret.
      match goal with
      | |- context [parse_lines _ _ _ ?q] =>
          rewrite (IH q b Hok eq_refl Hb)
      end.
      reflexivity.
Qed.

End Line.

End NumberedFacts.

Import NumberedFacts.

(** Property X30 ([parse_source_file] of logfmt.py).  After a
    [LWL_BASE_ID] line, one-line statements
    [LWL(<fmt>, <bytes>, LWL_<d>(<arg>), ...);] are checked and added
    under the ids base, base + 1, ... in file order: the offset of a
    statement is its position among the complete statements of the file,
    and a statement whose format cannot be read uses up its position (one
    error, no message).  The argument lengths stored are the digits [d],
    the byte count checked against [<bytes>] is their sum, and every
    message is stored with the line number of the [LWL_BASE_ID] line.
    The fault data is left as it is. *)
Theorem statements_numbered (fuel : nat) (file_path bid : string)
    (items : list statement_item) (fault_data : Logfmt.FaultData)
    (msg_set : Logfmt.LwlMsgSet) :
  all is_digit bid = true -> bid <> ""%string ->
  forallb (statement_ok fuel) items = true ->
  parse_source_file fuel file_path
    (define_line bid :: map statement_line items) fault_data msg_set
  = ((if int_dec bid =? 0
      then print (PErrBaseId file_path 1 (int_dec bid))
      else io_ret tt) ;;
     letp r := numbered file_path (int_dec bid, 1) 0 2 items 0 msg_set in
     io_ret (r.1, (fault_data, r.2))).
Proof.
  intros Hd Hne Hok. unfold parse_source_file. cbn [parse_lines].
  rewrite logfmt_parse_line_define by done.
  rewrite !io_bind_assoc. apply io_bind_ext. intros _.
  rewrite io_bind_ret.
  match goal with
  | |- context [parse_lines _ _ _ ?q] =>
      rewrite (parse_lines_numbered fuel file_path items q
                 (int_dec bid, 1) Hok eq_refl eq_refl)
  end.
  reflexivity.
Qed.

(** The theorem above on three statements, the second without a
    format: the third is added under base + 2. *)
Lemma statements_numbered_witness :
  let r := parse_source_file 3 "m.c"
             (define_line "10" :: map statement_line source_statements)
             LogfmtRest.FaultData_init Logfmt.LwlMsgSet_init in
  r.2 = [PErrParseFmt "m.c" 4 (bad_text "boot, 0")]
  /\ exists msg_set,
       r.1 = Ok (1, (LogfmtRest.FaultData_init, msg_set))
       /\ Logfmt.arg_bytes <$> Logfmt.lwl_msgs msg_set !! 12 = Some "12"%string
       /\ Logfmt.lwl_msgs msg_set !! 11 = None.
Proof.
  cbv zeta.
  rewrite (statements_numbered 3 "m.c" "10" source_statements
             LogfmtRest.FaultData_init Logfmt.LwlMsgSet_init);
    [|reflexivity|done|reflexivity].
  split; [vm_compute; reflexivity|].
  eexists. split; [vm_compute; reflexivity|].
  split; vm_compute; reflexivity.
Defined.
